(* ===== verification/_CoqProject ===== *)
-Q . S2P
Prelude.v
Control.v
Memory.v
KState.v
Boot.v
Spinlock.v
Format.v
Sched.v
Selection.v
Pass.v
Kalloc.v
Vm.v
Sleeplock.v
Disk.v
Bio.v
Log.v
Inode.v
Console.v
Fs.v
Pipe.v
File.v
Proc.v
Trap.v
Syscall.v
SysProc.v
Exec.v
SysFile.v
Agent.v
Frame.v
Safety.v
Reach.v
Handoff.v
Timer.v
Calls.v
Fifo.v
Create.v
Layout.v
Args.v
Paging.v
Cache.v
Crash.v
Report.v
Segments.v
Main.v
Booted.v
Mkfs.v
Image.v
Built.v
Readback.v
Namei.v
Mounted.v
Sectors.v
Keyboard.v
Terminal.v
Bootload.v
Mp.v
Device.v
Apic.v
Screen.v
Grep.v
Shell.v
ShellPrint.v
ShellRun.v
Umalloc.v
Posix.v
Programs.v
Utilities.v
SchedTools.v
Tests.v
Instances.v
InstancesFs.v
InstancesSys.v
InstancesDev.v
InstancesUser.v
