(* ===== verification/Prelude.v ===== *)
(** * xv6-64 with an MLFQ+SJF scheduler and a user-space scheduling agent

    A verification of the kernel, of the programs that build and boot it and of
    the user programs around it.  The root file holds the machine integers,
    record update and the automation that all the others share; this comment
    describes the whole.

    ** The program

    A 64-bit xv6: processes with signals and alarms, four-level page tables,
    a logging file system over a buffer cache, pipes, a console.  proc.c adds
    a multi-level feedback queue with shortest-job-first selection inside a
    queue, aging and boosting; trap.c charges the running process at every
    timer tick and keeps exponential burst averages; sysproc.c offers
    [getschedstats], [setschedparam] and [register_agent], through which one
    registered user program, sagent.c, tunes the parameters from telemetry.
    mkfs.c writes the file system on the build machine, bootmain.c loads the
    kernel, main.c starts it.  User space is the shell (sh.c), an allocator
    (umalloc.c), grep.c, the programs that configure, attack and measure the
    scheduler, and other small programs.

    The parts interact through one shared state.  A trap enters the kernel
    (trap.c), which may run a system call (syscall.c, sysproc.c, sysfile.c),
    a device interrupt or the timer; every blocking operation ends in [sleep]
    and [sched] (proc.c), and the per-CPU scheduler picks who runs next.  File
    system calls go through fs.c to the log (log.c), the buffer cache (bio.c)
    and one of two disk drivers (ide.c, memide.c); user memory is reached
    through the page tables of vm.c, whose pages come from kalloc.c.  The
    keyboard (kbd.c), the serial port (uart.c) and the text screen are the
    console's devices; ioapic.c and lapic.c route the interrupts of the
    processors that mp.c finds.

    ** The model

    - Control.v: kernel code as a state monad.  A run returns, panics, leaves
      for good, or gives up the processor; what the other parties do at each
      switch point is an argument of the run (a list of state transformers),
      so theorems that quantify over it hold for every interleaving at switch
      points.  Its program logic ([spec], [preserves], [runs]) is what the
      invariants and the total-correctness theorems are proved with.
    - KState.v: the structs and global variables (proc.h, buf.h, file.h,
      fs.h, ...); Memory.v: byte memory and string.c; Format.v: printf.c, the
      number printing of console.c and [atoi].
    - Spinlock.v, Sleeplock.v, Sched.v, Proc.v, Trap.v, Syscall.v, SysProc.v,
      SysFile.v, Exec.v, Kalloc.v, Vm.v, Disk.v, Bio.v, Log.v, Inode.v, Fs.v,
      Console.v, Pipe.v, File.v: one file per source file (fs.c is split into
      Inode.v and Fs.v; the scheduler half of proc.c is Sched.v).  Definitions
      keep the names of the functions they translate and their guards, panics
      and order of state changes.  The disk driver is an interface,
      [DiskDriver], with the instances [Ide.driver] and [MemIde.driver].
      Segments.v has the descriptors and registers of vm.c's [seginit] and
      [syscallinit], Report.v the call stacks of spinlock.c and what [panic]
      prints.
    - Bootload.v: bootmain.c.  Mp.v: mp.c.  Main.v: main.c, the sequence of
      initialisations up to the scheduler.
    - Device.v: a machine with ports and registers ([Machine]) and what its
      serial port, text screen and memory promise ([Serial], [Crt], [Ram]).
      Over it Apic.v models ioapic.c and lapic.c (with [IoapicDevice] and [Rtc])
      and Screen.v uart.c and console.c's [cgaputc] and [consputc].
      Keyboard.v: kbd.c and kbd.h.
    - Mkfs.v: mkfs.c, over the files of the build machine.
    - Agent.v: sagent.c.  Shell.v, ShellPrint.v, ShellRun.v: sh.c (parser,
      printer for the round trip, runner and command loop).  Umalloc.v:
      umalloc.c.  Grep.v: grep.c's matcher and line loop.
    - Posix.v: the system calls as user programs see them ([Os]) and the
      contract of those on files ([Files]).  Over it Programs.v: cat, wc, echo,
      ln, mkdir, rm, kill, init, ls, zombie and grep's [main]; SchedTools.v:
      the programs on the scheduler's calls ([SchedOs], [SchedCalls]) and the
      benchmarks; Tests.v: forktest ([Procs]), stressfs and the alarm tests.
    - Boot.v: a concrete machine; Instances.v, InstancesFs.v, InstancesSys.v,
      InstancesDev.v and InstancesUser.v: the theorems with hypotheses applied
      to concrete states, machines, images and worlds.

    C integers are [Z] with their wrap-around written out ([u32], [i32], ...).
    Pointers into the kernel's static tables are indices; pointers into user
    memory, page tables and the heap are addresses.

    ** The theorems

    - Scheduling.  Selection.v, Pass.v: a pass of the scheduler dispatches the
      process its rules name, in the state the code leaves; round robin
      starves nobody.  Frame.v, Safety.v, Reach.v: for the whole kernel as a
      transition system (system calls, traps, scheduler passes, in any order
      and interleaving) the parameters and the process table stay in range and
      no division by zero or index out of range can occur in a pass.  Frame.v
      shows once for every operation below the scheduler that it keeps every
      scheduling invariant.  Trap.v, Timer.v: charging, demotion, the burst
      averages, alarms and preemption of the timer interrupt.  Handoff.v:
      the exact states in which [sleep], [yield] and [sched] give up the
      processor, and that no wakeup is lost.  Calls.v, Create.v, Args.v: the
      system calls on every branch, and which arguments their checks accept.
      Agent.v: what the agent can submit.  SchedTools.v: the kernel's handlers
      perform the steps of the contract of the scheduler's calls, and under it
      the configuration programs switch the mode and back while the attacks
      change nothing.
    - Starting.  Bootload.v: the loader copies the kernel's image to where its
      header says.  Mp.v: the processors and controllers of the
      multiprocessor tables are found.  Booted.v: from a machine just switched
      on [main] reaches the scheduler with one process ready, its program and
      the kernel mapped, the segments in place and all other pages free; the
      first pass dispatches it, and every reachable state satisfies the
      invariant of Reach.v.
    - Memory.  Kalloc.v: the free list is a stack of pages.  Paging.v:
      [walkpgdir] finds the entry the hardware uses, and [mappages] maps one
      page and no other.  Segments.v: the processor finds in the descriptor
      table the segments system calls use.  Umalloc.v: the allocator under
      every sequence of calls of a client that frees what it was given.
    - Files.  Fifo.v: a pipe is a queue of bytes across every wrap of its
      counters.  Layout.v: on-disk inodes, bitmap and path elements.
      Cache.v, Crash.v: what [bread], [bwrite] and [brelse] do to blocks, and
      on top of it crash safety: an operation is atomic under a power failure
      at any disk transfer, recovery included, and recovery can be repeated.
      Image.v, Built.v: the image mkfs writes has the structure of a file
      system holding the given files; Sectors.v: all of it typed as bytes.
      Readback.v, Namei.v, Mounted.v: the kernel finds each of the files in
      that image by its path and reads back its contents.
    - Devices.  Keyboard.v, Terminal.v: keys become characters, and a line
      typed is the line [consoleread] returns.  Screen.v: what is written
      appears on the serial line and on the screen.  Apic.v: interrupts are
      routed as asked, and the clock's date is read.
    - User space.  Shell.v, ShellPrint.v: the parser ends on every line, cuts
      the line into exactly its words, and reads back every command it can be
      shown.  ShellRun.v: running a line starts the programs it means with
      the descriptors it means.  Grep.v: the matcher decides the language of
      the regular expression, and the line loop prints what a line-by-line
      specification says.  Utilities.v: cat, wc, grep and echo on every way the
      system splits their reads.  Tests.v: forktest finds the process limit.

    ** Bounds and fuel

    Loops over tables and counters recurse over the range the code scans.
    Loops that wait recurse over the interference: each round gives up the
    processor once ([loop]).  [readi] and [writei] get a round per block and
    two more, [rounds]; mkfs's [iappend] a round per block and one.  The
    shell's parser gets four steps per character and eight, proved enough by
    [parsecmd_returns].  [malloc] and [free] walk the circular list; two rounds
    over its nodes and a constant are enough ([allocator_safe]), and the list
    has at most one block per call.  grep's loop over lines gets a step per
    byte of its buffer.  The loader's [readseg] gets a round per sector and
    one, [mp_entries] one per eight bytes of the table, which no entry is
    shorter than.  Loops that poll a device or read a file to its end have no
    bound of their own: their fuel is an argument, and the theorems say how
    much is enough (a round per byte of the input for cat, wc and grep, one
    stable reading for [cmostime]).  The table sizes are those of param.h.

    The crash theorems are about one operation at a time on memide.c, with
    writes of whole blocks that happen at once; power fails between
    transfers.  They do not cover the disk controller's own cache or torn
    blocks.  The theorem on [main] is about a machine with one processor.

    ** Not modelled

    Assembly (entry code, [swtch], trap vectors): its effect is the trap frame,
    the context switch and the initial state the definitions start from.
    Registers the model does not keep (descriptor tables, model specific
    registers) are returned as values by the functions that load them.  The
    kernel's operations and the drivers' run over two state types, the kernel
    state and the machine of Device.v: in the kernel's, output is the sequence
    of characters and input is an argument of the trap, and [main] leaves out
    the initialisations that touch devices alone.  usertests.c, a regression
    suite, and the host scripts are left out.  Memory ordering between CPUs is
    sequentially consistent.  User programs run between system calls without
    touching kernel state; the data they keep in allocated blocks is not part
    of Umalloc.v. *)

From Stdlib Require Export ZArith Lia.
From stdpp Require Export base tactics numbers option strings gmap list prelude.

#[export] Set Default Goal Selector "!".
#[global] Open Scope Z_scope.

(** * Machine integers

    C integers are mathematical integers kept in range by an explicit wrap:
    [u8], [u16], [u32], [u64] for the unsigned widths of types.h and [i16],
    [i32] for [short] and [int].  Signed arithmetic wraps, which is what the
    compiler emits for this code at -O0.  C's [/] and [%] truncate towards
    zero, so they are [Z.quot] and [Z.rem]. *)

Definition u8 (z : Z) : Z := z mod 2 ^ 8.
Definition u16 (z : Z) : Z := z mod 2 ^ 16.
Definition u32 (z : Z) : Z := z mod 2 ^ 32.
Definition u64 (z : Z) : Z := z mod 2 ^ 64.
Definition i16 (z : Z) : Z := (z + 2 ^ 15) mod 2 ^ 16 - 2 ^ 15.
Definition i32 (z : Z) : Z := (z + 2 ^ 31) mod 2 ^ 32 - 2 ^ 31.

#[global] Arguments u8 : simpl never.
#[global] Arguments u16 : simpl never.
#[global] Arguments u32 : simpl never.
#[global] Arguments u64 : simpl never.
#[global] Arguments i16 : simpl never.
#[global] Arguments i32 : simpl never.

Definition i32_range (z : Z) : Prop := - 2 ^ 31 <= z < 2 ^ 31.
Definition u32_range (z : Z) : Prop := 0 <= z < 2 ^ 32.
Definition u64_range (z : Z) : Prop := 0 <= z < 2 ^ 64.

(** C truth values. *)
Definition b2z (b : bool) : Z := if b then 1 else 0.
Definition z2b (z : Z) : bool := negb (z =? 0).

Lemma i32_id z : i32_range z -> i32 z = z.
Proof. unfold i32, i32_range. intros H. rewrite Z.mod_small; lia. Qed.

Lemma u32_id z : u32_range z -> u32 z = z.
Proof. unfold u32, u32_range. intros H. apply Z.mod_small; lia. Qed.

Lemma u64_id z : u64_range z -> u64 z = z.
Proof. unfold u64, u64_range. intros H. apply Z.mod_small; lia. Qed.

Lemma i32_bounds z : i32_range (i32 z).
Proof.
  unfold i32, i32_range.
  pose proof (Z.mod_pos_bound (z + 2 ^ 31) (2 ^ 32)). lia.
Qed.

Lemma u32_bounds z : u32_range (u32 z).
Proof. unfold u32, u32_range. apply Z.mod_pos_bound. lia. Qed.

Lemma u64_bounds z : u64_range (u64 z).
Proof. unfold u64, u64_range. apply Z.mod_pos_bound. lia. Qed.

(** Truncating division: the two facts the scheduler's arithmetic needs. *)
Lemma quot_bounds a b c :
  0 < c -> a * c <= b < (a + 1) * c -> 0 <= b -> Z.quot b c = a.
Proof. intros ???. rewrite Z.quot_div_nonneg by lia. symmetry.
  apply (Z.div_unique b c a (b - a * c)); lia. Qed.

Lemma quot_mono a b c : 0 < c -> a <= b -> Z.quot a c <= Z.quot b c.
Proof. intros. apply Z.quot_le_mono; lia. Qed.

Lemma quot_nonneg a c : 0 < c -> 0 <= a -> 0 <= Z.quot a c.
Proof. intros. apply Z.quot_pos; lia. Qed.

Lemma quot_le_self a c : 0 < c -> 0 <= a -> Z.quot a c <= a.
Proof.
  intros. rewrite Z.quot_div_nonneg by lia.
  apply Z.div_le_upper_bound; nia.
Qed.

(** Arithmetic with constant divisors; in files that load [ZifyNat], on [nat]
    as on [Z]. *)
Ltac divisions := zify; Z.to_euclidean_division_equations; lia.

(** * Record update

    [r <| f := v |>] is [r] with field [f] set, [r <| f ::= g |>] with [g]
    applied to it.  A record gives its eta expansion once ([Eta]); the setter
    of a field is computed from it when a notation is elaborated. *)

Class Eta (R : Type) := eta : R -> R.
Class Setter {R T : Type} (p : R -> T) := setter : (T -> T) -> R -> R.
#[global] Arguments setter {R T} p {_} _ _ /.

Ltac make_setter :=
  lazymatch goal with
  | |- @Setter ?R ?T ?p =>
      let inst := constr:(_ : Eta R) in
      let f := constr:(fun r : R =>
        ltac:(let b := eval cbv [eta] in (@eta R inst r) in
              let h := eval hnf in inst in
              let b' := eval cbv beta in (h r) in
              let q := eval pattern (p r) in b' in
              lazymatch q with
              | ?g _ => exact g
              end)) in
      let s := eval cbv beta in (fun (u : T -> T) (r : R) => f r (u (p r))) in
      exact s
  end.

#[export] Hint Extern 0 (Setter _) => make_setter : typeclass_instances.

Declare Scope record_scope.
Delimit Scope record_scope with rec.
#[global] Open Scope record_scope.
Notation "r <| p := v |>" := (setter p (fun _ => v) r)
  (at level 12, left associativity, p at next level, v at level 200,
   format "r  <| p  :=  v |>") : record_scope.
Notation "r <| p ::= f |>" := (setter p f r)
  (at level 12, left associativity, p at next level, f at level 200,
   format "r  <| p  ::=  f |>") : record_scope.
