(* ===== verification/Control.v ===== *)
(** Control flow of the kernel: the outcome of running kernel code, the state
    monad the operations are written in, and the program logic the invariants
    are proved with.

    Kernel code runs over a state [S].  Besides returning, it can call
    [panic], it can leave for good ([exit] enters the scheduler and never
    comes back), and it can be switched out: at [swtch] and while spinning on
    a lock, other processes and CPUs run.  What they do is an argument of the
    run, a list of state transformers ([interference]); each switch point
    consumes one.  When the list is used up the run stops with [Blocked] in
    the state of that switch point, so running with the empty list gives the
    state in which the code first gives up the processor, and every theorem
    that quantifies over the list holds for all interleavings of the other
    parties at the switch points. *)

From S2P Require Import Prelude.

Inductive outcome (S A : Type) : Type :=
| Ok (a : A) (s : S) (w : list (S -> S))
| Panic (msg : string) (s : S)
| Blocked (s : S)
| NoReturn (s : S).
#[global] Arguments Ok {S A} a s w.
#[global] Arguments Panic {S A} msg s.
#[global] Arguments Blocked {S A} s.
#[global] Arguments NoReturn {S A} s.

Definition M (S A : Type) : Type := S -> list (S -> S) -> outcome S A.

#[export] Instance M_ret {S} : MRet (M S) := fun A a s w => Ok a s w.
#[export] Instance M_bind {S} : MBind (M S) := fun A B f m s w =>
  match m s w with
  | Ok a s' w' => f a s' w'
  | Panic msg s' => Panic msg s'
  | Blocked s' => Blocked s'
  | NoReturn s' => NoReturn s'
  end.

Section Primitives.
Context {S : Type}.

Definition get : M S S := fun s w => Ok s s w.
Definition gets {A} (f : S -> A) : M S A := fun s w => Ok (f s) s w.
Definition modify (f : S -> S) : M S unit := fun s w => Ok tt (f s) w.
Definition panic {A} (msg : string) : M S A := fun s _ => Panic msg s.
Definition no_return {A} : M S A := fun s _ => NoReturn s.

(** A switch point: whoever runs next transforms the state once. *)
Definition interfere : M S unit := fun s w =>
  match w with
  | [] => Blocked s
  | e :: w' => Ok tt (e s) w'
  end.

Definition when (b : bool) (m : M S unit) : M S unit := if b then m else mret tt.

Fixpoint for_each {A} (l : list A) (f : A -> M S unit) : M S unit :=
  match l with
  | [] => mret tt
  | a :: l' => f a ;; for_each l' f
  end.

(** [for] loops that can [return]: the body gives [Some r] to leave with [r]. *)
Fixpoint for_find {A R} (l : list A) (f : A -> M S (option R)) : M S (option R) :=
  match l with
  | [] => mret None
  | a :: l' =>
      r ← f a;
      match r with
      | Some x => mret (Some x)
      | None => for_find l' f
      end
  end.

(** [while (test) sleep]: each failed test is a switch point, so the loop
    recurses over the interference. *)
Fixpoint wait_while (test : S -> bool) (s : S) (w : list (S -> S)) : outcome S unit :=
  if test s then
    match w with
    | [] => Blocked s
    | e :: w' => wait_while test (e s) w'
    end
  else Ok tt s w.

(** A loop whose body either leaves with [Some r] or goes round again after
    giving up the processor.  Every round consumes interference, so as many
    rounds as there is interference, and one, are enough ([loop_eq]). *)
Fixpoint loop_n {R} (n : nat) (body : M S (option R)) : M S R :=
  match n with
  | O => fun s _ => Blocked s
  | Datatypes.S n' =>
      r ← body;
      match r with
      | Some x => mret x
      | None => loop_n n' body
      end
  end.
Definition loop {R} (body : M S (option R)) : M S R :=
  fun s w => loop_n (1 + length w) body s w.
End Primitives.

(** * Program logic

    [spec I P m Q E]: from a state satisfying [P], with interference that
    preserves [I] at every switch point, [m] returns in [Q], panics in [E],
    and gives up the processor only in states satisfying [I]. *)

Section Logic.
Context {S : Type}.
Implicit Types (I P : S -> Prop) (E : string -> S -> Prop).

Definition env_ok I (w : list (S -> S)) : Prop :=
  Forall (fun e => forall s, I s -> I (e s)) w.

Definition sat {A} I (Q : A -> S -> Prop) E (o : outcome S A) : Prop :=
  match o with
  | Ok a s w => Q a s /\ env_ok I w
  | Panic msg s => E msg s
  | Blocked s => I s
  | NoReturn s => I s
  end.

Definition spec {A} I P (m : M S A) (Q : A -> S -> Prop) E : Prop :=
  forall s w, P s -> env_ok I w -> sat I Q E (m s w).

(** An invariant: kept on return and at every switch point; panics allowed. *)
Definition preserves {A} I (m : M S A) : Prop :=
  spec I I m (fun _ => I) (fun _ _ => True).

Lemma sat_mono {A} I (Q Q' : A -> S -> Prop) E E' o :
  (forall a s, Q a s -> Q' a s) -> (forall msg s, E msg s -> E' msg s) ->
  sat I Q E o -> sat I Q' E' o.
Proof. destruct o; cbn; intuition. Qed.

Lemma spec_conseq {A} I P P' (m : M S A) (Q Q' : A -> S -> Prop) E E' :
  spec I P m Q E -> (forall s, P' s -> P s) ->
  (forall a s, Q a s -> Q' a s) -> (forall msg s, E msg s -> E' msg s) ->
  spec I P' m Q' E'.
Proof. intros Hm HP HQ HE s w Hs Hw. eapply sat_mono; [..|apply Hm]; eauto. Qed.

Lemma spec_ret {A} I (a : A) (Q : A -> S -> Prop) E : spec I (Q a) (mret a) Q E.
Proof. intros s w Hs Hw. by split. Qed.

Lemma spec_bind {A B} I P (m : M S A) (f : A -> M S B) R Q E :
  spec I P m R E -> (forall a, spec I (R a) (f a) Q E) -> spec I P (m ≫= f) Q E.
Proof.
  intros Hm Hf s w Hs Hw. unfold mbind, M_bind. specialize (Hm s w Hs Hw).
  destruct (m s w) as [a s' w'|msg s'|s'|s']; cbn in *; try done.
  destruct Hm as [HR Hw']. by apply Hf.
Qed.

Lemma spec_get I P (Q : S -> S -> Prop) E :
  (forall s, P s -> Q s s) -> spec I P get Q E.
Proof. intros H s w Hs Hw. split; eauto. Qed.

Lemma spec_gets {A} I P (f : S -> A) (Q : A -> S -> Prop) E :
  (forall s, P s -> Q (f s) s) -> spec I P (gets f) Q E.
Proof. intros H s w Hs Hw. split; eauto. Qed.

Lemma spec_modify I P f (Q : unit -> S -> Prop) E :
  (forall s, P s -> Q tt (f s)) -> spec I P (modify f) Q E.
Proof. intros H s w Hs Hw. split; eauto. Qed.

Lemma spec_panic {A} I P msg (Q : A -> S -> Prop) E :
  (forall s, P s -> E msg s) -> spec I P (panic msg) Q E.
Proof. intros H s w Hs Hw. cbn. eauto. Qed.

Lemma spec_no_return {A} I P (Q : A -> S -> Prop) E :
  (forall s, P s -> I s) -> spec I P no_return Q E.
Proof. intros H s w Hs Hw. cbn. eauto. Qed.

Lemma spec_interfere I P (Q : unit -> S -> Prop) E :
  (forall s, P s -> I s) -> (forall s, I s -> Q tt s) -> spec I P interfere Q E.
Proof.
  intros HP HQ s w Hs Hw. unfold interfere. destruct Hw as [|e w' He Hw']; cbn; eauto.
Qed.

Lemma spec_wait_while I P test (Q : unit -> S -> Prop) E :
  (forall s, P s -> I s) -> (forall s, I s -> test s = false -> Q tt s) ->
  spec I P (wait_while test) Q E.
Proof.
  intros HP HQ s w Hs Hw. apply HP in Hs. clear HP P.
  revert s Hs. induction Hw as [|e w He Hw IH]; intros s Hs; cbn;
    destruct (test s) eqn:Ht; cbn; eauto.
  - split; [eauto|]. constructor.
  - split; [eauto|]. by constructor.
Qed.

Lemma preserves_ret {A} I (a : A) : preserves I (mret a).
Proof. intros s w Hs Hw. by split. Qed.

Lemma preserves_bind {A B} I (m : M S A) (f : A -> M S B) :
  preserves I m -> (forall a, preserves I (f a)) -> preserves I (m ≫= f).
Proof. intros. eapply spec_bind; eauto. Qed.

Lemma preserves_gets {A} I (f : S -> A) : preserves I (gets f).
Proof. by apply spec_gets. Qed.

Lemma preserves_get I : preserves I get.
Proof. by apply spec_get. Qed.

Lemma preserves_modify I f : (forall s, I s -> I (f s)) -> preserves I (modify f).
Proof. intros. by apply spec_modify. Qed.

Lemma preserves_panic {A} I msg : preserves I (panic (A:=A) msg).
Proof. by apply spec_panic. Qed.

Lemma preserves_no_return {A} I : preserves I (no_return (A:=A)).
Proof. by apply spec_no_return. Qed.

Lemma preserves_interfere I : preserves I interfere.
Proof. by apply spec_interfere. Qed.

Lemma preserves_wait_while I test : preserves I (wait_while test).
Proof. by apply spec_wait_while. Qed.

Lemma preserves_when I b m : preserves I m -> preserves I (when b m).
Proof. destruct b; [done|]. intros _. apply preserves_ret. Qed.

Lemma preserves_for_each {A} I (l : list A) f :
  (forall a, a ∈ l -> preserves I (f a)) -> preserves I (for_each l f).
Proof.
  induction l as [|a l IH]; intros Hf; cbn; [apply preserves_ret|].
  apply preserves_bind; [apply Hf; set_solver|]. intros _. apply IH. set_solver.
Qed.

Lemma preserves_for_find {A R} I (l : list A) (f : A -> M S (option R)) :
  (forall a, a ∈ l -> preserves I (f a)) -> preserves I (for_find l f).
Proof.
  induction l as [|a l IH]; intros Hf; cbn; [apply preserves_ret|].
  apply preserves_bind; [apply Hf; set_solver|].
  intros [x|]; [apply preserves_ret|]. apply IH. set_solver.
Qed.

Lemma preserves_loop_n {R} I n (body : M S (option R)) :
  preserves I body -> preserves I (loop_n n body).
Proof.
  intros Hb. induction n as [|n IH]; cbn [loop_n].
  - intros s w Hs Hw. done.
  - apply preserves_bind; [done|]. intros [x|]; [apply preserves_ret|done].
Qed.

Lemma preserves_loop {R} I (body : M S (option R)) :
  preserves I body -> preserves I (loop body).
Proof. intros Hb s w. by apply preserves_loop_n. Qed.

Lemma preserves_run {A} I (m : M S A) s w a s' w' :
  preserves I m -> I s -> env_ok I w -> m s w = Ok a s' w' -> I s' /\ env_ok I w'.
Proof. intros Hm Hs Hw Hr. specialize (Hm s w Hs Hw). by rewrite Hr in Hm. Qed.

Lemma preserves_blocked {A} I (m : M S A) s w s' :
  preserves I m -> I s -> env_ok I w -> m s w = Blocked s' -> I s'.
Proof. intros Hm Hs Hw Hr. specialize (Hm s w Hs Hw). by rewrite Hr in Hm. Qed.

Lemma env_ok_nil I : env_ok I [].
Proof. constructor. Qed.
End Logic.

(** Symbolic execution of a bind whose first half is known. *)
Lemma bind_ok {S A B} (m : M S A) (f : A -> M S B) s w a s' w' :
  m s w = Ok a s' w' -> (m ≫= f) s w = f a s' w'.
Proof. unfold mbind, M_bind. by intros ->. Qed.

Lemma bind_blocked {S A B} (m : M S A) (f : A -> M S B) s w s' :
  m s w = Blocked s' -> (m ≫= f) s w = Blocked s'.
Proof. unfold mbind, M_bind. by intros ->. Qed.

Lemma bind_panic {S A B} (m : M S A) (f : A -> M S B) s w msg s' :
  m s w = Panic msg s' -> (m ≫= f) s w = Panic msg s'.
Proof. unfold mbind, M_bind. by intros ->. Qed.

Lemma bind_gets {S A B} (g : S -> A) (f : A -> M S B) s w :
  (gets g ≫= f) s w = f (g s) s w.
Proof. done. Qed.

Lemma bind_modify {S B} (g : S -> S) (f : unit -> M S B) s w :
  (modify g ≫= f) s w = f tt (g s) w.
Proof. done. Qed.

Lemma bind_mret {S A B} (a : A) (f : A -> M S B) s w :
  (mret a ≫= f) s w = f a s w.
Proof. done. Qed.

Lemma bind_assoc {S A B C} (m : M S A) (f : A -> M S B) (g : B -> M S C) s w :
  ((m ≫= f) ≫= g) s w = (m ≫= (fun a => f a ≫= g)) s w.
Proof. unfold mbind, M_bind. by destruct (m s w). Qed.

(** * Use of the interference

    [shrinks m]: [m] never adds interference; [consumes m]: it uses some. *)

Section Consumption.
Context {S : Type}.

Definition shrinks {A} (m : M S A) : Prop :=
  forall s w a s' w', m s w = Ok a s' w' -> (length w' <= length w)%nat.
Definition consumes {A} (m : M S A) : Prop :=
  forall s w a s' w', m s w = Ok a s' w' -> (length w' < length w)%nat.
(** A loop body: it consumes unless it leaves the loop. *)
Definition productive {R} (m : M S (option R)) : Prop :=
  forall s w a s' w', m s w = Ok a s' w' ->
    (length w' <= length w)%nat /\ (a = None -> (length w' < length w)%nat).

Lemma consumes_shrinks {A} (m : M S A) : consumes m -> shrinks m.
Proof. intros Hm s w a s' w' Hr. specialize (Hm _ _ _ _ _ Hr). lia. Qed.

Lemma shrinks_bind {A B} (m : M S A) (f : A -> M S B) :
  shrinks m -> (forall a, shrinks (f a)) -> shrinks (m ≫= f).
Proof.
  intros Hm Hf s w b s' w' Hr. unfold mbind, M_bind in Hr.
  destruct (m s w) eqn:E; try discriminate.
  specialize (Hm _ _ _ _ _ E). specialize (Hf _ _ _ _ _ _ Hr). lia.
Qed.

Lemma consumes_bind_l {A B} (m : M S A) (f : A -> M S B) :
  consumes m -> (forall a, shrinks (f a)) -> consumes (m ≫= f).
Proof.
  intros Hm Hf s w b s' w' Hr. unfold mbind, M_bind in Hr.
  destruct (m s w) eqn:E; try discriminate.
  specialize (Hm _ _ _ _ _ E). specialize (Hf _ _ _ _ _ _ Hr). lia.
Qed.

Lemma consumes_bind_r {A B} (m : M S A) (f : A -> M S B) :
  shrinks m -> (forall a, consumes (f a)) -> consumes (m ≫= f).
Proof.
  intros Hm Hf s w b s' w' Hr. unfold mbind, M_bind in Hr.
  destruct (m s w) eqn:E; try discriminate.
  specialize (Hm _ _ _ _ _ E). specialize (Hf _ _ _ _ _ _ Hr). lia.
Qed.

Lemma productive_bind {A R} (m : M S A) (f : A -> M S (option R)) :
  shrinks m -> (forall a, productive (f a)) -> productive (m ≫= f).
Proof.
  intros Hm Hf s w b s' w' Hr. unfold mbind, M_bind in Hr.
  destruct (m s w) eqn:E; try discriminate.
  specialize (Hm _ _ _ _ _ E). destruct (Hf _ _ _ _ _ _ Hr) as [Hle Hlt].
  split; [lia|]. intros Hn. specialize (Hlt Hn). lia.
Qed.

Lemma productive_again {A R} (m : M S A) (r : option R) :
  consumes m -> productive (m ≫= fun _ => mret r).
Proof.
  intros Hm s w b s' w' Hr. unfold mbind, M_bind in Hr.
  destruct (m s w) eqn:E; try discriminate.
  specialize (Hm _ _ _ _ _ E). cbv in Hr. injection Hr as <- <- <-. split; lia.
Qed.

Lemma productive_leave {A R} (m : M S A) (x : A -> R) :
  shrinks m -> productive (a ← m; mret (Some (x a))).
Proof.
  intros Hm s w b s' w' Hr. unfold mbind, M_bind in Hr.
  destruct (m s w) eqn:E; try discriminate.
  specialize (Hm _ _ _ _ _ E). cbv in Hr. injection Hr as <- <- <-. by split.
Qed.

Lemma productive_ret {R} (x : R) : productive (mret (Some x) : M S _).
Proof. intros s w b s' w' Hr. cbv in Hr. injection Hr as <- <- <-. by split. Qed.

Lemma productive_panic {R} msg : productive (panic msg : M S (option R)).
Proof. intros s w b s' w' Hr. discriminate. Qed.

Lemma shrinks_ret {A} (a : A) : shrinks (mret a : M S A).
Proof. intros s w b s' w' Hr. cbv in Hr. by injection Hr as <- <- <-. Qed.
Lemma shrinks_get : shrinks (get : M S S).
Proof. intros s w b s' w' Hr. cbv in Hr. by injection Hr as <- <- <-. Qed.
Lemma shrinks_gets {A} (f : S -> A) : shrinks (gets f).
Proof. intros s w b s' w' Hr. cbv in Hr. by injection Hr as <- <- <-. Qed.
Lemma shrinks_modify (f : S -> S) : shrinks (modify f).
Proof. intros s w b s' w' Hr. cbv in Hr. by injection Hr as <- <- <-. Qed.
Lemma shrinks_panic {A} msg : shrinks (panic msg : M S A).
Proof. intros s w b s' w' Hr. discriminate. Qed.
Lemma shrinks_no_return {A} : shrinks (no_return : M S A).
Proof. intros s w b s' w' Hr. discriminate. Qed.
Lemma consumes_interfere : consumes (interfere : M S unit).
Proof.
  intros s w b s' w' Hr. unfold interfere in Hr.
  destruct w; [discriminate|]. injection Hr as <- <- <-. cbn. lia.
Qed.
Lemma shrinks_wait_while (test : S -> bool) : shrinks (wait_while test).
Proof.
  intros s w. revert s. induction w as [|e w IH]; intros s a s' w' Hr; cbn in Hr;
    destruct (test s); try discriminate; try (injection Hr as <- <- <-; done).
  specialize (IH _ _ _ _ Hr). cbn. lia.
Qed.
Lemma shrinks_when b (m : M S unit) : shrinks m -> shrinks (when b m).
Proof. destruct b; [done|]. intros _. apply shrinks_ret. Qed.

(** A loop left in its first round needs no interference. *)
Lemma loop_now {R} (body : M S (option R)) s w x s' w' :
  body s w = Ok (Some x) s' w' -> loop body s w = Ok x s' w'.
Proof. intros Hb. unfold loop. cbn [loop_n Nat.add]. unfold mbind, M_bind. by rewrite Hb. Qed.

Lemma loop_n_enough {R} (body : M S (option R)) n1 n2 s w :
  productive body -> (length w < n1)%nat -> (length w < n2)%nat ->
  loop_n n1 body s w = loop_n n2 body s w.
Proof.
  intros Hp. revert n2 s w. induction n1 as [|n1 IH]; intros [|n2] s w H1 H2; [lia..|].
  cbn [loop_n]. unfold mbind, M_bind. destruct (body s w) as [r s' w'|?|?|?] eqn:E; try done.
  destruct r as [x|]; [done|]. destruct (Hp _ _ _ _ _ E) as [_ Hlt].
  specialize (Hlt eq_refl). apply IH; lia.
Qed.

(** The rounds provided are enough: the loop is its own unfolding. *)
Lemma loop_eq {R} (body : M S (option R)) s w :
  productive body ->
  loop body s w = (r ← body; match r with Some x => mret x | None => loop body end) s w.
Proof.
  intros Hp. unfold loop at 1. cbn [loop_n Nat.add]. unfold mbind, M_bind.
  destruct (body s w) as [r s' w'|?|?|?] eqn:E; try done.
  destruct r as [x|]; [done|]. destruct (Hp _ _ _ _ _ E) as [_ Hlt].
  specialize (Hlt eq_refl). unfold loop. apply loop_n_enough; [done|lia..].
Qed.
End Consumption.

Create HintDb consume.
#[export] Hint Resolve consumes_shrinks shrinks_ret shrinks_get shrinks_gets
  shrinks_modify shrinks_panic shrinks_no_return consumes_interfere
  shrinks_wait_while shrinks_when productive_ret productive_panic : consume.
Ltac consume_step :=
  lazymatch goal with
  | |- shrinks (mbind _ _) => apply shrinks_bind; [|intros ?]
  | |- productive (_ ≫= (fun _ => mret (Some _))) => apply productive_leave
  | |- productive (_ ≫= (fun _ => mret None)) => apply productive_again
  | |- productive (mbind _ _) => apply productive_bind; [|intros ?]
  | |- _ (if ?b then _ else _) => destruct b
  | |- _ (match ?x with _ => _ end) => destruct x
  | |- shrinks (when _ _) => apply shrinks_when
  end.
Ltac consume_tac := repeat first [solve [eauto with consume] | consume_step].

Create HintDb kernel.
#[export] Hint Resolve preserves_ret preserves_gets preserves_get preserves_panic
  preserves_no_return preserves_interfere preserves_wait_while preserves_when
  env_ok_nil : kernel.

(** Splits a program along its binds and case distinctions, closing the
    leaves with the [kernel] hints; what is left are the [modify]s. *)
Ltac preserves_step :=
  lazymatch goal with
  | |- preserves _ (mbind _ _) => apply preserves_bind; [|intros ?]
  | |- preserves _ (if ?b then _ else _) => destruct b
  | |- preserves _ (match ?x with _ => _ end) => destruct x
  | |- preserves _ (when _ _) => apply preserves_when
  | |- preserves _ (for_each _ _) => apply preserves_for_each; intros ? ?
  | |- preserves _ (loop _) => apply preserves_loop
  | |- preserves _ (for_find _ _) => apply preserves_for_find; intros ? ?
  | |- preserves _ (let _ := _ in _) => cbv zeta
  end.
Ltac preserves_tac := repeat first [solve [eauto with kernel] | preserves_step].

(** * Runs that return

    [runs s m Q]: from [s], [m] returns in [Q] whatever the schedule, and uses
    none of it. *)

Definition runs {S A} (s : S) (m : M S A) (Q : A -> S -> Prop) : Prop :=
  forall w, exists a s', m s w = Ok a s' w /\ Q a s'.

Lemma runs_bind {S A B} s (m : M S A) (f : A -> M S B) Q :
  runs s m (fun a s' => runs s' (f a) Q) -> runs s (m ≫= f) Q.
Proof.
  intros Hm w. destruct (Hm w) as (a & s1 & E & Hr). destruct (Hr w) as (b & s2 & E2 & HQ).
  exists b, s2. by rewrite (bind_ok _ _ _ _ _ _ _ E).
Qed.
Lemma runs_ret {S A} (s : S) (a : A) (Q : A -> S -> Prop) : Q a s -> runs s (mret a) Q.
Proof. intros HQ w. by exists a, s. Qed.
Lemma runs_gets {S A} (s : S) (f : S -> A) (Q : A -> S -> Prop) : Q (f s) s -> runs s (gets f) Q.
Proof. intros HQ w. by exists (f s), s. Qed.
Lemma runs_modify {S} (s : S) f (Q : unit -> S -> Prop) : Q tt (f s) -> runs s (modify f) Q.
Proof. intros HQ w. by exists tt, (f s). Qed.
Lemma runs_mono {S A} s (m : M S A) (Q R : A -> S -> Prop) :
  runs s m R -> (forall a s', R a s' -> Q a s') -> runs s m Q.
Proof. intros Hm HR w. destruct (Hm w) as (a & s' & E & Hr). eauto. Qed.
(** A loop over a list, with an invariant over what has been done. *)
Lemma runs_for_each {S A} (P : list A -> S -> Prop) (l : list A) (f : A -> M S unit) s (Q : unit -> S -> Prop) :
  P [] s ->
  (forall done a rest s', l = done ++ a :: rest -> P done s' -> runs s' (f a) (fun _ => P (done ++ [a]))) ->
  (forall s', P l s' -> Q tt s') -> runs s (for_each l f) Q.
Proof.
  intros H0 Hstep HQ. cut (forall todo done s', l = done ++ todo -> P done s' -> runs s' (for_each todo f) Q).
  { intros Hc. by apply (Hc l [] s). }
  induction todo as [|a rest IH]; intros done s' El Hs'; cbn [for_each].
  - apply runs_ret, HQ. by rewrite El, app_nil_r.
  - apply runs_bind. eapply runs_mono; [by eapply Hstep|]. intros [] s2 H2. apply (IH (done ++ [a])); [|done].
    by rewrite <- app_assoc.
Qed.
