(* ===== verification/Memory.v ===== *)
(** Byte memory and string.c.

    Memory is a function from addresses to bytes.  The routines of string.c
    that work on raw memory ([memset] with its word-at-a-time path, [memmove]
    with its two copy directions, [memcmp]) are loops over it, proved equal to
    one-line reference definitions.  The string routines work on character
    arrays, as lists of bytes. *)

From S2P Require Import Prelude.

Definition memory : Type := Z -> Z.

Section Bytes.

Definition mset (m : memory) (a v : Z) : memory := fun x => if x =? a then v else m x.

(** Byte [i] of a word. *)
Definition byte_of (v i : Z) : Z := (v / 2 ^ (8 * i)) mod 2 ^ 8.

Definition store64 (m : memory) (a v : Z) : memory :=
  fun x => if (a <=? x) && (x <? a + 8) then byte_of v (x - a) else m x.
Definition store32 (m : memory) (a v : Z) : memory :=
  fun x => if (a <=? x) && (x <? a + 4) then byte_of v (x - a) else m x.
Fixpoint load_bytes (m : memory) (a : Z) (n : nat) : Z :=
  match n with
  | O => 0
  | S n' => m a + 2 ^ 8 * load_bytes m (a + 1) n'
  end.
Definition load64 (m : memory) (a : Z) : Z := load_bytes m a 8.
Definition load32 (m : memory) (a : Z) : Z := load_bytes m a 4.

#[global] Arguments load64 : simpl never.
#[global] Arguments load32 : simpl never.
#[global] Arguments store64 : simpl never.
#[global] Arguments store32 : simpl never.

(** The [n] bytes at [a], and writing a list of bytes at [a]. *)
Definition read_bytes (m : memory) (a : Z) (n : nat) : list Z :=
  (fun i => m (a + Z.of_nat i)) <$> seq 0 n.
Fixpoint write_bytes (m : memory) (a : Z) (l : list Z) : memory :=
  match l with
  | [] => m
  | b :: l' => write_bytes (mset m a b) (a + 1) l'
  end.

End Bytes.

(** * string.c on raw memory *)

Section Raw.

(** x86.h: stosb and stosl. *)
Fixpoint stosb (m : memory) (a c : Z) (cnt : nat) : memory :=
  match cnt with
  | O => m
  | S n => stosb (mset m a (u8 c)) (a + 1) c n
  end.
Fixpoint stosl (m : memory) (a w : Z) (cnt : nat) : memory :=
  match cnt with
  | O => m
  | S n => stosl (store32 m a w) (a + 4) w n
  end.

Definition memset (m : memory) (dst c n : Z) : memory :=
  if (dst mod 4 =? 0) && (n mod 4 =? 0) then
    let c := Z.land c 0xFF in
    stosl m dst
      (Z.lor (Z.lor (Z.lor (Z.shiftl c 24) (Z.shiftl c 16)) (Z.shiftl c 8)) c)
      (Z.to_nat (n / 4))
  else stosb m dst c (Z.to_nat n).

Fixpoint memcmp (m : memory) (s1 s2 : Z) (n : nat) : Z :=
  match n with
  | O => 0
  | S n' => if negb (m s1 =? m s2) then m s1 - m s2 else memcmp m (s1 + 1) (s2 + 1) n'
  end.

(** [while(n-- > 0) *--d = *--s] *)
Fixpoint copy_down (m : memory) (d s : Z) (n : nat) : memory :=
  match n with
  | O => m
  | S n' => copy_down (mset m (d - 1) (m (s - 1))) (d - 1) (s - 1) n'
  end.
(** [while(n-- > 0) *d++ = *s++] *)
Fixpoint copy_up (m : memory) (d s : Z) (n : nat) : memory :=
  match n with
  | O => m
  | S n' => copy_up (mset m d (m s)) (d + 1) (s + 1) n'
  end.

Definition memmove (m : memory) (dst src n : Z) : memory :=
  if (src <? dst) && (dst <? src + n)
  then copy_down m (dst + n) (src + n) (Z.to_nat n)
  else copy_up m dst src (Z.to_nat n).
Definition memcpy (m : memory) (dst src n : Z) : memory := memmove m dst src n.

End Raw.

#[global] Arguments memset : simpl never.
#[global] Arguments memmove : simpl never.

(** * string.c on character arrays *)

Section Strings.

Definition hd0 (l : list Z) : Z := default 0 (head l).

(** The C string at [p] of a buffer. *)
Fixpoint until_nul (l : list Z) : list Z :=
  match l with
  | [] => []
  | c :: l' => if c =? 0 then [] else c :: until_nul l'
  end.
Definition string_at (buf : list Z) (p : nat) : list Z := until_nul (drop p buf).

Fixpoint strncmp (p q : list Z) (n : nat) : Z :=
  match n with
  | O => 0
  | S n' =>
      if negb (hd0 p =? 0) && (hd0 p =? hd0 q) then strncmp (tail p) (tail q) n'
      else u8 (hd0 p) - u8 (hd0 q)
  end.

(** The [n] bytes [strncpy] writes: [t] up to its NUL, then zeros. *)
Fixpoint strncpy (t : list Z) (n : nat) : list Z :=
  match n with
  | O => []
  | S n' => if hd0 t =? 0 then replicate (S n') 0 else hd0 t :: strncpy (tail t) n'
  end.

(** [while(--n > 0 && (star s++ = star t++) != 0); star s = 0], on the array [s]; [k]
    counts the iterations left. *)
Fixpoint safestrcpy_loop (k : nat) (s t : list Z) : list Z :=
  match k with
  | O => 0 :: tail s
  | S k' =>
      hd0 t :: (if hd0 t =? 0 then 0 :: tail (tail s)
                else safestrcpy_loop k' (tail s) (tail t))
  end.
Definition safestrcpy (s t : list Z) (n : Z) : list Z :=
  if n <=? 0 then s else safestrcpy_loop (Z.to_nat (n - 1)) s t.

Fixpoint strlen (s : list Z) : Z :=
  match s with
  | [] => 0
  | c :: s' => if c =? 0 then 0 else 1 + strlen s'
  end.

End Strings.

(** * Reference definitions *)

Definition fill (m : memory) (dst n v : Z) : memory :=
  fun x => if (dst <=? x) && (x <? dst + n) then v else m x.
Definition blit (m : memory) (dst src n : Z) : memory :=
  fun x => if (dst <=? x) && (x <? dst + n) then m (src + (x - dst)) else m x.

(** Decides the range tests of a pointwise memory equation. *)
Ltac ranges :=
  repeat match goal with
  | |- context [?a <=? ?b] => destruct (Z.leb_spec a b)
  | |- context [?a <? ?b] => destruct (Z.ltb_spec a b)
  | |- context [?a =? ?b] => destruct (Z.eqb_spec a b)
  end; cbn [andb orb negb]; try lia; try done.

Lemma stosb_fill m a c n x : stosb m a c n x = fill m a (Z.of_nat n) (u8 c) x.
Proof.
  revert m a. induction n as [|n IH]; intros m a; cbn [stosb]; unfold fill in *.
  - ranges.
  - rewrite IH. unfold mset. ranges.
Qed.

(** The word [stosl] stores repeats the byte. *)
Definition spread (c : Z) : Z :=
  Z.lor (Z.lor (Z.lor (Z.shiftl c 24) (Z.shiftl c 16)) (Z.shiftl c 8)) c.

Lemma spread_bytes c i : 0 <= c < 256 -> 0 <= i < 4 -> byte_of (spread c) i = c.
Proof.
  intros Hc Hi.
  assert (Hall : forallb (fun c => forallb (fun i => byte_of (spread (Z.of_nat c)) (Z.of_nat i) =? Z.of_nat c)
    (seq 0 4)) (seq 0 256) = true) by by vm_compute.
  rewrite forallb_forall in Hall. specialize (Hall (Z.to_nat c)).
  rewrite forallb_forall in Hall. setoid_rewrite in_seq in Hall.
  specialize (Hall ltac:(lia) (Z.to_nat i) ltac:(lia)). rewrite !Z2Nat.id in Hall by lia.
  by apply Z.eqb_eq in Hall.
Qed.

Lemma stosl_fill m a c n x :
  0 <= c < 256 -> stosl m a (spread c) n x = fill m a (4 * Z.of_nat n) c x.
Proof.
  intros Hc. revert m a. induction n as [|n IH]; intros m a; cbn [stosl]; unfold fill in *.
  - ranges.
  - rewrite IH. unfold store32. ranges. by apply spread_bytes; [|lia].
Qed.

Lemma land_ff c : Z.land c 0xFF = u8 c.
Proof. unfold u8. change 0xFF with (Z.ones 8). by rewrite Z.land_ones by lia. Qed.

Lemma memset_fill m dst c n x : 0 <= n -> memset m dst c n x = fill m dst n (u8 c) x.
Proof.
  intros Hn. unfold memset.
  destruct ((dst mod 4 =? 0) && (n mod 4 =? 0)) eqn:E.
  - apply andb_true_iff in E as [_ E]. apply Z.eqb_eq in E.
    cbv zeta. rewrite land_ff. fold (spread (u8 c)). rewrite stosl_fill.
    + rewrite Z2Nat.id by (apply Z.div_pos; lia). f_equal.
      rewrite (Z.div_mod n 4) at 2 by lia. lia.
    + unfold u8. apply Z.mod_pos_bound. lia.
  - rewrite stosb_fill, Z2Nat.id by lia. done.
Qed.

Lemma copy_up_blit m d s n x :
  (d <= s \/ s + Z.of_nat n <= d) -> copy_up m d s n x = blit m d s (Z.of_nat n) x.
Proof.
  revert m d s. induction n as [|n IH]; intros m d s Hov; cbn [copy_up]; unfold blit in *.
  - ranges.
  - rewrite IH by lia. unfold mset. ranges; try (f_equal; lia).
Qed.

Lemma copy_down_blit m d s n x :
  s < d -> copy_down m d s n x = blit m (d - Z.of_nat n) (s - Z.of_nat n) (Z.of_nat n) x.
Proof.
  revert m d s. induction n as [|n IH]; intros m d s Hov; cbn [copy_down]; unfold blit in *.
  - ranges.
  - rewrite IH by lia. unfold mset. ranges; try (f_equal; lia).
Qed.

(** [memmove] copies the source as it was before the call, for
    every overlap of the two ranges: its choice of direction never reads a
    byte it has already overwritten. *)
Theorem memmove_blit m dst src n x :
  0 <= n -> memmove m dst src n x = blit m dst src n x.
Proof.
  intros Hn. unfold memmove. destruct ((src <? dst) && (dst <? src + n)) eqn:E.
  - apply andb_true_iff in E as [E1 _]. apply Z.ltb_lt in E1.
    rewrite copy_down_blit, Z2Nat.id by lia.
    replace (dst + n - n) with dst by lia. by replace (src + n - n) with src by lia.
  - apply andb_false_iff in E. rewrite !Z.ltb_ge in E. rewrite copy_up_blit, Z2Nat.id by lia. done.
Qed.

(** * Words in memory *)

Lemma byte_of_range v i : 0 <= byte_of v i < 2 ^ 8.
Proof. apply Z.mod_pos_bound. lia. Qed.

Lemma load_bytes_ext m m' a n :
  (forall x, a <= x < a + Z.of_nat n -> m x = m' x) -> load_bytes m a n = load_bytes m' a n.
Proof.
  revert a. induction n as [|n IH]; intros a Hx; cbn [load_bytes]; [done|].
  rewrite Hx by lia. rewrite IH; [done|]. intros x Hr. apply Hx. lia.
Qed.

Lemma load_bytes_of v m a n k :
  0 <= k -> (forall x, a <= x < a + Z.of_nat n -> m x = byte_of v (x - a + k)) ->
  load_bytes m a n = (v / 2 ^ (8 * k)) mod 2 ^ (8 * Z.of_nat n).
Proof.
  revert a k. induction n as [|n IH]; intros a k Hk Hx; cbn [load_bytes].
  { by rewrite Z.mod_1_r. }
  rewrite (IH (a + 1) (k + 1)); [|lia|].
  - rewrite Hx by lia. replace (a - a + k) with k by lia. unfold byte_of.
    replace (8 * (k + 1)) with (8 * k + 8) by lia. rewrite Z.pow_add_r by lia.
    rewrite <- Z.div_div by lia.
    replace (8 * Z.of_nat (S n)) with (8 + 8 * Z.of_nat n) by lia.
    rewrite (Z.pow_add_r 2 8) by lia. rewrite Z.rem_mul_r by lia. done.
  - intros x Hr. rewrite Hx by lia. f_equal. lia.
Qed.

Lemma load64_store64 m a v : load64 (store64 m a v) a = u64 v.
Proof.
  unfold load64, u64. rewrite (load_bytes_of v _ _ _ 0); [by rewrite Z.mul_0_r, Z.div_1_r|lia|].
  intros x Hx. unfold store64. ranges. f_equal. lia.
Qed.

Lemma load64_store64_ne m a b v :
  (b + 8 <= a \/ a + 8 <= b) -> load64 (store64 m a v) b = load64 m b.
Proof.
  intros Hd. unfold load64. apply load_bytes_ext. intros x Hx. unfold store64. ranges.
Qed.

Lemma load64_frame m m' a :
  (forall x, a <= x < a + 8 -> m x = m' x) -> load64 m a = load64 m' a.
Proof. intros Hx. by apply load_bytes_ext. Qed.

(** * Little-endian data in byte arrays *)

Section Arrays.

Definition getb (l : list Z) (i : nat) : Z := default 0 (l !! i).
Definition get16 (l : list Z) (off : nat) : Z := getb l off + 2 ^ 8 * getb l (off + 1).
Definition get32 (l : list Z) (off : nat) : Z := get16 l off + 2 ^ 16 * get16 l (off + 2).
Definition get64 (l : list Z) (off : nat) : Z := get32 l off + 2 ^ 32 * get32 l (off + 4).
Definition bytes16 (v : Z) : list Z := byte_of v <$> [0; 1].
Definition bytes32 (v : Z) : list Z := byte_of v <$> [0; 1; 2; 3].
Definition bytes64 (v : Z) : list Z := byte_of v <$> [0; 1; 2; 3; 4; 5; 6; 7].
(** [b] written over [l] from [off] on. *)
Definition splice (l : list Z) (off : nat) (b : list Z) : list Z :=
  take off l ++ b ++ drop (off + length b) l.

End Arrays.

(** A list of bytes in memory. *)
Lemma write_bytes_at l : forall m a x,
  write_bytes m a l x = if decide (a <= x < a + Z.of_nat (length l)) then getb l (Z.to_nat (x - a)) else m x.
Proof.
  induction l as [|b l IH]; intros m a x; cbn [write_bytes length].
  - rewrite decide_False by lia. done.
  - rewrite IH. unfold mset. repeat case_decide; try lia.
    + replace (Z.to_nat (x - a)) with (S (Z.to_nat (x - (a + 1)))) by lia. done.
    + assert (x = a) as -> by lia. by rewrite Z.eqb_refl, Z.sub_diag.
    + destruct (Z.eqb_spec x a); [lia|done].
Qed.
