(* ===== verification/KState.v ===== *)
(** The kernel's data: the structs of proc.h, schedstat.h, spinlock.h, x86.h
    and the global variables of proc.c, trap.c, kalloc.c, vm.c and file.c, as
    records over machine integers.

    A pointer to an element of a global table ([struct proc *], [struct file
    *], [struct inode *]) is the element's index, [None] standing for 0.  The
    trap frame and the saved context live on a process's kernel stack in C; a
    process carries their contents.  Physical memory is a function from
    addresses to bytes. *)

From S2P Require Import Prelude Control.

(** * param.h *)

Definition NPROC : nat := 64.
Definition KSTACKSIZE : Z := 4096.
Definition NCPU : Z := 8.
Definition NOFILE : nat := 16.
Definition NFILE : nat := 100.
Definition NINODE : nat := 50.
Definition NDEV : Z := 10.
Definition ROOTDEV : Z := 1.
Definition MAXARG : nat := 32.
Definition MAXOPBLOCKS : Z := 10.
Definition LOGSIZE : Z := MAXOPBLOCKS * 3.
Definition NBUF : nat := 30.
Definition FSSIZE : Z := 2000.
#[global] Arguments NPROC : simpl never.

(** * x86.h: struct trapframe; proc.h: struct context *)

Record trapframe := mkTrapframe {
  rax : Z; rbx : Z; rcx : Z; rdx : Z; rbp : Z; rsi : Z; rdi : Z;
  r8 : Z; r9 : Z; r10 : Z; r11 : Z; r12 : Z; r13 : Z; r14 : Z; r15 : Z;
  trapno : Z; err : Z;
  rip : Z; cs : Z; rflags : Z; rsp : Z; ss : Z
}.
#[export] Instance trapframe_eta : Eta trapframe := fun t =>
  mkTrapframe (rax t) (rbx t) (rcx t) (rdx t) (rbp t) (rsi t) (rdi t)
    (r8 t) (r9 t) (r10 t) (r11 t) (r12 t) (r13 t) (r14 t) (r15 t)
    (trapno t) (err t) (rip t) (cs t) (rflags t) (rsp t) (ss t).
Definition zero_trapframe : trapframe :=
  mkTrapframe 0 0 0 0 0 0 0 0 0 0 0 0 0 0 0 0 0 0 0 0 0 0.
Definition sizeof_trapframe : Z := 22 * 8.

Record context := mkContext {
  c_r15 : Z; c_r14 : Z; c_r13 : Z; c_r12 : Z; c_rbx : Z; c_rbp : Z; c_rip : Z
}.
#[export] Instance context_eta : Eta context := fun c =>
  mkContext (c_r15 c) (c_r14 c) (c_r13 c) (c_r12 c) (c_rbx c) (c_rbp c) (c_rip c).
Definition zero_context : context := mkContext 0 0 0 0 0 0 0.
Definition sizeof_context : Z := 7 * 8.

(** * proc.h *)

Inductive procstate := UNUSED | EMBRYO | SLEEPING | RUNNABLE | RUNNING | ZOMBIE.
#[export] Instance procstate_eq_dec : EqDecision procstate.
Proof. solve_decision. Defined.

(** The enum's numbering, as [(int)p->state] yields it. *)
Definition procstate_num (st : procstate) : Z :=
  match st with
  | UNUSED => 0 | EMBRYO => 1 | SLEEPING => 2
  | RUNNABLE => 3 | RUNNING => 4 | ZOMBIE => 5
  end.

Definition SIGINT : Z := 2.
Definition SIGKILL : Z := 9.
Definition SIGALRM : Z := 14.

(** The sleep locks: one in every buffer and in every cached inode. *)
Inductive sleeplockid := BUFLK (b : nat) | INODELK (i : nat).
#[export] Instance sleeplockid_eq_dec : EqDecision sleeplockid.
Proof. solve_decision. Defined.
#[export] Instance sleeplockid_countable : Countable sleeplockid.
Proof.
  refine (inj_countable'
    (fun l => match l with BUFLK b => inl b | INODELK i => inr i end)
    (fun c => match c with inl b => BUFLK b | inr i => INODELK i end) _).
  by intros [].
Defined.

(** What a process sleeps on: the addresses the code passes to [sleep]. *)
Inductive channel :=
| CH_TICKS                  (* &ticks *)
| CH_PROC (i : nat)         (* a struct proc, in wait *)
| CH_PIPE_NREAD (p : Z)     (* &p->nread *)
| CH_PIPE_NWRITE (p : Z)    (* &p->nwrite *)
| CH_BUF (b : nat)          (* a struct buf, in iderw *)
| CH_SLEEPLOCK (l : sleeplockid)  (* a struct sleeplock *)
| CH_LOG                    (* &log *)
| CH_INPUT.                 (* &input.r *)
#[export] Instance channel_eq_dec : EqDecision channel.
Proof. solve_decision. Defined.

Record proc := mkProc {
  sz : Z;                          (* size of process memory (bytes) *)
  pgdir : Z;                       (* page table *)
  kstack : Z;                      (* bottom of kernel stack *)
  pstate : procstate;
  pid : Z;
  parent : option nat;
  tf : trapframe;                  (* contents of *p->tf *)
  pcontext : context;              (* contents of *p->context *)
  chan : option channel;           (* if non-zero, sleeping on chan *)
  killed : Z;
  ofile : list (option nat);       (* NOFILE open files *)
  cwd : option nat;
  pname : list Z;                  (* char name[16] *)
  tf_backup : trapframe;
  signal_pending : Z;
  alarm_ticks : Z;
  alarm_countdown : Z;
  sig_disp : list Z;               (* 32 dispositions *)
  queue_level : Z;
  ticks_remaining : Z;
  wait_ticks : Z;
  burst_ema_fast : Z;
  burst_ema_slow : Z;
  burst_start_tick : Z;
  yield_count : Z;
  preempt_count : Z;
  burst_variance : Z;
  page_fault_count : Z;
  effective_score : Z;
  first_run_tick : Z;
  create_tick : Z
}.
#[export] Instance proc_eta : Eta proc := fun p =>
  mkProc (sz p) (pgdir p) (kstack p) (pstate p) (pid p) (parent p) (tf p)
    (pcontext p) (chan p) (killed p) (ofile p) (cwd p) (pname p) (tf_backup p)
    (signal_pending p) (alarm_ticks p) (alarm_countdown p) (sig_disp p)
    (queue_level p) (ticks_remaining p) (wait_ticks p) (burst_ema_fast p)
    (burst_ema_slow p) (burst_start_tick p) (yield_count p) (preempt_count p)
    (burst_variance p) (page_fault_count p) (effective_score p)
    (first_run_tick p) (create_tick p).

(** A slot of the zero-initialised process table. *)
Definition zero_proc : proc :=
  mkProc 0 0 0 UNUSED 0 None zero_trapframe zero_context None 0
    (replicate NOFILE None) None (replicate 16 0) zero_trapframe 0 0 0
    (replicate 32 0) 0 0 0 0 0 0 0 0 0 0 0 0 0.

Record sched_params := mkParams {
  q0_quantum : Z;
  q1_quantum : Z;
  q2_quantum : Z;
  boost_interval : Z;
  ema_alpha_fast : Z;
  ema_alpha_slow : Z;
  aging_factor : Z;
  agent_pid : Z;
  sched_alert : Z;
  rr_mode : Z
}.
#[export] Instance sched_params_eta : Eta sched_params := fun p =>
  mkParams (q0_quantum p) (q1_quantum p) (q2_quantum p) (boost_interval p)
    (ema_alpha_fast p) (ema_alpha_slow p) (aging_factor p) (agent_pid p)
    (sched_alert p) (rr_mode p).

(** Per-CPU state: struct cpu, the CPU's interrupt flag and its [proc]. *)
Record cpu := mkCpu {
  cpu_id : Z;
  ncli : Z;
  intena : Z;
  eflags_if : bool;
  cr3 : Z;                         (* physical address of the page table *)
  tss_rsp0 : Z;                    (* kernel stack pointer in the TSS *)
  cur : option nat                 (* the per-CPU variable [proc] *)
}.
#[export] Instance cpu_eta : Eta cpu := fun c =>
  mkCpu (cpu_id c) (ncli c) (intena c) (eflags_if c) (cr3 c) (tss_rsp0 c) (cur c).

(** * schedstat.h *)

Record schedstat := mkSchedstat {
  ss_pid : Z;
  ss_state : Z;
  ss_queue_level : Z;
  ss_burst_ema_fast : Z;
  ss_burst_ema_slow : Z;
  ss_wait_ticks : Z;
  ss_yield_count : Z;
  ss_preempt_count : Z;
  ss_burst_variance : Z;
  ss_page_fault_count : Z;
  ss_effective_score : Z;
  ss_sched_alert : Z;
  ss_first_run_tick : Z;
  ss_create_tick : Z
}.

Record sched_update := mkUpdate {
  upd_q0_quantum : Z;
  upd_q1_quantum : Z;
  upd_q2_quantum : Z;
  upd_boost_interval : Z;
  upd_ema_alpha_fast : Z;
  upd_ema_alpha_slow : Z;
  upd_aging_factor : Z;
  upd_rr_mode : Z
}.

Definition sizeof_schedstat : Z := 14 * 4.
Definition sizeof_sched_update : Z := 8 * 4.

(** * spinlock.h *)

Inductive lockid :=
| PTABLE | SCHEDP | TICKSLOCK | KMEM | FTABLE | ICACHE | BCACHE | LOGLOCK
| IDELOCK | CONS | INPUT
| PIPELOCK (p : Z)
| SLEEPLK (l : sleeplockid).
#[export] Instance lockid_eq_dec : EqDecision lockid.
Proof. solve_decision. Defined.
#[export] Instance lockid_countable : Countable lockid.
Proof.
  refine (inj_countable'
    (fun l => match l with
     | PTABLE => (0%nat, 0) | SCHEDP => (1%nat, 0) | TICKSLOCK => (2%nat, 0)
     | KMEM => (3%nat, 0) | FTABLE => (4%nat, 0) | ICACHE => (5%nat, 0)
     | BCACHE => (6%nat, 0) | LOGLOCK => (7%nat, 0) | IDELOCK => (8%nat, 0)
     | CONS => (9%nat, 0) | INPUT => (10%nat, 0)
     | PIPELOCK p => (11%nat, p)
     | SLEEPLK (BUFLK b) => (12%nat, Z.of_nat b)
     | SLEEPLK (INODELK i) => (13%nat, Z.of_nat i)
     end)
    (fun c => match c with
     | (0%nat, _) => PTABLE | (1%nat, _) => SCHEDP | (2%nat, _) => TICKSLOCK
     | (3%nat, _) => KMEM | (4%nat, _) => FTABLE | (5%nat, _) => ICACHE
     | (6%nat, _) => BCACHE | (7%nat, _) => LOGLOCK | (8%nat, _) => IDELOCK
     | (9%nat, _) => CONS | (10%nat, _) => INPUT
     | (11%nat, p) => PIPELOCK p
     | (12%nat, p) => SLEEPLK (BUFLK (Z.to_nat p))
     | (_, p) => SLEEPLK (INODELK (Z.to_nat p))
     end) _).
  intros [| | | | | | | | | | | |[]]; try done; by rewrite Nat2Z.id.
Defined.

(** [locked] and the CPU recorded by [acquire]; [name] and [pcs] are debugging
    information that no code branches on. *)
Record spinlock := mkSpinlock {
  locked : Z;
  lk_cpu : option Z
}.
#[export] Instance spinlock_eta : Eta spinlock := fun l =>
  mkSpinlock (locked l) (lk_cpu l).
Definition unlocked : spinlock := mkSpinlock 0 None.

(** * file.h and pipe.c *)

Inductive filetype := FD_NONE | FD_PIPE | FD_INODE.
#[export] Instance filetype_eq_dec : EqDecision filetype.
Proof. solve_decision. Defined.

Record file := mkFile {
  ftype : filetype;
  fref : Z;
  readable : Z;
  writable : Z;
  fpipe : Z;                       (* address of the struct pipe *)
  fip : option nat;
  foff : Z
}.
#[export] Instance file_eta : Eta file := fun f =>
  mkFile (ftype f) (fref f) (readable f) (writable f) (fpipe f) (fip f) (foff f).
Definition zero_file : file := mkFile FD_NONE 0 0 0 0 None 0.

Definition PIPESIZE : Z := 512.

Record pipe := mkPipe {
  pdata : list Z;                  (* char data[PIPESIZE] *)
  nread : Z;
  nwrite : Z;
  readopen : Z;
  writeopen : Z
}.
#[export] Instance pipe_eta : Eta pipe := fun p =>
  mkPipe (pdata p) (nread p) (nwrite p) (readopen p) (writeopen p).

(** * kalloc.c *)

Record kmem_t := mkKmem {
  use_lock : Z;
  freelist : Z                     (* address of the first struct run, or 0 *)
}.
#[export] Instance kmem_eta : Eta kmem_t := fun k => mkKmem (use_lock k) (freelist k).

(** Addresses and data fixed by the linker. *)
Record symbols := mkSymbols {
  sym_end : Z;                     (* end[]: first address after the kernel *)
  sym_forkret : Z;
  sym_syscall_trapret : Z;
  sym_initcode : list Z;           (* _binary_initcode_start.. *)
  sym_beyond : Z -> Z              (* words outside an indexed array, unspecified *)
}.

(** * sleeplock.h, buf.h, fs.h, log.c, file.h: the file system's state *)

Definition BSIZE : Z := 512.
Definition NDIRECT : nat := 12.
Definition NINDIRECT : nat := 128.
Definition ROOTINO : Z := 1.
Definition DIRSIZ : nat := 14.

Record sleeplock := mkSleeplock {
  sl_locked : Z;
  sl_pid : Z
}.
#[export] Instance sleeplock_eta : Eta sleeplock := fun l =>
  mkSleeplock (sl_locked l) (sl_pid l).

Record buf := mkBuf {
  bflags : Z;
  bdev : Z;
  blockno : Z;
  refcnt : Z;
  bdata : list Z                   (* uchar data[BSIZE] *)
}.
#[export] Instance buf_eta : Eta buf := fun b =>
  mkBuf (bflags b) (bdev b) (blockno b) (refcnt b) (bdata b).
Definition zero_buf : buf := mkBuf 0 0 0 0 (replicate 512 0).

Record superblock := mkSb {
  sb_size : Z; sb_nblocks : Z; sb_ninodes : Z; sb_nlog : Z;
  sb_logstart : Z; sb_inodestart : Z; sb_bmapstart : Z
}.

Record log_t := mkLog {
  lg_start : Z;
  lg_size : Z;
  outstanding : Z;
  committing : Z;
  lg_dev : Z;
  lh_n : Z;
  lh_block : list Z                (* int block[LOGSIZE] *)
}.
#[export] Instance log_eta : Eta log_t := fun l =>
  mkLog (lg_start l) (lg_size l) (outstanding l) (committing l) (lg_dev l)
    (lh_n l) (lh_block l).

(** The in-memory copy of an inode. *)
Record inode := mkInode {
  idev : Z;
  inum : Z;
  iref : Z;
  iflags : Z;
  itype : Z;
  imajor : Z;
  iminor : Z;
  inlink : Z;
  isize : Z;
  iaddrs : list Z                  (* uint addrs[NDIRECT+1] *)
}.
#[export] Instance inode_eta : Eta inode := fun i =>
  mkInode (idev i) (inum i) (iref i) (iflags i) (itype i) (imajor i) (iminor i)
    (inlink i) (isize i) (iaddrs i).
Definition zero_inode : inode := mkInode 0 0 0 0 0 0 0 0 0 (replicate 13 0).

(** The buffer cache's doubly linked list is the sequence of its elements
    from [head.next] on; the disk queue threaded through [qnext] likewise.
    [disk] is the contents of the drives, by device and block. *)
Record fsstate := mkFs {
  bufs : list buf;
  lru : list nat;
  idequeue : list nat;
  havedisk1 : Z;
  ide_req : Z * Z;                 (* device and sector of the last command *)
  ide_fault : bool;                (* the drive reports DF or ERR *)
  disk : Z -> Z -> list Z;
  disksize : Z;                    (* memide.c *)
  flog : log_t;
  sb : superblock;
  icache : list inode;
  sleeplocks : gmap sleeplockid sleeplock
}.
#[export] Instance fsstate_eta : Eta fsstate := fun f =>
  mkFs (bufs f) (lru f) (idequeue f) (havedisk1 f) (ide_req f) (ide_fault f)
    (disk f) (disksize f) (flog f) (sb f) (icache f) (sleeplocks f).

(** * console.c: the input buffer *)

Definition INPUT_BUF : Z := 128.
Record input_t := mkInput {
  in_buf : list Z;
  in_r : Z;                        (* read index *)
  in_w : Z;                        (* write index *)
  in_e : Z                         (* edit index *)
}.
#[export] Instance input_eta : Eta input_t := fun i =>
  mkInput (in_buf i) (in_r i) (in_w i) (in_e i).

(** The devices [devsw] can hold. *)
Inductive device := DEV_CONSOLE.

(** * The kernel state *)

Record kstate := mkK {
  kcpu : cpu;                      (* the CPU that executes *)
  locks : gmap lockid spinlock;
  ptable : list proc;
  nextpid : Z;
  initproc : option nat;
  schedp : sched_params;
  ticks : Z;
  last_boost_tick : Z;             (* static in scheduler *)
  rr_next : Z;                     (* static in scheduler *)
  first : Z;                       (* static in forkret *)
  fgpid : Z;
  ftable : list file;
  pipes : gmap Z pipe;
  kmem : kmem_t;
  kpml4 : Z;
  kpdpt : Z;
  mem : Z -> Z;                    (* bytes, by kernel virtual address *)
  syms : symbols;
  console : list Z;                (* bytes printed on the console *)
  fs : fsstate;
  input : input_t;
  devsw : gmap Z device
}.
#[export] Instance kstate_eta : Eta kstate := fun s =>
  mkK (kcpu s) (locks s) (ptable s) (nextpid s) (initproc s) (schedp s)
    (ticks s) (last_boost_tick s) (rr_next s) (first s) (fgpid s) (ftable s)
    (pipes s) (kmem s) (kpml4 s) (kpdpt s) (mem s) (syms s) (console s)
    (fs s) (input s) (devsw s).

Abbreviation K := (M kstate).

(** ** Access to the process table *)

Definition getp (i : nat) (s : kstate) : proc := default zero_proc (ptable s !! i).
Definition setp (i : nat) (f : proc -> proc) (s : kstate) : kstate :=
  s <| ptable ::= alter f i |>.

(** [proc->...]: the kernel dereferences [proc] only in process context, and a
    null [proc] faults. *)
Definition myproc : K nat :=
  o ← gets (fun s => cur (kcpu s));
  match o with
  | Some i => mret i
  | None => panic "trap"
  end.
Definition upd_proc (i : nat) (f : proc -> proc) : K unit := modify (setp i f).
Definition get_proc (i : nat) : K proc := gets (getp i).
Definition upd_cpu (f : cpu -> cpu) : K unit := modify (fun s => s <| kcpu ::= f |>).
Definition upd_schedp (f : sched_params -> sched_params) : K unit :=
  modify (fun s => s <| schedp ::= f |>).

(** The process table as the loops [for(p = ptable.proc; ...)] see it. *)
Definition proc_slots : list nat := seq 0 NPROC.
#[global] Arguments proc_slots : simpl never.

Definition ptable_wf (s : kstate) : Prop := length (ptable s) = NPROC.

Lemma getp_lookup i p s : ptable s !! i = Some p -> getp i s = p.
Proof. unfold getp. by intros ->. Qed.

Lemma length_setp i f s : length (ptable (setp i f s)) = length (ptable s).
Proof. unfold setp; cbn. apply length_alter. Qed.

Lemma getp_setp i f s :
  (i < length (ptable s))%nat -> getp i (setp i f s) = f (getp i s).
Proof.
  intros Hi. unfold getp, setp; cbn. rewrite list_lookup_alter_eq.
  apply lookup_lt_is_Some in Hi as [p Hp]. rewrite Hp. done.
Qed.

Lemma getp_setp_ne i j f s : i <> j -> getp j (setp i f s) = getp j s.
Proof. intros Hne. unfold getp, setp; cbn. by rewrite list_lookup_alter_ne. Qed.

(** Induction over updates: what holds of every process. *)
Definition all_procs (P : proc -> Prop) (s : kstate) : Prop := Forall P (ptable s).

Lemma all_procs_setp P i f s :
  all_procs P s -> (forall p, P p -> P (f p)) -> all_procs P (setp i f s).
Proof. intros Hs Hf. unfold all_procs, setp; cbn. apply Forall_alter; eauto. Qed.

Lemma all_procs_lookup P s i p : all_procs P s -> ptable s !! i = Some p -> P p.
Proof. intros Hs Hp. by eapply Forall_lookup_1 in Hs. Qed.

Lemma list_alter_insert {A} (f : A -> A) (i : nat) (l : list A) x :
  l !! i = Some x -> alter f i l = <[i := f x]> l.
Proof.
  intros Hi. apply list_eq. intros k. rewrite list_lookup_alter.
  destruct (decide (i = k)) as [->|]; [|by rewrite list_lookup_insert_ne].
  rewrite Hi, list_lookup_insert_eq; [done|by eapply lookup_lt_Some].
Qed.

Lemma setp_insert i f p s :
  ptable s !! i = Some p -> setp i f s = s <| ptable := <[i := f p]> (ptable s) |>.
Proof. intros Hi. unfold setp. cbn. by rewrite (list_alter_insert f i _ p Hi). Qed.

Lemma alter_alter {A} (f g : A -> A) (i : nat) (l : list A) :
  alter f i (alter g i l) = alter (f ∘ g) i l.
Proof.
  apply list_eq. intros j. destruct (decide (i = j)) as [->|].
  - rewrite !list_lookup_alter_eq. by destruct (l !! j).
  - by rewrite !list_lookup_alter_ne.
Qed.

Lemma setp_setp i f g s : setp i f (setp i g s) = setp i (f ∘ g) s.
Proof. unfold setp; cbn. by rewrite alter_alter. Qed.

(** A loop over the table whose body replaces its slot by [f] and does [g]
    to the rest of the state. *)
Lemma for_slots_eq (body : nat -> K unit) (f : proc -> proc) (g : proc -> kstate -> kstate)
    (P : kstate -> Prop) :
  (forall i p s w, P s -> ptable s !! i = Some p ->
     body i s w = Ok tt (g p (s <| ptable := <[i := f p]> (ptable s) |>)) w) ->
  (forall p s t, g p (s <| ptable := t |>) = g p s <| ptable := t |>) ->
  (forall p s t, P s -> P (g p (s <| ptable := t |>))) ->
  forall n k s w, length (ptable s) = (k + n)%nat -> P s ->
    for_each (seq k n) body s w =
      Ok tt (foldl (fun s p => g p s)
               (s <| ptable := take k (ptable s) ++ (f <$> drop k (ptable s)) |>)
               (drop k (ptable s))) w.
Proof.
  intros Hb Hg HP n. induction n as [|n IH]; intros k s w Hlen Hs.
  { cbn [seq for_each]. rewrite drop_ge by lia. rewrite take_ge by lia. cbn.
    rewrite app_nil_r. by destruct s. }
  cbn [seq for_each]. destruct (lookup_lt_is_Some_2 (ptable s) k) as [p Hp]; [lia|].
  erewrite bind_ok by (by apply (Hb k p)). rewrite Hg.
  assert (Hlt : (k < length (ptable s))%nat) by lia.
  rewrite IH; [|cbn; rewrite length_insert; lia|rewrite <- Hg; by apply HP].
  cbn [ptable setter]. rewrite drop_insert_lt by lia.
  erewrite take_S_r by by apply list_lookup_insert_eq. rewrite take_insert_ge by lia.
  rewrite (drop_S _ _ _ Hp). cbn [foldl fmap list_fmap]. f_equal. f_equal.
  rewrite <- app_assoc. exact (eq_sym (Hg p s _)).
Qed.
