(* ===== verification/Boot.v ===== *)
(** A concrete machine.

    A small running system to evaluate the definitions on: CPU 0, an idle
    table but for a running process in slot 0 and a runnable one in slot 1,
    every lock free, and a page of user memory at 0x1000 mapped through real
    page tables. *)

From S2P Require Import Prelude Control Memory KState.

Definition boot_cpu : cpu := mkCpu 0 0 0 true 0 0 None.

Definition kernel_locks : list lockid :=
  [PTABLE; SCHEDP; TICKSLOCK; KMEM; FTABLE; ICACHE; BCACHE; LOGLOCK; IDELOCK; CONS; INPUT;
   PIPELOCK 0xFFFF800000400000] ++
  ((fun b => SLEEPLK (BUFLK b)) <$> seq 0 NBUF) ++ ((fun i => SLEEPLK (INODELK i)) <$> seq 0 NINODE).
Definition boot_locks : gmap lockid spinlock :=
  list_to_map ((fun l => (l, unlocked)) <$> kernel_locks).

(** Page tables at physical pages 0x10000.., one each level, mapping the
    user page 0x1000 to the frame 0x20000. *)
Definition pa (a : Z) : Z := 0xFFFF800000000000 + a.
Definition boot_mem : memory :=
  let m : memory := fun _ => 0 in
  let m := store64 m (pa 0x10000) 0x11007 in
  let m := store64 m (pa 0x11000) 0x12007 in
  let m := store64 m (pa 0x12000) 0x13007 in
  store64 m (pa 0x13008) 0x20007.

Definition boot_params : sched_params := mkParams 4 6 8 500 50 10 50 0 0 0.

Definition boot_proc (st : procstate) (n : Z) : proc :=
  zero_proc <| pstate := st |> <| pid := n |> <| sz := 0x2000 |> <| pgdir := pa 0x10000 |>
            <| kstack := pa 0x30000 |> <| ticks_remaining := 4 |> <| burst_ema_fast := 100 |>
            <| burst_ema_slow := 100 |> <| parent := Some 0%nat |> <| cwd := Some 0%nat |>.
Definition boot_table : list proc :=
  boot_proc RUNNING 1 :: boot_proc RUNNABLE 2 :: replicate 62 zero_proc.

Definition boot_log : log_t := mkLog 2 30 0 0 1 0 (replicate 30 0).
Definition boot_fs : fsstate :=
  mkFs (replicate NBUF zero_buf) (seq 0 NBUF) [] 1 (0, 0) false (fun _ _ => replicate 512 0) 2000
    boot_log (mkSb 2000 1900 200 30 2 32 58) (replicate NINODE zero_inode) ∅.

Definition boot : kstate :=
  mkK boot_cpu boot_locks boot_table 3 (Some 0%nat) boot_params 7 0 0 0 0
    (replicate NFILE zero_file) ∅ (mkKmem 1 0) 0 0 boot_mem
    (mkSymbols (pa 0x100000) (pa 0x1000) (pa 0x2000) [] (fun _ => 0)) [] boot_fs
    (mkInput (replicate 128 0) 0 0 0) ∅.

(** The same, in the process in slot [i]. *)
Definition boot_in (i : nat) : kstate := boot <| kcpu ::= fun c => c <| cur := Some i |> |>.
