(* ===== verification/Spinlock.v ===== *)
(** spinlock.c: spin locks and the nesting of interrupt disabling.

    [acquire] and [release] are modelled with every check and panic of the
    code.  The loop [while(xchg(&lk->locked, 1) != 0)] spins while another CPU
    holds the lock: each failed exchange is a switch point of the monad.  The
    recorded call stack ([pcs]) is debugging output and is not kept. *)

From S2P Require Import Prelude Control KState.

Definition FL_IF : Z := 512.

Section Definitions.

Definition getlock (lk : lockid) (s : kstate) : spinlock :=
  default unlocked (locks s !! lk).
Definition upd_lock (lk : lockid) (f : spinlock -> spinlock) : K unit :=
  modify (fun s => s <| locks := <[lk := f (getlock lk s)]> (locks s) |>).

Definition initlock (lk : lockid) : K unit :=
  upd_lock lk (fun l => l <| locked := 0 |>) ;;
  upd_lock lk (fun l => l <| lk_cpu := None |>).

Definition holding_b (lk : lockid) (s : kstate) : bool :=
  z2b (locked (getlock lk s)) &&
  bool_decide (lk_cpu (getlock lk s) = Some (cpu_id (kcpu s))).
Definition holding (lk : lockid) : K bool := gets (holding_b lk).

Definition readeflags_if : K bool := gets (fun s => eflags_if (kcpu s)).
Definition cli : K unit := upd_cpu (fun c => c <| eflags_if := false |>).
Definition sti : K unit := upd_cpu (fun c => c <| eflags_if := true |>).

Definition pushcli : K unit :=
  eflags ← readeflags_if;
  cli ;;
  n ← gets (fun s => ncli (kcpu s));
  when (n =? 0) (upd_cpu (fun c => c <| intena := if eflags : bool then FL_IF else 0 |>)) ;;
  upd_cpu (fun c => c <| ncli ::= fun x => i32 (x + 1) |>).

Definition popcli : K unit :=
  eflags ← readeflags_if;
  if eflags : bool then panic "popcli - interruptible" else
  upd_cpu (fun c => c <| ncli ::= fun x => i32 (x - 1) |>) ;;
  c ← gets kcpu;
  if ncli c <? 0 then panic "popcli" else
  when ((ncli c =? 0) && z2b (intena c)) sti.

Definition acquire (lk : lockid) : K unit :=
  pushcli ;;
  h ← holding lk;
  if h : bool then panic "acquire" else
  wait_while (fun s => z2b (locked (getlock lk s))) ;;
  upd_lock lk (fun l => l <| locked := 1 |>) ;;
  c ← gets (fun s => cpu_id (kcpu s));
  upd_lock lk (fun l => l <| lk_cpu := Some c |>).

Definition release (lk : lockid) : K unit :=
  h ← holding lk;
  if negb h then panic "release" else
  upd_lock lk (fun l => l <| lk_cpu := None |>) ;;
  upd_lock lk (fun l => l <| locked := 0 |>) ;;
  popcli.

End Definitions.

(** * Behaviour on the uncontended path *)

Definition held (c : Z) : spinlock := mkSpinlock 1 (Some c).

Definition push_cpu (c : cpu) : cpu :=
  mkCpu (cpu_id c) (i32 (ncli c + 1))
    (if ncli c =? 0 then if eflags_if c then FL_IF else 0 else intena c)
    false (cr3 c) (tss_rsp0 c) (cur c).
Definition pop_cpu (c : cpu) : cpu :=
  mkCpu (cpu_id c) (i32 (ncli c - 1)) (intena c)
    ((i32 (ncli c - 1) =? 0) && z2b (intena c)) (cr3 c) (tss_rsp0 c) (cur c).

Definition enter (lk : lockid) (s : kstate) : kstate :=
  s <| kcpu ::= push_cpu |> <| locks ::= insert lk (held (cpu_id (kcpu s))) |>.
Definition leave (lk : lockid) (s : kstate) : kstate :=
  s <| kcpu ::= pop_cpu |> <| locks ::= insert lk unlocked |>.

Definition lock_free (lk : lockid) (s : kstate) : Prop := locks s !! lk = Some unlocked.
Definition lock_held (lk : lockid) (s : kstate) : Prop :=
  locks s !! lk = Some (held (cpu_id (kcpu s))).

(** The CPU's interrupt nesting is consistent: interrupts are off while
    [ncli] is positive, and the nesting stays far from overflow. *)
Definition cpu_ok (c : cpu) : Prop :=
  0 <= ncli c < 1000 /\ (0 < ncli c -> eflags_if c = false).

Lemma pushcli_eq s w : pushcli s w = Ok tt (s <| kcpu ::= push_cpu |>) w.
Proof.
  destruct s as [[]]. unfold pushcli, push_cpu. cbn.
  unfold mbind, M_bind, when. cbn. by destruct (_ =? 0).
Qed.

Lemma acquire_free lk s w :
  lock_free lk s -> acquire lk s w = Ok tt (enter lk s) w.
Proof.
  intros Hl. unfold acquire. rewrite (bind_ok _ _ _ _ _ _ _ (pushcli_eq s w)).
  unfold mbind, M_bind, holding, gets, holding_b, getlock, upd_lock, modify; cbn.
  rewrite Hl; cbn. unfold wait_while, getlock.
  destruct w as [|e w]; cbn; rewrite Hl; cbn; unfold enter, getlock; cbn;
    rewrite !lookup_insert_eq, !insert_insert_eq; done.
Qed.

Lemma release_held lk s w :
  lock_held lk s -> eflags_if (kcpu s) = false -> 0 < ncli (kcpu s) < 1000 ->
  release lk s w = Ok tt (leave lk s) w.
Proof.
  intros Hl Hif Hn. unfold release, popcli, lock_held in *.
  unfold mbind, M_bind, holding, gets, holding_b, getlock, upd_lock, modify,
    readeflags_if, upd_cpu; cbn.
  rewrite Hl; cbn. rewrite bool_decide_eq_true_2 by done. cbn.
  unfold getlock; cbn. rewrite !lookup_insert_eq, !insert_insert_eq. cbn. unfold leave.
  destruct s as [[id n it f cr ts c]]; cbn in *. rewrite Hif. cbn. unfold pop_cpu; cbn.
  rewrite i32_id by (unfold i32_range; lia).
  destruct (Z.ltb_spec (n - 1) 0); [lia|].
  unfold when, sti, upd_cpu, modify.
  by destruct ((n - 1 =? 0) && z2b it) eqn:E; cbn; rewrite ?E.
Qed.

(** The CPU after a critical section: as before, except that [intena] keeps
    the interrupt flag saved by an outermost [pushcli]. *)
Definition settle_cpu (c : cpu) : cpu :=
  c <| intena := if ncli c =? 0 then if eflags_if c then FL_IF else 0 else intena c |>.
Definition settle (s : kstate) : kstate := s <| kcpu ::= settle_cpu |>.

Lemma pop_push_cpu c : cpu_ok c -> ncli c < 999 -> pop_cpu (push_cpu c) = settle_cpu c.
Proof.
  intros [Hn Hif] Hb. destruct c as [id n it i cr ts c]; cbn in *.
  unfold pop_cpu, push_cpu, settle_cpu; cbn.
  rewrite (i32_id (n + 1)) by (unfold i32_range; lia).
  rewrite i32_id by (unfold i32_range; lia). replace (n + 1 - 1) with n by lia.
  destruct (Z.eqb_spec n 0) as [->|]; cbn; [by destruct i|]. by rewrite Hif by lia.
Qed.

(** A state change that involves neither the CPU nor the locks. *)
Definition off_cpu (g : kstate -> kstate) : Prop :=
  forall s c l, g (s <| kcpu := c |> <| locks := l |>) = g s <| kcpu := c |> <| locks := l |>.

Lemma off_cpu_kcpu g s : off_cpu g -> kcpu (g s) = kcpu s.
Proof. intros Hg. pose proof (Hg s (kcpu s) (locks s)) as H. destruct s; cbn in *. by rewrite H. Qed.

Lemma off_cpu_locks g s : off_cpu g -> locks (g s) = locks s.
Proof. intros Hg. pose proof (Hg s (kcpu s) (locks s)) as H. destruct s; cbn in *. by rewrite H. Qed.

Lemma leave_enter lk g s :
  off_cpu g -> lock_free lk s -> cpu_ok (kcpu s) -> ncli (kcpu s) < 999 ->
  leave lk (g (enter lk s)) = settle (g s).
Proof.
  intros Hg Hl Hc Hn. unfold leave, settle, enter.
  change (setter locks _ (setter kcpu push_cpu s)) with
    (s <| kcpu := push_cpu (kcpu s) |> <| locks := <[lk := held (cpu_id (kcpu s))]> (locks s) |>).
  rewrite Hg. cbn. rewrite pop_push_cpu by done.
  rewrite insert_insert_eq, insert_id by done.
  rewrite (off_cpu_kcpu _ s Hg). rewrite <- (off_cpu_locks _ s Hg). done.
Qed.

Lemma enter_held lk g s : off_cpu g -> lock_held lk (g (enter lk s)).
Proof.
  intros Hg. unfold lock_held. rewrite off_cpu_kcpu, off_cpu_locks by done. cbn.
  apply lookup_insert_eq.
Qed.

Lemma enter_ncli lk s : cpu_ok (kcpu s) -> ncli (kcpu s) < 999 ->
  ncli (kcpu (enter lk s)) = ncli (kcpu s) + 1 /\ eflags_if (kcpu (enter lk s)) = false.
Proof. intros [Hn _] Hb. cbn. rewrite i32_id by (unfold i32_range; lia). done. Qed.

Lemma acquire_then lk {A} (k : unit -> K A) s w :
  lock_free lk s -> (acquire lk ≫= k) s w = k tt (enter lk s) w.
Proof. intros. by apply bind_ok, acquire_free. Qed.

Lemma release_then lk {A} (k : unit -> K A) s w :
  lock_held lk s -> eflags_if (kcpu s) = false -> 0 < ncli (kcpu s) < 1000 ->
  (release lk ≫= k) s w = k tt (leave lk s) w.
Proof. intros. by apply bind_ok, release_held. Qed.

(** A critical section whose body is one state change. *)
Lemma section_then lk g {A} (k : unit -> K A) s w :
  off_cpu g -> lock_free lk s -> cpu_ok (kcpu s) -> ncli (kcpu s) < 999 ->
  (acquire lk ≫= (fun _ => modify g ≫= (fun _ => release lk ≫= k))) s w = k tt (settle (g s)) w.
Proof.
  intros Hg Hl Hc Hn. rewrite acquire_then by done. rewrite bind_modify.
  destruct (enter_ncli lk s Hc Hn) as [Hn' Hif]. destruct Hc.
  rewrite release_then; rewrite ?off_cpu_kcpu by done; [|by apply enter_held|done|lia].
  by rewrite leave_enter.
Qed.

Lemma section_eq lk g s w :
  off_cpu g -> lock_free lk s -> cpu_ok (kcpu s) -> ncli (kcpu s) < 999 ->
  (acquire lk ≫= (fun _ => modify g ≫= (fun _ => release lk))) s w = Ok tt (settle (g s)) w.
Proof.
  intros Hg Hl Hc Hn. rewrite acquire_then by done. rewrite bind_modify.
  destruct (enter_ncli lk s Hc Hn) as [Hn' Hif]. destruct Hc.
  rewrite release_held; rewrite ?off_cpu_kcpu by done; [|by apply enter_held|done|lia].
  by rewrite leave_enter.
Qed.

Lemma settle_nested s : 0 < ncli (kcpu s) -> settle s = s.
Proof.
  intros Hn. destruct s as [[id n it i cr ts c]]. unfold settle, settle_cpu; cbn in *.
  by destruct (Z.eqb_spec n 0); [lia|].
Qed.

(** * Interface to the invariants of the other components *)

(** An invariant that does not look at the locks nor at the CPU's interrupt
    bookkeeping. *)
Class LockInv (I : kstate -> Prop) : Prop :=
  lock_inv : forall s c l,
    I s -> cur c = cur (kcpu s) -> cpu_id c = cpu_id (kcpu s) ->
    I (s <| kcpu := c |> <| locks := l |>).

Lemma lock_inv_cpu I `{!LockInv I} s c :
  I s -> cur c = cur (kcpu s) -> cpu_id c = cpu_id (kcpu s) -> I (s <| kcpu := c |>).
Proof. intros. by apply (lock_inv s c (locks s)). Qed.

Lemma lock_inv_locks I `{!LockInv I} s l : I s -> I (s <| locks := l |>).
Proof. intros Hs. by apply (lock_inv s (kcpu s) l). Qed.

Section Preservation.
Context (I : kstate -> Prop) `{!LockInv I}.

Lemma preserves_upd_lock lk f : preserves I (upd_lock lk f).
Proof. apply preserves_modify. intros. by apply lock_inv_locks. Qed.

Lemma preserves_upd_cpu f :
  (forall c, cur (f c) = cur c /\ cpu_id (f c) = cpu_id c) -> preserves I (upd_cpu f).
Proof.
  intros Hf. apply preserves_modify. intros s Hs.
  by apply (lock_inv_cpu I s (f (kcpu s))); [|apply Hf..].
Qed.

Lemma preserves_pushcli : preserves I pushcli.
Proof.
  unfold pushcli, cli, readeflags_if.
  preserves_tac; by apply preserves_upd_cpu.
Qed.

Lemma preserves_popcli : preserves I popcli.
Proof.
  unfold popcli, sti, readeflags_if.
  preserves_tac; by apply preserves_upd_cpu.
Qed.

Lemma preserves_initlock lk : preserves I (initlock lk).
Proof. unfold initlock. preserves_tac; apply preserves_upd_lock. Qed.

Lemma preserves_acquire lk : preserves I (acquire lk).
Proof.
  unfold acquire, holding. preserves_tac; auto using preserves_pushcli, preserves_upd_lock.
Qed.

Lemma preserves_release lk : preserves I (release lk).
Proof.
  unfold release, holding. preserves_tac; auto using preserves_popcli, preserves_upd_lock.
Qed.
End Preservation.
#[export] Hint Resolve preserves_acquire preserves_release preserves_pushcli
  preserves_popcli preserves_initlock : kernel.

(** * Mutual exclusion *)

(** A party that respects the lock [lk] while CPU [c] holds it. *)
Definition respects (lk : lockid) (c : Z) (e : kstate -> kstate) : Prop :=
  forall s, locks s !! lk = Some (held c) -> locks (e s) !! lk = Some (held c).

Lemma wait_while_stuck {S} (test : S -> bool) (J : S -> Prop) s w :
  J s -> (forall s', J s' -> test s' = true) -> env_ok J w ->
  exists s', wait_while test s w = Blocked s' /\ J s'.
Proof.
  intros Hs Ht Hw. revert s Hs. induction Hw as [|e w He Hw IH]; intros s Hs; cbn;
    rewrite (Ht s Hs); eauto.
Qed.

(** [acquire] by one CPU cannot return while another CPU holds the
    lock and every other party respects it: the call keeps spinning. *)
Theorem acquire_excludes lk c s w :
  locks s !! lk = Some (held c) -> c <> cpu_id (kcpu s) -> Forall (respects lk c) w ->
  exists s', acquire lk s w = Blocked s' /\ locks s' !! lk = Some (held c).
Proof.
  intros Hl Hc Hw. unfold acquire. rewrite (bind_ok _ _ _ _ _ _ _ (pushcli_eq s w)).
  set (s1 := setter kcpu push_cpu s).
  unfold holding. rewrite bind_gets.
  replace (holding_b lk s1) with false.
  2:{ unfold holding_b, getlock; cbn. rewrite Hl; cbn.
      by rewrite bool_decide_eq_false_2 by congruence. }
  destruct (wait_while_stuck (fun s => z2b (locked (getlock lk s)))
    (fun s => locks s !! lk = Some (held c)) s1 w) as (s' & Hs' & HJ).
  - done.
  - intros s' Hs'. unfold getlock. by rewrite Hs'.
  - exact Hw.
  - exists s'. split; [|done]. by apply bind_blocked.
Qed.
