(* ===== verification/Format.v ===== *)
(** printf.c, the number printing of console.c, and [atoi] of ulib.c.

    Both printers share their number formatting and their treatment of the
    format string; [printf] also understands [%c].  A format and its output
    are lists of bytes, an argument list is a list of [arg]. *)

From S2P Require Import Prelude.

(** Bytes of a string literal. *)
Fixpoint bytes_of (s : string) : list Z :=
  match s with
  | EmptyString => []
  | String a s' => Z.of_N (Ascii.N_of_ascii a) :: bytes_of s'
  end.

(** A string with a newline at its end. *)
Definition line (s : string) : string := (s ++ String (Ascii.ascii_of_nat 10) EmptyString)%string.

Definition chr (s : string) : Z := default 0 (head (bytes_of s)).
#[global] Arguments chr : simpl never.

Section Numbers.

Definition digits : list Z := bytes_of "0123456789abcdef".
Definition digit (i : Z) : Z := default 0 (digits !! Z.to_nat i).

(** [for(i = 0; i < n; i++, x <<= 4) putc(digits[x >> (width - 4)])] *)
Fixpoint print_hex (n : nat) (width : Z) (x : Z) : list Z :=
  match n with
  | O => []
  | S n' => digit (Z.shiftr x (width - 4)) :: print_hex n' width (Z.shiftl x 4 mod 2 ^ width)
  end.
Definition print_x64 (x : Z) : list Z := print_hex 16 64 (u64 x).
Definition print_x32 (x : Z) : list Z := print_hex 8 32 (u32 x).

(** The [do ... while(x != 0)] loop filling [buf] with the digits, lowest
    first; [buf] has room for 16 characters. *)
Fixpoint print_d_loop (fuel : nat) (x : Z) : list Z :=
  match fuel with
  | O => []
  | S f =>
      let x' := Z.quot x 10 in
      digit (Z.rem x 10) :: (if x' =? 0 then [] else print_d_loop f x')
  end.
Definition print_d (v : Z) : list Z :=
  let x := if v <? 0 then - v else v in
  let buf := print_d_loop 16 x in
  let buf := if v <? 0 then buf ++ [chr "-"] else buf in
  reverse buf.

Definition atoi_step (n c : Z) : Z := i32 (n * 10 + c - chr "0").
Fixpoint atoi_loop (n : Z) (s : list Z) : Z :=
  match s with
  | c :: s' =>
      if (chr "0" <=? c) && (c <=? chr "9") then atoi_loop (atoi_step n c) s' else n
  | [] => n
  end.
Definition atoi (s : list Z) : Z := atoi_loop 0 s.

End Numbers.

Section Format.

(** The characters of an array up to its NUL. *)
Fixpoint cstr (l : list Z) : list Z :=
  match l with
  | [] => []
  | c :: l' => if c =? 0 then [] else c :: cstr l'
  end.

Inductive arg :=
| AInt (v : Z)                    (* int, uint or char *)
| APtr (x : Z)                    (* addr_t *)
| AStr (s : option (list Z)).     (* char *; None is the null pointer *)

Definition arg_word (a : arg) : Z :=
  match a with
  | AInt v => v
  | APtr x => x
  | AStr _ => 0
  end.
Definition arg_str (a : arg) : list Z :=
  match a with
  | AStr (Some s) => cstr s
  | _ => bytes_of "(null)"
  end.

(** One conversion: the bytes printed for [%c] and whether it takes an
    argument.  [with_c] is printf's extra [%c] case. *)
Definition conversion (with_c : bool) (c : Z) (a : arg) : list Z * bool :=
  if with_c && (c =? chr "c") then ([u8 (arg_word a)], true)
  else if c =? chr "d" then (print_d (i32 (arg_word a)), true)
  else if c =? chr "x" then (print_x32 (arg_word a), true)
  else if c =? chr "p" then (print_x64 (arg_word a), true)
  else if c =? chr "s" then (arg_str a, true)
  else if c =? chr "%" then ([chr "%"], false)
  else ([chr "%"; c], false).

Fixpoint format (with_c : bool) (fmt : list Z) (args : list arg) : list Z :=
  match fmt with
  | [] => []
  | c :: fmt' =>
      if c =? 0 then []
      else if negb (c =? chr "%") then c :: format with_c fmt' args
      else match fmt' with
           | [] => []
           | c' :: fmt'' =>
               if c' =? 0 then [] else
               let r := conversion with_c c' (default (AInt 0) (head args)) in
               r.1 ++ format with_c fmt'' (if r.2 then tail args else args)
           end
  end.

(** printf's output on its descriptor, and cprintf's on the console. *)
Definition printf (fmt : list Z) (args : list arg) : list Z := format true fmt args.
Definition cprintf_out (fmt : list Z) (args : list arg) : list Z := format false fmt args.

End Format.

(** * Decimal printing *)

Definition is_digit (c : Z) : Prop := 48 <= c <= 57.

Lemma digit_10 i : 0 <= i < 10 -> digit i = 48 + i.
Proof.
  intros Hi.
  assert (i = 0 \/ i = 1 \/ i = 2 \/ i = 3 \/ i = 4 \/ i = 5 \/ i = 6 \/ i = 7 \/ i = 8 \/ i = 9)
    as Hc by lia.
  by destruct_or! Hc; subst.
Qed.

(** Value of a little-endian string of decimal digits. *)
Fixpoint le_value (l : list Z) : Z :=
  match l with
  | [] => 0
  | c :: l' => (c - 48) + 10 * le_value l'
  end.

Lemma print_d_loop_value fuel x :
  0 <= x < 10 ^ Z.of_nat fuel -> le_value (print_d_loop fuel x) = x.
Proof.
  revert x. induction fuel as [|f IH]; intros x Hx; [cbn in *; lia|].
  rewrite Nat2Z.inj_succ, Z.pow_succ_r in Hx by lia.
  cbn -[Z.quot Z.rem Z.mul]. rewrite Z.quot_div_nonneg, Z.rem_mod_nonneg by lia.
  pose proof (Z.div_mod x 10 ltac:(lia)) as Hdm. pose proof (Z.mod_pos_bound x 10 ltac:(lia)).
  rewrite digit_10 by lia.
  destruct (Z.eqb_spec (x / 10) 0) as [H0|H0]; [cbn; lia|].
  rewrite IH; [lia|]. split; [lia|]. apply Z.div_lt_upper_bound; lia.
Qed.

Lemma print_d_loop_digits fuel x :
  0 <= x -> Forall is_digit (print_d_loop fuel x).
Proof.
  revert x. induction fuel as [|f IH]; intros x Hx; cbn -[Z.quot Z.rem]; [constructor|].
  rewrite Z.quot_div_nonneg, Z.rem_mod_nonneg by lia.
  pose proof (Z.mod_pos_bound x 10 ltac:(lia)).
  constructor; [rewrite digit_10 by lia; unfold is_digit; lia|].
  destruct (x / 10 =? 0); [constructor|]. apply IH, Z.div_pos; lia.
Qed.

(** [atoi] read left to right accumulates the value of the digits. *)
Fixpoint be_value (n : Z) (l : list Z) : Z :=
  match l with
  | [] => n
  | c :: l' => be_value (n * 10 + c - 48) l'
  end.

Lemma be_value_app n l c : be_value n (l ++ [c]) = be_value n l * 10 + c - 48.
Proof. revert n. induction l as [|d l IH]; intros n; cbn; [lia|]. apply IH. Qed.

Lemma be_value_reverse l : be_value 0 (reverse l) = le_value l.
Proof.
  induction l as [|c l IH]; [done|].
  rewrite reverse_cons, be_value_app, IH. cbn -[Z.mul]. lia.
Qed.

Lemma be_value_mono l n : 0 <= n -> Forall is_digit l -> n <= be_value n l.
Proof.
  intros Hn Hl. revert n Hn. induction Hl as [|c l Hc Hl IH]; intros n Hn; cbn -[Z.mul]; [lia|].
  unfold is_digit in Hc. specialize (IH (n * 10 + c - 48)). lia.
Qed.

Lemma atoi_loop_value l rest n :
  0 <= n -> Forall is_digit l -> be_value n l < 2 ^ 31 ->
  Forall (fun c => ~ is_digit c) (take 1 rest) ->
  atoi_loop n (l ++ rest) = be_value n l.
Proof.
  intros Hn Hl Hb Hr. revert n Hn Hb. induction Hl as [|c l Hc Hl IH]; intros n Hn Hb.
  - destruct rest as [|c rest]; [done|]. cbn in *. inversion Hr as [|? ? Hc _]; subst.
    unfold is_digit in Hc. change (chr "0") with 48. change (chr "9") with 57.
    destruct (Z.leb_spec 48 c), (Z.leb_spec c 57); cbn; try done; lia.
  - cbn -[Z.mul] in *. unfold is_digit in Hc. change (chr "0") with 48. change (chr "9") with 57.
    destruct (Z.leb_spec 48 c), (Z.leb_spec c 57); cbn -[Z.mul]; try lia.
    pose proof (be_value_mono l (n * 10 + c - 48) ltac:(lia) Hl).
    unfold atoi_step. change (chr "0") with 48.
    rewrite i32_id by (unfold i32_range; lia). apply IH; lia.
Qed.

(** [atoi] inverts decimal printing: for every non-negative [int] the
    digits [print_d] writes, followed by anything that does not start with a
    digit, are read back as the same number. *)
Theorem atoi_print_d v rest :
  0 <= v < 2 ^ 31 -> Forall (fun c => ~ is_digit c) (take 1 rest) ->
  atoi (print_d v ++ rest) = v.
Proof.
  intros Hv Hr. unfold atoi, print_d. destruct (Z.ltb_spec v 0); [lia|].
  assert (Hval : be_value 0 (reverse (print_d_loop 16 v)) = v).
  { rewrite be_value_reverse, print_d_loop_value; [done|]. cbn. lia. }
  rewrite atoi_loop_value; auto with lia.
  apply Forall_reverse, print_d_loop_digits. lia.
Qed.
