(* ===== verification/Sched.v ===== *)
(** proc.c: giving up and regaining the processor.

    [sched], [yield], [sleep], [wakeup] and the per-CPU [scheduler] loop with
    its MLFQ+SJF and round-robin selection; [switchuvm]/[switchkvm] of vm.c
    and [cprintf] of console.c, which they call. *)

From S2P Require Import Prelude Control KState Spinlock Format.

(** * console.c: cprintf *)

(** The characters go to the serial port and the screen; the model keeps
    them in [console]. *)
Definition cprintf (fmt : string) (args : list arg) : K unit :=
  acquire CONS ;;
  modify (fun s => s <| console ::= fun l => l ++ cprintf_out (bytes_of fmt) args |>) ;;
  release CONS.

(** * vm.c: address space switching *)

Definition KERNBASE : Z := 0xFFFF800000000000.
Definition V2P (a : Z) : Z := u64 (a - KERNBASE).
Definition P2V (a : Z) : Z := u64 (a + KERNBASE).

Definition switchuvm (i : nat) : K unit :=
  pushcli ;;
  p ← get_proc i;
  if pgdir p =? 0 then panic "switchuvm: no pgdir" else
  upd_cpu (fun c => c <| tss_rsp0 := u64 (kstack p + KSTACKSIZE) |>) ;;
  upd_cpu (fun c => c <| cr3 := V2P (pgdir p) |>) ;;
  popcli.

Definition switchkvm : K unit :=
  k ← gets kpml4;
  upd_cpu (fun c => c <| cr3 := V2P k |>).

(** * proc.c: sched, yield, sleep, wakeup *)

Section Switch.

Definition set_state (st : procstate) (i : nat) : K unit :=
  upd_proc i (fun p => p <| pstate := st |>).

Definition sched : K unit :=
  h ← holding PTABLE;
  if negb h then panic "sched ptable.lock" else
  n ← gets (fun s => ncli (kcpu s));
  if negb (n =? 1) then panic "sched locks" else
  i ← myproc;
  p ← get_proc i;
  if bool_decide (pstate p = RUNNING) then panic "sched running" else
  f ← readeflags_if;
  if f : bool then panic "sched interruptible" else
  ie ← gets (fun s => intena (kcpu s));
  interfere ;;                                   (* swtch *)
  upd_cpu (fun c => c <| intena := ie |>).

Definition yield : K unit :=
  acquire PTABLE ;;
  i ← myproc;
  upd_proc i (fun p => p <| yield_count ::= fun n => i32 (n + 1) |>) ;;
  set_state RUNNABLE i ;;
  sched ;;
  release PTABLE.

Definition sleep (ch : channel) (lk : option lockid) : K unit :=
  o ← gets (fun s => cur (kcpu s));
  match o with
  | None => panic "sleep"
  | Some i =>
      match lk with
      | None => panic "sleep without lk"
      | Some l =>
          when (bool_decide (l <> PTABLE)) (acquire PTABLE ;; release l) ;;
          upd_proc i (fun p => p <| chan := Some ch |>) ;;
          set_state SLEEPING i ;;
          sched ;;
          i' ← myproc;
          upd_proc i' (fun p => p <| chan := None |>) ;;
          when (bool_decide (l <> PTABLE)) (release PTABLE ;; acquire l)
      end
  end.

Definition wakeup1_proc (ch : option channel) (p : proc) : proc :=
  if bool_decide (pstate p = SLEEPING) && bool_decide (chan p = ch)
  then p <| pstate := RUNNABLE |> else p.
Definition wakeup1 (ch : option channel) : K unit :=
  modify (fun s => s <| ptable ::= fmap (wakeup1_proc ch) |>).

Definition wakeup (ch : channel) : K unit :=
  acquire PTABLE ;;
  wakeup1 (Some ch) ;;
  release PTABLE.

End Switch.

(** * proc.c: scheduler *)

Section Scheduler.

(** The parameters a pass works with, read once under [schedp.lock]. *)
Record snapshot := mkSnap {
  snap_boost : Z; snap_q0 : Z; snap_q1 : Z; snap_q2 : Z; snap_aging : Z; snap_rr : Z
}.
Definition take_snapshot (sp : sched_params) : snapshot :=
  mkSnap (boost_interval sp) (q0_quantum sp) (q1_quantum sp) (q2_quantum sp)
    (aging_factor sp) (rr_mode sp).

(** Step 1: priority boost. *)
Definition boost_proc (q0 : Z) (p : proc) : proc :=
  if bool_decide (pstate p = UNUSED) then p
  else p <| queue_level := 0 |> <| ticks_remaining := q0 |> <| wait_ticks := 0 |>.
Definition boost_due (sn : snapshot) (s : kstate) : bool :=
  u32 (snap_boost sn) <=? u32 (ticks s - last_boost_tick s).
Definition step_boost (sn : snapshot) : K unit :=
  due ← gets (boost_due sn);
  when due
    (modify (fun s => s <| ptable ::= fmap (boost_proc (snap_q0 sn)) |>) ;;
     modify (fun s => s <| last_boost_tick := ticks s |>)).

(** Step 2: age the runnable processes, raising the starvation alert. *)
Definition age_proc (p : proc) : proc := p <| wait_ticks ::= fun n => i32 (n + 1) |>.
Definition age_slot (i : nat) : K unit :=
  p ← get_proc i;
  when (bool_decide (pstate p = RUNNABLE))
    (upd_proc i age_proc ;;
     p' ← get_proc i;
     sp ← gets schedp;
     when ((100 <? wait_ticks p') && (sched_alert sp =? 0))
       (acquire SCHEDP ;;
        upd_schedp (fun sp => sp <| sched_alert := 1 |>) ;;
        release SCHEDP)).
Definition step_age : K unit := for_each proc_slots age_slot.

(** Step 3, [snap_rr = 1]: first runnable slot from [rr_next] on. *)
Definition rr_slot (next : Z) (i : nat) : nat :=
  Z.to_nat (Z.rem (i32 (next + Z.of_nat i)) (Z.of_nat NPROC)).
Definition is_runnable (p : proc) : bool := bool_decide (pstate p = RUNNABLE).
Definition slot_runnable (pt : list proc) (j : nat) : bool :=
  match pt !! j with
  | Some p => is_runnable p
  | None => false
  end.
Fixpoint rr_scan (next : Z) (slots : list nat) (pt : list proc) : option nat :=
  match slots with
  | [] => None
  | i :: slots' =>
      let j := rr_slot next i in
      if slot_runnable pt j then Some j else rr_scan next slots' pt
  end.
Definition rr_pick (next : Z) (pt : list proc) : option nat := rr_scan next proc_slots pt.
Definition rr_advance (j : nat) : Z := Z.rem (Z.of_nat j + 1) (Z.of_nat NPROC).

(** Step 3, [snap_rr = 0]: the queues in priority order, lowest score first.
    The C division faults for a zero divisor: [None]. *)
Definition score (aging : Z) (p : proc) : option Z :=
  if aging =? 0 then None
  else Some (i32 (Z.quot (burst_ema_fast p) 100 - i32 (Z.quot (wait_ticks p) aging))).

Definition in_queue (q : Z) (p : proc) : bool := is_runnable p && (queue_level p =? q).

Definition score_of (pt : list proc) (i : nat) : Z :=
  effective_score (default zero_proc (pt !! i)).

Fixpoint scan_queue (aging q : Z) (slots : list nat) (pt : list proc) (best : option nat)
  : option (list proc * option nat) :=
  match slots with
  | [] => Some (pt, best)
  | i :: slots' =>
      match pt !! i with
      | Some p =>
          if in_queue q p then
            match score aging p with
            | None => None
            | Some sc =>
                let pt' := <[i := p <| effective_score := sc |>]> pt in
                let best' :=
                  match best with
                  | None => Some i
                  | Some b => if sc <? score_of pt' b then Some i else Some b
                  end in
                scan_queue aging q slots' pt' best'
            end
          else scan_queue aging q slots' pt best
      | None => scan_queue aging q slots' pt best
      end
  end.

Fixpoint mlfq_scan (aging : Z) (queues : list Z) (pt : list proc)
  : option (list proc * option nat) :=
  match queues with
  | [] => Some (pt, None)
  | q :: queues' =>
      match scan_queue aging q proc_slots pt None with
      | None => None
      | Some (pt', Some b) => Some (pt', Some b)
      | Some (pt', None) => mlfq_scan aging queues' pt'
      end
  end.
Definition mlfq_pick (aging : Z) (pt : list proc) : option (list proc * option nat) :=
  mlfq_scan aging [0; 1; 2] pt.

Definition step_select (sn : snapshot) : K (option nat) :=
  s ← get;
  if z2b (snap_rr sn) then
    match rr_pick (rr_next s) (ptable s) with
    | Some j => modify (fun s => s <| rr_next := rr_advance j |>) ;; mret (Some j)
    | None => mret None
    end
  else
    match mlfq_pick (snap_aging sn) (ptable s) with
    | None => panic "trap"                       (* divide error in the kernel *)
    | Some (pt', best) => modify (fun s => s <| ptable := pt' |>) ;; mret best
    end.

(** Step 4: dispatch. *)
Definition quantum (sn : snapshot) (level : Z) : Z :=
  if level =? 0 then snap_q0 sn else if level =? 1 then snap_q1 sn else snap_q2 sn.
Definition dispatch_proc (sn : snapshot) (now : Z) (p : proc) : proc :=
  let p := p <| wait_ticks := 0 |> in
  let p := p <| burst_start_tick := i32 now |> in
  let p := if first_run_tick p =? 0 then p <| first_run_tick := i32 now |> else p in
  p <| ticks_remaining := quantum sn (queue_level p) |>.
Definition step_dispatch (sn : snapshot) (j : nat) : K unit :=
  now ← gets ticks;
  upd_proc j (dispatch_proc sn now) ;;
  upd_cpu (fun c => c <| cur := Some j |>) ;;
  switchuvm j ;;
  set_state RUNNING j ;;
  interfere ;;                                   (* swtch *)
  switchkvm ;;
  upd_cpu (fun c => c <| cur := None |>).

(** One iteration of the [for(;;)] loop. *)
Definition scheduler_pass : K unit :=
  sti ;;
  acquire PTABLE ;;
  acquire SCHEDP ;;
  sn ← gets (fun s => take_snapshot (schedp s));
  release SCHEDP ;;
  step_boost sn ;;
  step_age ;;
  best ← step_select sn;
  match best with
  | Some j => step_dispatch sn j
  | None => mret tt
  end ;;
  release PTABLE ;;
  when (bool_decide (best = None)) interfere.    (* hlt *)

Fixpoint scheduler (passes : nat) : K unit :=
  match passes with
  | O => mret tt
  | S n => scheduler_pass ;; scheduler n
  end.

End Scheduler.
