(* ===== verification/Selection.v ===== *)
(** What the scheduler's selection computes: the MLFQ+SJF scan picks, in the
    highest-priority non-empty queue, the runnable process with the least
    score, first slot first; the round-robin scan picks the next runnable slot
    in cyclic order and bypasses no runnable slot more than [NPROC] times. *)

From S2P Require Import Prelude Control KState Spinlock Format Sched.

(** * Abstract specification *)

(** The score of scheduler(), for a non-zero aging factor. *)
Definition eff (aging : Z) (p : proc) : Z :=
  i32 (Z.quot (burst_ema_fast p) 100 - i32 (Z.quot (wait_ticks p) aging)).

(** [j] is the winner of queue [q]: least score, ties to the lowest slot. *)
Definition winner (aging q : Z) (pt : list proc) (j : nat) : Prop :=
  exists p, pt !! j = Some p /\ in_queue q p = true /\
    forall k p', pt !! k = Some p' -> in_queue q p' = true ->
      eff aging p < eff aging p' \/ (eff aging p = eff aging p' /\ (j <= k)%nat).

Definition queue_empty (q : Z) (pt : list proc) : Prop :=
  forall k p, pt !! k = Some p -> in_queue q p = false.

(** Two tables that agree on everything but the recorded scores. *)
Definition unscored (p : proc) : proc := p <| effective_score := 0 |>.
Definition same_but_scores (pt pt' : list proc) : Prop :=
  (unscored <$> pt) = (unscored <$> pt').

Lemma in_queue_score q p sc : in_queue q (p <| effective_score := sc |>) = in_queue q p.
Proof. done. Qed.

Lemma eff_score aging p sc : eff aging (p <| effective_score := sc |>) = eff aging p.
Proof. done. Qed.

Lemma same_but_scores_lookup pt pt' k p' :
  same_but_scores pt pt' -> pt' !! k = Some p' ->
  exists p, pt !! k = Some p /\ (forall q, in_queue q p = in_queue q p') /\
    (forall a, eff a p = eff a p') /\ pstate p = pstate p' /\ queue_level p = queue_level p'.
Proof.
  intros Heq Hk. assert (Hf : (unscored <$> pt) !! k = (unscored <$> pt') !! k) by by rewrite Heq.
  rewrite !list_lookup_fmap, Hk in Hf. cbn in Hf.
  destruct (pt !! k) as [p|]; [|done]. exists p. injection Hf as Hp.
  destruct p, p'. cbn in *. by simplify_eq.
Qed.

Lemma same_but_scores_insert pt i p sc :
  pt !! i = Some p -> same_but_scores pt (<[i := p <| effective_score := sc |>]> pt).
Proof.
  intros Hi. unfold same_but_scores. rewrite list_fmap_insert.
  symmetry. apply list_insert_id. by rewrite list_lookup_fmap, Hi.
Qed.

Lemma same_but_scores_sym pt pt' : same_but_scores pt pt' -> same_but_scores pt' pt.
Proof. by unfold same_but_scores. Qed.

Lemma same_but_scores_trans pt1 pt2 pt3 :
  same_but_scores pt1 pt2 -> same_but_scores pt2 pt3 -> same_but_scores pt1 pt3.
Proof. unfold same_but_scores. by intros -> ->. Qed.

Lemma same_but_scores_length pt pt' : same_but_scores pt pt' -> length pt' = length pt.
Proof.
  intros H. apply (f_equal length) in H. rewrite !length_fmap in H. done.
Qed.

Lemma queue_empty_scores q pt pt' :
  same_but_scores pt pt' -> queue_empty q pt' -> queue_empty q pt.
Proof.
  intros Hs He k p Hk.
  destruct (same_but_scores_lookup _ _ _ _ (same_but_scores_sym _ _ Hs) Hk) as (p' & Hp' & Hq & _).
  rewrite <- Hq. by eapply He.
Qed.

Lemma winner_scores aging q pt pt' j :
  same_but_scores pt pt' -> winner aging q pt' j -> winner aging q pt j.
Proof.
  intros Hs (p' & Hj & Hq & Hmin).
  destruct (same_but_scores_lookup _ _ _ _ Hs Hj) as (p & Hp & Hpq & Hpe & _).
  exists p. rewrite Hpq. split_and!; [done..|]. intros k r Hk Hr.
  destruct (same_but_scores_lookup _ _ _ _ (same_but_scores_sym _ _ Hs) Hk) as (r' & Hr' & Hrq & Hre & _).
  rewrite Hpe, <- Hre. eapply Hmin; [exact Hr'|]. by rewrite Hrq.
Qed.

(** * The scan of one queue *)

(** What the scan knows after the slots below [k]. *)
Definition best_upto (aging q : Z) (pt : list proc) (k : nat) (best : option nat) : Prop :=
  match best with
  | None => forall i p, (i < k)%nat -> pt !! i = Some p -> in_queue q p = false
  | Some b => (b < k)%nat /\ exists p, pt !! b = Some p /\ in_queue q p = true /\
      effective_score p = eff aging p /\
      forall i p', (i < k)%nat -> pt !! i = Some p' -> in_queue q p' = true ->
        eff aging p < eff aging p' \/ (eff aging p = eff aging p' /\ (b <= i)%nat)
  end.

Lemma best_upto_skip aging q pt k best p :
  pt !! k = Some p -> in_queue q p = false ->
  best_upto aging q pt k best -> best_upto aging q pt (S k) best.
Proof.
  intros Hk Hq. destruct best as [b|]; cbn.
  - intros (Hb & r & Hr & Hrq & Hrs & Hmin). split; [lia|]. exists r. split_and!; [done..|].
    intros i p' Hi Hp' Hin. destruct (decide (i = k)) as [->|]; [congruence|].
    apply Hmin; [lia|done..].
  - intros Hn i p' Hi Hp'. destruct (decide (i = k)) as [->|]; [congruence|].
    apply (Hn i); [lia|done].
Qed.

Lemma best_upto_take aging q pt k best p :
  pt !! k = Some p -> in_queue q p = true ->
  best_upto aging q pt k best ->
  let pt' := <[k := p <| effective_score := eff aging p |>]> pt in
  best_upto aging q pt' (S k)
    (match best with
     | None => Some k
     | Some b => if eff aging p <? score_of pt' b then Some k else Some b
     end).
Proof.
  intros Hk Hq Hb pt'.
  assert (Hlen : (k < length pt)%nat) by by eapply lookup_lt_Some.
  assert (Hat : pt' !! k = Some (p <| effective_score := eff aging p |>))
    by by apply list_lookup_insert_eq.
  assert (Hbelow : forall i r, (i < S k)%nat -> pt' !! i = Some r ->
    (i = k /\ r = p <| effective_score := eff aging p |>) \/ ((i < k)%nat /\ pt !! i = Some r)).
  { intros i r Hi Hr. destruct (decide (i = k)) as [->|]; [left; by simplify_eq|].
    right. split; [lia|]. unfold pt' in Hr. by rewrite list_lookup_insert_ne in Hr by done. }
  destruct best as [b|]; cbn in Hb.
  - destruct Hb as (Hbk & r & Hr & Hrq & Hrs & Hmin).
    assert (Hrb : pt' !! b = Some r) by (unfold pt'; by rewrite list_lookup_insert_ne by lia).
    assert (Hscore : score_of pt' b = eff aging r) by (unfold score_of; by rewrite Hrb).
    rewrite Hscore. destruct (Z.ltb_spec (eff aging p) (eff aging r)) as [Hlt|Hge]; cbn.
    + split; [lia|]. eexists. split_and!; [exact Hat|done..|].
      intros i p' Hi Hp' Hin. destruct (Hbelow i p' Hi Hp') as [[-> ->]|[Hik Hpi]].
      * right. done.
      * left. rewrite eff_score. destruct (Hmin i p' Hik Hpi Hin); lia.
    + split; [lia|]. exists r. split_and!; [done..|].
      intros i p' Hi Hp' Hin. destruct (Hbelow i p' Hi Hp') as [[-> ->]|[Hik Hpi]].
      * rewrite eff_score. lia.
      * by apply Hmin.
  - split; [lia|]. eexists. split_and!; [exact Hat|done..|].
    intros i p' Hi Hp' Hin. destruct (Hbelow i p' Hi Hp') as [[-> ->]|[Hik Hpi]]; [by right|].
    by rewrite (Hb i p' Hik Hpi) in Hin.
Qed.

Lemma scan_queue_correct aging q n k pt best :
  aging <> 0 -> length pt = (k + n)%nat -> best_upto aging q pt k best ->
  exists pt' best', scan_queue aging q (seq k n) pt best = Some (pt', best') /\
    same_but_scores pt pt' /\ best_upto aging q pt' (k + n) best'.
Proof.
  intros Ha. revert k pt best. induction n as [|n IH]; intros k pt best Hlen Hb; cbn.
  { exists pt, best. rewrite Nat.add_0_r. done. }
  destruct (lookup_lt_is_Some_2 pt k) as [p Hp]; [lia|]. rewrite Hp.
  replace (k + S n)%nat with (S k + n)%nat in * by lia.
  destruct (in_queue q p) eqn:Hq.
  - unfold score. destruct (Z.eqb_spec aging 0); [done|]. fold (eff aging p).
    set (pt1 := <[k := _]> pt). pose proof (best_upto_take _ _ _ _ _ _ Hp Hq Hb) as Hb1.
    destruct (IH (S k) pt1 _ ltac:(unfold pt1; by rewrite length_insert) Hb1) as (pt' & best' & Hs & Heq & Hbest).
    exists pt', best'. split_and!; [exact Hs| |done].
    eapply same_but_scores_trans; [|exact Heq]. by apply same_but_scores_insert.
  - apply IH; [done|]. by eapply best_upto_skip.
Qed.

Lemma scan_queue_all aging q pt :
  aging <> 0 -> length pt = NPROC ->
  exists pt' best, scan_queue aging q proc_slots pt None = Some (pt', best) /\
    same_but_scores pt pt' /\
    match best with
    | Some j => winner aging q pt j
    | None => queue_empty q pt
    end.
Proof.
  intros Ha Hlen. destruct (scan_queue_correct aging q NPROC 0 pt None Ha Hlen)
    as (pt' & best & Hs & Heq & Hb). { intros i p Hi. lia. }
  exists pt', best. split_and!; [done..|].
  assert (Hin : forall i r, pt' !! i = Some r -> (i < 0 + NPROC)%nat).
  { intros i r Hr. apply lookup_lt_Some in Hr.
    rewrite (same_but_scores_length _ _ Heq), Hlen in Hr. lia. }
  destruct best as [j|].
  - eapply winner_scores; [exact Heq|]. destruct Hb as (_ & p & Hp & Hq & _ & Hmin).
    exists p. split_and!; [done..|]. intros k p' Hk. apply Hmin; [by eapply Hin|done].
  - eapply queue_empty_scores; [exact Heq|]. intros k p Hk. apply (Hb k); [by eapply Hin|done].
Qed.

(** * The whole selection *)

Definition level_ok (p : proc) : Prop := 0 <= queue_level p <= 2.

(** With a non-zero aging factor the MLFQ+SJF selection never
    faults; it changes only recorded scores; it returns the winner of the
    highest-priority non-empty queue, and nothing exactly when all three
    queues are empty. *)
Lemma mlfq_pick_spec aging pt :
  aging <> 0 -> length pt = NPROC ->
  exists pt' best, mlfq_pick aging pt = Some (pt', best) /\ same_but_scores pt pt' /\
    match best with
    | Some j => exists q, 0 <= q <= 2 /\ winner aging q pt j /\
                  forall q', 0 <= q' < q -> queue_empty q' pt
    | None => forall q, 0 <= q <= 2 -> queue_empty q pt
    end.
Proof.
  intros Ha Hlen. unfold mlfq_pick. cbn [mlfq_scan].
  destruct (scan_queue_all aging 0 pt Ha Hlen) as (pt0 & b0 & -> & Hs0 & Hb0).
  destruct b0 as [j|].
  { exists pt0, (Some j). split_and!; [done..|]. exists 0. split_and!; [lia..|done|lia]. }
  destruct (scan_queue_all aging 1 pt0 Ha) as (pt1 & b1 & -> & Hs1 & Hb1).
  { by rewrite (same_but_scores_length _ _ Hs0). }
  assert (Hs01 : same_but_scores pt pt1) by by eapply same_but_scores_trans.
  destruct b1 as [j|].
  { exists pt1, (Some j). split_and!; [done..|]. exists 1. split_and!; [lia..| |].
    - eapply winner_scores; [exact Hs0|done].
    - intros q' Hq'. by replace q' with 0 by lia. }
  destruct (scan_queue_all aging 2 pt1 Ha) as (pt2 & b2 & -> & Hs2 & Hb2).
  { by rewrite (same_but_scores_length _ _ Hs01). }
  apply (queue_empty_scores _ pt) in Hb1; [|exact Hs0].
  assert (Hs02 : same_but_scores pt pt2) by by eapply same_but_scores_trans.
  destruct b2 as [j|].
  - exists pt2, (Some j). split_and!; [done..|]. exists 2. split_and!; [lia..| |].
    + eapply winner_scores; [exact Hs01|done].
    + intros q' Hq'. assert (q' = 0 \/ q' = 1) as [->| ->] by lia; done.
  - exists pt2, None. split_and!; [done..|]. intros q Hq.
    apply (queue_empty_scores _ pt) in Hb2; [|exact Hs01].
    assert (q = 0 \/ q = 1 \/ q = 2) as [->|[->| ->]] by lia; done.
Qed.

(** * Round robin *)

(** How many slots the scan from [next] visits before slot [k]. *)
Definition rr_dist (next : Z) (k : nat) : Z := (Z.of_nat k - next) mod Z.of_nat NPROC.

Definition rr_next_ok (next : Z) : Prop := 0 <= next < Z.of_nat NPROC.

Lemma rr_slot_eq next i :
  rr_next_ok next -> (i < NPROC)%nat ->
  Z.of_nat (rr_slot next i) = (next + Z.of_nat i) mod Z.of_nat NPROC.
Proof.
  unfold rr_next_ok, rr_slot. change (Z.of_nat NPROC) with 64. unfold NPROC. intros Hn Hi.
  rewrite i32_id by (unfold i32_range; lia).
  rewrite Z.rem_mod_nonneg by lia. rewrite Z2Nat.id; [done|]. apply Z.mod_pos_bound. lia.
Qed.

Lemma rr_slot_dist next i :
  rr_next_ok next -> (i < NPROC)%nat -> rr_dist next (rr_slot next i) = Z.of_nat i.
Proof.
  intros Hn Hi. unfold rr_dist. rewrite rr_slot_eq by done.
  unfold rr_next_ok, NPROC in *. cbn in *. Z.to_euclidean_division_equations. lia.
Qed.

Lemma rr_slot_of_dist next k :
  rr_next_ok next -> (k < NPROC)%nat -> rr_slot next (Z.to_nat (rr_dist next k)) = k.
Proof.
  intros Hn Hk. apply Nat2Z.inj. rewrite rr_slot_eq; [|done|].
  - unfold rr_dist, rr_next_ok, NPROC in *. cbn in *. Z.to_euclidean_division_equations. lia.
  - unfold rr_dist, rr_next_ok, NPROC in *. cbn in *. Z.to_euclidean_division_equations. lia.
Qed.

Lemma rr_scan_correct next pt n i :
  match rr_scan next (seq i n) pt with
  | Some j => exists d, (i <= d < i + n)%nat /\ j = rr_slot next d /\ slot_runnable pt j = true /\
      forall d', (i <= d' < d)%nat -> slot_runnable pt (rr_slot next d') = false
  | None => forall d', (i <= d' < i + n)%nat -> slot_runnable pt (rr_slot next d') = false
  end.
Proof.
  revert i. induction n as [|n IH]; intros i; cbn; [intros; lia|].
  destruct (slot_runnable pt (rr_slot next i)) eqn:E.
  { exists i. split_and!; [lia..|done|done|]. intros; lia. }
  specialize (IH (S i)). destruct (rr_scan next (seq (S i) n) pt) as [j|].
  - destruct IH as (d & Hd & -> & Hr & Hmin). exists d. split_and!; [lia..|done|done|].
    intros d' Hd'. destruct (decide (d' = i)) as [->|]; [done|]. apply Hmin. lia.
  - intros d' Hd'. destruct (decide (d' = i)) as [->|]; [done|]. apply IH. lia.
Qed.

Lemma rr_dist_range next k : 0 <= rr_dist next k < Z.of_nat NPROC.
Proof. apply Z.mod_pos_bound. unfold NPROC. lia. Qed.

(** The round-robin scan returns a runnable slot that no other
    runnable slot precedes in cyclic order from [rr_next], and nothing exactly
    when no slot is runnable. *)
Lemma rr_pick_spec next pt :
  rr_next_ok next -> length pt = NPROC ->
  match rr_pick next pt with
  | Some j => (j < NPROC)%nat /\ slot_runnable pt j = true /\
      forall k, (k < NPROC)%nat -> slot_runnable pt k = true -> rr_dist next j <= rr_dist next k
  | None => forall k, slot_runnable pt k = false
  end.
Proof.
  intros Hn Hlen. unfold rr_pick, proc_slots. pose proof (rr_scan_correct next pt NPROC 0) as H.
  assert (Hd : forall k, (Z.to_nat (rr_dist next k) < NPROC)%nat)
    by (intros k; pose proof (rr_dist_range next k); lia).
  destruct (rr_scan next (seq 0 NPROC) pt) as [j|].
  - destruct H as (d & Hdn & -> & Hr & Hmin).
    assert (Hj : (rr_slot next d < NPROC)%nat).
    { unfold slot_runnable in Hr. destruct (pt !! rr_slot next d) eqn:E; [|done].
      apply lookup_lt_Some in E. lia. }
    split_and!; [done..|]. intros k Hk Hkr. rewrite rr_slot_dist by (done || lia).
    destruct (Z.le_gt_cases (Z.of_nat d) (rr_dist next k)); [done|].
    pose proof (rr_dist_range next k).
    specialize (Hmin (Z.to_nat (rr_dist next k)) ltac:(lia)).
    rewrite rr_slot_of_dist in Hmin by done. congruence.
  - intros k. destruct (decide (k < NPROC)%nat) as [Hk|Hk].
    + rewrite <- (rr_slot_of_dist next k) by done. apply H. specialize (Hd k). lia.
    + unfold slot_runnable. rewrite lookup_ge_None_2; [done|lia].
Qed.

(** The dispatches of consecutive round-robin passes over the given tables. *)
Fixpoint rr_run (next : Z) (tables : list (list proc)) : list nat :=
  match tables with
  | [] => []
  | pt :: tables' =>
      match rr_pick next pt with
      | Some j => j :: rr_run (rr_advance j) tables'
      | None => rr_run next tables'
      end
  end.

Lemma rr_advance_dist next j k :
  rr_next_ok next -> (j < NPROC)%nat -> (k < NPROC)%nat -> j <> k ->
  rr_dist next j <= rr_dist next k ->
  rr_next_ok (rr_advance j) /\ rr_dist (rr_advance j) k < rr_dist next k.
Proof.
  unfold rr_next_ok, rr_dist, rr_advance, NPROC. cbn. intros Hn Hj Hk Hne Hd.
  rewrite Z.rem_mod_nonneg by lia. Z.to_euclidean_division_equations. lia.
Qed.

Lemma rr_run_reaches next tables k :
  rr_next_ok next -> (k < NPROC)%nat ->
  Forall (fun pt => length pt = NPROC /\ slot_runnable pt k = true) tables ->
  rr_dist next k < Z.of_nat (length tables) -> k ∈ rr_run next tables.
Proof.
  intros Hn Hk Ht. revert next Hn. induction Ht as [|pt tables [Hlen Hr] Ht IH]; intros next Hn Hd.
  { pose proof (rr_dist_range next k). cbn in Hd. lia. }
  cbn [rr_run]. pose proof (rr_pick_spec next pt Hn Hlen) as Hp.
  destruct (rr_pick next pt) as [j|]; [|by rewrite Hp in Hr].
  destruct Hp as (Hj & Hjr & Hmin). destruct (decide (j = k)) as [->|Hne]; [by left|].
  right. destruct (rr_advance_dist next j k) as [Hn' Hlt]; auto.
  apply IH; [done|]. cbn [length] in Hd. lia.
Qed.

(** C10: in round-robin mode no process starves: a slot that stays
    runnable is dispatched within [NPROC] passes, whatever the other slots
    do. *)
Theorem rr_no_starvation next tables k :
  rr_next_ok next -> (k < NPROC)%nat -> length tables = NPROC ->
  Forall (fun pt => length pt = NPROC /\ slot_runnable pt k = true) tables ->
  k ∈ rr_run next tables.
Proof.
  intros Hn Hk Hlen Ht. apply rr_run_reaches; [done..|].
  pose proof (rr_dist_range next k). lia.
Qed.
