(* ===== verification/Pass.v ===== *)
(** One pass of the scheduler as a function of the state it starts in: the
    table after boosting and aging, the process chosen, and the state in which
    control is handed to it. *)

From S2P Require Import Prelude Control KState Spinlock Format Sched Selection.

(** * Aging *)

Definition age_runnable (p : proc) : proc := if is_runnable p then age_proc p else p.
Definition starving (p : proc) : bool := is_runnable p && (100 <? wait_ticks (age_proc p)).
Definition alert_if (b : bool) (sp : sched_params) : sched_params :=
  if b && (sched_alert sp =? 0) then sp <| sched_alert := 1 |> else sp.

(** Inside the scheduler's critical section, with [schedp.lock] free. *)
Definition in_section (s : kstate) : Prop :=
  lock_free SCHEDP s /\ cpu_ok (kcpu s) /\ 0 < ncli (kcpu s) < 999.

Lemma in_section_eq s s' :
  kcpu s' = kcpu s -> locks s' = locks s -> in_section s -> in_section s'.
Proof. unfold in_section, lock_free. by intros -> ->. Qed.

Lemma alert_if_alert b b' sp :
  alert_if b' (alert_if b sp) = alert_if (b || b') sp.
Proof.
  unfold alert_if. destruct b, b'; cbn; destruct (sched_alert sp =? 0) eqn:E; cbn; by rewrite ?E.
Qed.

Lemma age_slot_eq i p s w :
  ptable s !! i = Some p -> in_section s ->
  age_slot i s w =
    Ok tt (s <| ptable := <[i := age_runnable p]> (ptable s) |>
             <| schedp ::= alert_if (starving p) |>) w.
Proof.
  intros Hi (Hl & Hc & Hn). unfold age_slot, get_proc. rewrite bind_gets.
  rewrite (getp_lookup _ _ _ Hi). unfold starving, age_runnable, is_runnable.
  destruct (bool_decide (pstate p = RUNNABLE)) eqn:E; cbn [when andb].
  2:{ unfold alert_if; cbn. rewrite list_insert_id by done. by destruct s. }
  unfold upd_proc. rewrite bind_modify, bind_gets, bind_gets.
  assert (Hpt : ptable (setp i age_proc s) = <[i := age_proc p]> (ptable s)).
  { unfold setp; cbn. apply list_eq. intros k. rewrite list_lookup_alter.
    destruct (decide (i = k)) as [->|]; [|by rewrite list_lookup_insert_ne].
    rewrite Hi, list_lookup_insert_eq; [done|by eapply lookup_lt_Some]. }
  rewrite (getp_lookup i (age_proc p) (setp i age_proc s))
    by (rewrite Hpt; apply list_lookup_insert_eq; by eapply lookup_lt_Some).
  unfold alert_if. change (schedp (setp i age_proc s)) with (schedp s).
  destruct ((100 <? wait_ticks (age_proc p)) && (sched_alert (schedp s) =? 0)) eqn:Ea; cbn [when].
  - unfold upd_schedp. rewrite section_eq; [|by intros ??|done|done|cbn; lia].
    rewrite settle_nested by (cbn; lia).
    unfold setp in *. cbn in *. by rewrite Hpt, Ea.
  - destruct s. unfold setp in *. cbn in *. by rewrite Hpt, Ea.
Qed.

Lemma age_slots_eq n k s w :
  length (ptable s) = (k + n)%nat -> in_section s ->
  for_each (seq k n) age_slot s w =
    Ok tt (s <| ptable ::= fun pt => take k pt ++ (age_runnable <$> drop k pt) |>
             <| schedp ::= alert_if (existsb starving (drop k (ptable s))) |>) w.
Proof.
  revert k s. induction n as [|n IH]; intros k s Hlen Hs.
  { cbn [seq for_each]. rewrite Nat.add_0_r in Hlen. rewrite drop_ge by lia.
    cbn. rewrite (take_ge (ptable s)), (drop_ge (ptable s)), app_nil_r by lia.
    by destruct s. }
  cbn [seq for_each]. destruct (lookup_lt_is_Some_2 (ptable s) k) as [p Hp]; [lia|].
  erewrite bind_ok; [|by eapply age_slot_eq].
  rewrite IH; [|cbn; rewrite length_insert; lia|by eapply in_section_eq; [..|exact Hs]].
  cbn. rewrite drop_insert_lt by lia. rewrite alert_if_alert, (drop_S _ _ _ Hp).
  erewrite take_S_r by (apply list_lookup_insert_eq; by eapply lookup_lt_Some).
  rewrite take_insert_ge by lia. rewrite <- app_assoc. done.
Qed.

Lemma step_age_eq s w :
  ptable_wf s -> in_section s ->
  step_age s w = Ok tt (s <| ptable ::= fmap age_runnable |>
                          <| schedp ::= alert_if (existsb starving (ptable s)) |>) w.
Proof. intros Hwf Hs. unfold step_age, proc_slots. by rewrite age_slots_eq. Qed.

(** * Switching address spaces *)

Lemma switchuvm_eq i s w :
  pgdir (getp i s) <> 0 -> cpu_ok (kcpu s) -> 0 < ncli (kcpu s) < 999 ->
  switchuvm i s w =
    Ok tt (s <| kcpu ::= fun c => c <| tss_rsp0 := u64 (kstack (getp i s) + KSTACKSIZE) |>
                                    <| cr3 := V2P (pgdir (getp i s)) |> |>) w.
Proof.
  intros Hp [Hc Hif] Hn. unfold switchuvm. rewrite (bind_ok _ _ _ _ _ _ _ (pushcli_eq s w)).
  unfold get_proc. rewrite bind_gets.
  change (getp i (setter kcpu push_cpu s)) with (getp i s).
  destruct (Z.eqb_spec (pgdir (getp i s)) 0); [done|].
  unfold upd_cpu. rewrite !bind_modify.
  destruct s as [[id n' it f cr ts c]]; cbn in *. unfold popcli, readeflags_if, upd_cpu.
  rewrite bind_gets. cbn. rewrite bind_modify, bind_gets. cbn.
  rewrite (i32_id (n' + 1)) by (unfold i32_range; lia).
  rewrite i32_id by (unfold i32_range; lia). replace (n' + 1 - 1) with n' by lia.
  destruct (Z.ltb_spec n' 0); [lia|]. destruct (Z.eqb_spec n' 0); [lia|]. cbn.
  rewrite (Hif ltac:(lia)). done.
Qed.

(** * A whole pass *)

(** The conditions a pass starts in: the CPU is in the scheduler with no lock
    held, the two locks it takes are free, and the table is well formed. *)
Record sched_ready (s : kstate) : Prop := {
  sr_ptable : lock_free PTABLE s;
  sr_schedp : lock_free SCHEDP s;
  sr_ncli : ncli (kcpu s) = 0;
  sr_wf : ptable_wf s;
  sr_aging : aging_factor (schedp s) <> 0;
  sr_next : rr_next_ok (rr_next s);
  sr_levels : all_procs level_ok s;
  sr_pgdir : all_procs (fun p => pstate p = RUNNABLE -> pgdir p <> 0) s
}.

(** The table the selection sees. *)
Definition boosted (sn : snapshot) (s : kstate) : list proc :=
  if boost_due sn s then boost_proc (snap_q0 sn) <$> ptable s else ptable s.
Definition pass_table (s : kstate) : list proc :=
  age_runnable <$> boosted (take_snapshot (schedp s)) s.

(** Whom the pass must choose. *)
Definition chosen (sn : snapshot) (next : Z) (pt : list proc) (j : nat) : Prop :=
  if z2b (snap_rr sn) then
    slot_runnable pt j = true /\
    forall k, (k < NPROC)%nat -> slot_runnable pt k = true -> rr_dist next j <= rr_dist next k
  else exists q, 0 <= q <= 2 /\ winner (snap_aging sn) q pt j /\
         forall q', 0 <= q' < q -> queue_empty q' pt.

Definition running (sn : snapshot) (now : Z) (p : proc) : proc :=
  dispatch_proc sn now p <| pstate := RUNNING |>.

Lemma is_runnable_age p : is_runnable (age_runnable p) = is_runnable p.
Proof. unfold age_runnable. by destruct (is_runnable p) eqn:E; rewrite ?E. Qed.

Lemma boost_proc_state q0 p : pstate (boost_proc q0 p) = pstate p /\ pgdir (boost_proc q0 p) = pgdir p.
Proof. unfold boost_proc. by case_bool_decide. Qed.

Lemma pass_table_Forall (P : proc -> Prop) s :
  all_procs P s -> (forall q0 p, P p -> P (boost_proc q0 p)) -> (forall p, P p -> P (age_runnable p)) ->
  Forall P (pass_table s).
Proof.
  intros Hs Hb Ha. unfold pass_table, boosted. apply Forall_fmap.
  destruct (boost_due _ s).
  - apply Forall_fmap. eapply Forall_impl; [exact Hs|]. intros p Hp. by apply Ha, Hb.
  - eapply Forall_impl; [exact Hs|]. intros p Hp. by apply Ha.
Qed.

Lemma slot_runnable_pass s k : slot_runnable (pass_table s) k = slot_runnable (ptable s) k.
Proof.
  unfold slot_runnable, pass_table, boosted. rewrite list_lookup_fmap.
  destruct (boost_due _ s).
  - rewrite list_lookup_fmap. destruct (ptable s !! k) as [p|]; cbn; [|done].
    rewrite is_runnable_age. unfold is_runnable. by rewrite (proj1 (boost_proc_state _ p)).
  - destruct (ptable s !! k); cbn; [|done]. by rewrite is_runnable_age.
Qed.

Lemma length_pass_table s : length (pass_table s) = length (ptable s).
Proof.
  unfold pass_table, boosted. rewrite length_fmap. destruct (boost_due _ s); by rewrite ?length_fmap.
Qed.

(** The state of the pass just before step 3. *)
Definition before_select (s : kstate) : kstate :=
  let sn := take_snapshot (schedp s) in
  enter PTABLE (s <| kcpu ::= fun c => c <| eflags_if := true |> |>)
    <| ptable := pass_table s |>
    <| last_boost_tick := if boost_due sn s then ticks s else last_boost_tick s |>
    <| schedp ::= alert_if (existsb starving (boosted sn s)) |>.

Lemma step_boost_eq sn s w :
  step_boost sn s w =
    Ok tt (s <| ptable := boosted sn s |>
             <| last_boost_tick := if boost_due sn s then ticks s else last_boost_tick s |>) w.
Proof.
  unfold step_boost, boosted. rewrite bind_gets. destruct (boost_due sn s); cbn [when].
  - by rewrite bind_modify.
  - by destruct s.
Qed.

Lemma pass_prefix {A} s w (k : snapshot -> K A) :
  sched_ready s ->
  (sti ;; acquire PTABLE ;; acquire SCHEDP ;;
   sn ← gets (fun s => take_snapshot (schedp s));
   release SCHEDP ;; step_boost sn ;; step_age ;; k sn) s w =
  k (take_snapshot (schedp s)) (before_select s) w.
Proof.
  intros Hr. destruct Hr as [Hpl Hsl Hn Hwf _ _ _ _]. unfold sti, upd_cpu. rewrite bind_modify.
  set (s0 := setter kcpu _ s). rewrite (acquire_then PTABLE _ s0) by done.
  assert (Hfree : lock_free SCHEDP (enter PTABLE s0)).
  { unfold lock_free; cbn. by rewrite lookup_insert_ne. }
  assert (Hncli : ncli (kcpu (enter PTABLE s0)) = 1) by (cbn; rewrite Hn; done).
  assert (Hok : cpu_ok (kcpu (enter PTABLE s0))) by (split; [rewrite Hncli; lia|done]).
  rewrite acquire_then by done. rewrite bind_gets.
  destruct (enter_ncli SCHEDP _ Hok ltac:(lia)) as [Hn2 Hif2].
  rewrite release_then by (try apply (enter_held SCHEDP (fun s => s)); done || lia).
  rewrite (leave_enter SCHEDP (fun s => s)) by (done || lia).
  rewrite settle_nested by lia.
  erewrite bind_ok; [|apply step_boost_eq].
  erewrite bind_ok.
  2:{ apply step_age_eq.
      - unfold ptable_wf, boosted. cbn. destruct (boost_due _ _); by rewrite ?length_fmap.
      - apply (in_section_eq (enter PTABLE s0)); [done..|]. split_and!; [done|done|lia..]. }
  done.
Qed.

Lemma level_ok_boost q0 p : level_ok p -> level_ok (boost_proc q0 p).
Proof. unfold level_ok, boost_proc. case_bool_decide; cbn; lia. Qed.

Lemma level_ok_age p : level_ok p -> level_ok (age_runnable p).
Proof. unfold age_runnable. by destruct (is_runnable p). Qed.

Lemma pgdir_age p :
  (pstate p = RUNNABLE -> pgdir p <> 0) ->
  pstate (age_runnable p) = RUNNABLE -> pgdir (age_runnable p) <> 0.
Proof. unfold age_runnable. by destruct (is_runnable p). Qed.

Lemma pass_pgdir s :
  all_procs (fun p => pstate p = RUNNABLE -> pgdir p <> 0) s ->
  Forall (fun p => pstate p = RUNNABLE -> pgdir p <> 0) (pass_table s).
Proof.
  intros Hs. apply pass_table_Forall; [done| |exact pgdir_age].
  intros q0 p. by destruct (boost_proc_state q0 p) as [-> ->].
Qed.

Lemma chosen_runnable sn next pt j :
  chosen sn next pt j -> exists p, pt !! j = Some p /\ pstate p = RUNNABLE.
Proof.
  unfold chosen. destruct (z2b (snap_rr sn)).
  - unfold slot_runnable, is_runnable. intros [Hj _]. destruct (pt !! j) as [p|]; [|done].
    exists p. by apply bool_decide_eq_true in Hj.
  - intros (q & _ & (p & Hp & Hq & _) & _). exists p. split; [done|].
    unfold in_queue, is_runnable in Hq. apply andb_true_iff in Hq as [Hq _].
    by apply bool_decide_eq_true in Hq.
Qed.

Lemma same_but_scores_lookup' pt pt' k p :
  same_but_scores pt pt' -> pt !! k = Some p -> exists p', pt' !! k = Some p' /\ pgdir p = pgdir p'.
Proof.
  intros Heq Hk. assert (Hf : (unscored <$> pt) !! k = (unscored <$> pt') !! k) by by rewrite Heq.
  rewrite !list_lookup_fmap, Hk in Hf. destruct (pt' !! k) as [p'|]; [|done].
  exists p'. injection Hf as Hp. destruct p, p'. cbn in *. by simplify_eq.
Qed.

(** What [step_select] computes from the table of the pass. *)
Lemma step_select_eq s w :
  sched_ready s -> rr_next (before_select s) = rr_next s ->
  let sn := take_snapshot (schedp s) in
  exists s2 best, step_select sn (before_select s) w = Ok best s2 w /\
    same_but_scores (pass_table s) (ptable s2) /\
    (exists n, s2 = before_select s <| ptable := ptable s2 |> <| rr_next := n |>) /\
    match best with
    | Some j => chosen sn (rr_next s) (pass_table s) j
    | None => forall k, slot_runnable (ptable s) k = false
    end.
Proof.
  intros Hr Hnext sn. destruct Hr as [_ _ _ Hwf Hag Hrn Hlv _].
  assert (Hlen : length (pass_table s) = NPROC) by by rewrite length_pass_table.
  unfold step_select. unfold mbind at 1, M_bind at 1, get at 1. rewrite Hnext. cbv zeta.
  change (ptable (before_select s)) with (pass_table s).
  unfold chosen. destruct (z2b (snap_rr sn)) eqn:Err.
  - pose proof (rr_pick_spec (rr_next s) (pass_table s) Hrn Hlen) as Hp.
    destruct (rr_pick (rr_next s) (pass_table s)) as [j|].
    + destruct Hp as (_ & Hj & Hmin). rewrite bind_modify.
      eexists _, (Some j). split_and!; [done|done|by eexists|done..].
    + eexists _, None. split_and!; [done|done| |].
      * exists (rr_next (before_select s)). by destruct (before_select s).
      * intros k. by rewrite <- slot_runnable_pass.
  - destruct (mlfq_pick_spec (snap_aging sn) (pass_table s) Hag Hlen) as (pt' & best & -> & Hs & Hb).
    rewrite bind_modify. eexists _, best. split_and!; [done|done|by eexists|].
    destruct best as [j|]; [done|]. intros k. rewrite <- slot_runnable_pass.
    unfold slot_runnable. destruct (pass_table s !! k) as [p|] eqn:Hk; [|done].
    assert (Hl : level_ok p).
    { eapply (Forall_lookup_1 level_ok); [|exact Hk].
      apply pass_table_Forall; auto using level_ok_boost, level_ok_age. }
    specialize (Hb (queue_level p) Hl k p Hk). unfold in_queue in Hb.
    rewrite Z.eqb_refl, andb_true_r in Hb. done.
Qed.

Lemma dispatch_pgdir sn now p : pgdir (dispatch_proc sn now p) = pgdir p.
Proof. unfold dispatch_proc. cbn. by destruct (first_run_tick p =? 0). Qed.

Lemma step_dispatch_blocked sn j p s :
  ptable s !! j = Some p -> pgdir p <> 0 -> cpu_ok (kcpu s) -> 0 < ncli (kcpu s) < 999 ->
  exists s', step_dispatch sn j s [] = Blocked s' /\
    ptable s' = alter (running sn (ticks s)) j (ptable s) /\ locks s' = locks s /\
    cur (kcpu s') = Some j /\ ncli (kcpu s') = ncli (kcpu s) /\ cpu_id (kcpu s') = cpu_id (kcpu s).
Proof.
  intros Hj Hp Hc Hn. unfold step_dispatch. rewrite bind_gets.
  unfold upd_proc, upd_cpu. rewrite bind_modify, bind_modify.
  set (s1 := setter kcpu _ _).
  assert (Hj1 : getp j s1 = dispatch_proc sn (ticks s) p).
  { apply getp_lookup. unfold s1, setp; cbn. by rewrite list_lookup_alter_eq, Hj. }
  erewrite bind_ok; [|apply switchuvm_eq; [by rewrite Hj1, dispatch_pgdir|done|done]].
  unfold set_state, upd_proc. rewrite bind_modify.
  eexists. split; [reflexivity|]. cbn. split_and!; try done.
  by rewrite list_alter_alter_eq.
Qed.

(** A pass, by what the selection found. *)
Lemma scheduler_pass_runs s :
  sched_ready s ->
  let sn := take_snapshot (schedp s) in
  exists s' best pt', scheduler_pass s [] = Blocked s' /\ same_but_scores (pass_table s) pt' /\
    match best with
    | Some j => chosen sn (rr_next s) (pass_table s) j /\ ptable s' = alter (running sn (ticks s)) j pt' /\
        cur (kcpu s') = Some j /\ lock_held PTABLE s' /\ ncli (kcpu s') = 1
    | None => (forall k, slot_runnable (ptable s) k = false) /\ ptable s' = pt' /\
        lock_free PTABLE s' /\ ncli (kcpu s') = 0 /\ eflags_if (kcpu s') = true
    end.
Proof.
  intros Hr sn. unfold scheduler_pass. rewrite pass_prefix by done. fold sn.
  destruct (step_select_eq s [] Hr eq_refl) as (s2 & best & Hsel & Hsc & (n & Hs2) & Hbest).
  fold sn in Hsel, Hbest. rewrite (bind_ok _ _ _ _ _ _ _ Hsel).
  assert (Hcpu : kcpu s2 = kcpu (before_select s)) by by rewrite Hs2.
  assert (Hlk : locks s2 = locks (before_select s)) by by rewrite Hs2.
  assert (Hticks : ticks s2 = ticks s) by by rewrite Hs2.
  pose proof (sr_ncli s Hr) as Hncli.
  assert (Hn2 : ncli (kcpu s2) = 1) by (rewrite Hcpu; cbn; by rewrite Hncli).
  assert (Hok : cpu_ok (kcpu s2)) by (split; [lia|by rewrite Hcpu]).
  destruct best as [j|].
  - destruct (chosen_runnable _ _ _ _ Hbest) as (p & Hp & Hrun).
    destruct (same_but_scores_lookup' _ _ _ _ Hsc Hp) as (p2 & Hp2 & Hpg).
    destruct (step_dispatch_blocked sn j p2 s2 Hp2) as (s' & Hs' & Hpt & Hl & Hcur & Hncl & Hid);
      [|done|lia|].
    { rewrite <- Hpg. revert Hrun. eapply (Forall_lookup_1 _ _ _ _ (pass_pgdir s (sr_pgdir s Hr)) Hp). }
    exists s', (Some j), (ptable s2). split; [by rewrite (bind_blocked _ _ _ _ _ Hs')|]. split; [done|]. rewrite Hpt, Hticks. split_and!; try done; [|lia].
    unfold lock_held. rewrite Hl, Hid, Hlk, Hcpu. cbn. by rewrite lookup_insert_eq.
  - rewrite bind_mret. rewrite release_then; [|unfold lock_held; rewrite Hlk, Hcpu; cbn;
      by rewrite lookup_insert_eq|by rewrite Hcpu|lia].
    cbn [when bool_decide]. eexists _, None, (ptable s2). split; [reflexivity|]. split; [done|]. split_and!; try done.
    + unfold lock_free. cbn. apply lookup_insert_eq.
    + cbn. rewrite Hn2. done.
    + cbn. rewrite Hn2, Hcpu. cbn. by rewrite Hncli.
Qed.

(** C2: a pass of the scheduler, run up to the point where the CPU is handed
    over, either dispatches the process the policy designates (the winner of
    the highest-priority non-empty queue, or the next runnable slot in
    round-robin mode) with a fresh quantum and holding only [ptable.lock], or
    finds no runnable process at all and halts with no lock held and
    interrupts enabled.  It never panics. *)
Theorem scheduler_pass_dispatches s :
  sched_ready s ->
  let sn := take_snapshot (schedp s) in
  exists s', scheduler_pass s [] = Blocked s' /\
    ((exists j pt', chosen sn (rr_next s) (pass_table s) j /\
        same_but_scores (pass_table s) pt' /\
        ptable s' = alter (running sn (ticks s)) j pt' /\
        cur (kcpu s') = Some j /\ lock_held PTABLE s' /\ ncli (kcpu s') = 1)
     \/ ((forall k, slot_runnable (ptable s) k = false) /\
         lock_free PTABLE s' /\ ncli (kcpu s') = 0 /\ eflags_if (kcpu s') = true /\
         same_but_scores (pass_table s) (ptable s'))).
Proof.
  intros Hr sn. destruct (scheduler_pass_runs s Hr) as (s' & [j|] & pt' & E & Hsc & H); exists s'; (split; [exact E|]).
  - left. exists j, pt'. destruct H as (? & ? & ? & ? & ?). done.
  - right. destruct H as (? & <- & ? & ? & ?). done.
Qed.
