(* ===== verification/Kalloc.v ===== *)
(** kalloc.c: the physical page allocator.

    Free pages form a linked list threaded through the pages themselves
    ([struct run]); the model keeps it in memory, as the code does.  The
    abstract view is the list of free pages; allocation and release refine
    popping and pushing on it. *)

From S2P Require Import Prelude Control KState Spinlock Format Sched Memory.

Definition PGSIZE : Z := 4096.
Definition PHYSTOP : Z := 0xE000000.
Definition PGROUNDUP (a : Z) : Z := Z.land (u64 (a + (PGSIZE - 1))) (u64 (Z.lnot (PGSIZE - 1))).
Definition PGROUNDDOWN (a : Z) : Z := Z.land a (u64 (Z.lnot (PGSIZE - 1))).

Section Definitions.

Definition upd_mem (f : memory -> memory) : K unit := modify (fun s => s <| mem ::= f |>).
Definition upd_kmem (f : kmem_t -> kmem_t) : K unit := modify (fun s => s <| kmem ::= f |>).

(** [kfree]'s sanity check on the page it is given. *)
Definition kfree_bad (v : Z) (s : kstate) : bool :=
  negb (v mod PGSIZE =? 0) || (v <? sym_end (syms s)) || (PHYSTOP <=? V2P v).

Definition kfree (v : Z) : K unit :=
  bad ← gets (kfree_bad v);
  if bad : bool then panic "kfree" else
  upd_mem (fun m => memset m v 1 PGSIZE) ;;
  ul ← gets (fun s => use_lock (kmem s));
  when (z2b ul) (acquire KMEM) ;;
  h ← gets (fun s => freelist (kmem s));
  upd_mem (fun m => store64 m v h) ;;
  upd_kmem (fun k => k <| freelist := v |>) ;;
  ul' ← gets (fun s => use_lock (kmem s));
  when (z2b ul') (release KMEM).

Definition kalloc : K Z :=
  ul ← gets (fun s => use_lock (kmem s));
  when (z2b ul) (acquire KMEM) ;;
  r ← gets (fun s => freelist (kmem s));
  (if z2b r then
     m ← gets mem;
     upd_kmem (fun k => k <| freelist := load64 m r |>)
   else panic "Out of memory!") ;;
  ul' ← gets (fun s => use_lock (kmem s));
  when (z2b ul') (release KMEM) ;;
  mret r.

(** [for(; p + PGSIZE <= vend; p += PGSIZE) kfree(p)]; the fuel is the number
    of pages between the two addresses. *)
Fixpoint freerange_loop (fuel : nat) (p vend : Z) : K unit :=
  match fuel with
  | O => mret tt
  | S f =>
      if p + PGSIZE <=? vend then kfree p ;; freerange_loop f (p + PGSIZE) vend
      else mret tt
  end.
Definition freerange (vstart vend : Z) : K unit :=
  let p := PGROUNDUP vstart in
  freerange_loop (Z.to_nat ((vend - p) / PGSIZE)) p vend.

Definition kinit1 (vstart vend : Z) : K unit :=
  initlock KMEM ;;
  upd_kmem (fun k => k <| use_lock := 0 |>) ;;
  upd_kmem (fun k => k <| freelist := 0 |>) ;;
  freerange vstart vend.

Definition kinit2 : K unit := upd_kmem (fun k => k <| use_lock := 1 |>).

End Definitions.

(** * The list of free pages *)

(** A page the allocator may hold. *)
Definition page_ok (sy : symbols) (v : Z) : Prop :=
  v mod PGSIZE = 0 /\ sym_end sy <= v /\ V2P v < PHYSTOP /\ 0 < v < 2 ^ 64 - PGSIZE.

Fixpoint free_chain (m : memory) (h : Z) (l : list Z) : Prop :=
  match l with
  | [] => h = 0
  | v :: l' => h = v /\ free_chain m (load64 m v) l'
  end.

Definition free_pages (s : kstate) (l : list Z) : Prop :=
  free_chain (mem s) (freelist (kmem s)) l /\ NoDup l /\ Forall (page_ok (syms s)) l.

(** The allocator's lock is usable from here. *)
Definition kmem_ready (s : kstate) : Prop :=
  (use_lock (kmem s) = 0 \/ (use_lock (kmem s) = 1 /\ lock_free KMEM s)) /\
  cpu_ok (kcpu s) /\ ncli (kcpu s) < 999.

Lemma page_disjoint u v :
  u mod PGSIZE = 0 -> v mod PGSIZE = 0 -> u <> v -> u + PGSIZE <= v \/ v + PGSIZE <= u.
Proof.
  unfold PGSIZE. intros Hu Hv Hne.
  pose proof (Z.div_mod u 4096). pose proof (Z.div_mod v 4096). lia.
Qed.

(** Changing one page leaves a chain through other pages alone. *)
Lemma free_chain_frame sy m m' v h l :
  v mod PGSIZE = 0 -> Forall (page_ok sy) l -> v ∉ l ->
  (forall x, ~ (v <= x < v + PGSIZE) -> m' x = m x) ->
  free_chain m h l -> free_chain m' h l.
Proof.
  intros Hv Hl Hin Hm. revert h. induction Hl as [|u l Hu Hl IH]; intros h; cbn; [done|].
  apply not_elem_of_cons in Hin as [Hne Hin]. intros [-> Hc]. split; [done|].
  replace (load64 m' u) with (load64 m u); [by apply IH|].
  apply load64_frame. intros x Hx. symmetry. apply Hm.
  destruct Hu as [Hu _]. destruct (page_disjoint u v Hu Hv) as [?|?]; unfold PGSIZE in *; [done|lia..].
Qed.

Lemma page_not_bad s v : page_ok (syms s) v -> kfree_bad v s = false.
Proof.
  intros (Ha & He & Hp & _). unfold kfree_bad. rewrite Ha, Z.eqb_refl; cbn.
  apply orb_false_iff. split; [by apply Z.ltb_ge|by apply Z.leb_gt].
Qed.

Definition same_except_mem (s s' : kstate) : Prop :=
  s' = s <| kcpu := kcpu s' |> <| kmem := kmem s' |> <| mem := mem s' |> /\
  cpu_ok (kcpu s') /\ cur (kcpu s') = cur (kcpu s) /\ ncli (kcpu s') = ncli (kcpu s) /\
  eflags_if (kcpu s') = eflags_if (kcpu s) /\ cpu_id (kcpu s') = cpu_id (kcpu s) /\
  use_lock (kmem s') = use_lock (kmem s).

(** The state after the allocator has applied [g] under its lock. *)
Definition after_kmem (g : kstate -> kstate) (s : kstate) : kstate :=
  if z2b (use_lock (kmem s)) then settle (g s) else g s.

(** The allocator's two critical sections differ in their body only. *)
Lemma kmem_release g s w :
  off_cpu g -> (forall s, use_lock (kmem (g s)) = use_lock (kmem s)) ->
  lock_free KMEM s -> cpu_ok (kcpu s) -> ncli (kcpu s) < 999 ->
  release KMEM (g (enter KMEM s)) w = Ok tt (settle (g s)) w.
Proof.
  intros Hg Hu Hl Hc Hn. destruct (enter_ncli KMEM s Hc Hn) as [Hn' Hif]. pose proof (proj1 Hc).
  rewrite release_held; rewrite ?off_cpu_kcpu by done; [|by apply enter_held|done|lia].
  by rewrite leave_enter.
Qed.

Lemma after_kmem_same g s :
  off_cpu g -> g s = s <| kmem := kmem (g s) |> <| mem := mem (g s) |> -> cpu_ok (kcpu s) ->
  use_lock (kmem (g s)) = use_lock (kmem s) ->
  same_except_mem s (after_kmem g s).
Proof.
  intros Hg Hs Hc Hu. unfold after_kmem, same_except_mem.
  destruct (z2b _); cbn; rewrite ?(off_cpu_kcpu g s Hg); split_and!; try done.
  by rewrite Hs at 1.
Qed.

Lemma after_kmem_pages g s l :
  free_pages (g s) l -> free_pages (after_kmem g s) l.
Proof. unfold after_kmem. by destruct (z2b _). Qed.

Lemma kfree_run v l s w :
  free_pages s l -> page_ok (syms s) v -> v ∉ l -> kmem_ready s ->
  exists s', kfree v s w = Ok tt s' w /\ free_pages s' (v :: l) /\ same_except_mem s s' /\
    forall x, ~ (v <= x < v + PGSIZE) -> mem s' x = mem s x.
Proof.
  intros (Hch & Hnd & Hall) Hv Hin Hr. set (h := freelist (kmem s)).
  set (g := fun s => s <| mem ::= fun m => store64 (memset m v 1 PGSIZE) v h |>
                       <| kmem ::= fun k => k <| freelist := v |> |>).
  assert (Hmem : forall x, ~ (v <= x < v + PGSIZE) -> mem (g s) x = mem s x).
  { intros x Hx. cbn. unfold store64, PGSIZE in *.
    ranges; rewrite memset_fill by lia; unfold fill; ranges. }
  exists (after_kmem g s). split_and!.
  - unfold kfree. rewrite bind_gets, page_not_bad by done.
    unfold upd_mem, upd_kmem. rewrite bind_modify, bind_gets. unfold after_kmem.
    change (use_lock (kmem (setter mem _ s))) with (use_lock (kmem s)).
    destruct Hr as ([E|[E Hl]] & Hc & Hn); rewrite E; cbn [z2b Z.eqb negb when].
    + rewrite bind_mret, bind_gets, !bind_modify, bind_gets. unfold g; cbn. by rewrite E.
    + rewrite acquire_then by done. rewrite bind_gets, !bind_modify, bind_gets.
      etrans; [|by apply (kmem_release g s w)]. unfold g; cbn. by rewrite E.
  - apply after_kmem_pages. unfold free_pages. cbn. split_and!; [done|..].
    + rewrite load64_store64, u64_id.
      * destruct Hv as (Hv & _). eapply (free_chain_frame (syms s) (mem s)); eauto.
      * unfold u64_range, h. destruct l as [|u l]; cbn in Hch; [lia|].
        destruct Hch as [Hhd _]. rewrite Hhd. apply Forall_cons_1 in Hall as [(_ & _ & _ & Hu) _]. unfold PGSIZE in *. lia.
    + by constructor.
    + by constructor.
  - apply after_kmem_same; [done..| |done]. by destruct Hr as (_ & Hc & _).
  - intros x Hx. rewrite <- Hmem by done. unfold after_kmem. by destruct (z2b _).
Qed.

Lemma kalloc_run v l s w :
  free_pages s (v :: l) -> kmem_ready s ->
  exists s', kalloc s w = Ok v s' w /\ free_pages s' l /\ same_except_mem s s' /\ mem s' = mem s.
Proof.
  intros (Hch & Hnd & Hall) Hr. cbn in Hch. destruct Hch as [Hh Hch].
  apply NoDup_cons in Hnd as [Hin Hnd]. apply Forall_cons_1 in Hall as [Hv Hall].
  set (g := fun s => s <| kmem ::= fun k => k <| freelist := load64 (mem s) v |> |>).
  assert (Hz : z2b v = true).
  { destruct Hv as (_ & _ & _ & Hv). unfold z2b. by destruct (Z.eqb_spec v 0); [lia|]. }
  exists (after_kmem g s). split_and!.
  - unfold kalloc. rewrite bind_gets. unfold after_kmem.
    destruct Hr as ([E|[E Hl]] & Hc & Hn); rewrite E; cbn [z2b Z.eqb negb when].
    + rewrite bind_mret, bind_gets, Hh. rewrite Hz. rewrite bind_assoc, bind_gets.
      unfold upd_kmem. rewrite bind_modify, bind_gets. unfold g; cbn. by rewrite E.
    + rewrite acquire_then by done. rewrite bind_gets. cbn [kmem freelist enter].
      change (freelist (kmem (enter KMEM s))) with (freelist (kmem s)). rewrite Hh, Hz.
      rewrite bind_assoc, bind_gets. unfold upd_kmem. rewrite bind_modify, bind_gets.
      erewrite bind_ok; [done|]. etrans; [|by apply (kmem_release g s w)]. unfold g; cbn. by rewrite E.
  - by apply after_kmem_pages.
  - apply after_kmem_same; [done..| |done]. by destruct Hr as (_ & Hc & _).
  - unfold after_kmem. by destruct (z2b (use_lock _)).
Qed.

Lemma free_pages_head s l : free_pages s l -> freelist (kmem s) = default 0 (head l).
Proof. intros (Hch & _). destruct l; cbn in Hch; naive_solver. Qed.

Lemma kmem_ready_same s s' : same_except_mem s s' -> kmem_ready s -> kmem_ready s'.
Proof.
  intros (Hs & Hc & _ & Hn & _ & _ & Hu) ([E|[E Hl]] & _ & Hb); split_and!; try done; try lia.
  right. split; [lia|]. unfold lock_free in *. by rewrite Hs.
Qed.

(** * The allocator as a stack of pages *)

(** [kfree] and [kalloc] refine a stack of distinct free pages kept
    through links inside the pages: freeing a page that is not free pushes
    it, touching no byte outside it, and the next allocation returns exactly
    that page and restores the list; nothing but the allocator's own state
    and the freed page changes. *)
Theorem kfree_kalloc_stack v l s w :
  free_pages s l -> page_ok (syms s) v -> v ∉ l -> kmem_ready s ->
  exists s1 s2, kfree v s w = Ok tt s1 w /\ free_pages s1 (v :: l) /\
    (forall x, ~ (v <= x < v + PGSIZE) -> mem s1 x = mem s x) /\ same_except_mem s s1 /\
    kalloc s1 w = Ok v s2 w /\ free_pages s2 l /\ mem s2 = mem s1 /\ same_except_mem s1 s2.
Proof.
  intros Hl Hv Hin Hr. destruct (kfree_run v l s w Hl Hv Hin Hr) as (s1 & H1 & Hp1 & Hs1 & Hm1).
  destruct (kalloc_run v l s1 w Hp1 (kmem_ready_same _ _ Hs1 Hr)) as (s2 & H2 & Hp2 & Hs2 & Hm2).
  by exists s1, s2.
Qed.

(** With no free page left [kalloc] panics, whatever the caller: it has
    no failing return value. *)
Theorem kalloc_exhausted s w :
  free_pages s [] -> kmem_ready s -> exists s', kalloc s w = Panic "Out of memory!" s'.
Proof.
  intros (Hch & _) ([E|[E Hl]] & Hc & Hn). all: cbn in Hch; unfold kalloc; rewrite bind_gets, E;
    cbn [z2b Z.eqb negb when].
  - rewrite bind_mret, bind_gets, Hch. eexists. reflexivity.
  - rewrite acquire_then by done. rewrite bind_gets.
    change (freelist (kmem (enter KMEM s))) with (freelist (kmem s)). rewrite Hch.
    eexists. reflexivity.
Qed.
