(* ===== verification/Vm.v ===== *)
(** vm.c: four-level page tables.

    Page tables are 4096-byte pages of 512 eight-byte entries in memory;
    [walkpgdir] descends from a PML4, allocating missing levels on request, and
    the other routines are built on it as in the code.  A pointer to a page
    table entry is its address, 0 for none. *)

From S2P Require Import Prelude Control KState Spinlock Format Sched Memory Kalloc.

(** * mmu.h *)

Definition NPDENTRIES : nat := 512.
Definition PTXSHIFT : Z := 12.
Definition PDXSHIFT : Z := 21.
Definition PDPXSHIFT : Z := 30.
Definition PML4XSHIFT : Z := 39.
Definition PXMASK : Z := 0x1FF.
Definition PMX (va : Z) : Z := Z.land (Z.shiftr va PML4XSHIFT) PXMASK.
Definition PDPX (va : Z) : Z := Z.land (Z.shiftr va PDPXSHIFT) PXMASK.
Definition PDX (va : Z) : Z := Z.land (Z.shiftr va PDXSHIFT) PXMASK.
Definition PTX (va : Z) : Z := Z.land (Z.shiftr va PTXSHIFT) PXMASK.

Definition PTE_P : Z := 0x001.
Definition PTE_W : Z := 0x002.
Definition PTE_U : Z := 0x004.
Definition PTE_PWT : Z := 0x008.
Definition PTE_PCD : Z := 0x010.
Definition PTE_PS : Z := 0x080.
Definition PTE_ADDR (pte : Z) : Z := Z.land pte (u64 (Z.lnot 0xFFF)).
Definition PTE_FLAGS (pte : Z) : Z := Z.land pte 0xFFF.

(** [entry & flag] as a condition. *)
Definition has (flag entry : Z) : bool := negb (Z.land entry flag =? 0).

Section Walk.

Definition read64 (a : Z) : K Z := gets (fun s => load64 (mem s) a).
Definition write64 (a v : Z) : K unit := upd_mem (fun m => store64 m a v).

(** A zeroed page. *)
Definition kalloc_zeroed : K Z :=
  p ← kalloc;
  upd_mem (fun m => memset m p 0 PGSIZE) ;;
  mret p.

(** One level of [walkpgdir]: the table an entry points to, [None] when it
    is absent and [alloc] is 0 or the allocation fails. *)
Definition walk_level (table idx : Z) (alloc : bool) : K (option Z) :=
  let e := table + 8 * idx in
  v ← read64 e;
  if has PTE_P v then mret (Some (P2V (PTE_ADDR v)))
  else if negb alloc then mret None
  else
    t ← kalloc;
    if t =? 0 then mret None
    else
      upd_mem (fun m => memset m t 0 PGSIZE) ;;
      write64 e (Z.lor (Z.lor (Z.lor (V2P t) PTE_P) PTE_W) PTE_U) ;;
      mret (Some t).

Definition walkpgdir (pml4 va : Z) (alloc : bool) : K Z :=
  pdp ← walk_level pml4 (PMX va) alloc;
  match pdp with
  | None => mret 0
  | Some pdp =>
      pd ← walk_level pdp (PDPX va) alloc;
      match pd with
      | None => mret 0
      | Some pd =>
          pgtab ← walk_level pd (PDX va) alloc;
          match pgtab with
          | None => mret 0
          | Some pgtab => mret (pgtab + 8 * PTX va)
          end
      end
  end.

End Walk.

Section Operations.

Definition setupkvm : K Z :=
  pml4 ← kalloc;
  upd_mem (fun m => memset m pml4 0 PGSIZE) ;;
  k ← gets kpdpt;
  write64 (pml4 + 8 * 256) (Z.lor (Z.lor (V2P k) PTE_P) PTE_W) ;;
  mret pml4.

Definition kvmalloc : K unit :=
  p4 ← kalloc_zeroed;
  modify (fun s => s <| kpml4 := p4 |>) ;;
  pd ← kalloc_zeroed;
  modify (fun s => s <| kpdpt := pd |>) ;;
  write64 (p4 + 8 * PMX KERNBASE) (Z.lor (Z.lor (V2P pd) PTE_P) PTE_W) ;;
  write64 (pd + 8 * 0) (Z.lor (Z.lor PTE_PS PTE_P) PTE_W) ;;
  write64 (pd + 8 * 3)
    (Z.lor (Z.lor (Z.lor (Z.lor (Z.lor 0xC0000000 PTE_PS) PTE_P) PTE_W) PTE_PWT) PTE_PCD) ;;
  switchkvm.

(** The [for(;;)] loop of [mappages]; the fuel is the number of pages up to
    [last], and running past it means the loop would not end. *)
Fixpoint mappages_loop (fuel : nat) (pgdir a last pa perm : Z) : K Z :=
  match fuel with
  | O => no_return
  | S f =>
      pte ← walkpgdir pgdir a true;
      if pte =? 0 then mret (-1) else
      v ← read64 pte;
      if has PTE_P v then panic "remap" else
      write64 pte (Z.lor (Z.lor pa perm) PTE_P) ;;
      if a =? last then mret 0
      else mappages_loop f pgdir (u64 (a + PGSIZE)) last (u64 (pa + PGSIZE)) perm
  end.
Definition mappages (pgdir va size pa perm : Z) : K Z :=
  let a := PGROUNDDOWN va in
  let last := PGROUNDDOWN (u64 (va + size - 1)) in
  mappages_loop (Z.to_nat (u64 (last - a) / PGSIZE + 1)) pgdir a last pa perm.

Definition inituvm (pgdir : Z) (init : list Z) : K unit :=
  if PGSIZE <=? Z.of_nat (length init) then panic "inituvm: more than a page" else
  mem0 ← kalloc_zeroed;
  _ ← mappages pgdir PGSIZE PGSIZE (V2P mem0) (Z.lor PTE_W PTE_U);
  upd_mem (fun m => write_bytes m mem0 init).

(** [for(; a < oldsz; a += PGSIZE)] of [deallocuvm]. *)
Fixpoint deallocuvm_loop (fuel : nat) (pgdir a oldsz : Z) : K unit :=
  match fuel with
  | O => mret tt
  | S f =>
      if a <? oldsz then
        pte ← walkpgdir pgdir a false;
        v ← (if pte =? 0 then mret 0 else read64 pte);
        (if negb (pte =? 0) && has PTE_P v then
           let pa := PTE_ADDR v in
           if pa =? 0 then panic "kfree" else
           kfree (P2V pa) ;;
           write64 pte 0
         else mret tt) ;;
        deallocuvm_loop f pgdir (a + PGSIZE) oldsz
      else mret tt
  end.
Definition pages_between (a b : Z) : nat := Z.to_nat ((b - a + PGSIZE - 1) / PGSIZE).
Definition deallocuvm (pgdir oldsz newsz : Z) : K Z :=
  if oldsz <=? newsz then mret oldsz else
  let a := PGROUNDUP newsz in
  deallocuvm_loop (pages_between a oldsz) pgdir a oldsz ;;
  mret newsz.

Fixpoint allocuvm_loop (fuel : nat) (pgdir a oldsz newsz : Z) : K Z :=
  match fuel with
  | O => mret newsz
  | S f =>
      if a <? newsz then
        mem0 ← kalloc;
        if mem0 =? 0 then
          _ ← deallocuvm pgdir newsz oldsz;
          mret 0
        else
          upd_mem (fun m => memset m mem0 0 PGSIZE) ;;
          r ← mappages pgdir a PGSIZE (V2P mem0) (Z.lor PTE_W PTE_U);
          if r <? 0 then
            _ ← deallocuvm pgdir newsz oldsz;
            kfree mem0 ;;
            mret 0
          else allocuvm_loop f pgdir (a + PGSIZE) oldsz newsz
      else mret newsz
  end.
Definition allocuvm (pgdir oldsz newsz : Z) : K Z :=
  if KERNBASE <=? newsz then mret 0 else
  if newsz <? oldsz then mret oldsz else
  let a := PGROUNDUP oldsz in
  allocuvm_loop (pages_between a newsz) pgdir a oldsz newsz.

(** The four nested loops of [freevm], one level each. *)
Definition entries (n : nat) : list Z := Z.of_nat <$> seq 0 n.
Definition free_entries (n : nat) (table : Z) (f : Z -> K unit) : K unit :=
  for_each (entries n) (fun i =>
    v ← read64 (table + 8 * i);
    when (has PTE_P v) (f (P2V (PTE_ADDR v)))).
Definition freevm (pml4 : Z) : K unit :=
  if pml4 =? 0 then panic "freevm: no pgdir" else
  free_entries (NPDENTRIES / 2) pml4 (fun pdp =>
    free_entries NPDENTRIES pdp (fun pd =>
      free_entries NPDENTRIES pd (fun pt =>
        free_entries NPDENTRIES pt kfree ;;
        kfree pt) ;;
      kfree pd) ;;
    kfree pdp) ;;
  kfree pml4.

Definition clearpteu (pgdir uva : Z) : K unit :=
  pte ← walkpgdir pgdir uva false;
  if pte =? 0 then panic "clearpteu" else
  v ← read64 pte;
  write64 pte (Z.land v (u64 (Z.lnot PTE_U))).

(** [for(i = PGSIZE; i < sz; i += PGSIZE)] of [copyuvm]. *)
Fixpoint copyuvm_loop (fuel : nat) (pgdir d i sz : Z) : K Z :=
  match fuel with
  | O => mret d
  | S f =>
      if i <? sz then
        pte ← walkpgdir pgdir i false;
        if pte =? 0 then panic "copyuvm: pte should exist" else
        v ← read64 pte;
        if negb (has PTE_P v) then panic "copyuvm: page not present" else
        let pa := PTE_ADDR v in
        let flags := PTE_FLAGS v in
        mem0 ← kalloc;
        if mem0 =? 0 then freevm d ;; mret 0 else
        upd_mem (fun m => memmove m mem0 (P2V pa) PGSIZE) ;;
        r ← mappages d i PGSIZE (V2P mem0) flags;
        if r <? 0 then freevm d ;; mret 0
        else copyuvm_loop f pgdir d (i + PGSIZE) sz
      else mret d
  end.
(** The size parameter is a [uint]: a 64-bit size is truncated. *)
Definition copyuvm (pgdir sz0 : Z) : K Z :=
  let sz := u32 sz0 in
  d ← setupkvm;
  if d =? 0 then mret 0 else
  copyuvm_loop (pages_between PGSIZE sz) pgdir d PGSIZE sz.

(** A null [pte] is dereferenced: the kernel faults. *)
Definition uva2ka (pgdir uva : Z) : K Z :=
  pte ← walkpgdir pgdir uva false;
  if pte =? 0 then panic "trap" else
  v ← read64 pte;
  if negb (has PTE_P v) then mret 0 else
  if negb (has PTE_U v) then mret 0 else
  mret (P2V (PTE_ADDR v)).

Fixpoint copyout_loop (fuel : nat) (pgdir va : Z) (buf : list Z) : K Z :=
  match fuel with
  | O => mret 0
  | S f =>
      if 0 <? Z.of_nat (length buf) then
        let va0 := PGROUNDDOWN va in
        pa0 ← uva2ka pgdir va0;
        if pa0 =? 0 then mret (-1) else
        let n := Z.min (PGSIZE - (va - va0)) (Z.of_nat (length buf)) in
        upd_mem (fun m => write_bytes m (pa0 + (va - va0)) (take (Z.to_nat n) buf)) ;;
        copyout_loop f pgdir (u64 (va0 + PGSIZE)) (drop (Z.to_nat n) buf)
      else mret 0
  end.
(** Each round copies at least one byte. *)
Definition copyout (pgdir va : Z) (buf : list Z) : K Z :=
  copyout_loop (S (length buf)) pgdir va buf.

End Operations.

(** * The hardware's view *)

Section Translate.

(** The address the MMU maps [va] to under the table at [pml4], as a kernel
    address; a 1 GB entry ends the walk early.  [None]: page fault. *)
Definition translate (m : memory) (pml4 va : Z) : option Z :=
  let e4 := load64 m (pml4 + 8 * PMX va) in
  if negb (has PTE_P e4) then None else
  let e3 := load64 m (P2V (PTE_ADDR e4) + 8 * PDPX va) in
  if negb (has PTE_P e3) then None else
  if has PTE_PS e3 then Some (P2V (PTE_ADDR e3 + va mod 2 ^ 30)) else
  let e2 := load64 m (P2V (PTE_ADDR e3) + 8 * PDX va) in
  if negb (has PTE_P e2) then None else
  let e1 := load64 m (P2V (PTE_ADDR e2) + 8 * PTX va) in
  if negb (has PTE_P e1) then None else
  Some (P2V (PTE_ADDR e1) + va mod PGSIZE).

(** A load by kernel code through the current process's address space. *)
Definition uload (pgdir va : Z) : K Z :=
  m ← gets mem;
  match translate m pgdir va with
  | Some a => mret (m a)
  | None => panic "trap"
  end.
Fixpoint uload_bytes (pgdir va : Z) (n : nat) : K Z :=
  match n with
  | O => mret 0
  | S n' =>
      b ← uload pgdir va;
      r ← uload_bytes pgdir (u64 (va + 1)) n';
      mret (b + 2 ^ 8 * r)
  end.
Definition uload_int (pgdir va : Z) : K Z :=
  v ← uload_bytes pgdir va 4; mret (i32 v).
Definition uload_addr (pgdir va : Z) : K Z := uload_bytes pgdir va 8.
Definition ustore (pgdir va b : Z) : K unit :=
  m ← gets mem;
  match translate m pgdir va with
  | Some a => upd_mem (fun m => mset m a (u8 b))
  | None => panic "trap"
  end.
Fixpoint ustore_bytes (pgdir va : Z) (l : list Z) : K unit :=
  match l with
  | [] => mret tt
  | b :: l' => ustore pgdir va b ;; ustore_bytes pgdir (u64 (va + 1)) l'
  end.
(** The four bytes of an [int]. *)
Definition int_bytes (v : Z) : list Z := byte_of (u32 v) <$> [0; 1; 2; 3].

End Translate.

#[global] Arguments NPDENTRIES : simpl never.
