(* ===== verification/Sleeplock.v ===== *)
(** sleeplock.c: locks held across [sleep].

    A sleep lock is a flag guarded by a spin lock; [acquiresleep] sleeps on
    the lock's address while the flag is set. *)

From S2P Require Import Prelude Control KState Spinlock Format Sched.

(** Access to the file system's state. *)
Definition upd_fs (f : fsstate -> fsstate) : K unit := modify (fun s => s <| fs ::= f |>).

Section Definitions.

Definition zero_sleeplock : sleeplock := mkSleeplock 0 0.
Definition get_sleeplock (lk : sleeplockid) (s : kstate) : sleeplock :=
  default zero_sleeplock (sleeplocks (fs s) !! lk).
Definition upd_sleeplock (lk : sleeplockid) (f : sleeplock -> sleeplock) : K unit :=
  modify (fun s => s <| fs ::= fun x =>
    x <| sleeplocks ::= insert lk (f (get_sleeplock lk s)) |> |>).

Definition initsleeplock (lk : sleeplockid) : K unit :=
  initlock (SLEEPLK lk) ;;
  upd_sleeplock lk (fun l => l <| sl_locked := 0 |>) ;;
  upd_sleeplock lk (fun l => l <| sl_pid := 0 |>).

Definition acquiresleep (lk : sleeplockid) : K unit :=
  acquire (SLEEPLK lk) ;;
  loop (
    l ← gets (get_sleeplock lk);
    if z2b (sl_locked l) then sleep (CH_SLEEPLOCK lk) (Some (SLEEPLK lk)) ;; mret None
    else mret (Some tt)) ;;
  upd_sleeplock lk (fun l => l <| sl_locked := 1 |>) ;;
  i ← myproc;
  p ← get_proc i;
  upd_sleeplock lk (fun l => l <| sl_pid := pid p |>) ;;
  release (SLEEPLK lk).

Definition releasesleep (lk : sleeplockid) : K unit :=
  acquire (SLEEPLK lk) ;;
  upd_sleeplock lk (fun l => l <| sl_locked := 0 |>) ;;
  upd_sleeplock lk (fun l => l <| sl_pid := 0 |>) ;;
  wakeup (CH_SLEEPLOCK lk) ;;
  release (SLEEPLK lk).

Definition holdingsleep (lk : sleeplockid) : K Z :=
  acquire (SLEEPLK lk) ;;
  r ← gets (fun s => sl_locked (get_sleeplock lk s));
  release (SLEEPLK lk) ;;
  mret r.

End Definitions.
