(* ===== verification/Disk.v ===== *)
(** ide.c and memide.c: the disk drivers.

    The kernel is linked with one of two drivers for [iderw]; the code above
    them is written against the interface [DiskDriver].  The drive itself is
    part of the state: a write command stores the block, a read command
    selects the sector that the next [insl] delivers. *)

From S2P Require Import Prelude Control KState Spinlock Format Sched Memory Sleeplock.

Definition B_VALID : Z := 2.
Definition B_DIRTY : Z := 4.

Definition get_buf (b : nat) (s : kstate) : buf := default zero_buf (bufs (fs s) !! b).
Definition upd_buf (b : nat) (f : buf -> buf) : K unit :=
  upd_fs (fun x => x <| bufs ::= alter f b |>).

(** [b->flags & f] as a condition. *)
Definition bflag (f : Z) (b : buf) : bool := negb (Z.land (bflags b) f =? 0).
Definition set_flag (f : Z) (b : buf) : buf := b <| bflags ::= Z.lor f |>.
Definition clear_flag (f : Z) (b : buf) : buf := b <| bflags ::= fun x => Z.ldiff x f |>.
(** Neither unread nor unwritten. *)
Definition in_sync (b : buf) : bool := Z.land (bflags b) (Z.lor B_VALID B_DIRTY) =? B_VALID.

Definition disk_write (dev bno : Z) (data : list Z) (x : fsstate) : fsstate :=
  x <| disk ::= fun d dev' bno' =>
    if (dev' =? dev) && (bno' =? bno) then data else d dev' bno' |>.

(** What bio.c and trap.c expect of the driver. *)
Class DiskDriver := {
  iderw : nat -> K unit;
  ideintr : K unit
}.

Module Ide.

Definition idewait (checkerr : bool) : K Z :=
  f ← gets (fun s => ide_fault (fs s));
  mret (if checkerr && f then -1 else 0).

Definition ideinit (present : bool) : K unit :=
  initlock IDELOCK ;;
  idewait false ;;
  when present (upd_fs (fun x => x <| havedisk1 := 1 |>)).

Definition sector_per_block : Z := BSIZE / 512.

Definition idestart (o : option nat) : K unit :=
  match o with
  | None => panic "idestart"
  | Some i =>
      b ← gets (get_buf i);
      if FSSIZE <=? blockno b then panic "incorrect blockno" else
      let sector := i32 (blockno b * sector_per_block) in
      if 7 <? sector_per_block then panic "idestart" else
      idewait false ;;
      let dev := Z.land (bdev b) 1 in
      upd_fs (fun x => x <| ide_req := (dev, Z.land sector (2 ^ 28 - 1)) |>) ;;
      if bflag B_DIRTY b then
        upd_fs (fun x => disk_write (fst (ide_req x)) (snd (ide_req x)) (bdata b) x)
      else mret tt
  end.

Definition ideintr : K unit :=
  acquire IDELOCK ;;
  q ← gets (fun s => idequeue (fs s));
  match q with
  | [] => release IDELOCK
  | i :: q' =>
      upd_fs (fun x => x <| idequeue := q' |>) ;;
      b ← gets (get_buf i);
      r ← (if negb (bflag B_DIRTY b) then idewait true else mret (-1));
      when (negb (bflag B_DIRTY b) && (0 <=? r))
        (x ← gets fs;
         upd_buf i (fun b => b <| bdata := disk x (fst (ide_req x)) (snd (ide_req x)) |>)) ;;
      upd_buf i (set_flag B_VALID) ;;
      upd_buf i (clear_flag B_DIRTY) ;;
      wakeup (CH_BUF i) ;;
      when (bool_decide (q' <> [])) (idestart (head q')) ;;
      release IDELOCK
  end.

Definition iderw (i : nat) : K unit :=
  h ← holdingsleep (BUFLK i);
  if h =? 0 then panic "iderw: buf not locked" else
  b ← gets (get_buf i);
  if in_sync b then panic "iderw: nothing to do" else
  hd1 ← gets (fun s => havedisk1 (fs s));
  if negb (bdev b =? 0) && (hd1 =? 0) then panic "iderw: ide disk 1 not present" else
  acquire IDELOCK ;;
  upd_fs (fun x => x <| idequeue ::= fun q => q ++ [i] |>) ;;
  q ← gets (fun s => idequeue (fs s));
  when (bool_decide (head q = Some i)) (idestart (Some i)) ;;
  loop (
    b ← gets (get_buf i);
    if negb (in_sync b) then sleep (CH_BUF i) (Some IDELOCK) ;; mret None
    else mret (Some tt)) ;;
  release IDELOCK.

Definition driver : DiskDriver := Build_DiskDriver iderw ideintr.

End Ide.

Module MemIde.

Definition ideinit (size : Z) : K unit :=
  upd_fs (fun x => x <| disksize := u32 size / BSIZE |>).

Definition ideintr : K unit := mret tt.

Definition iderw (i : nat) : K unit :=
  h ← holdingsleep (BUFLK i);
  if h =? 0 then panic "iderw: buf not locked" else
  b ← gets (get_buf i);
  if in_sync b then panic "iderw: nothing to do" else
  if negb (bdev b =? 1) then panic "iderw: request not for disk 1" else
  n ← gets (fun s => disksize (fs s));
  if n <=? blockno b then panic "iderw: block out of range" else
  (if bflag B_DIRTY b then
     upd_buf i (clear_flag B_DIRTY) ;;
     upd_fs (disk_write (bdev b) (blockno b) (bdata b))
   else
     d ← gets (fun s => disk (fs s));
     upd_buf i (fun b => b <| bdata := d (bdev b) (blockno b) |>)) ;;
  upd_buf i (set_flag B_VALID).

Definition driver : DiskDriver := Build_DiskDriver iderw ideintr.

End MemIde.
