(* ===== verification/Bio.v ===== *)
(** bio.c: the buffer cache.

    [lru] is the list from [bcache.head.next] (most recently used) to
    [bcache.head.prev]. *)

From S2P Require Import Prelude Control KState Spinlock Format Sched Memory Sleeplock Disk.

Section Definitions.
Context `{!DiskDriver}.

(** Each buffer is put at the front of the list. *)
Definition binit : K unit :=
  initlock BCACHE ;;
  upd_fs (fun x => x <| lru := [] |>) ;;
  for_each (seq 0 NBUF) (fun b =>
    initsleeplock (BUFLK b) ;;
    upd_fs (fun x => x <| lru ::= cons b |>)).

Definition cached (dev bno : Z) (l : list buf) (i : nat) : Prop :=
  bdev (default zero_buf (l !! i)) = dev /\ blockno (default zero_buf (l !! i)) = bno.
#[export] Instance cached_dec dev bno l i : Decision (cached dev bno l i).
Proof. unfold cached. apply _. Defined.
Definition recyclable (l : list buf) (i : nat) : Prop :=
  refcnt (default zero_buf (l !! i)) = 0 /\ bflag B_DIRTY (default zero_buf (l !! i)) = false.
#[export] Instance recyclable_dec l i : Decision (recyclable l i).
Proof. unfold recyclable. apply _. Defined.

Definition find_first (P : nat -> Prop) `{!forall i, Decision (P i)} (l : list nat) : option nat :=
  head (filter P l).

Definition bget (dev bno : Z) : K nat :=
  acquire BCACHE ;;
  x ← gets fs;
  match find_first (cached dev bno (bufs x)) (lru x) with
  | Some b =>
      upd_buf b (fun b => b <| refcnt ::= fun n => u32 (n + 1) |>) ;;
      release BCACHE ;;
      acquiresleep (BUFLK b) ;;
      mret b
  | None =>
      match find_first (recyclable (bufs x)) (reverse (lru x)) with
      | Some b =>
          upd_buf b (fun b => b <| bdev := dev |> <| blockno := bno |>
                                <| bflags := 0 |> <| refcnt := 1 |>) ;;
          release BCACHE ;;
          acquiresleep (BUFLK b) ;;
          mret b
      | None => panic "bget: no buffers"
      end
  end.

Definition bread (dev bno : Z) : K nat :=
  i ← bget dev bno;
  b ← gets (get_buf i);
  when (negb (bflag B_VALID b)) (iderw i) ;;
  mret i.

Definition bwrite (i : nat) : K unit :=
  h ← holdingsleep (BUFLK i);
  if h =? 0 then panic "bwrite" else
  upd_buf i (set_flag B_DIRTY) ;;
  iderw i.

Definition brelse (i : nat) : K unit :=
  h ← holdingsleep (BUFLK i);
  if h =? 0 then panic "brelse" else
  releasesleep (BUFLK i) ;;
  acquire BCACHE ;;
  upd_buf i (fun b => b <| refcnt ::= fun n => u32 (n - 1) |>) ;;
  b ← gets (get_buf i);
  when (refcnt b =? 0)
    (upd_fs (fun x => x <| lru ::= fun l => i :: filter (fun j => j <> i) l |>)) ;;
  release BCACHE.

(** Reading and changing the data of a buffer the caller has locked. *)
Definition buf_data (i : nat) : K (list Z) := gets (fun s => bdata (get_buf i s)).
Definition upd_data (i : nat) (f : list Z -> list Z) : K unit :=
  upd_buf i (fun b => b <| bdata ::= f |>).

End Definitions.
