(* ===== verification/Log.v ===== *)
(** log.c: the write-ahead log, and the super block of fs.c it starts from. *)

From S2P Require Import Prelude Control KState Spinlock Format Sched Memory Sleeplock Disk Bio.

Definition upd_log (f : log_t -> log_t) : K unit := upd_fs (fun x => x <| flog ::= f |>).
Definition the_log : K log_t := gets (fun s => flog (fs s)).
Definition lh_get (l : log_t) (i : nat) : Z := default 0 (lh_block l !! i).

Section Definitions.
Context `{!DiskDriver}.

(** fs.c: readsb, the seven words of the super block. *)
Definition decode_sb (d : list Z) : superblock :=
  mkSb (get32 d 0) (get32 d 4) (get32 d 8) (get32 d 12) (get32 d 16) (get32 d 20) (get32 d 24).
Definition readsb (dev : Z) : K superblock :=
  bp ← bread dev 1;
  d ← buf_data bp;
  brelse bp ;;
  mret (decode_sb d).

(** [for(tail = 0; tail < log.lh.n; tail++)] *)
Definition for_logged (f : nat -> K unit) : K unit :=
  l ← the_log;
  for_each (seq 0 (Z.to_nat (lh_n l))) f.

Definition install_trans : K unit :=
  for_logged (fun tail =>
    l ← the_log;
    lbuf ← bread (lg_dev l) (i32 (lg_start l + Z.of_nat tail + 1));
    dbuf ← bread (lg_dev l) (u32 (lh_get l tail));
    d ← buf_data lbuf;
    upd_data dbuf (fun _ => d) ;;
    bwrite dbuf ;;
    brelse lbuf ;;
    brelse dbuf).

(** struct logheader in a block: [n], then the block numbers. *)
Definition read_head : K unit :=
  l ← the_log;
  b ← bread (lg_dev l) (lg_start l);
  d ← buf_data b;
  upd_log (fun l => l <| lh_n := i32 (get32 d 0) |>) ;;
  l ← the_log;
  for_each (seq 0 (Z.to_nat (lh_n l))) (fun i =>
    upd_log (fun l => l <| lh_block ::= <[i := i32 (get32 d (4 + 4 * i))]> |>)) ;;
  brelse b.

Definition write_head : K unit :=
  l ← the_log;
  b ← bread (lg_dev l) (lg_start l);
  upd_data b (fun d => splice d 0 (bytes32 (u32 (lh_n l)))) ;;
  for_each (seq 0 (Z.to_nat (lh_n l))) (fun i =>
    upd_data b (fun d => splice d (4 + 4 * i) (bytes32 (u32 (lh_get l i))))) ;;
  bwrite b ;;
  brelse b.

Definition recover_from_log : K unit :=
  read_head ;;
  install_trans ;;
  upd_log (fun l => l <| lh_n := 0 |>) ;;
  write_head.

Definition sizeof_logheader : Z := 4 + 4 * LOGSIZE.
Definition initlog (dev : Z) : K unit :=
  if BSIZE <=? sizeof_logheader then panic "initlog: too big logheader" else
  initlock LOGLOCK ;;
  x ← readsb dev;
  upd_log (fun l => l <| lg_start := i32 (sb_logstart x) |>) ;;
  upd_log (fun l => l <| lg_size := i32 (sb_nlog x) |>) ;;
  upd_log (fun l => l <| lg_dev := dev |>) ;;
  recover_from_log.

(** The wait condition of [begin_op]'s second branch. *)
Definition log_full (l : log_t) : bool :=
  LOGSIZE <? i32 (lh_n l + i32 (i32 (outstanding l + 1) * MAXOPBLOCKS)).

Definition begin_op : K unit :=
  acquire LOGLOCK ;;
  loop (
    l ← the_log;
    if z2b (committing l) then sleep CH_LOG (Some LOGLOCK) ;; mret None
    else if log_full l then sleep CH_LOG (Some LOGLOCK) ;; mret None
    else
      upd_log (fun l => l <| outstanding ::= fun n => i32 (n + 1) |>) ;;
      release LOGLOCK ;;
      mret (Some tt)).

Definition write_log : K unit :=
  for_logged (fun tail =>
    l ← the_log;
    to ← bread (lg_dev l) (i32 (lg_start l + Z.of_nat tail + 1));
    from ← bread (lg_dev l) (u32 (lh_get l tail));
    d ← buf_data from;
    upd_data to (fun _ => d) ;;
    bwrite to ;;
    brelse from ;;
    brelse to).

Definition commit : K unit :=
  l ← the_log;
  when (0 <? lh_n l)
    (write_log ;;
     write_head ;;
     install_trans ;;
     upd_log (fun l => l <| lh_n := 0 |>) ;;
     write_head).

Definition end_op : K unit :=
  acquire LOGLOCK ;;
  upd_log (fun l => l <| outstanding ::= fun n => i32 (n - 1) |>) ;;
  l ← the_log;
  if z2b (committing l) then panic "log.committing" else
  let do_commit := outstanding l =? 0 in
  (if do_commit then upd_log (fun l => l <| committing := 1 |>) else wakeup CH_LOG) ;;
  release LOGLOCK ;;
  when do_commit
    (commit ;;
     acquire LOGLOCK ;;
     upd_log (fun l => l <| committing := 0 |>) ;;
     wakeup CH_LOG ;;
     release LOGLOCK).

(** The slot [log_write] uses: the block's own, else the first free one. *)
Fixpoint log_slot (bno : Z) (blocks : list Z) (n i : nat) : nat :=
  match n with
  | O => i
  | S n' =>
      match blocks with
      | [] => i
      | x :: blocks' => if u32 x =? bno then i else log_slot bno blocks' n' (S i)
      end
  end.
Definition log_record (bno : Z) (l : log_t) : log_t :=
  let i := log_slot bno (lh_block l) (Z.to_nat (lh_n l)) 0 in
  let l' := l <| lh_block ::= <[i := i32 bno]> |> in
  if Z.of_nat i =? lh_n l then l' <| lh_n ::= fun n => i32 (n + 1) |> else l'.

Definition log_write (b : nat) : K unit :=
  l ← the_log;
  if (LOGSIZE <=? lh_n l) || (lg_size l - 1 <=? lh_n l) then panic "too big a transaction" else
  if outstanding l <? 1 then panic "log_write outside of trans" else
  acquire LOGLOCK ;;
  bno ← gets (fun s => blockno (get_buf b s));
  upd_log (log_record bno) ;;
  upd_buf b (set_flag B_DIRTY) ;;
  release LOGLOCK.

End Definitions.
