(* ===== verification/Inode.v ===== *)
(** fs.c, first half: the block allocator and the inode layer.

    A pointer to a cached inode is its index in [icache], [None] for 0.
    On-disk inodes are 64 bytes of an inode block; they are decoded from and
    spliced into the block's bytes field by field. *)

From S2P Require Import Prelude Control KState Spinlock Format Sched Memory Sleeplock Disk Bio Log.

Definition BPB : Z := BSIZE * 8.
Definition sizeof_dinode : nat := 64.
Definition IPB : Z := BSIZE / 64.
Definition BBLOCK (b : Z) (x : superblock) : Z := u32 (b / BPB + sb_bmapstart x).
Definition IBLOCK (i : Z) (x : superblock) : Z := u32 (i / IPB + sb_inodestart x).
Definition I_VALID : Z := 2.
Definition T_DIR : Z := 1.
Definition T_FILE : Z := 2.
Definition T_DEV : Z := 3.
Definition MAXFILE : Z := Z.of_nat NDIRECT + Z.of_nat NINDIRECT.

Definition get_inode (i : nat) (s : kstate) : inode := default zero_inode (icache (fs s) !! i).
Definition upd_inode (i : nat) (f : inode -> inode) : K unit :=
  upd_fs (fun x => x <| icache ::= alter f i |>).
Definition the_sb : K superblock := gets (fun s => sb (fs s)).
Definition addr_at (ip : inode) (n : nat) : Z := default 0 (iaddrs ip !! n).

(** * The layout of struct dinode *)

Section Layout.

(** Byte offset of inode [inum] in its block. *)
Definition dinode_off (n : Z) : nat := Z.to_nat (n mod IPB * 64).

Definition read_dinode (d : list Z) (off : nat) (ip : inode) : inode :=
  ip <| itype := i16 (get16 d off) |>
     <| imajor := i16 (get16 d (off + 2)) |>
     <| iminor := i16 (get16 d (off + 4)) |>
     <| inlink := i16 (get16 d (off + 6)) |>
     <| isize := get32 d (off + 8) |>
     <| iaddrs := (fun k => get32 d (off + 12 + 4 * k)) <$> seq 0 (NDIRECT + 1) |>.

Definition dinode_bytes (ip : inode) : list Z :=
  bytes16 (itype ip) ++ bytes16 (imajor ip) ++ bytes16 (iminor ip) ++ bytes16 (inlink ip) ++
  bytes32 (isize ip) ++ mjoin (bytes32 <$> iaddrs ip).

End Layout.

Section Definitions.
Context `{!DiskDriver}.

Definition bzero (dev bno : Z) : K unit :=
  bp ← bread dev bno;
  upd_data bp (fun _ => replicate (Z.to_nat BSIZE) 0) ;;
  log_write bp ;;
  brelse bp.

(** The inner loop of [balloc]: the first clear bit below [bound]. *)
Definition bit_set (d : list Z) (bi : nat) : bool :=
  negb (Z.land (getb d (bi / 8)) (Z.shiftl 1 (Z.of_nat bi mod 8)) =? 0).
Fixpoint free_bit (d : list Z) (bi : nat) (k : nat) : option nat :=
  match k with
  | O => None
  | S k' => if bit_set d bi then free_bit d (S bi) k' else Some bi
  end.
Definition mark_bit (bi : nat) (d : list Z) : list Z :=
  <[(bi / 8)%nat := Z.lor (getb d (bi / 8)) (Z.shiftl 1 (Z.of_nat bi mod 8))]> d.
Definition clear_bit (bi : nat) (d : list Z) : list Z :=
  <[(bi / 8)%nat := Z.ldiff (getb d (bi / 8)) (Z.shiftl 1 (Z.of_nat bi mod 8))]> d.

(** [for(b = 0; b < sb.size; b += BPB)]: [k] counts the bitmap blocks. *)
Definition balloc (dev : Z) : K Z :=
  x ← the_sb;
  r ← for_find (seq 0 (Z.to_nat ((sb_size x + BPB - 1) / BPB))) (fun k =>
    let b := Z.of_nat k * BPB in
    bp ← bread dev (BBLOCK b x);
    d ← buf_data bp;
    match free_bit d 0 (Z.to_nat (Z.min BPB (sb_size x - b))) with
    | Some bi =>
        upd_data bp (mark_bit bi) ;;
        log_write bp ;;
        brelse bp ;;
        bzero dev (b + Z.of_nat bi) ;;
        mret (Some (b + Z.of_nat bi))
    | None => brelse bp ;; mret None
    end);
  match r with
  | Some b => mret b
  | None => panic "balloc: out of blocks"
  end.

Definition bfree (dev b : Z) : K unit :=
  x ← readsb dev;
  upd_fs (fun f => f <| sb := x |>) ;;
  bp ← bread dev (BBLOCK b x);
  let bi := Z.to_nat (b mod BPB) in
  d ← buf_data bp;
  if negb (bit_set d bi) then panic "freeing free block" else
  upd_data bp (clear_bit bi) ;;
  log_write bp ;;
  brelse bp.

Definition iinit (dev : Z) : K unit :=
  initlock ICACHE ;;
  for_each (seq 0 NINODE) (fun i => initsleeplock (INODELK i)) ;;
  x ← readsb dev;
  upd_fs (fun f => f <| sb := x |>).

(** The scan of [iget]: the cached entry, else the first free slot. *)
Fixpoint iget_scan (dev n : Z) (l : list inode) (i : nat) (empty : option nat)
  : option nat * option nat :=
  match l with
  | [] => (None, empty)
  | ip :: l' =>
      if (0 <? iref ip) && (idev ip =? dev) && (inum ip =? n) then (Some i, empty)
      else iget_scan dev n l' (S i)
        (if bool_decide (empty = None) && (iref ip =? 0) then Some i else empty)
  end.

Definition iget (dev n : Z) : K nat :=
  acquire ICACHE ;;
  l ← gets (fun s => icache (fs s));
  match iget_scan dev n l 0 None with
  | (Some i, _) =>
      upd_inode i (fun ip => ip <| iref ::= fun r => i32 (r + 1) |>) ;;
      release ICACHE ;;
      mret i
  | (None, None) => panic "iget: no inodes"
  | (None, Some i) =>
      upd_inode i (fun ip => ip <| idev := dev |> <| inum := n |>
                                <| iref := 1 |> <| iflags := 0 |>) ;;
      release ICACHE ;;
      mret i
  end.

(** [for(inum = 1; inum < sb.ninodes; inum++)] *)
Definition ialloc (dev type : Z) : K nat :=
  x ← the_sb;
  r ← for_find (Z.of_nat <$> seq 1 (Z.to_nat (sb_ninodes x - 1))) (fun n =>
    bp ← bread dev (IBLOCK n x);
    d ← buf_data bp;
    let off := dinode_off n in
    if i16 (get16 d off) =? 0 then
      upd_data bp (fun d => splice d off (replicate sizeof_dinode 0)) ;;
      upd_data bp (fun d => splice d off (bytes16 type)) ;;
      log_write bp ;;
      brelse bp ;;
      i ← iget dev n;
      mret (Some i)
    else brelse bp ;; mret None);
  match r with
  | Some i => mret i
  | None => panic "ialloc: no inodes"
  end.

Definition iupdate (i : nat) : K unit :=
  x ← the_sb;
  ip ← gets (get_inode i);
  bp ← bread (idev ip) (IBLOCK (inum ip) x);
  ip ← gets (get_inode i);
  upd_data bp (fun d => splice d (dinode_off (inum ip)) (dinode_bytes ip)) ;;
  log_write bp ;;
  brelse bp.

Definition idup (i : nat) : K nat :=
  acquire ICACHE ;;
  upd_inode i (fun ip => ip <| iref ::= fun r => i32 (r + 1) |>) ;;
  release ICACHE ;;
  mret i.

Definition ilock (o : option nat) : K unit :=
  match o with
  | None => panic "ilock"
  | Some i =>
      ip ← gets (get_inode i);
      if iref ip <? 1 then panic "ilock" else
      acquiresleep (INODELK i) ;;
      ip ← gets (get_inode i);
      when (Z.land (iflags ip) I_VALID =? 0)
        (x ← the_sb;
         bp ← bread (idev ip) (IBLOCK (inum ip) x);
         d ← buf_data bp;
         upd_inode i (read_dinode d (dinode_off (inum ip))) ;;
         brelse bp ;;
         upd_inode i (fun ip => ip <| iflags ::= Z.lor I_VALID |>) ;;
         ip ← gets (get_inode i);
         when (itype ip =? 0) (panic "ilock: no type"))
  end.

Definition iunlock (o : option nat) : K unit :=
  match o with
  | None => panic "iunlock"
  | Some i =>
      h ← holdingsleep (INODELK i);
      ip ← gets (get_inode i);
      if (h =? 0) || (iref ip <? 1) then panic "iunlock" else
      releasesleep (INODELK i)
  end.

(** [if(a[j]) bfree(ip->dev, a[j])] over the direct blocks, then over the
    words of the indirect block. *)
Definition itrunc (i : nat) : K unit :=
  for_each (seq 0 NDIRECT) (fun k =>
    ip ← gets (get_inode i);
    when (negb (addr_at ip k =? 0))
      (bfree (idev ip) (addr_at ip k) ;;
       upd_inode i (fun ip => ip <| iaddrs ::= <[k := 0]> |>))) ;;
  ip ← gets (get_inode i);
  when (negb (addr_at ip NDIRECT =? 0))
    (bp ← bread (idev ip) (addr_at ip NDIRECT);
     for_each (seq 0 NINDIRECT) (fun j =>
       d ← buf_data bp;
       when (negb (get32 d (4 * j) =? 0)) (bfree (idev ip) (get32 d (4 * j)))) ;;
     brelse bp ;;
     ip ← gets (get_inode i);
     bfree (idev ip) (addr_at ip NDIRECT) ;;
     upd_inode i (fun ip => ip <| iaddrs ::= <[NDIRECT := 0]> |>)) ;;
  upd_inode i (fun ip => ip <| isize := 0 |>) ;;
  iupdate i.

Definition iput (i : nat) : K unit :=
  acquire ICACHE ;;
  ip ← gets (get_inode i);
  when ((iref ip =? 1) && negb (Z.land (iflags ip) I_VALID =? 0) && (inlink ip =? 0))
    (release ICACHE ;;
     itrunc i ;;
     upd_inode i (fun ip => ip <| itype := 0 |>) ;;
     iupdate i ;;
     acquire ICACHE ;;
     upd_inode i (fun ip => ip <| iflags := 0 |>)) ;;
  upd_inode i (fun ip => ip <| iref ::= fun r => i32 (r - 1) |>) ;;
  release ICACHE.

Definition iunlockput (i : nat) : K unit := iunlock (Some i) ;; iput i.

(** The address of block [bn] of the file, allocated if it has none. *)
Definition bmap (i : nat) (bn : Z) : K Z :=
  ip ← gets (get_inode i);
  if bn <? Z.of_nat NDIRECT then
    let n := Z.to_nat bn in
    if addr_at ip n =? 0 then
      a ← balloc (idev ip);
      upd_inode i (fun ip => ip <| iaddrs ::= <[n := a]> |>) ;;
      mret a
    else mret (addr_at ip n)
  else
    let bn := bn - Z.of_nat NDIRECT in
    if bn <? Z.of_nat NINDIRECT then
      let n := Z.to_nat bn in
      addr ← (if addr_at ip NDIRECT =? 0 then
                a ← balloc (idev ip);
                upd_inode i (fun ip => ip <| iaddrs ::= <[NDIRECT := a]> |>) ;;
                mret a
              else mret (addr_at ip NDIRECT));
      bp ← bread (idev ip) addr;
      d ← buf_data bp;
      a ← (if get32 d (4 * n) =? 0 then
             a ← balloc (idev ip);
             upd_data bp (fun d => splice d (4 * n) (bytes32 a)) ;;
             log_write bp ;;
             mret a
           else mret (get32 d (4 * n)));
      brelse bp ;;
      mret a
    else panic "bmap: out of range".

(** struct stat: [type], [dev], [ino], [nlink], [size], with its padding. *)
Record stat := mkStat { st_type : Z; st_dev : Z; st_ino : Z; st_nlink : Z; st_size : Z }.
Definition stati (i : nat) : K stat :=
  ip ← gets (get_inode i);
  mret (mkStat (itype ip) (i32 (idev ip)) (inum ip) (inlink ip) (isize ip)).

End Definitions.
