(* ===== verification/Console.v ===== *)
(** console.c: the console as a device file.

    [consoleread] takes a line at a time from the input buffer that the
    keyboard interrupt fills; [consolewrite] prints.  The destination and the
    source of a transfer are user addresses or kernel arrays ([dest],
    [source]). *)

From S2P Require Import Prelude Control KState Spinlock Format Sched Memory Kalloc Vm Sleeplock.
From S2P Require Import Disk Bio Log Inode.

(** * Where file data goes and comes from *)

Section Transfers.

(** [char *dst]: a local array of the caller, whose bytes the call returns,
    an address of the current process, or a kernel address. *)
Inductive dest := ToLocal | ToUser (va : Z) | ToKernel (a : Z).
Inductive source := FromLocal (l : list Z) | FromUser (va : Z).

Definition cur_pgdir : K Z :=
  i ← myproc;
  p ← get_proc i;
  mret (pgdir p).

(** Stores [l] at offset [off] of the destination. *)
Definition deliver (d : dest) (off : Z) (l : list Z) : K unit :=
  match d with
  | ToLocal => mret tt
  | ToUser va => pg ← cur_pgdir; ustore_bytes pg (u64 (va + off)) l
  | ToKernel a => upd_mem (fun m => write_bytes m (a + off) l)
  end.

Fixpoint uload_list (pg va : Z) (n : nat) : K (list Z) :=
  match n with
  | O => mret []
  | S n' =>
      b ← uload pg va;
      l ← uload_list pg (u64 (va + 1)) n';
      mret (b :: l)
  end.
(** The [n] bytes at offset [off] of the source. *)
Definition fetch (src : source) (off : Z) (n : nat) : K (list Z) :=
  match src with
  | FromLocal l => mret (take n (drop (Z.to_nat off) l))
  | FromUser va => pg ← cur_pgdir; uload_list pg (u64 (va + off)) n
  end.

End Transfers.

Section Definitions.
Context `{!DiskDriver}.

Definition BACKSPACE : Z := 0x100.
(** [C(x)]: control-x. *)
Definition C (x : string) : Z := chr x - chr "@".

(** The bytes sent to the serial port. *)
Definition consputc (c : Z) : K unit :=
  modify (fun s => s <| console ::= fun l =>
    l ++ (if c =? BACKSPACE then [8; chr " "; 8] else [u8 c]) |>).

Definition upd_input (f : input_t -> input_t) : K unit :=
  modify (fun s => s <| input ::= f |>).
Definition in_at (x : input_t) (k : Z) : Z :=
  getb (in_buf x) (Z.to_nat (u32 k mod INPUT_BUF)).

(** [while(n > 0)]: [n] is the room left, [got] what was delivered; the
    result is [None] for a killed process. *)
Fixpoint consoleread_loop (dst : dest) (target : Z) (n : nat) (got : list Z)
  : K (option (list Z)) :=
  match n with
  | O => mret (Some got)
  | S n' =>
      ok ← loop (
        x ← gets input;
        if in_r x =? in_w x then
          i ← myproc;
          p ← get_proc i;
          if z2b (killed p) then mret (Some false)
          else sleep CH_INPUT (Some INPUT) ;; mret None
        else mret (Some true));
      if negb ok then mret None else
      x ← gets input;
      let c := in_at x (in_r x) in
      upd_input (fun x => x <| in_r ::= fun r => u32 (r + 1) |>) ;;
      if c =? C "D" then
        when (Z.of_nat n <? target)
          (upd_input (fun x => x <| in_r ::= fun r => u32 (r - 1) |>)) ;;
        mret (Some got)
      else
        deliver dst (Z.of_nat (length got)) [c] ;;
        if c =? 10 then mret (Some (got ++ [c]))
        else consoleread_loop dst target n' (got ++ [c])
  end.

Definition consoleread (ip : nat) (dst : dest) (n : Z) : K (Z * list Z) :=
  iunlock (Some ip) ;;
  acquire INPUT ;;
  r ← consoleread_loop dst (u32 n) (Z.to_nat n) [];
  release INPUT ;;
  ilock (Some ip) ;;
  match r with
  | None => mret (-1, [])
  | Some l => mret (Z.of_nat (length l), l)
  end.

Definition consolewrite (ip : nat) (src : source) (n : Z) : K Z :=
  iunlock (Some ip) ;;
  acquire CONS ;;
  for_each (Z.of_nat <$> seq 0 (Z.to_nat n)) (fun k =>
    b ← fetch src k 1;
    consputc (Z.land (hd0 b) 0xff)) ;;
  release CONS ;;
  ilock (Some ip) ;;
  mret n.

End Definitions.
