(* ===== verification/Fs.v ===== *)
(** fs.c, second half: file contents, directories and path names. *)

From S2P Require Import Prelude Control KState Spinlock Format Sched Memory Kalloc Vm Sleeplock.
From S2P Require Import Disk Bio Log Inode Console.

(** * Path names *)

Section Paths.

Definition slash : Z := 47.

Fixpoint skip_slashes (path : list Z) : list Z :=
  match path with
  | c :: path' => if c =? slash then skip_slashes path' else path
  | [] => []
  end.
(** [while(star path != '/' && star path != 0) path++], collecting the element. *)
Fixpoint take_elem (path : list Z) : list Z * list Z :=
  match path with
  | c :: path' =>
      if (c =? slash) || (c =? 0) then ([], path)
      else let '(e, rest) := take_elem path' in (c :: e, rest)
  | [] => ([], [])
  end.
(** The bytes left in [name]: at most DIRSIZ, a NUL after a shorter one. *)
Definition elem_name (e : list Z) : list Z :=
  if bool_decide (DIRSIZ <= length e)%nat then take DIRSIZ e else e ++ [0].

Definition skipelem (path : list Z) : option (list Z * list Z) :=
  let path := skip_slashes path in
  if hd0 path =? 0 then None
  else
    let '(e, rest) := take_elem path in
    Some (elem_name e, skip_slashes rest).

Definition namecmp (s t : list Z) : Z := strncmp s t DIRSIZ.

End Paths.

(** * Directory entries *)

Section Dirents.

Definition sizeof_dirent : Z := 16.
Definition de_inum (l : list Z) : Z := get16 l 0.
Definition de_name (l : list Z) : list Z := drop 2 l.
Definition make_dirent (name : list Z) (n : Z) : list Z := bytes16 n ++ strncpy name DIRSIZ.

(** The offsets [for(off = from; off < size; off += sizeof(de))] visits. *)
Definition dir_offsets (from size : Z) : list Z :=
  (fun k => from + 16 * Z.of_nat k) <$> seq 0 (Z.to_nat ((size - from + 15) / 16)).

End Dirents.

Section Definitions.
Context `{!DiskDriver}.

Definition dev_of (ip : inode) : K (option device) :=
  d ← gets devsw;
  mret (if (imajor ip <? 0) || (NDEV <=? imajor ip) then None else d !! imajor ip).

(** Rounds enough for [n] bytes from any offset: every round but the first
    and the last moves a whole block. *)
Definition rounds (n : Z) : nat := Z.to_nat (n / BSIZE + 2).

Fixpoint readi_loop (fuel : nat) (i : nat) (dst : dest) (off n tot : Z) (got : list Z)
  : K (list Z) :=
  match fuel with
  | O => mret got
  | S f =>
      if tot <? n then
        a ← bmap i (off / BSIZE);
        ip ← gets (get_inode i);
        bp ← bread (idev ip) a;
        let m := Z.min (n - tot) (BSIZE - off mod BSIZE) in
        d ← buf_data bp;
        let l := take (Z.to_nat m) (drop (Z.to_nat (off mod BSIZE)) d) in
        deliver dst tot l ;;
        brelse bp ;;
        readi_loop f i dst (off + m) n (tot + m) (got ++ l)
      else mret got
  end.

(** The result and the bytes delivered. *)
Definition readi (i : nat) (dst : dest) (off n : Z) : K (Z * list Z) :=
  ip ← gets (get_inode i);
  if itype ip =? T_DEV then
    d ← dev_of ip;
    match d with
    | None => mret (-1, [])
    | Some DEV_CONSOLE => consoleread i dst (i32 n)
    end
  else if (isize ip <? off) || (u32 (off + n) <? off) then mret (-1, [])
  else
    let n := if isize ip <? u32 (off + n) then isize ip - off else n in
    l ← readi_loop (rounds n) i dst off n 0 [];
    mret (i32 n, l).

Fixpoint writei_loop (fuel : nat) (i : nat) (src : source) (off n tot : Z) : K Z :=
  match fuel with
  | O => mret off
  | S f =>
      if tot <? n then
        a ← bmap i (off / BSIZE);
        ip ← gets (get_inode i);
        bp ← bread (idev ip) a;
        let m := Z.min (n - tot) (BSIZE - off mod BSIZE) in
        l ← fetch src tot (Z.to_nat m);
        upd_data bp (fun d => splice d (Z.to_nat (off mod BSIZE)) l) ;;
        log_write bp ;;
        brelse bp ;;
        writei_loop f i src (off + m) n (tot + m)
      else mret off
  end.

Definition writei (i : nat) (src : source) (off n : Z) : K Z :=
  ip ← gets (get_inode i);
  if itype ip =? T_DEV then
    d ← dev_of ip;
    match d with
    | None => mret (-1)
    | Some DEV_CONSOLE => consolewrite i src (i32 n)
    end
  else if (isize ip <? off) || (u32 (off + n) <? off) then mret (-1)
  else if MAXFILE * BSIZE <? u32 (off + n) then mret (-1)
  else
    off' ← writei_loop (rounds n) i src off n 0;
    ip ← gets (get_inode i);
    when ((0 <? n) && (isize ip <? off'))
      (upd_inode i (fun ip => ip <| isize := off' |>) ;;
       iupdate i) ;;
    mret (i32 n).

(** The entry at [off] of a directory, or the caller's panic. *)
Definition read_dirent (dp : nat) (off : Z) (msg : string) : K (list Z) :=
  r ← readi dp ToLocal off sizeof_dirent;
  if negb (fst r =? sizeof_dirent) then panic msg else mret (snd r).

(** The inode and the offset of its entry.  The caller holds the directory's
    lock, so its size does not change during the scan. *)
Definition dirlookup (dp : nat) (name : list Z) : K (option (nat * Z)) :=
  d ← gets (get_inode dp);
  if negb (itype d =? T_DIR) then panic "dirlookup not DIR" else
  for_find (dir_offsets 0 (isize d)) (fun off =>
    de ← read_dirent dp off "dirlookup read";
    if de_inum de =? 0 then mret None
    else if namecmp name (de_name de) =? 0 then
      d ← gets (get_inode dp);
      ip ← iget (idev d) (de_inum de);
      mret (Some (ip, off))
    else mret None).

Definition dirlink (dp : nat) (name : list Z) (n : Z) : K Z :=
  r ← dirlookup dp name;
  match r with
  | Some (ip, _) => iput ip ;; mret (-1)
  | None =>
      d ← gets (get_inode dp);
      o ← for_find (dir_offsets 0 (isize d)) (fun off =>
        de ← read_dirent dp off "dirlink read";
        mret (if de_inum de =? 0 then Some off else None));
      d ← gets (get_inode dp);
      let off := default (16 * ((isize d + 15) / 16)) o in
      r ← writei dp (FromLocal (make_dirent name (u16 n))) off sizeof_dirent;
      if negb (r =? sizeof_dirent) then panic "dirlink" else mret 0
  end.

(** [while((path = skipelem(path, name)) != 0)]: every round takes at least
    one byte off the path. *)
Fixpoint namex_loop (fuel : nat) (ip : nat) (path : list Z) (parent : bool) (name : list Z)
  : K (option (nat * list Z)) :=
  match fuel with
  | O => no_return
  | S f =>
      match skipelem path with
      | None => if parent then iput ip ;; mret None else mret (Some (ip, name))
      | Some (name, path) =>
          ilock (Some ip) ;;
          x ← gets (get_inode ip);
          if negb (itype x =? T_DIR) then iunlockput ip ;; mret None
          else if parent && (hd0 path =? 0) then iunlock (Some ip) ;; mret (Some (ip, name))
          else
            next ← dirlookup ip name;
            match next with
            | None => iunlockput ip ;; mret None
            | Some (n, _) => iunlockput ip ;; namex_loop f n path parent name
            end
      end
  end.

Definition namex (path : list Z) (parent : bool) : K (option (nat * list Z)) :=
  ip ← (if hd0 path =? slash then iget ROOTDEV ROOTINO
        else
          i ← myproc;
          p ← get_proc i;
          match cwd p with
          | Some c => idup c
          | None => panic "trap"
          end);
  namex_loop (1 + length path) ip path parent [].

Definition namei (path : list Z) : K (option nat) :=
  r ← namex path false;
  mret (fst <$> r).

Definition nameiparent (path : list Z) : K (option (nat * list Z)) := namex path true.

End Definitions.
