(* ===== verification/Pipe.v ===== *)
(** pipe.c: the ring buffer between a writer and a reader.

    The pipe's struct lives in a page of its own; the model keeps the structs
    in [pipes], by the address of the page. *)

From S2P Require Import Prelude Control KState Spinlock Format Sched Memory Kalloc Vm Sleeplock.
From S2P Require Import Disk Bio Log Inode Console.

Section Definitions.

Definition zero_pipe : pipe := mkPipe (replicate 512 0) 0 0 0 0.
Definition get_pipe (p : Z) (s : kstate) : pipe := default zero_pipe (pipes s !! p).
Definition upd_pipe (p : Z) (f : pipe -> pipe) : K unit :=
  modify (fun s => s <| pipes := <[p := f (get_pipe p s)]> (pipes s) |>).

Definition pipeclose (p : Z) (writable : bool) : K unit :=
  acquire (PIPELOCK p) ;;
  (if writable then
     upd_pipe p (fun x => x <| writeopen := 0 |>) ;;
     wakeup (CH_PIPE_NREAD p)
   else
     upd_pipe p (fun x => x <| readopen := 0 |>) ;;
     wakeup (CH_PIPE_NWRITE p)) ;;
  x ← gets (get_pipe p);
  if (readopen x =? 0) && (writeopen x =? 0) then
    release (PIPELOCK p) ;;
    kfree p
  else release (PIPELOCK p).

Definition pipe_full (x : pipe) : bool := nwrite x =? u32 (nread x + PIPESIZE).
Definition pipe_empty (x : pipe) : bool := nread x =? nwrite x.
Definition put_byte (b : Z) (x : pipe) : pipe :=
  x <| pdata ::= <[Z.to_nat (nwrite x mod PIPESIZE) := b]> |>
    <| nwrite ::= fun n => u32 (n + 1) |>.
Definition next_byte (x : pipe) : Z := getb (pdata x) (Z.to_nat (nread x mod PIPESIZE)).
Definition drop_byte (x : pipe) : pipe := x <| nread ::= fun n => u32 (n + 1) |>.

Definition killed_now : K bool :=
  i ← myproc;
  p ← get_proc i;
  mret (z2b (killed p)).

(** [while(p->nwrite == p->nread + PIPESIZE)]; false: the write fails. *)
Definition pipe_wait_room (p : Z) : K bool :=
  loop (
    x ← gets (get_pipe p);
    if negb (pipe_full x) then mret (Some true)
    else
      k ← (if readopen x =? 0 then mret true else killed_now);
      if k : bool then mret (Some false)
      else
        wakeup (CH_PIPE_NREAD p) ;;
        sleep (CH_PIPE_NWRITE p) (Some (PIPELOCK p)) ;;
        mret None).

Fixpoint pipewrite_loop (p : Z) (src : source) (i : Z) (k : nat) : K bool :=
  match k with
  | O => mret true
  | S k' =>
      ok ← pipe_wait_room p;
      if negb ok then mret false
      else
        b ← fetch src i 1;
        upd_pipe p (put_byte (hd0 b)) ;;
        pipewrite_loop p src (i + 1) k'
  end.

Definition pipewrite (p : Z) (src : source) (n : Z) : K Z :=
  acquire (PIPELOCK p) ;;
  ok ← pipewrite_loop p src 0 (Z.to_nat n);
  if negb ok then release (PIPELOCK p) ;; mret (-1)
  else
    wakeup (CH_PIPE_NREAD p) ;;
    release (PIPELOCK p) ;;
    mret n.

(** [while(p->nread == p->nwrite && p->writeopen)]; false: killed. *)
Definition pipe_wait_data (p : Z) : K bool :=
  loop (
    x ← gets (get_pipe p);
    if negb (pipe_empty x && z2b (writeopen x)) then mret (Some true)
    else
      k ← killed_now;
      if k : bool then mret (Some false)
      else sleep (CH_PIPE_NREAD p) (Some (PIPELOCK p)) ;; mret None).

(** The copy loop: the number of bytes delivered, and the bytes. *)
Fixpoint piperead_loop (p : Z) (dst : dest) (got : list Z) (k : nat) : K (list Z) :=
  match k with
  | O => mret got
  | S k' =>
      x ← gets (get_pipe p);
      if pipe_empty x then mret got
      else
        upd_pipe p drop_byte ;;
        deliver dst (Z.of_nat (length got)) [next_byte x] ;;
        piperead_loop p dst (got ++ [next_byte x]) k'
  end.

Definition piperead (p : Z) (dst : dest) (n : Z) : K (Z * list Z) :=
  acquire (PIPELOCK p) ;;
  ok ← pipe_wait_data p;
  if negb ok then release (PIPELOCK p) ;; mret (-1, [])
  else
    l ← piperead_loop p dst [] (Z.to_nat n);
    wakeup (CH_PIPE_NWRITE p) ;;
    release (PIPELOCK p) ;;
    mret (Z.of_nat (length l), l).

End Definitions.
