(* ===== verification/File.v ===== *)
(** file.c: the table of open files, and [pipealloc] of pipe.c. *)

From S2P Require Import Prelude Control KState Spinlock Format Sched Memory Kalloc Vm Sleeplock.
From S2P Require Import Disk Bio Log Inode Console Fs Pipe.

Definition get_file (f : nat) (s : kstate) : file := default zero_file (ftable s !! f).
Definition upd_file (f : nat) (g : file -> file) : K unit :=
  modify (fun s => s <| ftable ::= alter g f |>).

Section Definitions.
Context `{!DiskDriver}.

Definition fileinit : K unit := initlock FTABLE.

(** First slot with no references. *)
Fixpoint free_file (l : list file) (i : nat) : option nat :=
  match l with
  | [] => None
  | f :: l' => if fref f =? 0 then Some i else free_file l' (S i)
  end.
Definition filealloc : K (option nat) :=
  acquire FTABLE ;;
  t ← gets ftable;
  match free_file t 0 with
  | Some f => upd_file f (fun x => x <| fref := 1 |>) ;; release FTABLE ;; mret (Some f)
  | None => release FTABLE ;; mret None
  end.

Definition filedup (f : nat) : K nat :=
  acquire FTABLE ;;
  x ← gets (get_file f);
  if fref x <? 1 then panic "filedup" else
  upd_file f (fun x => x <| fref ::= fun r => i32 (r + 1) |>) ;;
  release FTABLE ;;
  mret f.

Definition fileclose (f : nat) : K unit :=
  acquire FTABLE ;;
  x ← gets (get_file f);
  if fref x <? 1 then panic "fileclose" else
  upd_file f (fun x => x <| fref ::= fun r => i32 (r - 1) |>) ;;
  ff ← gets (get_file f);
  if 0 <? fref ff then release FTABLE
  else
    upd_file f (fun x => x <| fref := 0 |> <| ftype := FD_NONE |>) ;;
    release FTABLE ;;
    match ftype ff with
    | FD_PIPE => pipeclose (fpipe ff) (z2b (writable ff))
    | FD_INODE =>
        begin_op ;;
        match fip ff with
        | Some ip => iput ip
        | None => panic "trap"
        end ;;
        end_op
    | FD_NONE => mret tt
    end.

Definition filestat (f : nat) : K (option stat) :=
  x ← gets (get_file f);
  match ftype x, fip x with
  | FD_INODE, Some ip =>
      ilock (Some ip) ;;
      st ← stati ip;
      iunlock (Some ip) ;;
      mret (Some st)
  | FD_INODE, None => panic "ilock"
  | _, _ => mret None
  end.

Definition fileread (f : nat) (dst : dest) (n : Z) : K Z :=
  x ← gets (get_file f);
  if readable x =? 0 then mret (-1) else
  match ftype x with
  | FD_PIPE => r ← piperead (fpipe x) dst n; mret (fst r)
  | FD_INODE =>
      ilock (fip x) ;;
      match fip x with
      | None => panic "ilock"
      | Some ip =>
          x ← gets (get_file f);
          r ← readi ip dst (foff x) (u32 n);
          when (0 <? fst r) (upd_file f (fun x => x <| foff ::= fun o => u32 (o + fst r) |>)) ;;
          iunlock (Some ip) ;;
          mret (fst r)
      end
  | FD_NONE => panic "fileread"
  end.

(** Bytes per transaction: the log also holds the inode, an indirect block,
    the bitmap blocks and two blocks for unaligned writes. *)
Definition filewrite_max : Z := ((LOGSIZE - 1 - 1 - 2) / 2) * 512.

Definition source_from (src : source) (i : Z) : source :=
  match src with
  | FromLocal l => FromLocal (drop (Z.to_nat i) l)
  | FromUser va => FromUser (u64 (va + i))
  end.

(** [while(i < n)]: a round writes at least one byte or leaves. *)
Fixpoint filewrite_loop (fuel : nat) (f : nat) (ip : nat) (src : source) (i n : Z) : K Z :=
  match fuel with
  | O => mret i
  | S fuel' =>
      if i <? n then
        let n1 := Z.min (n - i) filewrite_max in
        begin_op ;;
        ilock (Some ip) ;;
        x ← gets (get_file f);
        r ← writei ip (source_from src i) (foff x) n1;
        when (0 <? r) (upd_file f (fun x => x <| foff ::= fun o => u32 (o + r) |>)) ;;
        iunlock (Some ip) ;;
        end_op ;;
        if r <? 0 then mret i
        else if negb (r =? n1) then panic "short filewrite"
        else filewrite_loop fuel' f ip src (i + r) n
      else mret i
  end.

Definition filewrite (f : nat) (src : source) (n : Z) : K Z :=
  x ← gets (get_file f);
  if writable x =? 0 then mret (-1) else
  match ftype x with
  | FD_PIPE => pipewrite (fpipe x) src n
  | FD_INODE =>
      match fip x with
      | None => panic "ilock"
      | Some ip =>
          i ← filewrite_loop (Z.to_nat (n / filewrite_max + 2)) f ip src 0 n;
          mret (if i =? n then n else -1)
      end
  | FD_NONE => panic "filewrite"
  end.

(** pipe.c: pipealloc.  [data] is what the page holds there. *)
Definition pipe_data_offset : Z := 104.
Definition pipealloc : K (option (nat * nat)) :=
  let bad (f0 f1 : option nat) (p : Z) : K (option (nat * nat)) :=
    when (negb (p =? 0)) (kfree p) ;;
    match f0 with Some f => fileclose f | None => mret tt end ;;
    match f1 with Some f => fileclose f | None => mret tt end ;;
    mret None in
  f0 ← filealloc;
  match f0 with
  | None => bad None None 0
  | Some a =>
      f1 ← filealloc;
      match f1 with
      | None => bad (Some a) None 0
      | Some b =>
          p ← kalloc;
          if p =? 0 then bad (Some a) (Some b) 0 else
          m ← gets mem;
          modify (fun s => s <| pipes ::=
            insert p (mkPipe (read_bytes m (p + pipe_data_offset) 512) 0 0 1 1) |>) ;;
          initlock (PIPELOCK p) ;;
          upd_file a (fun x => x <| ftype := FD_PIPE |> <| readable := 1 |>
                                 <| writable := 0 |> <| fpipe := p |>) ;;
          upd_file b (fun x => x <| ftype := FD_PIPE |> <| readable := 0 |>
                                 <| writable := 1 |> <| fpipe := p |>) ;;
          mret (Some (a, b))
      end
  end.

End Definitions.
