(* ===== verification/Proc.v ===== *)
(** proc.c: processes.

    Creation ([allocproc], [userinit], [fork]), memory size ([growproc]), end
    ([exit], [wait]), signals and alarms ([kill], [signal], [check_alarms],
    [check_signals]), and the scheduler's kernel helpers for the agent. *)

From S2P Require Import Prelude Control KState Spinlock Format Sched Memory Kalloc Vm Sleeplock.
From S2P Require Import Disk Bio Log Inode Console Fs Pipe File.

Section Creation.

Definition pinit : K unit :=
  initlock PTABLE ;;
  initlock SCHEDP ;;
  upd_schedp (fun sp => sp <| q0_quantum := 4 |> <| q1_quantum := 6 |> <| q2_quantum := 8 |>
    <| boost_interval := 500 |> <| ema_alpha_fast := 50 |> <| ema_alpha_slow := 10 |>
    <| aging_factor := 50 |> <| agent_pid := 0 |> <| sched_alert := 0 |> <| rr_mode := 0 |>).

(** First slot satisfying a test, in table order. *)
Fixpoint first_slot (f : proc -> bool) (pt : list proc) (i : nat) : option nat :=
  match pt with
  | [] => None
  | p :: pt' => if f p then Some i else first_slot f pt' (S i)
  end.
Definition is_unused (p : proc) : bool := bool_decide (pstate p = UNUSED).

(** The fields [allocproc] sets under the lock. *)
Definition embryo (newpid now : Z) (p : proc) : proc :=
  p <| pstate := EMBRYO |> <| signal_pending := 0 |> <| alarm_ticks := 0 |>
    <| alarm_countdown := 0 |> <| sig_disp := replicate 32 0 |> <| pid := newpid |>
    <| queue_level := 0 |> <| ticks_remaining := 1 |> <| wait_ticks := 0 |>
    <| burst_ema_fast := 100 |> <| burst_ema_slow := 100 |> <| burst_start_tick := 0 |>
    <| yield_count := 0 |> <| preempt_count := 0 |> <| burst_variance := 0 |>
    <| page_fault_count := 0 |> <| effective_score := 0 |> <| first_run_tick := 0 |>
    <| create_tick := i32 now |>.

(** The trap frame's room is reserved, not written: its contents stay
    unspecified until the caller fills them. *)
Definition allocproc : K (option nat) :=
  acquire PTABLE ;;
  t ← gets ptable;
  match first_slot is_unused t 0 with
  | None => release PTABLE ;; mret None
  | Some i =>
      newpid ← gets nextpid;
      now ← gets ticks;
      upd_proc i (embryo newpid now) ;;
      modify (fun s => s <| nextpid ::= fun n => i32 (n + 1) |>) ;;
      release PTABLE ;;
      ks ← kalloc;
      upd_proc i (fun p => p <| kstack := ks |>) ;;
      if ks =? 0 then
        set_state UNUSED i ;;
        mret None
      else
        let sp := ks + KSTACKSIZE - sizeof_trapframe - 8 in
        y ← gets syms;
        write64 sp (sym_syscall_trapret y) ;;
        upd_proc i (fun p => p <| pcontext := zero_context <| c_rip := sym_forkret y |> |>) ;;
        mret (Some i)
  end.

Context `{!DiskDriver}.

Definition userinit : K unit :=
  o ← allocproc;
  match o with
  | None => panic "trap"                         (* p is used unchecked *)
  | Some i =>
      modify (fun s => s <| initproc := Some i |>) ;;
      pg ← setupkvm;
      upd_proc i (fun p => p <| pgdir := pg |>) ;;
      if pg =? 0 then panic "userinit: out of memory?" else
      y ← gets syms;
      inituvm pg (sym_initcode y) ;;
      upd_proc i (fun p => p <| sz := PGSIZE * 2 |>) ;;
      upd_proc i (fun p => p <| tf := zero_trapframe <| r11 := FL_IF |>
                                    <| rsp := sz p |> <| rcx := PGSIZE |> |>) ;;
      upd_proc i (fun p => p <| pname ::= fun n => safestrcpy n (bytes_of "initcode") 16 |>) ;;
      c ← namei (bytes_of "/");
      upd_proc i (fun p => p <| cwd := c |>) ;;
      set_state RUNNABLE i
  end.

Definition growproc (n : Z) : K Z :=
  i ← myproc;
  p ← get_proc i;
  let z := sz p in
  r ← (if 0 <? n then allocuvm (pgdir p) z (u64 (z + n))
       else if n <? 0 then deallocuvm (pgdir p) z (u64 (z + n))
       else mret z);
  if negb (n =? 0) && (r =? 0) then mret (-1) else
  upd_proc i (fun p => p <| sz := r |>) ;;
  switchuvm i ;;
  mret 0.

(** [for(i = 0; i < NOFILE; i++) if(proc->ofile[i]) np->ofile[i] = filedup(...)] *)
Definition fork_files (i np : nat) : K unit :=
  for_each (seq 0 NOFILE) (fun fd =>
    p ← get_proc i;
    match mjoin (ofile p !! fd) with
    | Some f =>
        f' ← filedup f;
        upd_proc np (fun p => p <| ofile ::= <[fd := Some f']> |>)
    | None => mret tt
    end).

Definition fork : K Z :=
  o ← allocproc;
  match o with
  | None => mret (-1)
  | Some np =>
      i ← myproc;
      p ← get_proc i;
      pg ← copyuvm (pgdir p) (sz p);
      upd_proc np (fun q => q <| pgdir := pg |>) ;;
      if pg =? 0 then
        q ← get_proc np;
        kfree (kstack q) ;;
        upd_proc np (fun q => q <| kstack := 0 |>) ;;
        set_state UNUSED np ;;
        mret (-1)
      else
        p ← get_proc i;
        upd_proc np (fun q => q <| sz := sz p |> <| parent := Some i |> <| tf := tf p |>) ;;
        upd_proc np (fun q => q <| tf ::= fun t => t <| rax := 0 |> |>) ;;
        fork_files i np ;;
        p ← get_proc i;
        c ← match cwd p with
            | Some c => idup c
            | None => panic "trap"
            end;
        upd_proc np (fun q => q <| cwd := Some c |>) ;;
        upd_proc np (fun q => q <| pname ::= fun n => safestrcpy n (pname p) 16 |>) ;;
        q ← get_proc np;
        set_state RUNNABLE np ;;
        mret (pid q)
  end.

End Creation.

Section Ending.
Context `{!DiskDriver}.

Definition close_files (i : nat) : K unit :=
  for_each (seq 0 NOFILE) (fun fd =>
    p ← get_proc i;
    match mjoin (ofile p !! fd) with
    | Some f =>
        fileclose f ;;
        upd_proc i (fun p => p <| ofile ::= <[fd := None]> |>)
    | None => mret tt
    end).

(** Passing the children to init, in table order. *)
Definition reparent (i : nat) : K unit :=
  for_each proc_slots (fun j =>
    q ← get_proc j;
    when (bool_decide (parent q = Some i))
      (ip ← gets initproc;
       upd_proc j (fun q => q <| parent := ip |>) ;;
       when (bool_decide (pstate q = ZOMBIE)) (wakeup1 (CH_PROC <$> ip)))).

(** [exit] up to the jump into the scheduler. *)
Definition exit_prepare (i : nat) : K unit :=
  close_files i ;;
  begin_op ;;
  p ← get_proc i;
  match cwd p with
  | Some c => iput c
  | None => panic "trap"
  end ;;
  end_op ;;
  upd_proc i (fun p => p <| cwd := None |>).

Definition exit_finish (i : nat) : K unit :=
  acquire PTABLE ;;
  acquire SCHEDP ;;
  p ← get_proc i;
  sp ← gets schedp;
  when (agent_pid sp =? pid p) (upd_schedp (fun sp => sp <| agent_pid := 0 |>)) ;;
  release SCHEDP ;;
  p ← get_proc i;
  wakeup1 (CH_PROC <$> parent p) ;;
  reparent i ;;
  set_state ZOMBIE i ;;
  sched.

Definition exit {A} : K A :=
  i ← myproc;
  ip ← gets initproc;
  if bool_decide (ip = Some i) then panic "init exiting" else
  exit_prepare i ;;
  exit_finish i ;;
  panic "zombie exit".

Definition is_child (i : nat) (p : proc) : bool := bool_decide (parent p = Some i).
Definition is_zombie (p : proc) : bool := bool_decide (pstate p = ZOMBIE).

(** What [wait] does to the slot of the child it reaps. *)
Definition reaped (p : proc) : proc :=
  p <| pid := 0 |> <| parent := None |> <| pname ::= <[0%nat := 0]> |>
    <| killed := 0 |> <| pstate := UNUSED |>.
Definition reap (j : nat) : K Z :=
  q ← get_proc j;
  kfree (kstack q) ;;
  upd_proc j (fun q => q <| kstack := 0 |>) ;;
  freevm (pgdir q) ;;
  upd_proc j reaped ;;
  release PTABLE ;;
  mret (pid q).

Definition wait : K Z :=
  acquire PTABLE ;;
  loop (
    i ← myproc;
    t ← gets ptable;
    match first_slot (fun q => is_child i q && is_zombie q) t 0 with
    | Some j => r ← reap j; mret (Some r)
    | None =>
        p ← get_proc i;
        if negb (existsb (is_child i) t) || z2b (killed p) then
          release PTABLE ;; mret (Some (-1))
        else sleep (CH_PROC i) (Some PTABLE) ;; mret None
    end).

Definition forkret : K unit :=
  release PTABLE ;;
  f ← gets first;
  when (z2b f)
    (modify (fun s => s <| first := 0 |>) ;;
     iinit ROOTDEV ;;
     initlog ROOTDEV).

End Ending.

Section Signals.
Context `{!DiskDriver}.

Definition wake_proc (p : proc) : proc :=
  if bool_decide (pstate p = SLEEPING) then p <| pstate := RUNNABLE |> else p.

Definition alarm_slot (i : nat) : K unit :=
  p ← get_proc i;
  when (0 <? alarm_ticks p)
    (upd_proc i (fun p => p <| alarm_countdown ::= fun n => i32 (n - 1) |>) ;;
     p ← get_proc i;
     when (alarm_countdown p <=? 0)
       (cprintf (line "got a kill for %d signal %d") [AInt (pid p); AInt SIGALRM] ;;
        upd_proc i (fun p => wake_proc (p <| signal_pending := SIGALRM |>
                               <| alarm_ticks := 0 |> <| alarm_countdown := 0 |>)))).
Definition check_alarms : K unit :=
  acquire PTABLE ;;
  for_each proc_slots alarm_slot ;;
  release PTABLE.

Definition signal (signum handler : Z) : K unit :=
  cprintf (line "In signal(), with number %d and handler %p") [AInt signum; APtr handler] ;;
  when ((0 <=? signum) && (signum <? 32))
    (i ← myproc;
     upd_proc i (fun p => p <| sig_disp ::= <[Z.to_nat signum := handler]> |>)).

(** [proc->sig_disp[signum]] is not checked: an index of 32 to 37 reads the
    scheduler fields that follow the array in struct proc. *)
Definition pair32 (lo hi : Z) : Z := u32 lo + 2 ^ 32 * u32 hi.
Definition disp_at (y : symbols) (p : proc) (signum : Z) : Z :=
  if (0 <=? signum) && (signum <? 32) then getb (sig_disp p) (Z.to_nat signum)
  else if signum =? 32 then pair32 (queue_level p) (ticks_remaining p)
  else if signum =? 33 then pair32 (wait_ticks p) (burst_ema_fast p)
  else if signum =? 34 then pair32 (burst_ema_slow p) (burst_start_tick p)
  else if signum =? 35 then pair32 (yield_count p) (preempt_count p)
  else if signum =? 36 then pair32 (burst_variance p) (page_fault_count p)
  else if signum =? 37 then pair32 (effective_score p) (first_run_tick p)
  else sym_beyond y signum.

Definition sigret_code : list Z :=
  [0x48; 0xc7; 0xc0; 0x18; 0x00; 0x00; 0x00; 0x49; 0x89; 0xca; 0x0f; 0x05; 0xc3].
Definition align16 (a : Z) : Z := Z.land a (u64 (Z.lnot 0xF)).

(** The user-space handler: back up the trap frame, push the trampoline and
    its address on the user stack, and return into the handler. *)
Definition deliver_signal (i : nat) (signum disp : Z) : K unit :=
  p ← get_proc i;
  upd_proc i (fun p => p <| tf_backup := tf p <| rcx := rip (tf p) |> |>) ;;
  upd_proc i (fun p => p <| signal_pending := 0 |>) ;;
  let usp := align16 (u64 (rsp (tf p) - Z.of_nat (length sigret_code))) in
  copyout (pgdir p) usp sigret_code ;;
  let usp' := u64 (usp - 8) in
  copyout (pgdir p) usp' (bytes64 usp) ;;
  upd_proc i (fun p => p <| tf ::= fun t =>
    t <| rsp := usp' |> <| rcx := disp |> <| rip := disp |> <| rdi := u64 signum |> |>).

Definition check_signals : K unit :=
  o ← gets (fun s => cur (kcpu s));
  match o with
  | None => mret tt
  | Some i =>
      p ← get_proc i;
      if z2b (killed p) then exit else
      if signal_pending p =? 0 then mret tt else
      let signum := i32 (signal_pending p) in
      y ← gets syms;
      let disp := disp_at y p signum in
      cprintf (line "Checking signals, pending is %d") [AInt signum] ;;
      if disp =? 1 then upd_proc i (fun p => p <| signal_pending := 0 |>)
      else if disp =? 0 then
        cprintf (line "got a signal %d, exiting") [AInt signum] ;;
        exit
      else deliver_signal i signum disp
  end.

Definition kill (target signum : Z) : K Z :=
  acquire PTABLE ;;
  t ← gets ptable;
  match first_slot (fun p => pid p =? target) t 0 with
  | Some i =>
      cprintf (line "got a kill for %d signal %d") [AInt target; AInt signum] ;;
      upd_proc i (fun p => wake_proc (p <| signal_pending := u32 signum |>)) ;;
      release PTABLE ;;
      mret 0
  | None => release PTABLE ;; mret (-1)
  end.

Definition send_fgsig (signum : Z) : K unit :=
  f ← gets fgpid;
  when (0 <? f) (kill f signum ;; mret tt).

End Signals.

Section Helpers.

(** One entry of the telemetry buffer; the alert rides on entry 0. *)
Definition stat_of (n : nat) (sp : sched_params) (p : proc) : schedstat :=
  mkSchedstat (pid p) (procstate_num (pstate p)) (queue_level p) (burst_ema_fast p)
    (burst_ema_slow p) (wait_ticks p) (yield_count p) (preempt_count p)
    (burst_variance p) (page_fault_count p) (effective_score p)
    (if bool_decide (n = 0%nat) then sched_alert sp else 0)
    (first_run_tick p) (create_tick p).
Definition stat_bytes (e : schedstat) : list Z :=
  mjoin (int_bytes <$>
    [ss_pid e; ss_state e; ss_queue_level e; ss_burst_ema_fast e; ss_burst_ema_slow e;
     ss_wait_ticks e; ss_yield_count e; ss_preempt_count e; ss_burst_variance e;
     ss_page_fault_count e; ss_effective_score e; ss_sched_alert e;
     ss_first_run_tick e; ss_create_tick e]).

(** [for(p = ptable.proc; p < &ptable.proc[NPROC] && n < maxproc; p++)],
    writing [buf[n]] through the caller's page table. *)
Fixpoint getschedstats_loop (slots : list nat) (buf maxproc : Z) (n : nat) : K Z :=
  match slots with
  | [] => mret (Z.of_nat n)
  | i :: slots' =>
      if Z.of_nat n <? maxproc then
        p ← get_proc i;
        if is_unused p then getschedstats_loop slots' buf maxproc n
        else
          sp ← gets schedp;
          pg ← cur_pgdir;
          ustore_bytes pg (u64 (buf + sizeof_schedstat * Z.of_nat n))
            (stat_bytes (stat_of n sp p)) ;;
          getschedstats_loop slots' buf maxproc (S n)
      else mret (Z.of_nat n)
  end.
Definition kern_getschedstats (buf maxproc : Z) : K Z :=
  acquire PTABLE ;;
  n ← getschedstats_loop proc_slots buf maxproc 0;
  release PTABLE ;;
  mret n.

Definition kern_pin_agent : K unit :=
  acquire PTABLE ;;
  i ← myproc;
  sp ← gets schedp;
  upd_proc i (fun p => p <| queue_level := 0 |> <| ticks_remaining := q0_quantum sp |>) ;;
  release PTABLE.

Definition state_name (st : procstate) : list Z :=
  bytes_of match st with
           | UNUSED => "unused" | EMBRYO => "embryo" | SLEEPING => "sleep "
           | RUNNABLE => "runble" | RUNNING => "run   " | ZOMBIE => "zombie"
           end.
(** [pcs] stands for the return addresses [getstackpcs] reads off the stack. *)
Definition procdump (pcs : proc -> list Z) : K unit :=
  for_each proc_slots (fun i =>
    p ← get_proc i;
    if is_unused p then mret tt
    else
      cprintf "%d %s %s" [AInt (pid p); AStr (Some (state_name (pstate p))); AStr (Some (pname p))] ;;
      when (bool_decide (pstate p = SLEEPING))
        (for_each (pcs p) (fun pc => cprintf " %p" [APtr pc])) ;;
      cprintf (line "") []).

End Helpers.
