(* ===== verification/Trap.v ===== *)
(** trap.c: interrupts and exceptions, and the console's input interrupt.

    The timer interrupt advances the clock, fires alarms, and charges the
    running process for its tick: when its quantum is used up the burst
    averages are updated and the process is demoted.  The trap then preempts
    it.  [chars] is what the keyboard or the serial port delivers and [cr2]
    the faulting address; both come from the hardware. *)

From S2P Require Import Prelude Control KState Spinlock Format Sched Memory Kalloc Vm Sleeplock.
From S2P Require Import Disk Bio Log Inode Console Fs Pipe File Proc.

Definition T_PGFLT : Z := 14.
Definition T_IRQ0 : Z := 32.
Definition IRQ_TIMER : Z := 0.
Definition IRQ_KBD : Z := 1.
Definition IRQ_COM1 : Z := 4.
Definition IRQ_IDE : Z := 14.
Definition IRQ_SPURIOUS : Z := 31.
Definition DPL_USER : Z := 3.
Definition KERNEL_CS : Z := 0x8.

Section Idt.

(** The four words of an interrupt gate. *)
Definition mkgate (kva pl : Z) : list Z :=
  [ Z.lor (Z.land kva 0xFFFF) (Z.shiftl KERNEL_CS 16);
    u32 (Z.lor (Z.lor (Z.land kva 0xFFFF0000) 0x8E00) (Z.shiftl (Z.land pl 3) 13));
    u32 (Z.shiftr kva 32);
    0 ].
Definition tvinit (vectors : list Z) : K Z :=
  idt ← kalloc;
  upd_mem (fun m => memset m idt 0 PGSIZE) ;;
  for_each (seq 0 256) (fun n =>
    upd_mem (fun m => write_bytes m (idt + 16 * Z.of_nat n)
      (mjoin (bytes32 <$> mkgate (getb vectors n) 0)))) ;;
  mret idt.

Definition from_bcd (code : Z) : Z := Z.shiftr code 4 * 10 + Z.land code 0xf.

End Idt.

Section ConsoleInput.
Context `{!DiskDriver}.

Definition kill_line_more (x : input_t) : bool :=
  negb (in_e x =? in_w x) && negb (in_at x (in_e x - 1) =? 10).
Definition erase : K unit :=
  upd_input (fun x => x <| in_e ::= fun e => u32 (e - 1) |>) ;;
  consputc BACKSPACE.
(** The edited part of the line is at most the buffer. *)
Fixpoint kill_line (fuel : nat) : K unit :=
  match fuel with
  | O => mret tt
  | S f =>
      x ← gets input;
      if kill_line_more x then erase ;; kill_line f else mret tt
  end.

Definition input_char (c : Z) : K unit :=
  x ← gets input;
  when (negb (c =? 0) && (u32 (in_e x - in_r x) <? INPUT_BUF))
    (let c := if c =? 13 then 10 else c in
     upd_input (fun x => x <| in_buf ::= <[Z.to_nat (in_e x mod INPUT_BUF) := u8 c]> |>
                           <| in_e ::= fun e => u32 (e + 1) |>) ;;
     consputc c ;;
     x ← gets input;
     when ((c =? 10) || (c =? C "D") || (in_e x =? u32 (in_r x + INPUT_BUF)))
       (upd_input (fun x => x <| in_w := in_e x |>) ;;
        wakeup CH_INPUT)).

Definition console_char (pcs : proc -> list Z) (c : Z) : K unit :=
  if c =? C "Z" then no_return                   (* lidt(0,0): the machine resets *)
  else if c =? C "P" then procdump pcs
  else if c =? C "C" then send_fgsig SIGINT
  else if c =? C "U" then
    x ← gets input;
    kill_line (Z.to_nat (u32 (in_e x - in_w x)))
  else if (c =? C "H") || (c =? 127) then
    x ← gets input;
    when (negb (in_e x =? in_w x)) erase
  else input_char c.

(** [while((c = getc()) >= 0)] *)
Fixpoint consoleintr_loop (pcs : proc -> list Z) (chars : list Z) : K unit :=
  match chars with
  | [] => mret tt
  | c :: chars' =>
      if c <? 0 then mret tt
      else console_char pcs c ;; consoleintr_loop pcs chars'
  end.
Definition consoleintr (pcs : proc -> list Z) (chars : list Z) : K unit :=
  acquire INPUT ;;
  consoleintr_loop pcs chars ;;
  release INPUT.

Definition consoleinit : K unit :=
  initlock CONS ;;
  initlock INPUT ;;
  modify (fun s => s <| devsw ::= insert 1 DEV_CONSOLE |>).

End ConsoleInput.

Section Timer.

(** [old + (alpha * (burst_len * 100 - old)) / 100] in [int]s. *)
Definition ema_step (alpha burst old : Z) : Z :=
  i32 (old + Z.quot (i32 (alpha * i32 (i32 (burst * 100) - old))) 100).
(** The two caps that follow, in order. *)
Definition ema_cap (x : Z) : Z :=
  let x := if 5000 <? x then 5000 else x in
  if x <? 0 then 0 else x.

Definition is_agent (sp : sched_params) (p : proc) : bool :=
  negb (agent_pid sp =? 0) && (pid p =? agent_pid sp).

(** The quantum is used up. *)
Definition expire (sp : sched_params) (now : Z) (p : proc) : proc :=
  let burst_len := i32 (now - burst_start_tick p) in
  let fast := ema_cap (ema_step (ema_alpha_fast sp) burst_len (burst_ema_fast p)) in
  let slow := ema_cap (ema_step (ema_alpha_slow sp) burst_len (burst_ema_slow p)) in
  let v := i32 (fast - slow) in
  let p := p <| burst_ema_fast := fast |> <| burst_ema_slow := slow |>
             <| burst_variance := if v <? 0 then i32 (- v) else v |>
             <| preempt_count ::= fun n => i32 (n + 1) |> in
  if (queue_level p <? 2) && negb (is_agent sp p)
  then p <| queue_level ::= fun q => i32 (q + 1) |> else p.

Definition charge (sp : sched_params) (now : Z) (p : proc) : proc :=
  let p := p <| ticks_remaining ::= fun n => i32 (n - 1) |> in
  if ticks_remaining p <=? 0 then expire sp now p else p.

Definition tick_clock : K unit :=
  acquire TICKSLOCK ;;
  modify (fun s => s <| ticks ::= fun t => u32 (t + 1) |>) ;;
  wakeup CH_TICKS ;;
  release TICKSLOCK.

(** [proc != 0 && proc->state == RUNNING] *)
Definition running_proc (s : kstate) : option nat :=
  match cur (kcpu s) with
  | Some i => if bool_decide (pstate (getp i s) = RUNNING) then Some i else None
  | None => None
  end.

Definition timer : K unit :=
  c ← gets (fun s => cpu_id (kcpu s));
  when (c =? 0) (tick_clock ;; check_alarms) ;;
  o ← gets running_proc;
  match o with
  | Some i => modify (fun s => setp i (charge (schedp s) (ticks s)) s)
  | None => mret tt
  end.

End Timer.

Section Trap.
Context `{!DiskDriver}.

Definition user_mode (t : trapframe) : bool := Z.land (cs t) 3 =? DPL_USER.

Definition unexpected (t : trapframe) (cr2 : Z) : K unit :=
  o ← gets (fun s => cur (kcpu s));
  c ← gets (fun s => cpu_id (kcpu s));
  match o with
  | Some i =>
      p ← get_proc i;
      if Z.land (cs t) 3 =? 0 then
        cprintf (line "unexpected trap %d from cpu %d rip %p (cr2=0x%p)")
          [AInt (trapno t); AInt c; APtr (rip t); APtr cr2] ;;
        cprintf (line "proc id: %d") [AInt (pid p)] ;;
        panic "trap"
      else
        cprintf (line "pid %d %s: trap %d err %d on cpu %d rip 0x%p addr 0x%p--kill proc")
          [AInt (pid p); AStr (Some (pname p)); AInt (trapno t); AInt (err t); AInt c;
           APtr (rip t); APtr cr2] ;;
        upd_proc i (fun p => p <| killed := 1 |>)
  | None =>
      cprintf (line "unexpected trap %d from cpu %d rip %p (cr2=0x%p)")
        [AInt (trapno t); AInt c; APtr (rip t); APtr cr2] ;;
      panic "trap"
  end.

Definition count_fault : K unit :=
  o ← gets (fun s => cur (kcpu s));
  match o with
  | Some i => upd_proc i (fun p => p <| page_fault_count ::= fun n => i32 (n + 1) |>)
  | None => mret tt
  end.

(** [switch(tf->trapno)] *)
Definition trap_switch (t : trapframe) (pcs : proc -> list Z) (chars : list Z) (cr2 : Z) : K unit :=
  if trapno t =? T_IRQ0 + IRQ_TIMER then timer
  else if trapno t =? T_IRQ0 + IRQ_IDE then ideintr
  else if trapno t =? T_IRQ0 + IRQ_IDE + 1 then mret tt
  else if trapno t =? T_IRQ0 + IRQ_KBD then consoleintr pcs chars
  else if trapno t =? T_IRQ0 + IRQ_COM1 then consoleintr pcs chars
  else if (trapno t =? T_IRQ0 + 7) || (trapno t =? T_IRQ0 + IRQ_SPURIOUS) then
    c ← gets (fun s => cpu_id (kcpu s));
    cprintf (line "cpu%d: spurious interrupt at %p:%p") [AInt c; APtr (cs t); APtr (rip t)]
  else
    when (trapno t =? T_PGFLT) count_fault ;;
    unexpected t cr2.

Definition exit_if_killed (t : trapframe) : K unit :=
  o ← gets (fun s => cur (kcpu s));
  match o with
  | Some i =>
      p ← get_proc i;
      if z2b (killed p) && user_mode t then exit else mret tt
  | None => mret tt
  end.

Definition preempt (t : trapframe) : K unit :=
  o ← gets running_proc;
  match o with
  | Some i =>
      p ← get_proc i;
      when ((trapno t =? T_IRQ0 + IRQ_TIMER) && (ticks_remaining p <=? 0)) yield
  | None => mret tt
  end.

(** A trap from user mode pushes its frame at the top of the process's kernel
    stack, where [proc->tf] points. *)
Definition push_frame (t : trapframe) : K unit :=
  o ← gets (fun s => cur (kcpu s));
  match o with
  | Some i => when (user_mode t) (upd_proc i (fun p => p <| tf := t |>))
  | None => mret tt
  end.

Definition trap (t : trapframe) (pcs : proc -> list Z) (chars : list Z) (cr2 : Z) : K unit :=
  push_frame t ;;
  trap_switch t pcs chars cr2 ;;
  exit_if_killed t ;;
  preempt t ;;
  exit_if_killed t ;;
  o ← gets (fun s => cur (kcpu s));
  when (bool_decide (o <> None) && user_mode t) check_signals.

End Trap.

(** * The burst averages *)

Lemma ema_cap_range x : 0 <= ema_cap x <= 5000.
Proof. unfold ema_cap. ranges. Qed.

(** Inside these bounds no [int] operation of the update wraps. *)
Definition ema_exact (alpha burst old : Z) : Prop :=
  1 <= alpha <= 90 /\ 0 <= old <= 5000 /\ 0 <= burst <= 238000.

Lemma ema_step_eq alpha burst old :
  ema_exact alpha burst old ->
  ema_step alpha burst old = old + Z.quot (alpha * (burst * 100 - old)) 100.
Proof.
  intros (Ha & Ho & Hb). unfold ema_step.
  rewrite (i32_id (burst * 100)) by (unfold i32_range; lia).
  rewrite (i32_id (_ - old)) by (unfold i32_range; lia).
  rewrite (i32_id (alpha * _)) by (unfold i32_range; nia).
  set (d := burst * 100 - old). apply i32_id.
  assert (- 2 ^ 24 <= Z.quot (alpha * d) 100 <= 2 ^ 25); [|unfold i32_range; lia].
  assert (Hr : -5000 <= d <= 23800000) by lia.
  split.
  - transitivity (Z.quot (-450000) 100); [by vm_compute|]. apply quot_mono; nia.
  - transitivity (Z.quot (90 * 23800000) 100); [|by vm_compute]. apply quot_mono; nia.
Qed.

(** One update moves the average towards the new sample and never
    past it: the result lies between the old average and the sample (scaled by
    100), by at most the fraction [alpha]/100 of the distance, for bursts of
    up to 238000 ticks; and the capped value stays within 0..5000 whatever the
    inputs are. *)
Theorem ema_towards_sample alpha burst old :
  ema_exact alpha burst old ->
  let x := ema_step alpha burst old in
  Z.min old (burst * 100) <= x <= Z.max old (burst * 100) /\
  100 * Z.abs (x - old) <= alpha * Z.abs (burst * 100 - old) < 100 * (Z.abs (x - old) + 1) /\
  0 <= ema_cap x <= 5000.
Proof.
  intros He x. subst x. rewrite ema_step_eq by done. destruct He as (Ha & Ho & Hb).
  set (d := burst * 100 - old). replace (burst * 100) with (old + d) by lia.
  pose proof (Z.quot_rem (alpha * d) 100 ltac:(lia)) as Hq.
  set (q := Z.quot (alpha * d) 100) in *. set (r := Z.rem (alpha * d) 100) in *.
  replace (old + q - old) with q by lia. replace (old + d - old) with d by lia.
  destruct (Z.le_ge_cases 0 d) as [Hd|Hd].
  - pose proof (Z.rem_bound_pos (alpha * d) 100 ltac:(nia) ltac:(lia)) as Hr. fold r in Hr.
    rewrite (Z.abs_eq d) by done. assert (0 <= alpha * d <= 90 * d) by nia.
    set (ad := alpha * d) in *. clearbody ad q r.
    split_and!; try apply ema_cap_range; lia.
  - pose proof (Z.rem_bound_pos (- (alpha * d)) 100 ltac:(nia) ltac:(lia)) as Hr.
    rewrite Z.rem_opp_l in Hr by lia. fold r in Hr.
    rewrite (Z.abs_neq d) by done. rewrite Z.mul_opp_r.
    assert (90 * d <= alpha * d <= 0) by nia.
    set (ad := alpha * d) in *. clearbody ad q r.
    split_and!; try apply ema_cap_range; lia.
Qed.

(** * Demotion *)

Lemma level_up sp p :
  0 <= queue_level p <= 2 ->
  0 <= (if (queue_level p <? 2) && negb (is_agent sp p) then i32 (queue_level p + 1) else queue_level p) <= 2.
Proof.
  intros H. destruct (Z.ltb_spec (queue_level p) 2); cbn; [|done].
  destruct (is_agent sp p); cbn; [done|]. rewrite i32_id by (unfold i32_range; lia). lia.
Qed.

(** C18: what a timer tick does to the process it interrupts: the
    quantum loses a tick; when it is used up, the averages and their distance
    are updated (within 0..5000) and the process drops one queue, but never
    below Q2 and never if it is the registered agent; otherwise only
    [ticks_remaining] changes. *)
Theorem charge_behaviour sp now p :
  i32_range (ticks_remaining p - 1) -> 0 <= queue_level p <= 2 -> i32_range (preempt_count p + 1) ->
  let p' := charge sp now p in
  ticks_remaining p' = ticks_remaining p - 1 /\
  (1 < ticks_remaining p -> p' = p <| ticks_remaining := ticks_remaining p - 1 |>) /\
  (ticks_remaining p <= 1 ->
     0 <= burst_ema_fast p' <= 5000 /\ 0 <= burst_ema_slow p' <= 5000 /\
     burst_variance p' = Z.abs (burst_ema_fast p' - burst_ema_slow p') /\
     preempt_count p' = preempt_count p + 1 /\
     queue_level p' = (if is_agent sp p then queue_level p else Z.min 2 (queue_level p + 1)) /\
     pid p' = pid p /\ pstate p' = pstate p).
Proof.
  intros Ht Hq Hc. cbv zeta. unfold charge; cbv zeta. cbn [ticks_remaining setter].
  rewrite (i32_id _ Ht).
  destruct (Z.leb_spec (ticks_remaining p - 1) 0) as [Hle|Hgt].
  2:{ split_and!; [done|done|lia]. }
  split; [by unfold expire; cbv zeta; destruct (_ && _)|].
  split; [lia|]. intros _. unfold expire; cbv zeta.
  set (fast := ema_cap _). set (slow := ema_cap _).
  pose proof (ema_cap_range (ema_step (ema_alpha_fast sp) (i32 (now - burst_start_tick p)) (burst_ema_fast p))) as Hf.
  pose proof (ema_cap_range (ema_step (ema_alpha_slow sp) (i32 (now - burst_start_tick p)) (burst_ema_slow p))) as Hs.
  change (0 <= fast <= 5000) in Hf. change (0 <= slow <= 5000) in Hs.
  clearbody fast slow. unfold is_agent; cbn.
  destruct (Z.ltb_spec (queue_level p) 2), (negb (agent_pid sp =? 0) && (pid p =? agent_pid sp)); cbn; split_and!; try done; try lia.
  all: try (rewrite (i32_id (preempt_count p + 1)); done).
  all: try (rewrite i32_id by (unfold i32_range; lia); lia).
  all: rewrite (i32_id (fast - slow)) by (unfold i32_range; lia);
    destruct (Z.ltb_spec (fast - slow) 0); rewrite ?i32_id by (unfold i32_range; lia); lia.
Qed.
