(* ===== verification/Syscall.v ===== *)
(** syscall.c: fetching and checking the arguments of system calls.

    Pointers from user space are dereferenced through the page table of the
    current process ([uload_int], [uload_addr]). *)

From S2P Require Import Prelude Control KState Spinlock Format Sched Memory Kalloc Vm Sleeplock.
From S2P Require Import Disk Bio Log Inode Console Fs Pipe File Proc.

Section Arguments.

Definition cur_proc : K proc :=
  i ← myproc;
  get_proc i.

(** [addr < PGSIZE || addr >= proc->sz || addr+n > proc->sz] *)
Definition bad_range (p : proc) (addr n : Z) : bool :=
  (addr <? PGSIZE) || (sz p <=? addr) || (sz p <? u64 (addr + n)).

Definition fetchint (addr : Z) : K (option Z) :=
  p ← cur_proc;
  if bad_range p addr 4 then mret None
  else v ← uload_int (pgdir p) addr; mret (Some v).

Definition fetchaddr (addr : Z) : K (option Z) :=
  p ← cur_proc;
  if bad_range p addr 8 then mret None
  else v ← uload_addr (pgdir p) addr; mret (Some v).

(** [for(s = star pp; s < ep; s++)]: the bytes up to the NUL. *)
Fixpoint fetchstr_loop (fuel : nat) (pg s : Z) (acc : list Z) : K (option (list Z)) :=
  match fuel with
  | O => mret None
  | S f =>
      c ← uload pg s;
      if c =? 0 then mret (Some acc) else fetchstr_loop f pg (s + 1) (acc ++ [c])
  end.
Definition fetchstr (addr : Z) : K (option (list Z)) :=
  p ← cur_proc;
  if (addr <? PGSIZE) || (sz p <=? addr) then mret None
  else fetchstr_loop (Z.to_nat (sz p - addr)) (pgdir p) addr [].

Definition fetcharg (n : Z) : K Z :=
  p ← cur_proc;
  let t := tf p in
  if n =? 0 then mret (rdi t)
  else if n =? 1 then mret (rsi t)
  else if n =? 2 then mret (rdx t)
  else if n =? 3 then mret (r10 t)
  else if n =? 4 then mret (r8 t)
  else if n =? 5 then mret (r9 t)
  else panic "failed fetch".

Definition argint (n : Z) : K Z := v ← fetcharg n; mret (i32 v).
Definition argaddr (n : Z) : K Z := fetcharg n.

(** The range check looks at the low half of the pointer only. *)
Definition argptr_bad (p : proc) (i size : Z) : bool :=
  (size <? 0) || (sz p <=? u32 i) || (sz p <? u32 (u32 i + size)).
Definition argptr (n size : Z) : K (option Z) :=
  i ← argaddr n;
  p ← cur_proc;
  mret (if argptr_bad p i size then None else Some i).

(** The address passes through an [int]. *)
Definition argstr (n : Z) : K (option (list Z)) :=
  a ← argint n;
  fetchstr (u64 a).

End Arguments.
