(* ===== verification/SysProc.v ===== *)
(** sysproc.c: system calls on processes, time, signals and the scheduler's
    parameters. *)

From S2P Require Import Prelude Control KState Spinlock Format Sched Memory Kalloc Vm Sleeplock.
From S2P Require Import Disk Bio Log Inode Console Fs Pipe File Proc Syscall.

Section Processes.
Context `{!DiskDriver}.

Definition sys_fork : K Z := fork.
Definition sys_exit : K Z := exit.
Definition sys_wait : K Z := wait.

Definition sys_kill : K Z :=
  target ← argint 0;
  signum ← argint 1;
  kill target signum.

Definition sys_alarm : K Z :=
  secs ← argint 0;
  i ← myproc;
  upd_proc i (fun p => p <| alarm_ticks := i32 (secs * 100) |>
                         <| alarm_countdown := i32 (i32 (secs + 1) * 100) |>) ;;
  mret 0.

Definition sys_signal : K Z :=
  signum ← argint 0;
  handler ← argaddr 1;
  if (signum <? 0) || (32 <=? signum) then mret (-1)
  else signal signum handler ;; mret 0.

Definition sys_sigret : K Z :=
  cprintf (line "In sys_sigret") [] ;;
  i ← myproc;
  upd_proc i (fun p => p <| tf := tf_backup p |>) ;;
  mret 0.

Definition sys_fgproc : K Z :=
  p ← cur_proc;
  modify (fun s => s <| fgpid := pid p |>) ;;
  cprintf (line "Set process to FG") [] ;;
  mret 0.

Definition sys_getpid : K Z := p ← cur_proc; mret (pid p).

Definition sys_sbrk : K Z :=
  n ← argaddr 0;
  p ← cur_proc;
  (* growproc takes an int64 *)
  r ← growproc (if 2 ^ 63 <=? n then n - 2 ^ 64 else n);
  mret (if r <? 0 then u64 (-1) else sz p).

(** [ticks - ticks0 < n] compares unsigned. *)
Definition sleep_more (n ticks0 : Z) (s : kstate) : bool := u32 (ticks s - ticks0) <? u32 n.
Definition sys_sleep : K Z :=
  n ← argint 0;
  acquire TICKSLOCK ;;
  ticks0 ← gets ticks;
  loop (
    more ← gets (sleep_more n ticks0);
    if more : bool then
      k ← killed_now;
      if k : bool then release TICKSLOCK ;; mret (Some (-1))
      else sleep CH_TICKS (Some TICKSLOCK) ;; mret None
    else release TICKSLOCK ;; mret (Some 0)).

Definition sys_uptime : K Z :=
  acquire TICKSLOCK ;;
  xticks ← gets ticks;
  release TICKSLOCK ;;
  mret (i32 xticks).

End Processes.

Section Scheduler.

Definition sys_getschedstats : K Z :=
  buf_addr ← argaddr 0;
  maxproc ← argint 1;
  if (maxproc <=? 0) || (Z.of_nat NPROC <? maxproc) then mret (-1) else
  p ← cur_proc;
  if bad_range p buf_addr (maxproc * sizeof_schedstat) then mret (-1)
  else kern_getschedstats buf_addr maxproc.

(** The ten checks, in order. *)
Definition update_ok (u : sched_update) : bool :=
  if (upd_q0_quantum u <? 1) || (10 <? upd_q0_quantum u) then false
  else if (upd_q1_quantum u <? 1) || (20 <? upd_q1_quantum u) then false
  else if (upd_q2_quantum u <? 1) || (40 <? upd_q2_quantum u) then false
  else if (upd_boost_interval u <? 10) || (500 <? upd_boost_interval u) then false
  else if (upd_ema_alpha_fast u <? 1) || (90 <? upd_ema_alpha_fast u) then false
  else if (upd_ema_alpha_slow u <? 1) || (50 <? upd_ema_alpha_slow u) then false
  else if (upd_aging_factor u <? 1) || (100 <? upd_aging_factor u) then false
  else if upd_ema_alpha_fast u <=? upd_ema_alpha_slow u then false
  else if (upd_q1_quantum u <? upd_q0_quantum u) || (upd_q2_quantum u <? upd_q1_quantum u)
    then false
  else if negb (upd_rr_mode u =? 0) && negb (upd_rr_mode u =? 1) then false
  else true.

Definition apply_update (u : sched_update) (sp : sched_params) : sched_params :=
  sp <| q0_quantum := upd_q0_quantum u |> <| q1_quantum := upd_q1_quantum u |>
     <| q2_quantum := upd_q2_quantum u |> <| boost_interval := upd_boost_interval u |>
     <| ema_alpha_fast := upd_ema_alpha_fast u |> <| ema_alpha_slow := upd_ema_alpha_slow u |>
     <| aging_factor := upd_aging_factor u |> <| sched_alert := 0 |>
     <| rr_mode := upd_rr_mode u |>.

(** The struct at [a] of the caller's memory; it does not change during the
    call, since the caller is the only thread of its address space. *)
Definition load_update (pg a : Z) : K sched_update :=
  q0 ← uload_int pg a;
  q1 ← uload_int pg (a + 4);
  q2 ← uload_int pg (a + 8);
  bi ← uload_int pg (a + 12);
  af ← uload_int pg (a + 16);
  as_ ← uload_int pg (a + 20);
  ag ← uload_int pg (a + 24);
  rr ← uload_int pg (a + 28);
  mret (mkUpdate q0 q1 q2 bi af as_ ag rr).

Definition caller_is_agent (s : kstate) (i : nat) : bool :=
  negb ((agent_pid (schedp s) =? 0) || negb (pid (getp i s) =? agent_pid (schedp s))).

(** Unlike [sys_getschedstats], no check that the address is below [sz]. *)
Definition update_addr_bad (p : proc) (a : Z) : bool :=
  (a <? PGSIZE) || (sz p <? u64 (a + sizeof_sched_update)).

Definition sys_setschedparam : K Z :=
  i ← myproc;
  ok ← gets (fun s => caller_is_agent s i);
  if negb ok then mret (-1) else
  upd_addr ← argaddr 0;
  p ← get_proc i;
  if update_addr_bad p upd_addr then mret (-1) else
  u ← load_update (pgdir p) upd_addr;
  if negb (update_ok u) then mret (-1) else
  acquire SCHEDP ;;
  upd_schedp (apply_update u) ;;
  release SCHEDP ;;
  mret 0.

Definition sys_register_agent : K Z :=
  sp ← gets schedp;
  if negb (agent_pid sp =? 0) then mret (-1) else
  acquire SCHEDP ;;
  sp ← gets schedp;
  if negb (agent_pid sp =? 0) then release SCHEDP ;; mret (-1)
  else
    p ← cur_proc;
    upd_schedp (fun sp => sp <| agent_pid := pid p |>) ;;
    release SCHEDP ;;
    kern_pin_agent ;;
    mret 0.

End Scheduler.
