(* ===== verification/Exec.v ===== *)
(** exec.c, and [loaduvm] of vm.c: replacing a process's memory by a program. *)

From S2P Require Import Prelude Control KState Spinlock Format Sched Memory Kalloc Vm Sleeplock.
From S2P Require Import Disk Bio Log Inode Console Fs Pipe File Proc Syscall.

(** * elf.h *)

Definition ELF_MAGIC : Z := 0x464C457F.
Definition ELF_PROG_LOAD : Z := 1.
Definition sizeof_elfhdr : Z := 64.
Definition sizeof_proghdr : Z := 56.

Record elfhdr := mkElf { elf_magic : Z; elf_entry : Z; elf_phoff : Z; elf_phnum : Z }.
Definition decode_elf (l : list Z) : elfhdr :=
  mkElf (get32 l 0) (get64 l 24) (get64 l 32) (get16 l 56).
Record proghdr := mkPh {
  ph_type : Z; ph_off : Z; ph_vaddr : Z; ph_filesz : Z; ph_memsz : Z
}.
Definition decode_ph (l : list Z) : proghdr :=
  mkPh (get32 l 0) (get64 l 8) (get64 l 16) (get64 l 32) (get64 l 40).

Section Definitions.
Context `{!DiskDriver}.

(** [for(i = 0; i < sz; i += PGSIZE)]; offset and size are [uint]s. *)
Fixpoint loaduvm_loop (fuel : nat) (pg addr : Z) (ip : nat) (offset sz i : Z) : K Z :=
  match fuel with
  | O => mret 0
  | S f =>
      if i <? sz then
        pte ← walkpgdir pg (u64 (addr + i)) false;
        if pte =? 0 then panic "loaduvm: address should exist" else
        v ← read64 pte;
        let n := if sz - i <? PGSIZE then sz - i else PGSIZE in
        r ← readi ip (ToKernel (P2V (PTE_ADDR v))) (u32 (offset + i)) n;
        if negb (u32 (fst r) =? n) then mret (-1)
        else loaduvm_loop f pg addr ip offset sz (i + PGSIZE)
      else mret 0
  end.
Definition loaduvm (pg addr : Z) (ip : nat) (offset0 sz0 : Z) : K Z :=
  let offset := u32 offset0 in
  let sz := u32 sz0 in
  if negb (addr mod PGSIZE =? 0) then panic "loaduvm: addr must be page aligned"
  else loaduvm_loop (pages_between 0 sz) pg addr ip offset sz 0.

(** The program headers from [off] on; the new size, or [None] for [goto bad]. *)
Fixpoint load_segments (k : nat) (pg : Z) (ip : nat) (off sz : Z) : K (option Z) :=
  match k with
  | O => mret (Some sz)
  | S k' =>
      r ← readi ip ToLocal (u32 off) sizeof_proghdr;
      if negb (u64 (fst r) =? sizeof_proghdr) then mret None else
      let ph := decode_ph (snd r) in
      let off' := i32 (off + sizeof_proghdr) in
      if negb (ph_type ph =? ELF_PROG_LOAD) then load_segments k' pg ip off' sz else
      if ph_memsz ph <? ph_filesz ph then mret None else
      if u64 (ph_vaddr ph + ph_memsz ph) <? ph_vaddr ph then mret None else
      z ← allocuvm pg sz (u64 (ph_vaddr ph + ph_memsz ph));
      if z =? 0 then mret None else
      if negb (ph_vaddr ph mod PGSIZE =? 0) then mret None else
      l ← loaduvm pg (ph_vaddr ph) ip (ph_off ph) (ph_filesz ph);
      if l <? 0 then mret None else
      load_segments k' pg ip off' z
  end.

(** The argument strings, from the top of the stack down. *)
Definition align8 (a : Z) : Z := Z.land a (u64 (Z.lnot 7)).
Fixpoint push_args (pg sp : Z) (argc : nat) (argv : list (list Z)) (ustack : list Z)
  : K (option (Z * list Z)) :=
  match argv with
  | [] => mret (Some (sp, ustack))
  | a :: argv' =>
      if bool_decide (MAXARG <= argc)%nat then mret None else
      let sp := align8 (u64 (sp - (strlen a + 1))) in
      r ← copyout pg sp (cstr a ++ [0]);
      if r <? 0 then mret None else
      push_args pg sp (S argc) argv' (ustack ++ [sp])
  end.

(** The part of [path] after its last slash. *)
Fixpoint base_name (path last : list Z) : list Z :=
  match path with
  | [] => last
  | c :: path' => if c =? 0 then last else base_name path' (if c =? slash then path' else last)
  end.

Definition exec_bad (pg : Z) (ip : option nat) : K Z :=
  when (negb (pg =? 0)) (freevm pg) ;;
  match ip with
  | Some i => iunlockput i ;; end_op
  | None => mret tt
  end ;;
  mret (-1).

(** From the loaded segments on: the stack, the arguments, the commit. *)
Definition exec_commit (i : nat) (oldpgdir pg : Z) (elf : elfhdr) (path : list Z)
    (argv : list (list Z)) (sz0 : Z) : K Z :=
  let sz1 := PGROUNDUP sz0 in
  sz2 ← allocuvm pg sz1 (u64 (sz1 + 2 * PGSIZE));
  if sz2 =? 0 then exec_bad pg None else
  clearpteu pg (u64 (sz2 - 2 * PGSIZE)) ;;
  r ← push_args pg sz2 0 argv [];
  match r with
  | None => exec_bad pg None
  | Some (sp, ptrs) =>
      let argc := Z.of_nat (length argv) in
      let ustack := u64 (-1) :: ptrs ++ [0] in
      upd_proc i (fun p => p <| tf ::= fun t =>
        t <| rdi := argc |> <| rsi := u64 (sp - (argc + 1) * 8) |> |>) ;;
      let sp := u64 (sp - (1 + argc + 1) * 8) in
      r ← copyout pg sp (mjoin (bytes64 <$> ustack));
      if r <? 0 then exec_bad pg None else
      upd_proc i (fun p => p <| pname ::= fun n => safestrcpy n (base_name path path) 16 |>) ;;
      upd_proc i (fun p => p <| pgdir := pg |> <| KState.sz := sz2 |> <| tf ::= fun t =>
        t <| rip := elf_entry elf |> <| rcx := elf_entry elf |> <| rsp := sp |> |>) ;;
      switchuvm i ;;
      freevm oldpgdir ;;
      mret 0
  end.

Definition exec (path : list Z) (argv : list (list Z)) : K Z :=
  i ← myproc;
  p ← get_proc i;
  let oldpgdir := pgdir p in
  begin_op ;;
  o ← namei path;
  match o with
  | None => end_op ;; mret (-1)
  | Some ip =>
      ilock (Some ip) ;;
      r ← readi ip ToLocal 0 sizeof_elfhdr;
      if negb (u64 (fst r) =? sizeof_elfhdr) then exec_bad 0 (Some ip) else
      let elf := decode_elf (snd r) in
      if negb (elf_magic elf =? ELF_MAGIC) then exec_bad 0 (Some ip) else
      pg ← setupkvm;
      if pg =? 0 then exec_bad 0 (Some ip) else
      z ← load_segments (Z.to_nat (elf_phnum elf)) pg ip (i32 (elf_phoff elf)) PGSIZE;
      match z with
      | None => exec_bad pg (Some ip)
      | Some sz0 =>
          iunlockput ip ;;
          end_op ;;
          exec_commit i oldpgdir pg elf path argv sz0
      end
  end.

End Definitions.
