(* ===== verification/SysFile.v ===== *)
(** sysfile.c: system calls on files, and the system call table of syscall.c. *)

From S2P Require Import Prelude Control KState Spinlock Format Sched Memory Kalloc Vm Sleeplock.
From S2P Require Import Disk Bio Log Inode Console Fs Pipe File Proc Syscall SysProc Exec.

Definition O_RDONLY : Z := 0.
Definition O_WRONLY : Z := 1.
Definition O_RDWR : Z := 2.
Definition O_CREATE : Z := 0x200.

Section Descriptors.
Context `{!DiskDriver}.

(** The descriptor and its file. *)
Definition argfd (n : Z) : K (option (Z * nat)) :=
  fd ← argint n;
  p ← cur_proc;
  mret (if (fd <? 0) || (Z.of_nat NOFILE <=? fd) then None
        else pair fd <$> mjoin (ofile p !! Z.to_nat fd)).

(** First free descriptor. *)
Fixpoint free_fd (l : list (option nat)) (fd : nat) : option nat :=
  match l with
  | [] => None
  | None :: _ => Some fd
  | Some _ :: l' => free_fd l' (S fd)
  end.
Definition fdalloc (f : nat) : K Z :=
  i ← myproc;
  p ← get_proc i;
  match free_fd (ofile p) 0 with
  | Some fd => upd_proc i (fun p => p <| ofile ::= <[fd := Some f]> |>) ;; mret (Z.of_nat fd)
  | None => mret (-1)
  end.

Definition sys_dup : K Z :=
  a ← argfd 0;
  match a with
  | None => mret (-1)
  | Some (_, f) =>
      fd ← fdalloc f;
      if fd <? 0 then mret (-1)
      else filedup f ;; mret fd
  end.

Definition sys_read : K Z :=
  a ← argfd 0;
  match a with
  | None => mret (-1)
  | Some (_, f) =>
      n ← argint 2;
      o ← argptr 1 n;
      match o with
      | None => mret (-1)
      | Some p => fileread f (ToUser p) n
      end
  end.

Definition sys_write : K Z :=
  a ← argfd 0;
  match a with
  | None => mret (-1)
  | Some (_, f) =>
      n ← argint 2;
      o ← argptr 1 n;
      match o with
      | None => mret (-1)
      | Some p => filewrite f (FromUser p) n
      end
  end.

Definition sys_close : K Z :=
  a ← argfd 0;
  match a with
  | None => mret (-1)
  | Some (fd, f) =>
      i ← myproc;
      upd_proc i (fun p => p <| ofile ::= <[Z.to_nat fd := None]> |>) ;;
      fileclose f ;;
      mret 0
  end.

(** struct stat, field by field: [stati] leaves the padding alone. *)
Definition sizeof_stat : Z := 20.
Definition store_stat (pg a : Z) (st : stat) : K unit :=
  ustore_bytes pg (u64 (a + 4)) (int_bytes (st_dev st)) ;;
  ustore_bytes pg (u64 (a + 8)) (int_bytes (st_ino st)) ;;
  ustore_bytes pg a (bytes16 (st_type st)) ;;
  ustore_bytes pg (u64 (a + 12)) (bytes16 (st_nlink st)) ;;
  ustore_bytes pg (u64 (a + 16)) (int_bytes (st_size st)).
Definition sys_fstat : K Z :=
  a ← argfd 0;
  match a with
  | None => mret (-1)
  | Some (_, f) =>
      o ← argptr 1 sizeof_stat;
      match o with
      | None => mret (-1)
      | Some st =>
          r ← filestat f;
          match r with
          | None => mret (-1)
          | Some x =>
              p ← cur_proc;
              store_stat (pgdir p) st x ;;
              mret 0
          end
      end
  end.

Definition sys_pipe : K Z :=
  o ← argptr 0 8;
  match o with
  | None => mret (-1)
  | Some fd =>
      r ← pipealloc;
      match r with
      | None => mret (-1)
      | Some (rf, wf) =>
          i ← myproc;
          let bad (fd0 : Z) : K Z :=
            when (0 <=? fd0)
              (upd_proc i (fun p => p <| ofile ::= <[Z.to_nat fd0 := None]> |>)) ;;
            fileclose rf ;;
            fileclose wf ;;
            mret (-1) in
          fd0 ← fdalloc rf;
          if fd0 <? 0 then bad fd0 else
          fd1 ← fdalloc wf;
          if fd1 <? 0 then bad fd0 else
          p ← get_proc i;
          ustore_bytes (pgdir p) fd (int_bytes fd0) ;;
          ustore_bytes (pgdir p) (u64 (fd + 4)) (int_bytes fd1) ;;
          mret 0
      end
  end.

End Descriptors.

Section Names.
Context `{!DiskDriver}.

Definition isdirempty (dp : nat) : K bool :=
  d ← gets (get_inode dp);
  r ← for_find (dir_offsets 32 (isize d)) (fun off =>
    de ← read_dirent dp off "isdirempty: readi";
    mret (if de_inum de =? 0 then None else Some tt));
  mret (bool_decide (r = None)).

Definition add_nlink (k : Z) (i : nat) : K unit :=
  upd_inode i (fun ip => ip <| inlink ::= fun n => i16 (n + k) |>) ;;
  iupdate i.

Definition sys_link : K Z :=
  old ← argstr 0;
  match old with
  | None => mret (-1)
  | Some old =>
      new ← argstr 1;
      match new with
      | None => mret (-1)
      | Some new =>
          begin_op ;;
          o ← namei old;
          match o with
          | None => end_op ;; mret (-1)
          | Some ip =>
              ilock (Some ip) ;;
              x ← gets (get_inode ip);
              if itype x =? T_DIR then iunlockput ip ;; end_op ;; mret (-1) else
              add_nlink 1 ip ;;
              iunlock (Some ip) ;;
              let bad : K Z :=
                ilock (Some ip) ;;
                add_nlink (-1) ip ;;
                iunlockput ip ;;
                end_op ;;
                mret (-1) in
              d ← nameiparent new;
              match d with
              | None => bad
              | Some (dp, name) =>
                  ilock (Some dp) ;;
                  y ← gets (get_inode dp);
                  x ← gets (get_inode ip);
                  r ← (if negb (idev y =? idev x) then mret (-1) else dirlink dp name (inum x));
                  if r <? 0 then iunlockput dp ;; bad
                  else
                    iunlockput dp ;;
                    iput ip ;;
                    end_op ;;
                    mret 0
              end
          end
      end
  end.

Definition sys_unlink : K Z :=
  path ← argstr 0;
  match path with
  | None => mret (-1)
  | Some path =>
      begin_op ;;
      d ← nameiparent path;
      match d with
      | None => end_op ;; mret (-1)
      | Some (dp, name) =>
          let bad : K Z := iunlockput dp ;; end_op ;; mret (-1) in
          ilock (Some dp) ;;
          if (namecmp name (bytes_of ".") =? 0) || (namecmp name (bytes_of "..") =? 0) then bad
          else
            r ← dirlookup dp name;
            match r with
            | None => bad
            | Some (ip, off) =>
                ilock (Some ip) ;;
                x ← gets (get_inode ip);
                if inlink x <? 1 then panic "unlink: nlink < 1" else
                e ← (if itype x =? T_DIR then isdirempty ip else mret true);
                if negb e then iunlockput ip ;; bad
                else
                  n ← writei dp (FromLocal (replicate 16 0)) off sizeof_dirent;
                  if negb (n =? sizeof_dirent) then panic "unlink: writei" else
                  x ← gets (get_inode ip);
                  when (itype x =? T_DIR) (add_nlink (-1) dp) ;;
                  iunlockput dp ;;
                  add_nlink (-1) ip ;;
                  iunlockput ip ;;
                  end_op ;;
                  mret 0
            end
      end
  end.

Definition create (path : list Z) (type major minor : Z) : K (option nat) :=
  d ← nameiparent path;
  match d with
  | None => mret None
  | Some (dp, name) =>
      ilock (Some dp) ;;
      r ← dirlookup dp name;
      match r with
      | Some (ip, _) =>
          iunlockput dp ;;
          ilock (Some ip) ;;
          x ← gets (get_inode ip);
          if (type =? T_FILE) && (itype x =? T_FILE) then mret (Some ip)
          else iunlockput ip ;; mret None
      | None =>
          y ← gets (get_inode dp);
          ip ← ialloc (idev y) type;
          ilock (Some ip) ;;
          upd_inode ip (fun x => x <| imajor := major |> <| iminor := minor |> <| inlink := 1 |>) ;;
          iupdate ip ;;
          when (type =? T_DIR)
            (add_nlink 1 dp ;;
             x ← gets (get_inode ip);
             a ← dirlink ip (bytes_of ".") (inum x);
             b ← (if a <? 0 then mret (-1)
                  else y ← gets (get_inode dp); dirlink ip (bytes_of "..") (inum y));
             if b <? 0 then panic "create dots" else mret tt) ;;
          x ← gets (get_inode ip);
          l ← dirlink dp name (inum x);
          if l <? 0 then panic "create: dirlink" else
          iunlockput dp ;;
          mret (Some ip)
      end
  end.

(** The inode to open, locked; [None] when the call fails. *)
Definition open_inode (path : list Z) (omode : Z) : K (option nat) :=
  if negb (Z.land omode O_CREATE =? 0) then create path T_FILE 0 0
  else
    o ← namei path;
    match o with
    | None => mret None
    | Some ip =>
        ilock (Some ip) ;;
        x ← gets (get_inode ip);
        if (itype x =? T_DIR) && negb (omode =? O_RDONLY) then iunlockput ip ;; mret None
        else mret (Some ip)
    end.

Definition sys_open : K Z :=
  path ← argstr 0;
  match path with
  | None => mret (-1)
  | Some path =>
      omode ← argint 1;
      begin_op ;;
      o ← open_inode path omode;
      match o with
      | None => end_op ;; mret (-1)
      | Some ip =>
          f ← filealloc;
          match f with
          | None => iunlockput ip ;; end_op ;; mret (-1)
          | Some f =>
              fd ← fdalloc f;
              if fd <? 0 then
                fileclose f ;;
                iunlockput ip ;;
                end_op ;;
                mret (-1)
              else
                iunlock (Some ip) ;;
                end_op ;;
                upd_file f (fun x => x <| ftype := FD_INODE |> <| fip := Some ip |> <| foff := 0 |>
                  <| readable := b2z (Z.land omode O_WRONLY =? 0) |>
                  <| writable := b2z (negb (Z.land omode O_WRONLY =? 0) ||
                                      negb (Z.land omode O_RDWR =? 0)) |>) ;;
                mret fd
          end
      end
  end.

(** The tail shared by [sys_mkdir] and [sys_mknod]. *)
Definition finish_create (o : option nat) : K Z :=
  match o with
  | None => end_op ;; mret (-1)
  | Some ip => iunlockput ip ;; end_op ;; mret 0
  end.

Definition sys_mkdir : K Z :=
  begin_op ;;
  path ← argstr 0;
  match path with
  | None => finish_create None
  | Some path => o ← create path T_DIR 0 0; finish_create o
  end.

Definition sys_mknod : K Z :=
  begin_op ;;
  path ← argstr 0;
  match path with
  | None => finish_create None
  | Some path =>
      major ← argint 1;
      minor ← argint 2;
      o ← create path T_DEV (i16 major) (i16 minor);
      finish_create o
  end.

Definition sys_chdir : K Z :=
  begin_op ;;
  path ← argstr 0;
  match path with
  | None => end_op ;; mret (-1)
  | Some path =>
      o ← namei path;
      match o with
      | None => end_op ;; mret (-1)
      | Some ip =>
          ilock (Some ip) ;;
          x ← gets (get_inode ip);
          if negb (itype x =? T_DIR) then iunlockput ip ;; end_op ;; mret (-1)
          else
            iunlock (Some ip) ;;
            i ← myproc;
            p ← get_proc i;
            match cwd p with
            | Some c => iput c
            | None => panic "trap"
            end ;;
            end_op ;;
            upd_proc i (fun p => p <| cwd := Some ip |>) ;;
            mret 0
      end
  end.

(** The argument vector of [sys_exec]: [k] slots of [argv] are left. *)
Fixpoint fetch_argv (k : nat) (uargv : Z) (acc : list (list Z)) : K (option (list (list Z))) :=
  match k with
  | O => mret None
  | S k' =>
      a ← fetchaddr uargv;
      match a with
      | None => mret None
      | Some uarg =>
          if uarg =? 0 then mret (Some acc)
          else
            s ← fetchstr uarg;
            match s with
            | None => mret None
            | Some s => fetch_argv k' (u64 (uargv + 8)) (acc ++ [s])
            end
      end
  end.
Definition sys_exec : K Z :=
  path ← argstr 0;
  match path with
  | None => mret (-1)
  | Some path =>
      uargv ← argaddr 1;
      argv ← fetch_argv MAXARG uargv [];
      match argv with
      | None => mret (-1)
      | Some argv => exec path argv
      end
  end.

End Names.

Section Dispatch.
Context `{!DiskDriver}.

(** The table [syscalls] of syscall.c. *)
Definition syscalls (num : Z) : option (K Z) :=
  match num with
  | 1 => Some sys_fork | 2 => Some sys_exit | 3 => Some sys_wait | 4 => Some sys_pipe
  | 5 => Some sys_read | 6 => Some sys_kill | 7 => Some sys_exec | 8 => Some sys_fstat
  | 9 => Some sys_chdir | 10 => Some sys_dup | 11 => Some sys_getpid | 12 => Some sys_sbrk
  | 13 => Some sys_sleep | 14 => Some sys_uptime | 15 => Some sys_open | 16 => Some sys_write
  | 17 => Some sys_mknod | 18 => Some sys_unlink | 19 => Some sys_link | 20 => Some sys_mkdir
  | 21 => Some sys_close | 22 => Some sys_alarm | 23 => Some sys_signal | 24 => Some sys_sigret
  | 25 => Some sys_fgproc | 26 => Some sys_getschedstats | 27 => Some sys_setschedparam
  | 28 => Some sys_register_agent
  | _ => None
  end.

(** The functions are called through pointers returning [addr_t]; all but
    [sys_sbrk] leave an [int] in %eax, which clears the upper half of %rax. *)
Definition result_word (num r : Z) : Z := if num =? 12 then u64 r else u32 r.
Definition syscall (t : trapframe) : K unit :=
  i ← myproc;
  upd_proc i (fun p => p <| tf := t |>) ;;
  p ← get_proc i;
  let num := rax (tf p) in
  match syscalls num with
  | Some f =>
      r ← f;
      upd_proc i (fun p => p <| tf ::= fun t => t <| rax := result_word num r |> |>)
  | None =>
      cprintf (line "%d %s: unknown sys call %d")
        [AInt (pid p); AStr (Some (pname p)); AInt num] ;;
      upd_proc i (fun p => p <| tf ::= fun t => t <| rax := u64 (-1) |> |>)
  end ;;
  check_signals.

End Dispatch.
