(* ===== verification/Agent.v ===== *)
(** sagent.c: the scheduling agent, a user program.

    Each epoch the agent reads the kernel's telemetry, derives five signals,
    applies six rules to its copy of the parameters and submits them with
    [setschedparam].  The update struct is a local variable whose [rr_mode]
    is never assigned: its value there is an argument of the epoch. *)

From S2P Require Import Prelude Control KState Spinlock Format Sched Memory Kalloc Vm Sleeplock.
From S2P Require Import Disk Bio Log Inode Console Fs Pipe File Proc Syscall SysProc.

Section Signals.

(** Sum of an [int] field over the entries. *)
Definition isum {A} (f : A -> Z) (l : list A) : Z := foldl (fun acc x => i32 (acc + f x)) 0 l.
Definition runnable (e : schedstat) : bool := ss_state e =? 3.
Definition count (f : schedstat -> bool) (l : list schedstat) : Z :=
  Z.of_nat (length (filter (fun e => f e = true) l)).

Definition compute_avg_wait (stats : list schedstat) : Z :=
  let run := filter (fun e => runnable e = true) stats in
  let n := count runnable stats in
  if n =? 0 then 0 else Z.quot (isum ss_wait_ticks run) n.

Definition compute_queue_pressure (stats : list schedstat) : Z :=
  let count_runnable := count runnable stats in
  let count_q2 := count (fun e => runnable e && (ss_queue_level e =? 2)) stats in
  if count_runnable =? 0 then 0 else Z.quot (count_q2 * 100) count_runnable.

Definition compute_workload_type (stats : list schedstat) : Z :=
  let total_yield := isum ss_yield_count stats in
  let total_preempt := isum ss_preempt_count stats in
  if i32 (total_yield + total_preempt) =? 0 then 50
  else i32 (Z.quot (i32 (total_yield * 100)) (i32 (total_yield + total_preempt))).

Definition ema_diff (e : schedstat) : Z :=
  let diff := i32 (ss_burst_ema_fast e - ss_burst_ema_slow e) in
  if diff <? 0 then i32 (- diff) else diff.
Definition detect_phase_change (stats : list schedstat) : bool :=
  let n := Z.of_nat (length stats) in
  let divergence := isum ema_diff stats in
  let divergence := if 0 <? n then Z.quot divergence n else divergence in
  50 <? divergence.

Definition detect_sjf_abuse (stats : list schedstat) : bool :=
  existsb (fun e => (ss_burst_variance e <? 5) && (20 <? ss_yield_count e)) stats.

End Signals.

Section Policy.

Definition clamp (val lo hi : Z) : Z :=
  if val <? lo then lo else if hi <? val then hi else val.

(** The static variables: parameters, rule counters (cnt[0], [1], [2], [3],
    [5]; cnt[4] is unused) and the epoch number. *)
Record agent := mkAgent {
  cur_q0 : Z; cur_q1 : Z; cur_q2 : Z; cur_boost : Z;
  cur_af : Z; cur_as : Z; cur_aging : Z;
  cnt0 : Z; cnt1 : Z; cnt2 : Z; cnt3 : Z; cnt5 : Z;
  epoch : Z
}.
#[export] Instance agent_eta : Eta agent := fun a =>
  mkAgent (cur_q0 a) (cur_q1 a) (cur_q2 a) (cur_boost a) (cur_af a) (cur_as a)
    (cur_aging a) (cnt0 a) (cnt1 a) (cnt2 a) (cnt3 a) (cnt5 a) (epoch a).
Definition agent_init : agent := mkAgent 4 6 8 500 50 10 50 0 0 0 0 0 0.

Definition bump (b : bool) (n : Z) : Z := if b then i32 (n + 1) else 0.

Definition rule1 (pressure : Z) (a : agent) : agent * Z :=
  let a := a <| cnt0 ::= bump (40 <? pressure) |> in
  if 1 <=? cnt0 a then
    (a <| cur_boost ::= fun b => clamp (b - 20) 10 500 |>
       <| cur_q0 ::= fun q => clamp (q - 1) 1 10 |>, 1)
  else (a, 0).
Definition rule2 (workload : Z) (a : agent) : agent * Z :=
  let a := a <| cnt1 ::= bump (70 <? workload) |> in
  if 2 <=? cnt1 a then (a <| cur_q0 ::= fun q => clamp (q + 1) 1 10 |>, 2) else (a, 0).
Definition rule3 (workload : Z) (a : agent) : agent * Z :=
  let a := a <| cnt2 ::= bump (workload <? 30) |> in
  if 2 <=? cnt2 a then (a <| cur_q0 ::= fun q => clamp (q - 1) 1 10 |>, 4) else (a, 0).
Definition rule4 (avg_wait : Z) (a : agent) : agent * Z :=
  let a := a <| cnt3 ::= bump (10 <? avg_wait) |> in
  if 1 <=? cnt3 a then (a <| cur_boost ::= fun b => clamp (b - 10) 10 500 |>, 8) else (a, 0).
Definition rule5 (phase : bool) (a : agent) : agent * Z :=
  if phase then (a <| cur_af ::= fun f => clamp (f + 10) (cur_as a + 1) 90 |>, 16)
  else (a <| cur_af ::= fun f => clamp (f - 5) (cur_as a + 1) 90 |>, 0).
Definition rule6 (abuse : bool) (a : agent) : agent * Z :=
  let a := a <| cnt5 ::= bump abuse |> in
  if 2 <=? cnt5 a then (a <| cur_aging ::= fun g => clamp (g - 3) 1 100 |>, 32) else (a, 0).

(** Queue monotonicity. *)
Definition monotone_queues (a : agent) : agent :=
  let a := if cur_q1 a <? cur_q0 a then a <| cur_q1 := cur_q0 a |> else a in
  if cur_q2 a <? cur_q1 a then a <| cur_q2 := cur_q1 a |> else a.

Definition decide_and_update (avg_wait pressure workload : Z) (phase abuse : bool)
    (a : agent) : agent * Z :=
  let '(a, f1) := rule1 pressure a in
  let '(a, f2) := rule2 workload a in
  let '(a, f3) := rule3 workload a in
  let '(a, f4) := rule4 avg_wait a in
  let '(a, f5) := rule5 phase a in
  let '(a, f6) := rule6 abuse a in
  (monotone_queues a,
   Z.lor f1 (Z.lor f2 (Z.lor f3 (Z.lor f4 (Z.lor f5 f6))))).

(** The rules applied to a telemetry snapshot. *)
Definition decide (stats : list schedstat) (a : agent) : agent * Z :=
  decide_and_update (compute_avg_wait stats) (compute_queue_pressure stats)
    (compute_workload_type stats) (detect_phase_change stats) (detect_sjf_abuse stats) a.

Definition make_update (a : agent) (junk : Z) : sched_update :=
  mkUpdate (cur_q0 a) (cur_q1 a) (cur_q2 a) (cur_boost a) (cur_af a) (cur_as a)
    (cur_aging a) junk.

(** The line printed each epoch. *)
Definition epoch_log (stats : list schedstat) (a : agent) (fired : Z) : list Z :=
  let on (b : Z) (s : string) : list Z :=
    if Z.land fired b =? 0 then [] else printf (bytes_of s) [] in
  printf (bytes_of "sagent[E=%d]: wait=%d qp=%d wt=%d pc=%d ab=%d |")
    [AInt (epoch a); AInt (compute_avg_wait stats); AInt (compute_queue_pressure stats);
     AInt (compute_workload_type stats); AInt (b2z (detect_phase_change stats));
     AInt (b2z (detect_sjf_abuse stats))] ++
  (if fired =? 0 then printf (bytes_of " (none)") []
   else on 1 " R1" ++ on 2 " R2" ++ on 4 " R3" ++ on 8 " R4" ++ on 16 " R5" ++ on 32 " R6") ++
  printf (bytes_of (line " | q0=%d q1=%d q2=%d bst=%d af=%d as=%d age=%d"))
    [AInt (cur_q0 a); AInt (cur_q1 a); AInt (cur_q2 a); AInt (cur_boost a);
     AInt (cur_af a); AInt (cur_as a); AInt (cur_aging a)].

Definition EPOCH_TICKS : Z := 50.
Definition ALERT_SLEEP : Z := 10.

(** What one round of the loop does: the new state, the update it submits,
    the line it prints and how long it sleeps. *)
Record round := mkRound {
  r_agent : agent; r_update : option sched_update; r_log : list Z; r_sleep : Z
}.
Definition agent_round (stats : list schedstat) (junk : Z) (a : agent) : round :=
  match stats with
  | [] => mkRound a None [] EPOCH_TICKS
  | e :: _ =>
      let '(a, fired) := decide stats a in
      let u := make_update a junk in
      let a := a <| epoch ::= fun n => i32 (n + 1) |> in
      mkRound a (Some u) (epoch_log stats a fired)
        (if z2b (ss_sched_alert e) then ALERT_SLEEP else EPOCH_TICKS)
  end.

(** The loop over successive observations; [register_agent] failing ends the
    program before it. *)
Fixpoint agent_run (obs : list (list schedstat * Z)) (a : agent) : agent * list sched_update :=
  match obs with
  | [] => (a, [])
  | (stats, junk) :: obs' =>
      let r := agent_round stats junk a in
      let '(a', us) := agent_run obs' (r_agent r) in
      (a', option_list (r_update r) ++ us)
  end.

End Policy.

(** * What the agent can submit *)

(** The ranges the rules keep the parameters in. *)
Definition agent_ok (a : agent) : Prop :=
  1 <= cur_q0 a <= 10 /\ cur_q0 a <= cur_q1 a <= 10 /\ cur_q1 a <= cur_q2 a <= 10 /\
  10 <= cur_boost a <= 500 /\ cur_as a = 10 /\ 11 <= cur_af a <= 90 /\ 1 <= cur_aging a <= 100.

(** The order the rules respect: what the agent gives away it never takes
    back. *)
Definition agent_le (a b : agent) : Prop :=
  cur_boost b <= cur_boost a /\ cur_q1 a <= cur_q1 b /\ cur_q2 a <= cur_q2 b /\
  cur_aging b <= cur_aging a.

(** Invariant of the rules before the last adjustment, which only raises
    [cur_q1] and [cur_q2]. *)
Definition rules_ok (a0 a : agent) : Prop :=
  1 <= cur_q0 a <= 10 /\ cur_q1 a = cur_q1 a0 /\ cur_q2 a = cur_q2 a0 /\
  10 <= cur_boost a <= 500 /\ cur_boost a <= cur_boost a0 /\ cur_as a = 10 /\
  11 <= cur_af a <= 90 /\ 1 <= cur_aging a <= 100 /\ cur_aging a <= cur_aging a0.

Ltac rule_tac :=
  intros (?&?&?&?&?&?&?&?&?);
  repeat match goal with |- context [if ?b then _ else _] => destruct b end;
  unfold rules_ok, clamp; cbn; split_and!; ranges.

Lemma rule1_ok a0 n a : rules_ok a0 a -> rules_ok a0 (rule1 n a).1.
Proof. unfold rule1; cbv zeta. rule_tac. Qed.
Lemma rule2_ok a0 n a : rules_ok a0 a -> rules_ok a0 (rule2 n a).1.
Proof. unfold rule2; cbv zeta. rule_tac. Qed.
Lemma rule3_ok a0 n a : rules_ok a0 a -> rules_ok a0 (rule3 n a).1.
Proof. unfold rule3; cbv zeta. rule_tac. Qed.
Lemma rule4_ok a0 n a : rules_ok a0 a -> rules_ok a0 (rule4 n a).1.
Proof. unfold rule4; cbv zeta. rule_tac. Qed.
Lemma rule5_ok a0 b a : rules_ok a0 a -> rules_ok a0 (rule5 b a).1.
Proof.
  unfold rule5. intros (?&?&?&?&?&Has&?&?&?). rewrite Has.
  destruct b; unfold rules_ok, clamp; cbn; split_and!; ranges.
Qed.
Lemma rule6_ok a0 b a : rules_ok a0 a -> rules_ok a0 (rule6 b a).1.
Proof. unfold rule6; cbv zeta. rule_tac. Qed.

Lemma monotone_ok a0 a :
  agent_ok a0 -> rules_ok a0 a -> agent_ok (monotone_queues a) /\ agent_le a0 (monotone_queues a).
Proof.
  intros (?&?&?&?&?&?&?) (?&?&?&?&?&?&?&?&?). unfold monotone_queues.
  destruct (Z.ltb_spec (cur_q1 a) (cur_q0 a)); cbn;
    match goal with |- context [?x <? ?y] => destruct (Z.ltb_spec x y) end;
    unfold agent_ok, agent_le; cbn; split_and!; lia.
Qed.

Lemma decide_ok stats a :
  agent_ok a -> agent_ok (decide stats a).1 /\ agent_le a (decide stats a).1.
Proof.
  intros Ha. unfold decide, decide_and_update.
  assert (H0 : rules_ok a a) by (destruct Ha as (?&?&?&?&?&?&?); unfold rules_ok; split_and!; lia).
  repeat match goal with
  | H : rules_ok a ?x |- context [let '(_, _) := ?r ?n ?x in _] =>
      let H' := fresh in
      assert (H' : rules_ok a (r n x).1)
        by auto using rule1_ok, rule2_ok, rule3_ok, rule4_ok, rule5_ok, rule6_ok;
      destruct (r n x) as [? ?]; cbn in H'; clear H
  end.
  by apply monotone_ok.
Qed.

Lemma agent_le_refl a : agent_le a a.
Proof. unfold agent_le. lia. Qed.
Lemma agent_le_trans a b c : agent_le a b -> agent_le b c -> agent_le a c.
Proof. unfold agent_le. lia. Qed.

Lemma agent_round_ok stats junk a :
  agent_ok a ->
  agent_ok (r_agent (agent_round stats junk a)) /\
  agent_le a (r_agent (agent_round stats junk a)) /\
  (forall u, r_update (agent_round stats junk a) = Some u ->
     exists b, agent_ok b /\ u = make_update b junk).
Proof.
  intros Ha. unfold agent_round. destruct stats as [|e stats].
  { cbn. split_and!; [done|apply agent_le_refl|done]. }
  pose proof (decide_ok (e :: stats) a Ha) as [H1 H2].
  destruct (decide (e :: stats) a) as [b f]; cbn in *. split_and!; [exact H1|exact H2|].
  intros u [= <-]. by exists b.
Qed.

Lemma make_update_valid a junk :
  agent_ok a -> update_ok (make_update a junk) = (junk =? 0) || (junk =? 1).
Proof.
  intros (?&?&?&?&?&?&?). unfold update_ok; cbn.
  repeat match goal with
  | |- context [?x <? ?y] => destruct (Z.ltb_spec x y); [lia|]
  | |- context [?x <=? ?y] => destruct (Z.leb_spec x y); [lia|]
  end; cbn. by destruct (junk =? 0), (junk =? 1).
Qed.

Lemma agent_run_inv obs a :
  agent_ok a ->
  agent_ok (agent_run obs a).1 /\ agent_le a (agent_run obs a).1 /\
  Forall (fun u => exists b junk, agent_ok b /\ u = make_update b junk) (agent_run obs a).2.
Proof.
  revert a. induction obs as [|[stats junk] obs IH]; intros a Ha; cbn.
  { split_and!; [done|apply agent_le_refl|constructor]. }
  destruct (agent_round_ok stats junk a Ha) as (H1 & H2 & H3).
  specialize (IH _ H1). destruct (agent_run obs _) as [a' us]; cbn in *.
  destruct IH as (I1 & I2 & I3). split_and!; [done|by eapply agent_le_trans|].
  apply Forall_app. split; [|done]. destruct (r_update _) as [u|]; cbn; [|constructor].
  constructor; [|constructor]. destruct (H3 u eq_refl) as (b & Hb & ->). by exists b, junk.
Qed.

(** C24: whatever telemetry the agent sees, over any number of
    epochs, each update it submits passes the kernel's validation exactly
    when the [rr_mode] left in its uninitialised struct happens to be 0 or 1:
    no rule ever produces a rejected quantum, boost interval, alpha or aging
    factor. *)
Theorem agent_updates_valid obs u :
  u ∈ (agent_run obs agent_init).2 ->
  update_ok u = (upd_rr_mode u =? 0) || (upd_rr_mode u =? 1).
Proof.
  intros Hu.
  assert (Hi : agent_ok agent_init) by (unfold agent_ok; cbn; lia).
  destruct (agent_run_inv obs _ Hi) as (_ & _ & Hall).
  rewrite Forall_forall in Hall. destruct (Hall u Hu) as (b & junk & Hb & ->).
  by rewrite make_update_valid.
Qed.


(** * The workload signal *)

Lemma isum_bounds f (l : list schedstat) m :
  (forall e, e ∈ l -> 0 <= f e <= m) -> m * Z.of_nat (length l) < 2 ^ 31 ->
  isum f l = foldr (fun e acc => f e + acc) 0 l /\
  0 <= isum f l <= m * Z.of_nat (length l).
Proof.
  intros Hf Hm. unfold isum.
  assert (Hgen : forall acc, 0 <= acc -> acc + m * Z.of_nat (length l) < 2 ^ 31 ->
    foldl (fun acc x => i32 (acc + f x)) acc l = acc + foldr (fun e acc => f e + acc) 0 l /\
    acc <= foldl (fun acc x => i32 (acc + f x)) acc l <= acc + m * Z.of_nat (length l)).
  { clear Hm. induction l as [|e l IH]; intros acc Ha Hb; cbn in *; [lia|].
    pose proof (Hf e ltac:(set_solver)) as He.
    rewrite i32_id by (unfold i32_range; nia).
    destruct (IH ltac:(set_solver) (acc + f e)) as [-> ?]; [lia|nia|]. split; [lia|nia]. }
  destruct (Hgen 0 ltac:(lia) ltac:(lia)). split; [done|lia].
Qed.

(** As many yields as preemptions in every entry, and few enough that the
    sums stay exact. *)
Definition balanced (stats : list schedstat) : Prop :=
  (length stats <= NPROC)%nat /\
  forall e, e ∈ stats -> ss_yield_count e = ss_preempt_count e /\ 0 <= ss_yield_count e <= 300000.

Lemma isum_ext f g (l : list schedstat) :
  (forall e, e ∈ l -> f e = g e) -> isum f l = isum g l.
Proof.
  unfold isum. generalize 0. induction l as [|e l IH]; intros acc Hfg; cbn; [done|].
  rewrite Hfg by set_solver. apply IH. set_solver.
Qed.

Lemma balanced_workload stats : balanced stats -> compute_workload_type stats = 50.
Proof.
  intros [Hlen Hb]. unfold compute_workload_type; cbv zeta.
  rewrite <- (isum_ext ss_yield_count ss_preempt_count) by (intros; by apply Hb).
  destruct (isum_bounds ss_yield_count stats 300000) as [_ Hs].
  { intros e He. by apply Hb. } { unfold NPROC in Hlen. lia. }
  assert (0 <= isum ss_yield_count stats <= 300000 * 64) by (unfold NPROC in Hlen; lia).
  set (x := isum ss_yield_count stats) in *.
  rewrite (i32_id (x + x)) by (unfold i32_range; lia).
  destruct (Z.eqb_spec (x + x) 0); [done|].
  rewrite (i32_id (x * 100)) by (unfold i32_range; lia).
  replace (Z.quot (x * 100) (x + x)) with 50; [done|].
  symmetry. apply quot_bounds; lia.
Qed.

(** Telemetry in which every process has as many yields as
    preemptions, which is what this kernel reports, makes the workload signal
    50, so that rules 2 and 3 can never fire. *)
Theorem balanced_rules_silent stats a :
  balanced stats -> cnt1 a = 0 -> cnt2 a = 0 ->
  Z.land (decide stats a).2 6 = 0 /\ cnt1 (decide stats a).1 = 0 /\ cnt2 (decide stats a).1 = 0.
Proof.
  intros Hb H1 H2. unfold decide. rewrite balanced_workload by done.
  destruct a as [q0 q1 q2 bst af as_ ag c0 c1 c2 c3 c5 ep]; cbn in H1, H2; subst.
  unfold decide_and_update, rule1, rule2, rule3, rule4, rule5, rule6, monotone_queues; cbn.
  repeat match goal with
  | |- context [if ?b then _ else _] => destruct b; cbn
  end; done.
Qed.
