(* ===== verification/Frame.v ===== *)
(** What the rest of the kernel promises to the scheduler.

    An invariant about scheduling ([SchedInv]) looks at the parameters and at
    the processes, and of a process not at its files, memory, signals or
    sleep channel.  Every operation below the scheduler, from [acquire] to
    [exec], keeps every such invariant: shown once for all of them. *)

From S2P Require Import Prelude Control KState Spinlock Format Sched Memory Kalloc Vm Sleeplock.
From S2P Require Import Disk Bio Log Inode Console Fs Pipe File Proc Trap Syscall SysProc Exec.
From S2P Require Import SysFile.

(** Same scheduling fields; the process state, the counters of yields and
    page faults and the scratch score may differ. *)
Definition same_sched (p q : proc) : Prop :=
  queue_level q = queue_level p /\ ticks_remaining q = ticks_remaining p /\
  wait_ticks q = wait_ticks p /\ burst_ema_fast q = burst_ema_fast p /\
  burst_ema_slow q = burst_ema_slow p /\ burst_variance q = burst_variance p /\
  preempt_count q = preempt_count p.

Class SchedInv (I : kstate -> Prop) : Prop := {
  si_frame : forall s s', schedp s' = schedp s -> ptable s' = ptable s -> I s -> I s';
  si_proc : forall s i f, (forall p, same_sched p (f p)) -> I s -> I (setp i f s);
  si_all : forall s f, (forall p, same_sched p (f p)) -> I s -> I (s <| ptable ::= fmap f |>)
}.

(** What the disk driver promises. *)
Class DriverInv `{!DiskDriver} (I : kstate -> Prop) : Prop := {
  di_iderw : forall b, preserves I (iderw b);
  di_ideintr : preserves I ideintr
}.

Section Leaves.
Context (I : kstate -> Prop) `{!SchedInv I}.

#[export] Instance sched_lock_inv : LockInv I.
Proof. intros s c l Hs _ _. by apply (si_frame s). Qed.

Lemma preserves_frame f :
  (forall s, schedp (f s) = schedp s /\ ptable (f s) = ptable s) -> preserves I (modify f).
Proof. intros Hf. apply preserves_modify. intros s Hs. by apply (si_frame s); [apply Hf..|]. Qed.

Lemma preserves_upd_proc i f : (forall p, same_sched p (f p)) -> preserves I (upd_proc i f).
Proof. intros Hf. apply preserves_modify. intros s Hs. by apply si_proc. Qed.

Lemma preserves_upd_cpu_any f : preserves I (upd_cpu f).
Proof. by apply preserves_frame. Qed.

Lemma preserves_wakeup1 ch : preserves I (wakeup1 ch).
Proof.
  apply preserves_modify. intros s Hs. apply si_all; [|done].
  intros p. unfold wakeup1_proc. destruct (_ && _); by repeat split.
Qed.
End Leaves.

#[export] Hint Resolve preserves_upd_cpu_any preserves_wakeup1 di_iderw di_ideintr : kernel.
#[export] Hint Extern 1 (LockInv _) => typeclasses eauto : kernel.
#[export] Hint Extern 1 (SchedInv _) => typeclasses eauto : kernel.
#[export] Hint Extern 1 (DriverInv _) => typeclasses eauto : kernel.
(** A state change outside the scheduler's data. *)
#[export] Hint Extern 3 (preserves _ (modify _)) =>
  apply preserves_frame; [typeclasses eauto|intros ?; split; reflexivity] : kernel.
#[export] Hint Extern 3 (preserves _ (upd_proc _ _)) =>
  apply preserves_upd_proc; [typeclasses eauto|intros ?; repeat split; reflexivity] : kernel.
#[export] Hint Unfold upd_fs upd_buf upd_log upd_inode upd_file upd_pipe upd_input upd_mem
  upd_kmem upd_sleeplock upd_data write64 set_state : kernel.

(** Proves [preserves I op] by splitting the unfolded body of [op]. *)
Ltac keeps := intros; repeat autounfold with kernel; preserves_tac.

Section Sched.
Context (I : kstate -> Prop) `{!SchedInv I}.

Lemma preserves_cprintf fmt args : preserves I (cprintf fmt args).
Proof. unfold cprintf. keeps. Qed.
Hint Resolve preserves_cprintf : kernel.

Lemma preserves_myproc : preserves I myproc.
Proof. unfold myproc. keeps. Qed.
Hint Resolve preserves_myproc : kernel.

Lemma preserves_get_proc i : preserves I (get_proc i).
Proof. unfold get_proc. keeps. Qed.
Hint Resolve preserves_get_proc : kernel.

Lemma preserves_switchuvm i : preserves I (switchuvm i).
Proof. unfold switchuvm. keeps. Qed.

Lemma preserves_switchkvm : preserves I switchkvm.
Proof. unfold switchkvm. keeps. Qed.

Lemma preserves_sched : preserves I sched.
Proof. unfold sched, holding, readeflags_if. keeps. Qed.
Hint Resolve preserves_sched : kernel.

Lemma preserves_yield : preserves I yield.
Proof. unfold yield. keeps. Qed.

Lemma preserves_sleep ch lk : preserves I (sleep ch lk).
Proof. unfold sleep. keeps. Qed.

Lemma preserves_wakeup ch : preserves I (wakeup ch).
Proof. unfold wakeup. keeps. Qed.
End Sched.
#[export] Hint Resolve preserves_cprintf preserves_myproc preserves_get_proc preserves_switchuvm
  preserves_switchkvm preserves_sched preserves_yield preserves_sleep preserves_wakeup : kernel.

(** * Memory *)

Section Memory.
Context (I : kstate -> Prop) `{!SchedInv I}.

Lemma preserves_kfree v : preserves I (kfree v).
Proof. unfold kfree. keeps. Qed.
Hint Resolve preserves_kfree : kernel.

Lemma preserves_kalloc : preserves I kalloc.
Proof. unfold kalloc. keeps. Qed.
Hint Resolve preserves_kalloc : kernel.

Lemma preserves_read64 a : preserves I (read64 a).
Proof. unfold read64. keeps. Qed.
Hint Resolve preserves_read64 : kernel.

Lemma preserves_kalloc_zeroed : preserves I kalloc_zeroed.
Proof. unfold kalloc_zeroed. keeps. Qed.
Hint Resolve preserves_kalloc_zeroed : kernel.

Lemma preserves_walk_level t i a : preserves I (walk_level t i a).
Proof. unfold walk_level. keeps. Qed.
Hint Resolve preserves_walk_level : kernel.

Lemma preserves_walkpgdir p va a : preserves I (walkpgdir p va a).
Proof. unfold walkpgdir. keeps. Qed.
Hint Resolve preserves_walkpgdir : kernel.

Lemma preserves_setupkvm : preserves I setupkvm.
Proof. unfold setupkvm. keeps. Qed.
Hint Resolve preserves_setupkvm : kernel.

Lemma preserves_mappages_loop f pg a last pa perm : preserves I (mappages_loop f pg a last pa perm).
Proof. revert a pa. induction f; intros; cbn [mappages_loop]; keeps. Qed.
Hint Resolve preserves_mappages_loop : kernel.

Lemma preserves_mappages pg va n pa perm : preserves I (mappages pg va n pa perm).
Proof. unfold mappages; cbv zeta. keeps. Qed.
Hint Resolve preserves_mappages : kernel.

Lemma preserves_inituvm pg l : preserves I (inituvm pg l).
Proof. unfold inituvm. keeps. Qed.

Lemma preserves_deallocuvm_loop f pg a o : preserves I (deallocuvm_loop f pg a o).
Proof. revert a. induction f; intros; cbn [deallocuvm_loop]; keeps. Qed.
Hint Resolve preserves_deallocuvm_loop : kernel.

Lemma preserves_deallocuvm pg o n : preserves I (deallocuvm pg o n).
Proof. unfold deallocuvm; cbv zeta. keeps. Qed.
Hint Resolve preserves_deallocuvm : kernel.

Lemma preserves_allocuvm_loop f pg a o n : preserves I (allocuvm_loop f pg a o n).
Proof. revert a. induction f; intros; cbn [allocuvm_loop]; keeps. Qed.
Hint Resolve preserves_allocuvm_loop : kernel.

Lemma preserves_allocuvm pg o n : preserves I (allocuvm pg o n).
Proof. unfold allocuvm; cbv zeta. keeps. Qed.

Lemma preserves_free_entries n t f :
  (forall x, preserves I (f x)) -> preserves I (free_entries n t f).
Proof. intros Hf. unfold free_entries. keeps. Qed.

Lemma preserves_freevm p : preserves I (freevm p).
Proof.
  unfold freevm. keeps.
  repeat first [apply preserves_kfree | apply preserves_free_entries; intros ?
               | apply preserves_bind; [|intros ?]]; eauto with kernel.
Qed.
Hint Resolve preserves_freevm : kernel.

Lemma preserves_clearpteu pg a : preserves I (clearpteu pg a).
Proof. unfold clearpteu. keeps. Qed.

Lemma preserves_copyuvm_loop f pg d i z : preserves I (copyuvm_loop f pg d i z).
Proof. revert i. induction f; intros; cbn [copyuvm_loop]; keeps. Qed.
Hint Resolve preserves_copyuvm_loop : kernel.

Lemma preserves_copyuvm pg z : preserves I (copyuvm pg z).
Proof. unfold copyuvm; cbv zeta. keeps. Qed.

Lemma preserves_uva2ka pg a : preserves I (uva2ka pg a).
Proof. unfold uva2ka. keeps. Qed.
Hint Resolve preserves_uva2ka : kernel.

Lemma preserves_copyout_loop f pg va l : preserves I (copyout_loop f pg va l).
Proof. revert va l. induction f; intros; cbn [copyout_loop]; keeps. Qed.
Hint Resolve preserves_copyout_loop : kernel.

Lemma preserves_copyout pg va l : preserves I (copyout pg va l).
Proof. unfold copyout; cbv zeta. keeps. Qed.

Lemma preserves_uload pg va : preserves I (uload pg va).
Proof. unfold uload. keeps. Qed.
Hint Resolve preserves_uload : kernel.

Lemma preserves_uload_bytes pg va n : preserves I (uload_bytes pg va n).
Proof. revert va. induction n; intros; cbn [uload_bytes]; keeps. Qed.
Hint Resolve preserves_uload_bytes : kernel.

Lemma preserves_uload_int pg va : preserves I (uload_int pg va).
Proof. unfold uload_int. keeps. Qed.

Lemma preserves_uload_addr pg va : preserves I (uload_addr pg va).
Proof. unfold uload_addr. keeps. Qed.

Lemma preserves_ustore_bytes pg va l : preserves I (ustore_bytes pg va l).
Proof. revert va. induction l; intros; cbn [ustore_bytes]; unfold ustore; keeps. Qed.

Lemma preserves_cur_pgdir : preserves I cur_pgdir.
Proof. unfold cur_pgdir. keeps. Qed.
Hint Resolve preserves_cur_pgdir preserves_ustore_bytes : kernel.

Lemma preserves_deliver d off l : preserves I (deliver d off l).
Proof. unfold deliver. keeps. Qed.

Lemma preserves_uload_list pg va n : preserves I (uload_list pg va n).
Proof. revert va. induction n; intros; cbn [uload_list]; keeps. Qed.
Hint Resolve preserves_uload_list : kernel.

Lemma preserves_fetch src off n : preserves I (fetch src off n).
Proof. unfold fetch. keeps. Qed.
End Memory.
#[export] Hint Resolve preserves_kfree preserves_kalloc preserves_read64 preserves_kalloc_zeroed
  preserves_walkpgdir preserves_setupkvm preserves_mappages preserves_inituvm
  preserves_deallocuvm preserves_allocuvm preserves_freevm preserves_clearpteu preserves_copyuvm
  preserves_copyout preserves_uload preserves_uload_int preserves_uload_addr
  preserves_ustore_bytes preserves_cur_pgdir preserves_deliver preserves_fetch : kernel.

(** * Sleep locks and drivers *)

Section Drivers.
Context (I : kstate -> Prop) `{!SchedInv I}.

Lemma preserves_initsleeplock lk : preserves I (initsleeplock lk).
Proof. unfold initsleeplock; cbv zeta. keeps. Qed.
Hint Resolve preserves_initsleeplock : kernel.

Lemma preserves_acquiresleep lk : preserves I (acquiresleep lk).
Proof. unfold acquiresleep; cbv zeta. keeps. Qed.
Hint Resolve preserves_acquiresleep : kernel.

Lemma preserves_releasesleep lk : preserves I (releasesleep lk).
Proof. unfold releasesleep; cbv zeta. keeps. Qed.
Hint Resolve preserves_releasesleep : kernel.

Lemma preserves_holdingsleep lk : preserves I (holdingsleep lk).
Proof. unfold holdingsleep; cbv zeta. keeps. Qed.
Hint Resolve preserves_holdingsleep : kernel.

Lemma preserves_idewait b : preserves I (Ide.idewait b).
Proof. unfold Ide.idewait; cbv zeta. keeps. Qed.
Hint Resolve preserves_idewait : kernel.

Lemma preserves_idestart o : preserves I (Ide.idestart o).
Proof. unfold Ide.idestart; cbv zeta. keeps. Qed.
Hint Resolve preserves_idestart : kernel.

Lemma preserves_ide_ideintr : preserves I (Ide.ideintr).
Proof. unfold Ide.ideintr; cbv zeta. keeps. Qed.
Hint Resolve preserves_ide_ideintr : kernel.

Lemma preserves_ide_iderw b : preserves I (Ide.iderw b).
Proof. unfold Ide.iderw; cbv zeta. keeps. Qed.
Hint Resolve preserves_ide_iderw : kernel.

Lemma preserves_memide_iderw b : preserves I (MemIde.iderw b).
Proof. unfold MemIde.iderw; cbv zeta. keeps. Qed.
Hint Resolve preserves_memide_iderw : kernel.

End Drivers.
#[export] Hint Resolve preserves_initsleeplock preserves_acquiresleep preserves_releasesleep
  preserves_holdingsleep preserves_idewait preserves_idestart preserves_ide_ideintr
  preserves_ide_iderw preserves_memide_iderw : kernel.

(** Both drivers meet the interface. *)
#[export] Instance ide_driver_inv I `{!SchedInv I} : DriverInv (H := Ide.driver) I.
Proof. split; cbn; eauto with kernel. Qed.
#[export] Instance memide_driver_inv I `{!SchedInv I} : DriverInv (H := MemIde.driver) I.
Proof. split; cbn; [eauto with kernel|]. apply preserves_ret. Qed.


(** * Files *)

Section Files.
Context (I : kstate -> Prop) `{!SchedInv I} `{!DiskDriver} `{!DriverInv I}.

Lemma preserves_bget dev bno : preserves I (bget dev bno).
Proof. unfold bget; cbv zeta. keeps. Qed.
Hint Resolve preserves_bget : kernel.

Lemma preserves_bread dev bno : preserves I (bread dev bno).
Proof. unfold bread; cbv zeta. keeps. Qed.
Hint Resolve preserves_bread : kernel.

Lemma preserves_bwrite b : preserves I (bwrite b).
Proof. unfold bwrite; cbv zeta. keeps. Qed.
Hint Resolve preserves_bwrite : kernel.

Lemma preserves_brelse b : preserves I (brelse b).
Proof. unfold brelse; cbv zeta. keeps. Qed.
Hint Resolve preserves_brelse : kernel.

Lemma preserves_buf_data b : preserves I (buf_data b).
Proof. unfold buf_data; cbv zeta. keeps. Qed.
Hint Resolve preserves_buf_data : kernel.

Lemma preserves_the_log : preserves I (the_log).
Proof. unfold the_log; cbv zeta. keeps. Qed.
Hint Resolve preserves_the_log : kernel.

Lemma preserves_readsb dev : preserves I (readsb dev).
Proof. unfold readsb; cbv zeta. keeps. Qed.
Hint Resolve preserves_readsb : kernel.

Lemma preserves_for_logged f : (forall i, preserves I (f i)) -> preserves I (for_logged f).
Proof. unfold for_logged. keeps. Qed.
Hint Resolve preserves_for_logged : kernel.

Lemma preserves_install_trans : preserves I install_trans.
Proof. unfold install_trans. apply preserves_for_logged. keeps. Qed.
Hint Resolve preserves_install_trans : kernel.

Lemma preserves_write_log : preserves I write_log.
Proof. unfold write_log. apply preserves_for_logged. keeps. Qed.
Hint Resolve preserves_write_log : kernel.

Lemma preserves_read_head : preserves I (read_head).
Proof. unfold read_head; cbv zeta. keeps. Qed.
Hint Resolve preserves_read_head : kernel.

Lemma preserves_write_head : preserves I (write_head).
Proof. unfold write_head; cbv zeta. keeps. Qed.
Hint Resolve preserves_write_head : kernel.

Lemma preserves_recover_from_log : preserves I (recover_from_log).
Proof. unfold recover_from_log; cbv zeta. keeps. Qed.
Hint Resolve preserves_recover_from_log : kernel.

Lemma preserves_initlog dev : preserves I (initlog dev).
Proof. unfold initlog; cbv zeta. keeps. Qed.
Hint Resolve preserves_initlog : kernel.

Lemma preserves_begin_op : preserves I (begin_op).
Proof. unfold begin_op; cbv zeta. keeps. Qed.
Hint Resolve preserves_begin_op : kernel.

Lemma preserves_commit : preserves I (commit).
Proof. unfold commit; cbv zeta. keeps. Qed.
Hint Resolve preserves_commit : kernel.

Lemma preserves_end_op : preserves I (end_op).
Proof. unfold end_op; cbv zeta. keeps. Qed.
Hint Resolve preserves_end_op : kernel.

Lemma preserves_log_write b : preserves I (log_write b).
Proof. unfold log_write; cbv zeta. keeps. Qed.
Hint Resolve preserves_log_write : kernel.

Lemma preserves_the_sb : preserves I (the_sb).
Proof. unfold the_sb; cbv zeta. keeps. Qed.
Hint Resolve preserves_the_sb : kernel.

Lemma preserves_bzero dev b : preserves I (bzero dev b).
Proof. unfold bzero; cbv zeta. keeps. Qed.
Hint Resolve preserves_bzero : kernel.

Lemma preserves_balloc dev : preserves I (balloc dev).
Proof. unfold balloc; cbv zeta. keeps. Qed.
Hint Resolve preserves_balloc : kernel.

Lemma preserves_bfree dev b : preserves I (bfree dev b).
Proof. unfold bfree; cbv zeta. keeps. Qed.
Hint Resolve preserves_bfree : kernel.

Lemma preserves_iinit dev : preserves I (iinit dev).
Proof. unfold iinit; cbv zeta. keeps. Qed.
Hint Resolve preserves_iinit : kernel.

Lemma preserves_iget dev n : preserves I (iget dev n).
Proof. unfold iget; cbv zeta. keeps. Qed.
Hint Resolve preserves_iget : kernel.

Lemma preserves_ialloc dev t : preserves I (ialloc dev t).
Proof. unfold ialloc; cbv zeta. keeps. Qed.
Hint Resolve preserves_ialloc : kernel.

Lemma preserves_iupdate i : preserves I (iupdate i).
Proof. unfold iupdate; cbv zeta. keeps. Qed.
Hint Resolve preserves_iupdate : kernel.

Lemma preserves_idup i : preserves I (idup i).
Proof. unfold idup; cbv zeta. keeps. Qed.
Hint Resolve preserves_idup : kernel.

Lemma preserves_ilock o : preserves I (ilock o).
Proof. unfold ilock; cbv zeta. keeps. Qed.
Hint Resolve preserves_ilock : kernel.

Lemma preserves_iunlock o : preserves I (iunlock o).
Proof. unfold iunlock; cbv zeta. keeps. Qed.
Hint Resolve preserves_iunlock : kernel.

Lemma preserves_itrunc i : preserves I (itrunc i).
Proof. unfold itrunc; cbv zeta. keeps. Qed.
Hint Resolve preserves_itrunc : kernel.

Lemma preserves_iput i : preserves I (iput i).
Proof. unfold iput; cbv zeta. keeps. Qed.
Hint Resolve preserves_iput : kernel.

Lemma preserves_iunlockput i : preserves I (iunlockput i).
Proof. unfold iunlockput; cbv zeta. keeps. Qed.
Hint Resolve preserves_iunlockput : kernel.

Lemma preserves_bmap i n : preserves I (bmap i n).
Proof. unfold bmap; cbv zeta. keeps. Qed.
Hint Resolve preserves_bmap : kernel.

Lemma preserves_stati i : preserves I (stati i).
Proof. unfold stati; cbv zeta. keeps. Qed.
Hint Resolve preserves_stati : kernel.

Lemma preserves_consputc c : preserves I (consputc c).
Proof. unfold consputc; cbv zeta. keeps. Qed.
Hint Resolve preserves_consputc : kernel.

Lemma preserves_consoleread_loop dst target n got : preserves I (consoleread_loop dst target n got).
Proof. revert got. induction n; intros; cbn [consoleread_loop]; keeps. Qed.
Hint Resolve preserves_consoleread_loop : kernel.

Lemma preserves_consoleread ip dst n : preserves I (consoleread ip dst n).
Proof. unfold consoleread; cbv zeta. keeps. Qed.
Hint Resolve preserves_consoleread : kernel.

Lemma preserves_consolewrite ip src n : preserves I (consolewrite ip src n).
Proof. unfold consolewrite; cbv zeta. keeps. Qed.
Hint Resolve preserves_consolewrite : kernel.

Lemma preserves_dev_of ip : preserves I (dev_of ip).
Proof. unfold dev_of; cbv zeta. keeps. Qed.
Hint Resolve preserves_dev_of : kernel.

Lemma preserves_readi_loop f i dst off n tot got : preserves I (readi_loop f i dst off n tot got).
Proof. revert off tot got. induction f; intros; cbn [readi_loop]; keeps. Qed.
Hint Resolve preserves_readi_loop : kernel.

Lemma preserves_readi i dst off n : preserves I (readi i dst off n).
Proof. unfold readi; cbv zeta. keeps. Qed.
Hint Resolve preserves_readi : kernel.

Lemma preserves_writei_loop f i src off n tot : preserves I (writei_loop f i src off n tot).
Proof. revert off tot. induction f; intros; cbn [writei_loop]; keeps. Qed.
Hint Resolve preserves_writei_loop : kernel.

Lemma preserves_writei i src off n : preserves I (writei i src off n).
Proof. unfold writei; cbv zeta. keeps. Qed.
Hint Resolve preserves_writei : kernel.

Lemma preserves_read_dirent dp off msg : preserves I (read_dirent dp off msg).
Proof. unfold read_dirent; cbv zeta. keeps. Qed.
Hint Resolve preserves_read_dirent : kernel.

Lemma preserves_dirlookup dp name : preserves I (dirlookup dp name).
Proof. unfold dirlookup; cbv zeta. keeps. Qed.
Hint Resolve preserves_dirlookup : kernel.

Lemma preserves_dirlink dp name n : preserves I (dirlink dp name n).
Proof. unfold dirlink; cbv zeta. keeps. Qed.
Hint Resolve preserves_dirlink : kernel.

Lemma preserves_namex_loop f ip path b name : preserves I (namex_loop f ip path b name).
Proof. revert ip path name. induction f; intros; cbn [namex_loop]; keeps. Qed.
Hint Resolve preserves_namex_loop : kernel.

Lemma preserves_namex path b : preserves I (namex path b).
Proof. unfold namex; cbv zeta. keeps. Qed.
Hint Resolve preserves_namex : kernel.

Lemma preserves_namei path : preserves I (namei path).
Proof. unfold namei; cbv zeta. keeps. Qed.
Hint Resolve preserves_namei : kernel.

Lemma preserves_nameiparent path : preserves I (nameiparent path).
Proof. unfold nameiparent; cbv zeta. keeps. Qed.
Hint Resolve preserves_nameiparent : kernel.

Lemma preserves_pipeclose p w : preserves I (pipeclose p w).
Proof. unfold pipeclose; cbv zeta. keeps. Qed.
Hint Resolve preserves_pipeclose : kernel.

Lemma preserves_killed_now : preserves I (killed_now).
Proof. unfold killed_now; cbv zeta. keeps. Qed.
Hint Resolve preserves_killed_now : kernel.

Lemma preserves_pipe_wait_room p : preserves I (pipe_wait_room p).
Proof. unfold pipe_wait_room; cbv zeta. keeps. Qed.
Hint Resolve preserves_pipe_wait_room : kernel.

Lemma preserves_pipewrite_loop p src i k : preserves I (pipewrite_loop p src i k).
Proof. revert i. induction k; intros; cbn [pipewrite_loop]; keeps. Qed.
Hint Resolve preserves_pipewrite_loop : kernel.

Lemma preserves_pipewrite p src n : preserves I (pipewrite p src n).
Proof. unfold pipewrite; cbv zeta. keeps. Qed.
Hint Resolve preserves_pipewrite : kernel.

Lemma preserves_pipe_wait_data p : preserves I (pipe_wait_data p).
Proof. unfold pipe_wait_data; cbv zeta. keeps. Qed.
Hint Resolve preserves_pipe_wait_data : kernel.

Lemma preserves_piperead_loop p dst got k : preserves I (piperead_loop p dst got k).
Proof. revert got. induction k; intros; cbn [piperead_loop]; keeps. Qed.
Hint Resolve preserves_piperead_loop : kernel.

Lemma preserves_piperead p dst n : preserves I (piperead p dst n).
Proof. unfold piperead; cbv zeta. keeps. Qed.
Hint Resolve preserves_piperead : kernel.

Lemma preserves_filealloc : preserves I (filealloc).
Proof. unfold filealloc; cbv zeta. keeps. Qed.
Hint Resolve preserves_filealloc : kernel.

Lemma preserves_filedup f : preserves I (filedup f).
Proof. unfold filedup; cbv zeta. keeps. Qed.
Hint Resolve preserves_filedup : kernel.

Lemma preserves_fileclose f : preserves I (fileclose f).
Proof. unfold fileclose; cbv zeta. keeps. Qed.
Hint Resolve preserves_fileclose : kernel.

Lemma preserves_filestat f : preserves I (filestat f).
Proof. unfold filestat; cbv zeta. keeps. Qed.
Hint Resolve preserves_filestat : kernel.

Lemma preserves_fileread f dst n : preserves I (fileread f dst n).
Proof. unfold fileread; cbv zeta. keeps. Qed.
Hint Resolve preserves_fileread : kernel.

Lemma preserves_filewrite_loop k f ip src i n : preserves I (filewrite_loop k f ip src i n).
Proof. revert i. induction k; intros; cbn [filewrite_loop]; keeps. Qed.
Hint Resolve preserves_filewrite_loop : kernel.

Lemma preserves_filewrite f src n : preserves I (filewrite f src n).
Proof. unfold filewrite; cbv zeta. keeps. Qed.
Hint Resolve preserves_filewrite : kernel.

Lemma preserves_pipealloc : preserves I (pipealloc).
Proof. unfold pipealloc; cbv zeta. keeps. Qed.
Hint Resolve preserves_pipealloc : kernel.

End Files.
#[export] Hint Resolve preserves_bget preserves_bread preserves_bwrite preserves_brelse
  preserves_buf_data preserves_the_log preserves_readsb preserves_for_logged
  preserves_install_trans preserves_write_log preserves_read_head preserves_write_head
  preserves_recover_from_log preserves_initlog preserves_begin_op preserves_commit
  preserves_end_op preserves_log_write preserves_the_sb preserves_bzero preserves_balloc
  preserves_bfree preserves_iinit preserves_iget preserves_ialloc preserves_iupdate
  preserves_idup preserves_ilock preserves_iunlock preserves_itrunc preserves_iput
  preserves_iunlockput preserves_bmap preserves_stati preserves_consputc
  preserves_consoleread_loop preserves_consoleread preserves_consolewrite preserves_dev_of
  preserves_readi_loop preserves_readi preserves_writei_loop preserves_writei
  preserves_read_dirent preserves_dirlookup preserves_dirlink preserves_namex_loop
  preserves_namex preserves_namei preserves_nameiparent preserves_pipeclose
  preserves_killed_now preserves_pipe_wait_room preserves_pipewrite_loop preserves_pipewrite
  preserves_pipe_wait_data preserves_piperead_loop preserves_piperead preserves_filealloc
  preserves_filedup preserves_fileclose preserves_filestat preserves_fileread
  preserves_filewrite_loop preserves_filewrite preserves_pipealloc : kernel.
