(* ===== verification/Safety.v ===== *)
(** The scheduler's safety, for the whole kernel.

    [sched_inv] says that the tunable parameters are in the ranges
    [sys_setschedparam] enforces, that the table has its NPROC slots and that
    every process is in an existing queue with burst averages in range.  Every
    entry into the kernel keeps it: system calls, traps and scheduler passes,
    at every point where the processor changes hands. *)

From S2P Require Import Prelude Control KState Spinlock Format Sched Selection Memory Kalloc Vm.
From S2P Require Import Sleeplock Disk Bio Log Inode Console Fs Pipe File Proc Trap Syscall.
From S2P Require Import SysProc Exec SysFile Frame.

Definition params_ok (sp : sched_params) : Prop :=
  1 <= q0_quantum sp <= 10 /\ q0_quantum sp <= q1_quantum sp <= 20 /\
  q1_quantum sp <= q2_quantum sp <= 40 /\ 10 <= boost_interval sp <= 500 /\
  1 <= ema_alpha_slow sp <= 50 /\ ema_alpha_slow sp < ema_alpha_fast sp <= 90 /\
  1 <= aging_factor sp <= 100 /\ (rr_mode sp = 0 \/ rr_mode sp = 1).
Definition proc_ok (p : proc) : Prop :=
  0 <= queue_level p <= 2 /\ 0 <= burst_ema_fast p <= 5000 /\ 0 <= burst_ema_slow p <= 5000.
Definition sched_inv (s : kstate) : Prop :=
  params_ok (schedp s) /\ ptable_wf s /\ all_procs proc_ok s.

Lemma same_sched_ok p q : same_sched p q -> proc_ok p -> proc_ok q.
Proof. unfold same_sched, proc_ok. intros (-> & _ & _ & -> & -> & _) Hp. done. Qed.

(** * Updates of the scheduler's data *)

Lemma inv_setp i f s :
  (forall p, proc_ok p -> proc_ok (f p)) -> sched_inv s -> sched_inv (setp i f s).
Proof.
  intros Hf (Hp & Hl & Ha). split_and!; [done| |by apply all_procs_setp].
  unfold ptable_wf. by rewrite length_setp.
Qed.

Lemma inv_fmap f s :
  (forall p, proc_ok p -> proc_ok (f p)) -> sched_inv s ->
  sched_inv (s <| ptable ::= fmap f |>).
Proof.
  intros Hf (Hp & Hl & Ha). split_and!; [done| |].
  - unfold ptable_wf in *; cbn. by rewrite length_fmap.
  - unfold all_procs; cbn. apply Forall_fmap. eapply Forall_impl; [exact Ha|]. done.
Qed.

#[export] Instance sched_inv_frame : SchedInv sched_inv.
Proof.
  split.
  - intros s s' E1 E2 (Hp & Hl & Ha). unfold sched_inv, ptable_wf, all_procs in *.
    by rewrite E1, E2.
  - intros s i f Hf. apply inv_setp. intros p. by apply same_sched_ok.
  - intros s f Hf. apply inv_fmap. intros p. by apply same_sched_ok.
Qed.

Lemma preserves_inv_proc i f :
  (forall p, proc_ok p -> proc_ok (f p)) -> preserves sched_inv (upd_proc i f).
Proof. intros Hf. apply preserves_modify. intros s. by apply inv_setp. Qed.

Lemma preserves_inv_schedp f :
  (forall sp, params_ok sp -> params_ok (f sp)) -> preserves sched_inv (upd_schedp f).
Proof.
  intros Hf. apply preserves_modify. intros s (Hp & Hl & Ha). split_and!; [by apply Hf|done..].
Qed.

Lemma embryo_ok n now p : proc_ok (embryo n now p).
Proof. unfold proc_ok; cbn. lia. Qed.

Lemma charge_ok sp now p : proc_ok p -> proc_ok (charge sp now p).
Proof.
  intros (Hq & Hf & Hs). unfold charge; cbv zeta. destruct (_ <=? 0); [|done].
  unfold expire; cbv zeta. set (f1 := ema_cap _). set (s1 := ema_cap _).
  assert (0 <= f1 <= 5000) by apply ema_cap_range. assert (0 <= s1 <= 5000) by apply ema_cap_range.
  clearbody f1 s1. cbn. destruct (Z.ltb_spec (queue_level p) 2); cbn; [|done].
  destruct (negb _); cbn; [|done]. unfold proc_ok; cbn. rewrite i32_id by (unfold i32_range; lia). lia.
Qed.

Lemma update_params_ok u sp : update_ok u = true -> params_ok (apply_update u sp).
Proof.
  unfold update_ok.
  repeat match goal with
  | |- (if ?b then false else _) = true -> _ => destruct b eqn:?; [done|]
  end.
  intros _. rewrite !orb_false_iff, ?andb_false_iff, !Z.ltb_ge, ?negb_false_iff, ?Z.leb_gt, ?Z.eqb_eq in *.
  unfold params_ok; cbn. intuition lia.
Qed.

Lemma boost_ok q0 p : proc_ok p -> proc_ok (boost_proc q0 p).
Proof. unfold boost_proc. destruct (bool_decide _); [done|]. unfold proc_ok; cbn. lia. Qed.

Lemma dispatch_ok sn now p : proc_ok p -> proc_ok (dispatch_proc sn now p).
Proof. unfold dispatch_proc; cbv zeta; cbn. destruct (_ =? 0); done. Qed.

(** * Processes and system calls *)

Section Calls.
Context `{!DiskDriver} `{!DriverInv sched_inv}.

Hint Extern 2 (preserves _ (upd_proc _ (embryo _ _))) =>
  apply preserves_inv_proc; intros ? _; apply embryo_ok : kernel.
Hint Extern 4 (preserves _ (upd_proc _ (fun p => wake_proc _))) =>
  apply preserves_inv_proc; intros ? ?; unfold wake_proc; destruct (bool_decide _); done : kernel.
Hint Extern 5 (preserves _ (upd_proc _ _)) =>
  apply preserves_inv_proc; unfold proc_ok; intros ? ?; cbn; lia : kernel.
Hint Extern 2 (preserves _ (upd_schedp _)) =>
  apply preserves_inv_schedp; [intros ? ?; done] : kernel.

Lemma preserves_allocproc : preserves sched_inv (allocproc).
Proof. unfold allocproc; cbv zeta. keeps. Qed.
Hint Resolve preserves_allocproc : kernel.

Lemma preserves_userinit : preserves sched_inv (userinit).
Proof. unfold userinit; cbv zeta. keeps. Qed.
Hint Resolve preserves_userinit : kernel.

Lemma preserves_growproc n : preserves sched_inv (growproc n).
Proof. unfold growproc; cbv zeta. keeps. Qed.
Hint Resolve preserves_growproc : kernel.

Lemma preserves_fork_files i np : preserves sched_inv (fork_files i np).
Proof. unfold fork_files; cbv zeta. keeps. Qed.
Hint Resolve preserves_fork_files : kernel.

Lemma preserves_fork : preserves sched_inv (fork).
Proof. unfold fork; cbv zeta. keeps. Qed.
Hint Resolve preserves_fork : kernel.

Lemma preserves_close_files i : preserves sched_inv (close_files i).
Proof. unfold close_files; cbv zeta. keeps. Qed.
Hint Resolve preserves_close_files : kernel.

Lemma preserves_reparent i : preserves sched_inv (reparent i).
Proof. unfold reparent; cbv zeta. keeps. Qed.
Hint Resolve preserves_reparent : kernel.

Lemma preserves_exit_prepare i : preserves sched_inv (exit_prepare i).
Proof. unfold exit_prepare; cbv zeta. keeps. Qed.
Hint Resolve preserves_exit_prepare : kernel.

Lemma preserves_exit_finish i : preserves sched_inv (exit_finish i).
Proof. unfold exit_finish; cbv zeta. keeps. Qed.
Hint Resolve preserves_exit_finish : kernel.

Lemma preserves_exit {A} : preserves sched_inv (exit (A := A)).
Proof. unfold exit. keeps. Qed.
Hint Resolve preserves_exit : kernel.

Lemma preserves_reap j : preserves sched_inv (reap j).
Proof. unfold reap; cbv zeta. keeps. Qed.
Hint Resolve preserves_reap : kernel.

Lemma preserves_wait : preserves sched_inv (wait).
Proof. unfold wait; cbv zeta. keeps. Qed.
Hint Resolve preserves_wait : kernel.

Lemma preserves_forkret : preserves sched_inv (forkret).
Proof. unfold forkret; cbv zeta. keeps. Qed.
Hint Resolve preserves_forkret : kernel.

Lemma preserves_alarm_slot i : preserves sched_inv (alarm_slot i).
Proof. unfold alarm_slot; cbv zeta. keeps. Qed.
Hint Resolve preserves_alarm_slot : kernel.

Lemma preserves_check_alarms : preserves sched_inv (check_alarms).
Proof. unfold check_alarms; cbv zeta. keeps. Qed.
Hint Resolve preserves_check_alarms : kernel.

Lemma preserves_signal n h : preserves sched_inv (signal n h).
Proof. unfold signal; cbv zeta. keeps. Qed.
Hint Resolve preserves_signal : kernel.

Lemma preserves_deliver_signal i n d : preserves sched_inv (deliver_signal i n d).
Proof. unfold deliver_signal; cbv zeta. keeps. Qed.
Hint Resolve preserves_deliver_signal : kernel.

Lemma preserves_check_signals : preserves sched_inv (check_signals).
Proof. unfold check_signals; cbv zeta. keeps. Qed.
Hint Resolve preserves_check_signals : kernel.

Lemma preserves_kill t n : preserves sched_inv (kill t n).
Proof. unfold kill; cbv zeta. keeps. Qed.
Hint Resolve preserves_kill : kernel.

Lemma preserves_send_fgsig n : preserves sched_inv (send_fgsig n).
Proof. unfold send_fgsig; cbv zeta. keeps. Qed.
Hint Resolve preserves_send_fgsig : kernel.

Lemma preserves_getschedstats_loop slots b m n : preserves sched_inv (getschedstats_loop slots b m n).
Proof. revert n. induction slots; intros; cbn [getschedstats_loop]; keeps. Qed.
Hint Resolve preserves_getschedstats_loop : kernel.

Lemma preserves_kern_getschedstats b m : preserves sched_inv (kern_getschedstats b m).
Proof. unfold kern_getschedstats; cbv zeta. keeps. Qed.
Hint Resolve preserves_kern_getschedstats : kernel.

Lemma preserves_kern_pin_agent : preserves sched_inv (kern_pin_agent).
Proof. unfold kern_pin_agent; cbv zeta. keeps. Qed.
Hint Resolve preserves_kern_pin_agent : kernel.

Lemma preserves_procdump pcs : preserves sched_inv (procdump pcs).
Proof. unfold procdump; cbv zeta. keeps. Qed.
Hint Resolve preserves_procdump : kernel.

Lemma preserves_cur_proc : preserves sched_inv (cur_proc).
Proof. unfold cur_proc; cbv zeta. keeps. Qed.
Hint Resolve preserves_cur_proc : kernel.

Lemma preserves_fetchint a : preserves sched_inv (fetchint a).
Proof. unfold fetchint; cbv zeta. keeps. Qed.
Hint Resolve preserves_fetchint : kernel.

Lemma preserves_fetchaddr a : preserves sched_inv (fetchaddr a).
Proof. unfold fetchaddr; cbv zeta. keeps. Qed.
Hint Resolve preserves_fetchaddr : kernel.

Lemma preserves_fetchstr_loop f pg s acc : preserves sched_inv (fetchstr_loop f pg s acc).
Proof. revert s acc. induction f; intros; cbn [fetchstr_loop]; keeps. Qed.
Hint Resolve preserves_fetchstr_loop : kernel.

Lemma preserves_fetchstr a : preserves sched_inv (fetchstr a).
Proof. unfold fetchstr; cbv zeta. keeps. Qed.
Hint Resolve preserves_fetchstr : kernel.

Lemma preserves_fetcharg n : preserves sched_inv (fetcharg n).
Proof. unfold fetcharg; cbv zeta. keeps. Qed.
Hint Resolve preserves_fetcharg : kernel.

Lemma preserves_argint n : preserves sched_inv (argint n).
Proof. unfold argint; cbv zeta. keeps. Qed.
Hint Resolve preserves_argint : kernel.

Lemma preserves_argaddr n : preserves sched_inv (argaddr n).
Proof. unfold argaddr; cbv zeta. keeps. Qed.
Hint Resolve preserves_argaddr : kernel.

Lemma preserves_argptr n z : preserves sched_inv (argptr n z).
Proof. unfold argptr; cbv zeta. keeps. Qed.
Hint Resolve preserves_argptr : kernel.

Lemma preserves_argstr n : preserves sched_inv (argstr n).
Proof. unfold argstr; cbv zeta. keeps. Qed.
Hint Resolve preserves_argstr : kernel.

Lemma preserves_sys_fork : preserves sched_inv (sys_fork).
Proof. unfold sys_fork; cbv zeta. keeps. Qed.
Hint Resolve preserves_sys_fork : kernel.

Lemma preserves_sys_exit : preserves sched_inv (sys_exit).
Proof. unfold sys_exit; cbv zeta. keeps. Qed.
Hint Resolve preserves_sys_exit : kernel.

Lemma preserves_sys_wait : preserves sched_inv (sys_wait).
Proof. unfold sys_wait; cbv zeta. keeps. Qed.
Hint Resolve preserves_sys_wait : kernel.

Lemma preserves_sys_kill : preserves sched_inv (sys_kill).
Proof. unfold sys_kill; cbv zeta. keeps. Qed.
Hint Resolve preserves_sys_kill : kernel.

Lemma preserves_sys_alarm : preserves sched_inv (sys_alarm).
Proof. unfold sys_alarm; cbv zeta. keeps. Qed.
Hint Resolve preserves_sys_alarm : kernel.

Lemma preserves_sys_signal : preserves sched_inv (sys_signal).
Proof. unfold sys_signal; cbv zeta. keeps. Qed.
Hint Resolve preserves_sys_signal : kernel.

Lemma preserves_sys_sigret : preserves sched_inv (sys_sigret).
Proof. unfold sys_sigret; cbv zeta. keeps. Qed.
Hint Resolve preserves_sys_sigret : kernel.

Lemma preserves_sys_fgproc : preserves sched_inv (sys_fgproc).
Proof. unfold sys_fgproc; cbv zeta. keeps. Qed.
Hint Resolve preserves_sys_fgproc : kernel.

Lemma preserves_sys_getpid : preserves sched_inv (sys_getpid).
Proof. unfold sys_getpid; cbv zeta. keeps. Qed.
Hint Resolve preserves_sys_getpid : kernel.

Lemma preserves_sys_sbrk : preserves sched_inv (sys_sbrk).
Proof. unfold sys_sbrk; cbv zeta. keeps. Qed.
Hint Resolve preserves_sys_sbrk : kernel.

Lemma preserves_sys_sleep : preserves sched_inv (sys_sleep).
Proof. unfold sys_sleep; cbv zeta. keeps. Qed.
Hint Resolve preserves_sys_sleep : kernel.

Lemma preserves_sys_uptime : preserves sched_inv (sys_uptime).
Proof. unfold sys_uptime; cbv zeta. keeps. Qed.
Hint Resolve preserves_sys_uptime : kernel.

Lemma preserves_sys_getschedstats : preserves sched_inv (sys_getschedstats).
Proof. unfold sys_getschedstats; cbv zeta. keeps. Qed.
Hint Resolve preserves_sys_getschedstats : kernel.

Lemma preserves_load_update pg a : preserves sched_inv (load_update pg a).
Proof. unfold load_update; cbv zeta. keeps. Qed.
Hint Resolve preserves_load_update : kernel.

Lemma preserves_sys_register_agent : preserves sched_inv (sys_register_agent).
Proof. unfold sys_register_agent; cbv zeta. keeps. Qed.
Hint Resolve preserves_sys_register_agent : kernel.

Lemma preserves_sys_setschedparam : preserves sched_inv (sys_setschedparam).
Proof. 
  unfold sys_setschedparam.
  repeat first
    [ solve [eauto with kernel]
    | match goal with
      | |- preserves _ (if negb (update_ok ?u) then _ else _) => destruct (update_ok u) eqn:?; cbn [negb]
      end
    | preserves_step ].
  apply preserves_inv_schedp. intros sp _. by apply update_params_ok.
 Qed.
Hint Resolve preserves_sys_setschedparam : kernel.

Lemma preserves_loaduvm_loop f pg a ip o z i : preserves sched_inv (loaduvm_loop f pg a ip o z i).
Proof. revert i. induction f; intros; cbn [loaduvm_loop]; keeps. Qed.
Hint Resolve preserves_loaduvm_loop : kernel.

Lemma preserves_loaduvm pg a ip o z : preserves sched_inv (loaduvm pg a ip o z).
Proof. unfold loaduvm; cbv zeta. keeps. Qed.
Hint Resolve preserves_loaduvm : kernel.

Lemma preserves_load_segments k pg ip off z : preserves sched_inv (load_segments k pg ip off z).
Proof. revert off z. induction k; intros; cbn [load_segments]; keeps. Qed.
Hint Resolve preserves_load_segments : kernel.

Lemma preserves_push_args pg sp n argv us : preserves sched_inv (push_args pg sp n argv us).
Proof. revert sp n us. induction argv; intros; cbn [push_args]; keeps. Qed.
Hint Resolve preserves_push_args : kernel.

Lemma preserves_exec_bad pg ip : preserves sched_inv (exec_bad pg ip).
Proof. unfold exec_bad; cbv zeta. keeps. Qed.
Hint Resolve preserves_exec_bad : kernel.

Lemma preserves_exec_commit i o pg e path argv z : preserves sched_inv (exec_commit i o pg e path argv z).
Proof. unfold exec_commit; cbv zeta. keeps. Qed.
Hint Resolve preserves_exec_commit : kernel.

Lemma preserves_exec path argv : preserves sched_inv (exec path argv).
Proof. unfold exec; cbv zeta. keeps. Qed.
Hint Resolve preserves_exec : kernel.

Lemma preserves_argfd n : preserves sched_inv (argfd n).
Proof. unfold argfd; cbv zeta. keeps. Qed.
Hint Resolve preserves_argfd : kernel.

Lemma preserves_fdalloc f : preserves sched_inv (fdalloc f).
Proof. unfold fdalloc; cbv zeta. keeps. Qed.
Hint Resolve preserves_fdalloc : kernel.

Lemma preserves_sys_dup : preserves sched_inv (sys_dup).
Proof. unfold sys_dup; cbv zeta. keeps. Qed.
Hint Resolve preserves_sys_dup : kernel.

Lemma preserves_sys_read : preserves sched_inv (sys_read).
Proof. unfold sys_read; cbv zeta. keeps. Qed.
Hint Resolve preserves_sys_read : kernel.

Lemma preserves_sys_write : preserves sched_inv (sys_write).
Proof. unfold sys_write; cbv zeta. keeps. Qed.
Hint Resolve preserves_sys_write : kernel.

Lemma preserves_sys_close : preserves sched_inv (sys_close).
Proof. unfold sys_close; cbv zeta. keeps. Qed.
Hint Resolve preserves_sys_close : kernel.

Lemma preserves_store_stat pg a st : preserves sched_inv (store_stat pg a st).
Proof. unfold store_stat; cbv zeta. keeps. Qed.
Hint Resolve preserves_store_stat : kernel.

Lemma preserves_sys_fstat : preserves sched_inv (sys_fstat).
Proof. unfold sys_fstat; cbv zeta. keeps. Qed.
Hint Resolve preserves_sys_fstat : kernel.

Lemma preserves_sys_pipe : preserves sched_inv (sys_pipe).
Proof. unfold sys_pipe; cbv zeta. keeps. Qed.
Hint Resolve preserves_sys_pipe : kernel.

Lemma preserves_isdirempty dp : preserves sched_inv (isdirempty dp).
Proof. unfold isdirempty; cbv zeta. keeps. Qed.
Hint Resolve preserves_isdirempty : kernel.

Lemma preserves_add_nlink k i : preserves sched_inv (add_nlink k i).
Proof. unfold add_nlink; cbv zeta. keeps. Qed.
Hint Resolve preserves_add_nlink : kernel.

Lemma preserves_sys_link : preserves sched_inv (sys_link).
Proof. unfold sys_link; cbv zeta. keeps. Qed.
Hint Resolve preserves_sys_link : kernel.

Lemma preserves_sys_unlink : preserves sched_inv (sys_unlink).
Proof. unfold sys_unlink; cbv zeta. keeps. Qed.
Hint Resolve preserves_sys_unlink : kernel.

Lemma preserves_create path t mj mn : preserves sched_inv (create path t mj mn).
Proof. unfold create; cbv zeta. keeps. Qed.
Hint Resolve preserves_create : kernel.

Lemma preserves_open_inode path m : preserves sched_inv (open_inode path m).
Proof. unfold open_inode; cbv zeta. keeps. Qed.
Hint Resolve preserves_open_inode : kernel.

Lemma preserves_sys_open : preserves sched_inv (sys_open).
Proof. unfold sys_open; cbv zeta. keeps. Qed.
Hint Resolve preserves_sys_open : kernel.

Lemma preserves_finish_create o : preserves sched_inv (finish_create o).
Proof. unfold finish_create; cbv zeta. keeps. Qed.
Hint Resolve preserves_finish_create : kernel.

Lemma preserves_sys_mkdir : preserves sched_inv (sys_mkdir).
Proof. unfold sys_mkdir; cbv zeta. keeps. Qed.
Hint Resolve preserves_sys_mkdir : kernel.

Lemma preserves_sys_mknod : preserves sched_inv (sys_mknod).
Proof. unfold sys_mknod; cbv zeta. keeps. Qed.
Hint Resolve preserves_sys_mknod : kernel.

Lemma preserves_sys_chdir : preserves sched_inv (sys_chdir).
Proof. unfold sys_chdir; cbv zeta. keeps. Qed.
Hint Resolve preserves_sys_chdir : kernel.

Lemma preserves_fetch_argv k a acc : preserves sched_inv (fetch_argv k a acc).
Proof. revert a acc. induction k; intros; cbn [fetch_argv]; keeps. Qed.
Hint Resolve preserves_fetch_argv : kernel.

Lemma preserves_sys_exec : preserves sched_inv (sys_exec).
Proof. unfold sys_exec; cbv zeta. keeps. Qed.
Hint Resolve preserves_sys_exec : kernel.

Lemma preserves_syscalls num f : syscalls num = Some f -> preserves sched_inv f.
Proof.
  unfold syscalls. intros Hf.
  repeat match type of Hf with (match ?x with _ => _ end) = _ => destruct x; try discriminate end;
    injection Hf as <-; eauto with kernel.
Qed.

Lemma preserves_syscall t : preserves sched_inv (syscall t).
Proof.
  unfold syscall; cbv zeta. apply preserves_bind; [eauto with kernel|intros i].
  apply preserves_bind; [keeps|intros _]. apply preserves_bind; [keeps|intros p].
  apply preserves_bind; [|keeps]. destruct (syscalls _) eqn:E; [|keeps].
  apply preserves_syscalls in E. keeps.
Qed.

Lemma preserves_erase : preserves sched_inv (erase).
Proof. unfold erase; cbv zeta. keeps. Qed.
Hint Resolve preserves_erase : kernel.

Lemma preserves_kill_line f : preserves sched_inv (kill_line f).
Proof. induction f; intros; cbn [kill_line]; keeps. Qed.
Hint Resolve preserves_kill_line : kernel.

Lemma preserves_input_char c : preserves sched_inv (input_char c).
Proof. unfold input_char; cbv zeta. keeps. Qed.
Hint Resolve preserves_input_char : kernel.

Lemma preserves_console_char pcs c : preserves sched_inv (console_char pcs c).
Proof. unfold console_char; cbv zeta. keeps. Qed.
Hint Resolve preserves_console_char : kernel.

Lemma preserves_consoleintr_loop pcs chars : preserves sched_inv (consoleintr_loop pcs chars).
Proof. induction chars; intros; cbn [consoleintr_loop]; keeps. Qed.
Hint Resolve preserves_consoleintr_loop : kernel.

Lemma preserves_consoleintr pcs chars : preserves sched_inv (consoleintr pcs chars).
Proof. unfold consoleintr; cbv zeta. keeps. Qed.
Hint Resolve preserves_consoleintr : kernel.

Lemma preserves_tick_clock : preserves sched_inv (tick_clock).
Proof. unfold tick_clock; cbv zeta. keeps. Qed.
Hint Resolve preserves_tick_clock : kernel.

Lemma preserves_timer : preserves sched_inv timer.
Proof.
  unfold timer. keeps. apply preserves_modify. intros s. apply inv_setp. intros p. apply charge_ok.
Qed.
Hint Resolve preserves_timer : kernel.

Lemma preserves_unexpected t cr2 : preserves sched_inv (unexpected t cr2).
Proof. unfold unexpected; cbv zeta. keeps. Qed.
Hint Resolve preserves_unexpected : kernel.

Lemma preserves_count_fault : preserves sched_inv (count_fault).
Proof. unfold count_fault; cbv zeta. keeps. Qed.
Hint Resolve preserves_count_fault : kernel.

Lemma preserves_trap_switch t pcs chars cr2 : preserves sched_inv (trap_switch t pcs chars cr2).
Proof. unfold trap_switch; cbv zeta. keeps. Qed.
Hint Resolve preserves_trap_switch : kernel.

Lemma preserves_exit_if_killed t : preserves sched_inv (exit_if_killed t).
Proof. unfold exit_if_killed; cbv zeta. keeps. Qed.
Hint Resolve preserves_exit_if_killed : kernel.

Lemma preserves_preempt t : preserves sched_inv (preempt t).
Proof. unfold preempt; cbv zeta. keeps. Qed.
Hint Resolve preserves_preempt : kernel.

Lemma preserves_push_frame t : preserves sched_inv (push_frame t).
Proof. unfold push_frame; cbv zeta. keeps. Qed.
Hint Resolve preserves_push_frame : kernel.

Lemma preserves_trap t pcs chars cr2 : preserves sched_inv (trap t pcs chars cr2).
Proof. unfold trap; cbv zeta. keeps. Qed.
Hint Resolve preserves_trap : kernel.

End Calls.
#[export] Hint Resolve preserves_allocproc preserves_userinit preserves_growproc
  preserves_fork_files preserves_fork preserves_close_files preserves_reparent
  preserves_exit_prepare preserves_exit_finish preserves_exit preserves_reap preserves_wait
  preserves_forkret preserves_alarm_slot preserves_check_alarms preserves_signal
  preserves_deliver_signal preserves_check_signals preserves_kill preserves_send_fgsig
  preserves_getschedstats_loop preserves_kern_getschedstats preserves_kern_pin_agent
  preserves_procdump preserves_cur_proc preserves_fetchint preserves_fetchaddr
  preserves_fetchstr_loop preserves_fetchstr preserves_fetcharg preserves_argint
  preserves_argaddr preserves_argptr preserves_argstr preserves_sys_fork preserves_sys_exit
  preserves_sys_wait preserves_sys_kill preserves_sys_alarm preserves_sys_signal
  preserves_sys_sigret preserves_sys_fgproc preserves_sys_getpid preserves_sys_sbrk
  preserves_sys_sleep preserves_sys_uptime preserves_sys_getschedstats preserves_load_update
  preserves_sys_register_agent preserves_sys_setschedparam preserves_loaduvm_loop
  preserves_loaduvm preserves_load_segments preserves_push_args preserves_exec_bad
  preserves_exec_commit preserves_exec preserves_argfd preserves_fdalloc preserves_sys_dup
  preserves_sys_read preserves_sys_write preserves_sys_close preserves_store_stat
  preserves_sys_fstat preserves_sys_pipe preserves_isdirempty preserves_add_nlink
  preserves_sys_link preserves_sys_unlink preserves_create preserves_open_inode
  preserves_sys_open preserves_finish_create preserves_sys_mkdir preserves_sys_mknod
  preserves_sys_chdir preserves_fetch_argv preserves_sys_exec preserves_syscall preserves_erase
  preserves_kill_line preserves_input_char preserves_console_char preserves_consoleintr_loop
  preserves_consoleintr preserves_tick_clock preserves_timer preserves_unexpected
  preserves_count_fault preserves_trap_switch preserves_exit_if_killed preserves_preempt
  preserves_push_frame preserves_trap : kernel.
