(* ===== verification/Reach.v ===== *)
(** The scheduler's safety over all executions: scheduler passes keep
    [sched_inv] and never fault, and so does the kernel as a transition
    system. *)

From S2P Require Import Prelude Control KState Spinlock Format Sched Selection Memory Kalloc Vm.
From S2P Require Import Sleeplock Disk Bio Log Inode Console Fs Pipe File Proc Trap Syscall.
From S2P Require Import SysProc Exec SysFile Frame Safety.

(** * Scheduler passes *)

Lemma scores_ok pt pt' : same_but_scores pt pt' -> Forall proc_ok pt -> Forall proc_ok pt'.
Proof.
  unfold same_but_scores. intros E H.
  assert (Hu : Forall proc_ok (unscored <$> pt)) by by apply Forall_fmap.
  rewrite E in Hu. exact (proj1 (Forall_fmap _ _ _) Hu).
Qed.

(** [m] never panics with the message of an unexpected trap. *)
Definition quiet {A} (m : K A) : Prop := forall s w s', m s w <> Panic "trap" s'.

Lemma quiet_bind {A B} (m : K A) (f : A -> K B) :
  quiet m -> (forall a, quiet (f a)) -> quiet (m ≫= f).
Proof.
  intros Hm Hf s w s'. unfold mbind, M_bind. destruct (m s w) eqn:E; try done.
  - apply Hf.
  - intros [= -> ->]. by eapply Hm.
Qed.
Lemma quiet_panic {A} msg : msg <> "trap"%string -> quiet (panic (A := A) msg).
Proof. intros Hm s w s' [= -> _]. done. Qed.
Lemma quiet_wait test : quiet (wait_while test).
Proof. intros s w. revert s. induction w; intros s s'; cbn; destruct (test s); done. Qed.
Lemma quiet_interfere : quiet interfere.
Proof. intros s [|e w] s'; done. Qed.
Lemma quiet_for_each {A} (l : list A) f : (forall a, quiet (f a)) -> quiet (for_each l f).
Proof. intros Hf. induction l; cbn; [done|]. by apply quiet_bind. Qed.

Ltac quiet_tac :=
  repeat lazymatch goal with
  | |- quiet (mbind _ _) => apply quiet_bind; [|intros ?]
  | |- quiet (if ?b then _ else _) => destruct b
  | |- quiet (when ?b _) => destruct b; cbn [when]
  | |- quiet (match ?x with _ => _ end) => destruct x
  | |- quiet (panic _) => apply quiet_panic; discriminate
  | |- quiet (wait_while _) => apply quiet_wait
  | |- quiet interfere => apply quiet_interfere
  | |- quiet (for_each _ _) => apply quiet_for_each; intros ?
  end; try done.

Lemma quiet_pushcli : quiet pushcli.
Proof. unfold pushcli, readeflags_if. quiet_tac. Qed.
Lemma quiet_popcli : quiet popcli.
Proof. unfold popcli, readeflags_if. quiet_tac. Qed.
Lemma quiet_acquire lk : quiet (acquire lk).
Proof. unfold acquire, holding. quiet_tac. apply quiet_pushcli. Qed.
Lemma quiet_release lk : quiet (release lk).
Proof. unfold release, holding. quiet_tac. apply quiet_popcli. Qed.
Lemma quiet_switchuvm i : quiet (switchuvm i).
Proof. unfold switchuvm, get_proc. quiet_tac; [apply quiet_pushcli|apply quiet_popcli]. Qed.
Lemma quiet_step_age : quiet step_age.
Proof.
  unfold step_age, age_slot, get_proc. quiet_tac; [apply quiet_acquire|apply quiet_release].
Qed.
Lemma quiet_step_dispatch sn j : quiet (step_dispatch sn j).
Proof. unfold step_dispatch, switchkvm, upd_proc. quiet_tac. apply quiet_switchuvm. Qed.

Section Passes.

Definition not_trap (msg : string) (s : kstate) : Prop := msg <> "trap"%string.

Lemma spec_quiet {A} I (m : K A) : preserves I m -> quiet m -> spec I I m (fun _ => I) not_trap.
Proof.
  intros Hp Hq s w Hs Hw. specialize (Hp s w Hs Hw). specialize (Hq s w).
  destruct (m s w) eqn:E; cbn in *; try done. intros ->. by eapply Hq.
Qed.

Lemma step_boost_inv sn : preserves sched_inv (step_boost sn).
Proof.
  unfold step_boost. keeps. apply preserves_modify. intros s. apply inv_fmap. intros p. apply boost_ok.
Qed.

Lemma step_age_inv : preserves sched_inv step_age.
Proof.
  unfold step_age, age_slot, age_proc. keeps;
    first [by apply preserves_inv_proc|by apply preserves_inv_schedp].
Qed.

Lemma step_select_inv sn :
  snap_aging sn <> 0 -> spec sched_inv sched_inv (step_select sn) (fun _ => sched_inv) not_trap.
Proof.
  intros Ha s w Hs Hw. unfold step_select, get. unfold mbind at 1, M_bind at 1.
  destruct (z2b (snap_rr sn)).
  - destruct (rr_pick _ _); [|by split]. split; [|done]. by apply (si_frame s).
  - destruct (mlfq_pick_spec (snap_aging sn) (ptable s)) as (pt' & best & -> & Hsame & _);
      [done|apply Hs|].
    split; [|done]. destruct Hs as (Hp & Hl & Hall). split_and!; [done| |].
    + unfold ptable_wf in *; cbn. by rewrite (same_but_scores_length _ _ Hsame).
    + by apply (scores_ok (ptable s)).
Qed.

Lemma step_dispatch_inv sn j : preserves sched_inv (step_dispatch sn j).
Proof.
  unfold step_dispatch. keeps. apply preserves_inv_proc. intros p. apply dispatch_ok.
Qed.

Lemma scheduler_pass_inv :
  spec sched_inv sched_inv scheduler_pass (fun _ => sched_inv) not_trap.
Proof.
  unfold scheduler_pass, sti.
  eapply spec_bind; [apply spec_quiet; [eauto with kernel|done]|intros ?].
  eapply spec_bind; [apply spec_quiet; [eauto with kernel|apply quiet_acquire]|intros ?].
  eapply spec_bind; [apply spec_quiet; [eauto with kernel|apply quiet_acquire]|intros ?].
  eapply (spec_bind _ _ _ _ (fun sn s => sched_inv s /\ snap_aging sn <> 0)).
  { apply spec_gets. intros s Hs. split; [done|]. destruct Hs as (Hp & _).
    destruct Hp as (_ & _ & _ & _ & _ & _ & Hag & _). cbn. lia. }
  intros sn s w [Hs Hag] Hw. revert s w Hs Hw.
  change (spec sched_inv sched_inv (release SCHEDP ;; step_boost sn ;; step_age ;;
    best ← step_select sn;
    match best with Some j => step_dispatch sn j | None => mret tt end ;;
    release PTABLE ;; when (bool_decide (best = None)) interfere) (fun _ => sched_inv) not_trap).
  eapply spec_bind; [apply spec_quiet; [eauto with kernel|apply quiet_release]|intros ?].
  eapply spec_bind; [apply spec_quiet; [apply step_boost_inv|unfold step_boost; quiet_tac]|intros ?].
  eapply spec_bind; [apply spec_quiet; [apply step_age_inv|apply quiet_step_age]|intros ?].
  eapply spec_bind; [by apply step_select_inv|intros best].
  eapply spec_bind; [|intros ?].
  { destruct best as [j|]; [|by apply spec_quiet; [eauto with kernel|]].
    apply spec_quiet; [apply step_dispatch_inv|apply quiet_step_dispatch]. }
  eapply spec_bind; [apply spec_quiet; [eauto with kernel|apply quiet_release]|intros ?].
  apply spec_quiet; [eauto with kernel|quiet_tac].
Qed.

End Passes.

(** * The kernel as a transition system *)

(** The ways into the kernel once it has booted. *)
Inductive kernel_entry `{!DiskDriver} : K unit -> Prop :=
| Enter_syscall t : kernel_entry (syscall t)
| Enter_trap t pcs chars cr2 : kernel_entry (trap t pcs chars cr2)
| Enter_scheduler : kernel_entry scheduler_pass
| Enter_forkret : kernel_entry forkret.

(** The state an entry leaves behind when it returns, gives up the processor
    or panics. *)
Definition final {A} (o : outcome kstate A) : kstate :=
  match o with
  | Ok _ s _ => s
  | Panic _ s => s
  | Blocked s => s
  | NoReturn s => s
  end.
Definition panicked {A} (o : outcome kstate A) : bool :=
  match o with Panic _ _ => true | _ => false end.

#[local] Set Warnings "-register-all".

(** A party's turn: an entry run on some CPU, as far as it gets with the
    turns of other parties in between; a panic halts the machine, so a turn
    that panics leaves no successor (the state is kept). *)
Inductive turn `{!DiskDriver} : (kstate -> kstate) -> Prop :=
| Turn c m w : kernel_entry m -> Forall turn w ->
    turn (fun s => let o := m (s <| kcpu := c |>) w in
                   if panicked o then s else final o <| kcpu := kcpu s |>).

Inductive reachable `{!DiskDriver} (s0 : kstate) : kstate -> Prop :=
| Reach_start : reachable s0 s0
| Reach_turn s e : reachable s0 s -> turn e -> reachable s0 (e s).

Section Reachability.
Context `{!DiskDriver} `{!DriverInv sched_inv}.

Lemma entry_inv m : kernel_entry m -> preserves sched_inv m.
Proof.
  intros [t|t pcs chars cr2| |]; eauto with kernel.
  eapply spec_conseq; [apply scheduler_pass_inv|done..].
Qed.

Lemma turn_inv e : turn e -> forall s, sched_inv s -> sched_inv (e s).
Proof.
  revert e. fix IH 2. intros e [c m w Hm Hw] s Hs. cbv zeta.
  assert (Hok : env_ok sched_inv w).
  { clear -Hw IH. induction Hw as [|e w He Hw IHw]; constructor; [exact (IH e He)|exact IHw]. }
  assert (Hc : sched_inv (s <| kcpu := c |>)) by by apply (si_frame s).
  pose proof (entry_inv m Hm _ w Hc Hok) as Hsat.
  destruct (m _ w); cbn in *; try done. exact (proj1 Hsat).
Qed.

End Reachability.
