(* ===== verification/Handoff.v ===== *)
(** Giving up the processor: the exact states in which [sched], [yield] and
    [sleep] leave the kernel to the next party, and what [wakeup] does to the
    table.

    Running with no interference stops at the switch point, so these are
    equations between a call and the state it blocks in. *)

From S2P Require Import Prelude Control KState Spinlock Format Sched Memory Kalloc Vm Sleeplock.
From S2P Require Import Disk Bio Log Inode Console Fs Pipe File Proc Trap.

(** The CPU may take a lock: its nesting is consistent and has room. *)
Definition cpu_ready (s : kstate) : Prop := cpu_ok (kcpu s) /\ ncli (kcpu s) < 900.

Lemma cpu_ready_same s s' : kcpu s' = kcpu s -> cpu_ready s -> cpu_ready s'.
Proof. unfold cpu_ready. by intros ->. Qed.

Lemma wakeup_eq ch s w :
  lock_free PTABLE s -> cpu_ready s ->
  wakeup ch s w = Ok tt (settle (s <| ptable ::= fmap (wakeup1_proc (Some ch)) |>)) w.
Proof. intros Hl [Hc Hn]. apply (section_eq PTABLE); [done|done|done|lia]. Qed.

Lemma cprintf_eq fmt args s w :
  lock_free CONS s -> cpu_ready s ->
  cprintf fmt args s w =
    Ok tt (settle (s <| console ::= fun l => l ++ cprintf_out (bytes_of fmt) args |>)) w.
Proof. intros Hl [Hc Hn]. apply (section_eq CONS); [done|done|done|lia]. Qed.

(** Inside a critical section from which the console can be used. *)
Definition may_print (s : kstate) : Prop :=
  lock_free CONS s /\ cpu_ok (kcpu s) /\ 0 < ncli (kcpu s) < 990.

Lemma may_print_same s s' :
  kcpu s' = kcpu s -> locks s' = locks s -> may_print s -> may_print s'.
Proof. unfold may_print, lock_free. by intros -> ->. Qed.

Lemma may_print_enter lk s :
  lk <> CONS -> lock_free CONS s -> cpu_ready s -> may_print (enter lk s).
Proof.
  intros Hne Hl [[Hn Hf] Hlt]. unfold may_print, lock_free, cpu_ok; cbn.
  rewrite lookup_insert_ne by done. rewrite i32_id by (unfold i32_range; lia). split_and!; try done; lia.
Qed.

(** There printing changes the console only. *)
Lemma cprintf_nested fmt args s w :
  may_print s ->
  cprintf fmt args s w =
    Ok tt (s <| console ::= fun l => l ++ cprintf_out (bytes_of fmt) args |>) w.
Proof.
  intros (Hl & Hc & Hn). unfold cprintf. rewrite section_eq; [|done|done|done|lia].
  by rewrite settle_nested by (cbn; lia).
Qed.

(** Waking up from inside the critical section of another lock. *)
Lemma wakeup_in_section lk ch s s1 w :
  lk <> PTABLE -> lock_free PTABLE s -> cpu_ready s ->
  kcpu s1 = kcpu (enter lk s) -> locks s1 = locks (enter lk s) ->
  wakeup ch s1 w = Ok tt (s1 <| ptable ::= fmap (wakeup1_proc (Some ch)) |>) w.
Proof.
  intros Hne Hl [Hc Hn] Hk Hlk. destruct (enter_ncli lk s Hc ltac:(lia)) as [Hn' Hif].
  destruct Hc as [Hc1 Hc2]. unfold wakeup, wakeup1.
  rewrite section_eq; [|done| |rewrite Hk; split; [lia|done]|rewrite Hk; lia].
  - rewrite settle_nested; [done|]. change (0 < ncli (kcpu s1)). rewrite Hk. lia.
  - unfold lock_free. rewrite Hlk. cbn. by rewrite lookup_insert_ne.
Qed.

(** In process context with the table locked and nothing else held. *)
Record in_table (i : nat) (s : kstate) : Prop := {
  it_cur : cur (kcpu s) = Some i;
  it_lock : lock_held PTABLE s;
  it_ncli : ncli (kcpu s) = 1;
  it_if : eflags_if (kcpu s) = false
}.

Lemma in_table_setp i j f s : in_table i s -> in_table i (setp j f s).
Proof. intros []. by split. Qed.

Lemma holding_held lk s : lock_held lk s -> holding_b lk s = true.
Proof.
  intros Hl. unfold holding_b, getlock. rewrite Hl. cbn. by rewrite bool_decide_eq_true_2.
Qed.

Lemma sched_blocks i s :
  in_table i s -> pstate (getp i s) <> RUNNING -> sched s [] = Blocked s.
Proof.
  intros [Hc Hl Hn Hif] Hst. unfold sched, holding. rewrite bind_gets, holding_held by done.
  cbn [negb]. rewrite bind_gets, Hn. cbn [Z.eqb negb Pos.eqb].
  unfold myproc. rewrite bind_assoc, bind_gets, Hc, bind_mret. unfold get_proc. rewrite bind_gets.
  rewrite bool_decide_eq_false_2 by done. unfold readeflags_if. rewrite bind_gets, Hif, bind_gets.
  by apply bind_blocked.
Qed.

Lemma in_table_enter i s :
  cur (kcpu s) = Some i -> ncli (kcpu s) = 0 -> in_table i (enter PTABLE s).
Proof.
  intros Hc Hn. split; cbn; [done| | |done].
  - apply lookup_insert_eq.
  - by rewrite Hn.
Qed.

(** [sleep] with a lock held: the table is locked before the lock is let go. *)
Definition asleep (ch : channel) (p : proc) : proc :=
  p <| chan := Some ch |> <| pstate := SLEEPING |>.

Lemma sleep_blocks ch lk i s :
  cur (kcpu s) = Some i -> (i < length (ptable s))%nat -> lk <> PTABLE ->
  lock_held lk s -> lock_free PTABLE s -> ncli (kcpu s) = 1 -> eflags_if (kcpu s) = false ->
  sleep ch (Some lk) s [] = Blocked (setp i (asleep ch) (leave lk (enter PTABLE s))).
Proof.
  intros Hcur Hi Hne Hlk Hpt Hn Hif. unfold sleep. rewrite bind_gets, Hcur.
  rewrite bool_decide_eq_true_2 by done. cbn [when].
  assert (Hh : lock_held lk (enter PTABLE s)).
  { unfold lock_held; cbn. by rewrite lookup_insert_ne. }
  assert (Hn2 : ncli (kcpu (enter PTABLE s)) = 2) by (cbn; by rewrite Hn).
  rewrite bind_assoc, acquire_then by done. rewrite release_then; [|done|done|lia].
  unfold upd_proc, set_state. rewrite bind_modify. unfold upd_proc. rewrite bind_modify.
  set (s1 := setp i _ (setp i _ _)).
  assert (E : s1 = setp i (asleep ch) (leave lk (enter PTABLE s))) by apply setp_setp.
  apply bind_blocked. rewrite E. apply (sched_blocks i).
  - apply in_table_setp. split; cbn; [done| |by rewrite Hn|].
    + unfold lock_held; cbn. rewrite lookup_insert_ne by done. apply lookup_insert_eq.
    + by rewrite Hn.
  - rewrite getp_setp by done. done.
Qed.

Lemma wakeup1_proc_spec ch p :
  wakeup1_proc (Some ch) p =
    if bool_decide (pstate p = SLEEPING /\ chan p = Some ch) then p <| pstate := RUNNABLE |> else p.
Proof.
  unfold wakeup1_proc. repeat case_bool_decide; cbn; try done; naive_solver.
Qed.


(** * Preemption *)

Definition yielded (p : proc) : proc :=
  p <| yield_count ::= fun n => i32 (n + 1) |> <| pstate := RUNNABLE |>.

Lemma yield_blocks i s :
  cur (kcpu s) = Some i -> (i < length (ptable s))%nat -> lock_free PTABLE s ->
  ncli (kcpu s) = 0 ->
  yield s [] = Blocked (setp i yielded (enter PTABLE s)).
Proof.
  intros Hcur Hi Hl Hn. unfold yield. rewrite acquire_then by done.
  unfold myproc. rewrite bind_assoc, bind_gets. cbn [kcpu enter setter]. unfold push_cpu at 1; cbn [cur].
  rewrite Hcur, bind_mret. unfold upd_proc, set_state, upd_proc. rewrite !bind_modify.
  apply bind_blocked. rewrite setp_setp. apply (sched_blocks i).
  - by apply in_table_setp, in_table_enter.
  - by rewrite getp_setp.
Qed.
