(* ===== verification/Timer.v ===== *)
(** The timer interrupt: alarms, the clock, and preemption. *)

From S2P Require Import Prelude Control KState Spinlock Format Sched Memory Kalloc Vm Sleeplock.
From S2P Require Import Disk Bio Log Inode Console Fs Pipe File Proc Trap Syscall SysProc Handoff.

(** * Alarms *)

(** [check_alarms] on one process, and what it prints. *)
Definition alarm_rings (p : proc) : bool :=
  (0 <? alarm_ticks p) && (i32 (alarm_countdown p - 1) <=? 0).
Definition alarm_proc (p : proc) : proc :=
  if 0 <? alarm_ticks p then
    if i32 (alarm_countdown p - 1) <=? 0 then
      wake_proc (p <| signal_pending := SIGALRM |> <| alarm_ticks := 0 |> <| alarm_countdown := 0 |>)
    else p <| alarm_countdown := i32 (alarm_countdown p - 1) |>
  else p.
Definition alarm_message (p : proc) : list Z :=
  if alarm_rings p
  then cprintf_out (bytes_of (line "got a kill for %d signal %d")) [AInt (pid p); AInt SIGALRM]
  else [].

Lemma alarm_slot_eq i p s w :
  ptable s !! i = Some p -> may_print s ->
  alarm_slot i s w =
    Ok tt (s <| ptable := <[i := alarm_proc p]> (ptable s) |>
             <| console ::= fun l => l ++ alarm_message p |>) w.
Proof.
  intros Hi Hm. unfold alarm_slot, get_proc. rewrite bind_gets, (getp_lookup _ _ _ Hi).
  unfold alarm_message, alarm_rings, alarm_proc.
  destruct (0 <? alarm_ticks p) eqn:Ea; cbn [when andb].
  2:{ rewrite list_insert_id by done. cbn. rewrite app_nil_r. by destruct s. }
  unfold upd_proc. rewrite bind_modify, bind_gets, (setp_insert _ _ _ _ Hi).
  set (p1 := setter alarm_countdown _ p).
  set (s1 := s <| ptable := <[i := p1]> (ptable s) |>).
  assert (Hi1 : ptable s1 !! i = Some p1) by (apply list_lookup_insert_eq; by eapply lookup_lt_Some).
  rewrite (getp_lookup _ _ _ Hi1). change (alarm_countdown p1) with (i32 (alarm_countdown p - 1)).
  destruct (i32 (alarm_countdown p - 1) <=? 0); cbn [when].
  - erewrite bind_ok by (apply cprintf_nested; apply (may_print_same s s1); done).
    set (s2 := setter console _ s1). unfold modify.
    rewrite (setp_insert i _ p1 s2 Hi1). unfold s2, s1. cbn [ptable setter].
    rewrite list_insert_insert_eq. done.
  - cbn. rewrite app_nil_r. by destruct s.
Qed.

Lemma fold_messages (l : list proc) s :
  foldl (fun s p => s <| console ::= fun c => c ++ alarm_message p |>) s l =
  s <| console ::= fun c => c ++ mjoin (alarm_message <$> l) |>.
Proof.
  revert s. induction l as [|p l IH]; intros s; cbn [foldl fmap list_fmap mjoin list_join].
  - cbn. rewrite app_nil_r. by destruct s.
  - rewrite IH. cbn. by rewrite app_assoc.
Qed.

(** Every alarm is counted down by one tick; those that reach zero post
    SIGALRM, wake their process if it sleeps, and are switched off. *)
Lemma check_alarms_eq s w :
  ptable_wf s -> lock_free PTABLE s -> lock_free CONS s -> cpu_ready s ->
  check_alarms s w =
    Ok tt (settle (s <| ptable ::= fmap alarm_proc |>
                     <| console ::= fun c => c ++ mjoin (alarm_message <$> ptable s) |>)) w.
Proof.
  intros Hwf Hp Hco Hr. unfold check_alarms. rewrite acquire_then by done.
  set (g := fun s : kstate => s <| ptable ::= fmap alarm_proc |>
              <| console ::= fun c => c ++ mjoin (alarm_message <$> ptable s) |>).
  assert (Hm : may_print (enter PTABLE s)).
  { by apply may_print_enter. }
  unfold proc_slots. erewrite bind_ok.
  2:{ apply (for_slots_eq alarm_slot alarm_proc
        (fun p s => s <| console ::= fun c => c ++ alarm_message p |>) may_print); try done.
      - intros i p s1 w1 Hs1 Hi. rewrite (alarm_slot_eq i p) by done. done. }
  rewrite fold_messages. cbn [drop take app].
  change (Ok tt (settle (g s)) w) with ((fun _ : unit => Ok tt (settle (g s)) w) tt).
  destruct Hr as [Hc Hlt]. destruct (enter_ncli PTABLE s Hc ltac:(lia)) as [Hn' Hif'].
  destruct Hc as [Hc1 Hc2].
  rewrite release_held; [|by apply (enter_held PTABLE g)|done|cbn; rewrite i32_id by (unfold i32_range; lia); lia].
  f_equal. apply (leave_enter PTABLE g); [by intros ???|done|done|lia].
Qed.


(** * The timer trap *)

Definition clock_tick (s : kstate) : kstate :=
  s <| ticks ::= fun t => u32 (t + 1) |> <| ptable ::= fmap (wakeup1_proc (Some CH_TICKS)) |>.
Definition alarm_tick (s : kstate) : kstate :=
  s <| ptable ::= fmap alarm_proc |>
    <| console ::= fun c => c ++ mjoin (alarm_message <$> ptable s) |>.
(** What CPU 0 does before the running process is charged. *)
Definition on_boot_cpu (s : kstate) : kstate :=
  if cpu_id (kcpu s) =? 0 then settle (alarm_tick (settle (clock_tick s))) else s.

(** The interrupt arrives in process context, with interrupts off and no lock
    in the way. *)
Record irq_ready (i : nat) (s : kstate) : Prop := {
  iq_cur : cur (kcpu s) = Some i;
  iq_slot : (i < NPROC)%nat;
  iq_wf : ptable_wf s;
  iq_ncli : ncli (kcpu s) = 0;
  iq_if : eflags_if (kcpu s) = false;
  iq_ptable : lock_free PTABLE s;
  iq_cons : lock_free CONS s;
  iq_ticks : lock_free TICKSLOCK s
}.

Lemma irq_cpu_ready i s : irq_ready i s -> cpu_ready s.
Proof. intros []. unfold cpu_ready, cpu_ok. split; [split|]; lia. Qed.

Lemma irq_ready_same i s s' :
  kcpu s' = kcpu s -> locks s' = locks s -> length (ptable s') = length (ptable s) ->
  irq_ready i s -> irq_ready i s'.
Proof.
  intros Hk Hl Hn []. unfold lock_free, ptable_wf in *.
  by split; unfold lock_free, ptable_wf; rewrite ?Hk, ?Hl, ?Hn.
Qed.

Lemma irq_ready_settle i s : irq_ready i s -> irq_ready i (settle s).
Proof. intros []. by split. Qed.

Lemma tick_clock_eq i s w :
  irq_ready i s -> tick_clock s w = Ok tt (settle (clock_tick s)) w.
Proof.
  intros Hq. pose proof (irq_cpu_ready _ _ Hq) as [Hc Hn]. destruct Hq.
  unfold tick_clock. rewrite acquire_then by done. rewrite bind_modify.
  set (s1 := setter ticks _ _).
  assert (Hn1 : ncli (kcpu s1) = 1) by (cbn; by rewrite iq_ncli0).
  erewrite bind_ok.
  2:{ apply wakeup_eq.
      - unfold lock_free; cbn. by rewrite lookup_insert_ne.
      - split; [|lia]. split; [lia|done]. }
  rewrite settle_nested by (change (0 < ncli (kcpu s1)); lia).
  assert (Hclk : off_cpu clock_tick) by by intros ???.
  change (setter ptable _ s1) with (clock_tick (enter TICKSLOCK s)).
  rewrite release_held; [|by apply enter_held|done|change (0 < ncli (kcpu s1) < 1000); lia].
  by rewrite leave_enter by (done || lia).
Qed.

Definition charge_running (s : kstate) : kstate :=
  match running_proc s with
  | Some i => setp i (charge (schedp s) (ticks s)) s
  | None => s
  end.

Lemma timer_eq i s w : irq_ready i s -> timer s w = Ok tt (charge_running (on_boot_cpu s)) w.
Proof.
  intros Hq. unfold timer, on_boot_cpu. rewrite bind_gets.
  assert (Hrest : forall s1, (o ← gets running_proc;
     match o with
     | Some i => modify (fun s => setp i (charge (schedp s) (ticks s)) s)
     | None => mret tt
     end) s1 w = Ok tt (charge_running s1) w).
  { intros s1. rewrite bind_gets. unfold charge_running. by destruct (running_proc s1). }
  destruct (cpu_id (kcpu s) =? 0); cbn [when]; [|by rewrite bind_mret].
  assert (Hq1 : irq_ready i (settle (clock_tick s))).
  { apply irq_ready_settle. eapply irq_ready_same; [..|exact Hq]; try done. cbn. apply length_fmap. }
  rewrite bind_assoc. erewrite bind_ok by by eapply tick_clock_eq.
  erewrite bind_ok; [apply Hrest|].
  pose proof (irq_cpu_ready _ _ Hq1). destruct Hq1. by apply check_alarms_eq.
Qed.

Lemma getp_fmap f i (s : kstate) :
  f zero_proc = zero_proc -> getp i (s <| ptable ::= fmap f |>) = f (getp i s).
Proof. intros Hf. unfold getp; cbn. rewrite list_lookup_fmap. by destruct (ptable s !! i). Qed.

(** An alarm that does not ring leaves the process as it is, but for the
    countdown. *)
Definition unrung (p : proc) : proc :=
  if 0 <? alarm_ticks p then p <| alarm_countdown := i32 (alarm_countdown p - 1) |> else p.

Lemma getp_on_boot_cpu i s :
  pstate (getp i s) = RUNNING -> alarm_rings (getp i s) = false ->
  getp i (on_boot_cpu s) = if cpu_id (kcpu s) =? 0 then unrung (getp i s) else getp i s.
Proof.
  intros Hst Hring. unfold on_boot_cpu. destruct (cpu_id (kcpu s) =? 0); [|done].
  change (getp i (settle (alarm_tick (settle (clock_tick s))))) with
    (getp i (s <| ptable ::= fmap (wakeup1_proc (Some CH_TICKS)) |> <| ptable ::= fmap alarm_proc |>)).
  rewrite !getp_fmap by done. unfold wakeup1_proc. rewrite Hst. cbn [bool_decide].
  rewrite bool_decide_eq_false_2 by done. cbn [andb].
  unfold alarm_rings in Hring. unfold alarm_proc, unrung.
  destruct (0 <? alarm_ticks (getp i s)); [|done]. cbn in Hring. by rewrite Hring.
Qed.

Lemma on_boot_cpu_ready i s : irq_ready i s -> irq_ready i (on_boot_cpu s).
Proof.
  intros Hq. unfold on_boot_cpu. destruct (_ =? 0); [|done].
  apply irq_ready_settle, (irq_ready_same i (settle (clock_tick s))); [done|done| |].
  { cbn. by rewrite !length_fmap. }
  apply irq_ready_settle, (irq_ready_same i s); [done|done| |done]. cbn. apply length_fmap.
Qed.

Lemma unrung_same p :
  pstate (unrung p) = pstate p /\ killed (unrung p) = killed p /\
  signal_pending (unrung p) = signal_pending p /\ pid (unrung p) = pid p.
Proof. unfold unrung. by destruct (_ <? _). Qed.

Lemma charge_same sp now p :
  pstate (charge sp now p) = pstate p /\ killed (charge sp now p) = killed p /\
  signal_pending (charge sp now p) = signal_pending p.
Proof.
  unfold charge, expire; cbv zeta. destruct (_ <=? 0); [|done]. destruct (_ && _); done.
Qed.

Section Trap.
Context `{!DiskDriver}.

(** The state after the interrupt handler proper, before the trap decides
    about preemption. *)
Definition charged (i : nat) (t : trapframe) (s : kstate) : kstate :=
  charge_running (on_boot_cpu (setp i (fun p => p <| tf := t |>) s)).

Lemma charged_eq i t s :
  irq_ready i s -> pstate (getp i s) = RUNNING -> alarm_rings (getp i s) = false ->
  irq_ready i (charged i t s) /\
  getp i (charged i t s) =
    charge (schedp s) (ticks (charged i t s))
      ((if cpu_id (kcpu s) =? 0 then unrung (getp i s) else getp i s) <| tf := t |>).
Proof.
  intros Hq Hst Hr. set (s0 := setp i (fun p => p <| tf := t |>) s).
  assert (Hi : (i < length (ptable s))%nat) by (destruct Hq; by rewrite iq_wf0).
  assert (Hg0 : getp i s0 = getp i s <| tf := t |>) by by apply getp_setp.
  assert (Hq0 : irq_ready i s0) by (eapply irq_ready_same; [..|exact Hq]; [done|done|apply length_setp]).
  pose proof (on_boot_cpu_ready i s0 Hq0) as Hq1.
  assert (Hg1 : getp i (on_boot_cpu s0) =
    (if cpu_id (kcpu s) =? 0 then unrung (getp i s) else getp i s) <| tf := t |>).
  { rewrite getp_on_boot_cpu by by rewrite Hg0. rewrite Hg0. change (kcpu s0) with (kcpu s).
    destruct (_ =? 0); [|done]. unfold unrung. cbn. by destruct (_ <? _). }
  assert (Hrun : running_proc (on_boot_cpu s0) = Some i).
  { unfold running_proc. rewrite (iq_cur _ _ Hq1), Hg1, bool_decide_eq_true_2; [done|].
    destruct (_ =? 0); [|done]. cbn. by rewrite (proj1 (unrung_same _)). }
  unfold charged, charge_running. fold s0. rewrite Hrun.
  split.
  - eapply irq_ready_same; [..|exact Hq1]; [done|done|apply length_setp].
  - rewrite getp_setp by (rewrite (iq_wf _ _ Hq1); by destruct Hq). rewrite Hg1.
    f_equal. unfold on_boot_cpu. by destruct (_ =? 0).
Qed.

(** C9: the timer trap on a running user process.  The frame is saved
    and the process charged for the tick; while its quantum lasts the trap
    returns to it, and otherwise it leaves the processor runnable, with the
    table locked for the scheduler.  On CPU 0 the clock, the sleepers on it
    and the alarms are served first. *)
Theorem timer_trap i t pcs chars cr2 s :
  irq_ready i s -> user_mode t = true -> trapno t = T_IRQ0 + IRQ_TIMER ->
  pstate (getp i s) = RUNNING -> alarm_rings (getp i s) = false ->
  killed (getp i s) = 0 -> signal_pending (getp i s) = 0 ->
  let s1 := charged i t s in
  getp i s1 =
    charge (schedp s) (ticks s1)
      ((if cpu_id (kcpu s) =? 0 then unrung (getp i s) else getp i s) <| tf := t |>) /\
  trap t pcs chars cr2 s [] =
    (if 0 <? ticks_remaining (getp i s1) then Ok tt s1 []
     else Blocked (setp i yielded (enter PTABLE s1))).
Proof.
  intros Hq Hu Ht Hst Hr Hk Hsig s1. destruct (charged_eq i t s Hq Hst Hr) as [Hq1 Hg1].
  fold s1 in Hq1, Hg1. split; [done|].
  assert (Hsame : pstate (getp i s1) = RUNNING /\ killed (getp i s1) = 0 /\ signal_pending (getp i s1) = 0).
  { rewrite Hg1. destruct (charge_same (schedp s) (ticks s1)
      ((if cpu_id (kcpu s) =? 0 then unrung (getp i s) else getp i s) <| tf := t |>)) as (-> & -> & ->).
    destruct (_ =? 0); cbn; [|done]. by destruct (unrung_same (getp i s)) as (-> & -> & -> & _). }
  destruct Hsame as (Hst1 & Hk1 & Hsig1).
  unfold trap, push_frame. rewrite bind_assoc, bind_gets, (iq_cur _ _ Hq), Hu. cbn [when].
  unfold upd_proc. rewrite bind_modify. unfold trap_switch. rewrite Ht, Z.eqb_refl.
  erewrite bind_ok.
  2:{ apply (timer_eq i). eapply irq_ready_same; [..|exact Hq]; [done|done|apply length_setp]. }
  fold (charged i t s). fold s1.
  assert (Hexit : exit_if_killed t s1 [] = Ok tt s1 []).
  { unfold exit_if_killed. rewrite bind_gets, (iq_cur _ _ Hq1). unfold get_proc.
    rewrite bind_gets, Hk1. done. }
  erewrite bind_ok by exact Hexit.
  unfold preempt. rewrite bind_assoc, bind_gets.
  assert (Hrun : running_proc s1 = Some i).
  { unfold running_proc. by rewrite (iq_cur _ _ Hq1), Hst1, bool_decide_eq_true_2. }
  rewrite Hrun. unfold get_proc. rewrite bind_assoc, bind_gets, Ht, Z.eqb_refl. cbn [andb].
  destruct (Z.leb_spec (ticks_remaining (getp i s1)) 0) as [Hle|Hgt];
    destruct (Z.ltb_spec 0 (ticks_remaining (getp i s1))); try lia; cbn [when].
  - apply bind_blocked. destruct Hq1. apply yield_blocks; try done. by rewrite iq_wf0.
  - rewrite bind_mret. erewrite bind_ok by exact Hexit.
    rewrite bind_gets, (iq_cur _ _ Hq1), bool_decide_eq_true_2 by done. cbn [andb when].
    unfold check_signals. rewrite bind_gets, (iq_cur _ _ Hq1). unfold get_proc.
    rewrite bind_gets, Hk1, Hsig1. done.
Qed.
End Trap.
