(* ===== verification/Calls.v ===== *)
(** System calls on the scheduler and on processes: what each returns and
    changes, on every branch. *)

From S2P Require Import Prelude Control Memory KState Boot Spinlock Format Sched Kalloc Vm.
From S2P Require Import Sleeplock Disk Bio Log Inode Console Fs Pipe File Proc Trap Syscall.
From S2P Require Import SysProc Frame Safety Handoff.

(** In the process of slot [i], outside any critical section. *)
Record in_process (i : nat) (s : kstate) : Prop := {
  ip_cur : cur (kcpu s) = Some i;
  ip_slot : (i < length (ptable s))%nat;
  ip_ready : cpu_ready s
}.

Lemma myproc_eq i s w : cur (kcpu s) = Some i -> myproc s w = Ok i s w.
Proof. intros Hc. unfold myproc. by rewrite bind_gets, Hc. Qed.

Lemma myproc_then i {A} (k : nat -> K A) s w :
  cur (kcpu s) = Some i -> (myproc ≫= k) s w = k i s w.
Proof. intros Hc. by apply bind_ok, myproc_eq. Qed.

Lemma cur_proc_then i {A} (k : proc -> K A) s w :
  cur (kcpu s) = Some i -> (cur_proc ≫= k) s w = k (getp i s) s w.
Proof. intros Hc. unfold cur_proc. rewrite bind_assoc, (myproc_then i) by done. done. Qed.

Lemma argaddr0_then i {A} (k : Z -> K A) s w :
  cur (kcpu s) = Some i -> (argaddr 0 ≫= k) s w = k (rdi (tf (getp i s))) s w.
Proof.
  intros Hc. unfold argaddr, fetcharg. rewrite bind_assoc, (cur_proc_then i) by done. done.
Qed.

(** * sys_setschedparam *)

(** Who may set the parameters, and from where. *)
Definition may_set (i : nat) (s : kstate) : Prop :=
  caller_is_agent s i = true /\ update_addr_bad (getp i s) (rdi (tf (getp i s))) = false.

Lemma setschedparam_refused i s w :
  cur (kcpu s) = Some i -> ~ may_set i s -> sys_setschedparam s w = Ok (-1) s w.
Proof.
  intros Hc Hno. unfold sys_setschedparam. rewrite (myproc_then i) by done. rewrite bind_gets.
  destruct (caller_is_agent s i) eqn:Ea; cbn [negb]; [|done].
  rewrite (argaddr0_then i) by done. unfold get_proc. rewrite bind_gets.
  destruct (update_addr_bad _ _) eqn:Eb; [done|]. by destruct Hno.
Qed.

Lemma setschedparam_allowed i s w u : in_process i s -> lock_free SCHEDP s -> may_set i s ->
  load_update (pgdir (getp i s)) (rdi (tf (getp i s))) s w = Ok u s w ->
  sys_setschedparam s w = if update_ok u then Ok 0 (settle (s <| schedp ::= apply_update u |>)) w else Ok (-1) s w.
Proof.
  intros [Hc Hi Hr] Hl [Ha Hb] Hload.
  assert (Hrun : sys_setschedparam s w = (if negb (update_ok u) then mret (-1) else
      acquire SCHEDP ;; upd_schedp (apply_update u) ;; release SCHEDP ;; mret 0) s w).
  { unfold sys_setschedparam. rewrite (myproc_then i) by done. rewrite bind_gets, Ha. cbn [negb].
    rewrite (argaddr0_then i) by done. unfold get_proc. rewrite bind_gets, Hb.
    by erewrite bind_ok by exact Hload. }
  rewrite Hrun. destruct (update_ok u); cbn [negb]; [|done].
  destruct Hr as [Hcpu Hn]. unfold upd_schedp. rewrite section_then; [done|done|done|done|lia].
Qed.


(** * sys_register_agent *)

Definition pinned (q0 : Z) (p : proc) : proc :=
  p <| queue_level := 0 |> <| ticks_remaining := q0 |>.

Lemma kern_pin_agent_eq i s w :
  in_process i s -> lock_free PTABLE s ->
  kern_pin_agent s w = Ok tt (settle (setp i (pinned (q0_quantum (schedp s))) s)) w.
Proof.
  intros [Hc Hi [Hcpu Hn]] Hl. unfold kern_pin_agent. rewrite acquire_then by done.
  rewrite (myproc_then i) by done. rewrite bind_gets. unfold upd_proc. rewrite bind_modify.
  change (schedp (enter PTABLE s)) with (schedp s).
  set (g := setp i (pinned (q0_quantum (schedp s)))).
  assert (Hg : off_cpu g) by by intros ???.
  destruct (enter_ncli PTABLE s Hcpu ltac:(lia)) as [Hn' Hif]. destruct Hcpu as [Hc1 Hc2].
  change (setp i _ (enter PTABLE s)) with (g (enter PTABLE s)).
  rewrite release_held; [|by apply enter_held|by rewrite off_cpu_kcpu|rewrite off_cpu_kcpu by done; lia].
  by rewrite leave_enter by (done || lia).
Qed.

Lemma register_agent_refused s w : agent_pid (schedp s) <> 0 -> sys_register_agent s w = Ok (-1) s w.
Proof.
  intros H. unfold sys_register_agent. rewrite bind_gets. by destruct (Z.eqb_spec (agent_pid (schedp s)) 0).
Qed.

Lemma register_agent_run i s w : in_process i s -> lock_free SCHEDP s -> lock_free PTABLE s -> agent_pid (schedp s) = 0 ->
  sys_register_agent s w =
    Ok 0 (settle (setp i (pinned (q0_quantum (schedp s))) (settle (s <| schedp ::= fun sp => sp <| agent_pid := pid (getp i s) |> |>)))) w.
Proof.
  intros [Hc Hi Hr] Hls Hlp H0.
  set (g := fun s : kstate => s <| schedp ::= fun sp => sp <| agent_pid := pid (getp i s) |> |>).
  assert (Hg : off_cpu g) by by intros ???.
  pose proof Hr as [Hcpu Hn]. destruct (enter_ncli SCHEDP s Hcpu ltac:(lia)) as [Hn' Hif].
  destruct Hcpu as [Hc1 Hc2].
  unfold sys_register_agent. rewrite bind_gets, H0. cbn [Z.eqb negb].
  rewrite acquire_then by done. rewrite bind_gets.
  change (schedp (enter SCHEDP s)) with (schedp s). rewrite H0. cbn [Z.eqb negb].
  rewrite (cur_proc_then i) by done. unfold upd_schedp. rewrite bind_modify.
  change (setter schedp _ (enter SCHEDP s)) with (g (enter SCHEDP s)).
  rewrite release_then; [|by apply enter_held|by rewrite off_cpu_kcpu|rewrite off_cpu_kcpu by done; lia].
  rewrite leave_enter by (done || lia).
  erewrite bind_ok; [done|]. rewrite (kern_pin_agent_eq i); [done| |done].
  split; [done|done|]. destruct Hr as [[??]?]. split; [split|]; done.
Qed.


(** * kill *)

Lemma first_slot_spec f pt k :
  match first_slot f pt k with
  | Some i => exists p, (k <= i)%nat /\ pt !! (i - k)%nat = Some p /\ f p = true /\
      forall j q, (k <= j < i)%nat -> pt !! (j - k)%nat = Some q -> f q = false
  | None => forall j q, pt !! j = Some q -> f q = false
  end.
Proof.
  revert k. induction pt as [|p pt IH]; intros k; cbn [first_slot]; [done|].
  destruct (f p) eqn:E.
  - exists p. rewrite Nat.sub_diag. split_and!; [lia|done|done|lia].
  - specialize (IH (S k)). destruct (first_slot f pt (S k)) as [i|].
    + destruct IH as (q & Hk & Hq & Hf & Hmin). exists q.
      split_and!; [lia| |done|].
      * replace (i - k)%nat with (S (i - S k)) by lia. done.
      * intros j r Hj Hr. destruct (decide (j = k)) as [->|].
        { rewrite Nat.sub_diag in Hr. by injection Hr as ->. }
        apply (Hmin j); [lia|]. replace (j - k)%nat with (S (j - S k)) in Hr by lia. done.
    + intros [|j] q Hq; [by injection Hq as ->|]. by apply (IH j).
Qed.

Definition signalled (signum : Z) (p : proc) : proc :=
  wake_proc (p <| signal_pending := u32 signum |>).

(** [kill] posts the signal to the first process with that pid and to
    no other, wakes it if it sleeps, reports on the console and returns 0;
    with no such process it returns -1 and changes nothing. *)
Theorem kill_behaviour target signum s w :
  cpu_ready s -> lock_free PTABLE s -> lock_free CONS s ->
  (exists i p s', ptable s !! i = Some p /\ pid p = target /\
     (forall j q, (j < i)%nat -> ptable s !! j = Some q -> pid q <> target) /\
     kill target signum s w = Ok 0 s' w /\
     ptable s' = <[i := signalled signum p]> (ptable s) /\ schedp s' = schedp s /\
     locks s' = locks s)
  \/ ((forall j q, ptable s !! j = Some q -> pid q <> target) /\
      kill target signum s w = Ok (-1) (settle s) w).
Proof.
  intros Hr Hl Hco. unfold kill. rewrite acquire_then by done. rewrite bind_gets.
  change (ptable (enter PTABLE s)) with (ptable s).
  pose proof (first_slot_spec (fun p => pid p =? target) (ptable s) 0) as Hf.
  pose proof Hr as [Hcpu Hn]. destruct (enter_ncli PTABLE s Hcpu ltac:(lia)) as [Hn' Hif].
  assert (Hncli : 0 < ncli (kcpu (enter PTABLE s)) < 1000) by (destruct Hcpu; lia).
  destruct (first_slot _ (ptable s) 0) as [i|].
  - destruct Hf as (p & _ & Hi & Hp & Hmin). rewrite Nat.sub_0_r in Hi. left.
    set (g := fun s : kstate => setp i (fun p => wake_proc (p <| signal_pending := u32 signum |>))
      (s <| console ::= fun l => l ++ cprintf_out (bytes_of (line "got a kill for %d signal %d"))
                                       [AInt target; AInt signum] |>)).
    assert (Hg : off_cpu g) by by intros ???.
    exists i, p, (settle (g s)). split_and!; try done.
    + by apply Z.eqb_eq.
    + intros j q Hj Hq. apply Z.eqb_neq. apply (Hmin j q); [lia|]. by rewrite Nat.sub_0_r.
    + erewrite bind_ok by (by apply cprintf_nested, may_print_enter).
      unfold upd_proc. rewrite bind_modify.
      change (setp i _ _) with (g (enter PTABLE s)).
      rewrite release_then; [|by apply enter_held|by rewrite off_cpu_kcpu|by rewrite off_cpu_kcpu].
      by rewrite leave_enter by (done || lia).
    + change (alter (signalled signum) i (ptable s) = <[i := signalled signum p]> (ptable s)).
      by apply list_alter_insert.
  - right. split.
    + intros j q Hq. apply Z.eqb_neq. by apply (Hf j).
    + rewrite release_then; [|by apply (enter_held PTABLE (fun s => s))|done|done].
      by rewrite (leave_enter PTABLE (fun s => s)) by (done || lia).
Qed.

(** * exit *)

Definition adopt (i : nat) (ip : option nat) (q : proc) : proc :=
  if is_child i q then q <| parent := ip |> else q.
Definition zombie_child (i : nat) (q : proc) : bool := is_child i q && is_zombie q.
Definition wake_if (b : bool) (ch : option channel) (pt : list proc) : list proc :=
  if b then wakeup1_proc ch <$> pt else pt.

Lemma wakeup1_proc_idem ch p : wakeup1_proc ch (wakeup1_proc ch p) = wakeup1_proc ch p.
Proof. unfold wakeup1_proc. by repeat case_bool_decide. Qed.

Lemma wakeup1_proc_child ch i p : is_child i (wakeup1_proc ch p) = is_child i p.
Proof. unfold wakeup1_proc. by destruct (_ && _). Qed.

Lemma wakeup1_proc_zombie ch i p : zombie_child i (wakeup1_proc ch p) = zombie_child i p.
Proof.
  unfold zombie_child. rewrite wakeup1_proc_child. unfold is_zombie, wakeup1_proc.
  destruct (bool_decide (pstate p = SLEEPING) && _) eqn:E; [|done].
  apply andb_true_iff in E as [E _]. apply bool_decide_eq_true in E. cbn. by rewrite E.
Qed.

Lemma adopt_wakeup1 ch i ip p : adopt i ip (wakeup1_proc ch p) = wakeup1_proc ch (adopt i ip p).
Proof.
  unfold adopt. rewrite wakeup1_proc_child. destruct (is_child i p); [|done].
  unfold wakeup1_proc. cbn. by destruct (_ && _).
Qed.

Lemma existsb_fmap {A B} (f : B -> bool) (g : A -> B) l : existsb f (g <$> l) = existsb (f ∘ g) l.
Proof. induction l as [|a l IH]; [done|]. cbn. by rewrite IH. Qed.

Lemma existsb_ext' {A} (f g : A -> bool) l : (forall a, f a = g a) -> existsb f l = existsb g l.
Proof. intros Hfg. induction l as [|a l IH]; cbn; [done|]. by rewrite Hfg, IH. Qed.

Lemma wake_if_step i ip k q pt :
  pt !! k = Some q ->
  let ch := CH_PROC <$> ip in
  let pt1 := wake_if (zombie_child i q) ch (<[k := adopt i ip q]> pt) in
  wake_if (existsb (zombie_child i) (drop (S k) pt1)) ch
    (take (S k) pt1 ++ (adopt i ip <$> drop (S k) pt1)) =
  wake_if (existsb (zombie_child i) (drop k pt)) ch (take k pt ++ (adopt i ip <$> drop k pt)).
Proof.
  intros Hk ch pt1.
  assert (Hlt : (k < length pt)%nat) by by eapply lookup_lt_Some.
  assert (Ht : take (S k) (<[k := adopt i ip q]> pt) = take k pt ++ [adopt i ip q]).
  { erewrite take_S_r by by apply list_lookup_insert_eq. by rewrite take_insert_ge by lia. }
  rewrite (drop_S _ _ _ Hk). cbn [existsb fmap list_fmap].
  unfold pt1. destruct (zombie_child i q); cbn [wake_if orb].
  - rewrite <- fmap_take, <- fmap_drop, existsb_fmap, drop_insert_lt by lia.
    rewrite Ht, <- list_fmap_compose.
    rewrite (list_fmap_ext (adopt i ip ∘ wakeup1_proc ch) (wakeup1_proc ch ∘ adopt i ip))
      by (intros; apply adopt_wakeup1).
    rewrite list_fmap_compose, <- fmap_app, <- app_assoc. cbn [app].
    unfold wake_if. destruct (existsb _ _); [|done].
    rewrite <- list_fmap_compose. apply list_fmap_ext. intros. apply wakeup1_proc_idem.
  - rewrite drop_insert_lt, Ht by lia. by rewrite <- app_assoc.
Qed.

Lemma reparent_eq i s w :
  ptable_wf s ->
  reparent i s w = Ok tt (s <| ptable := wake_if (existsb (zombie_child i) (ptable s))
    (CH_PROC <$> initproc s) (adopt i (initproc s) <$> ptable s) |>) w.
Proof.
  unfold ptable_wf. intros Hwf. unfold reparent, proc_slots.
  set (body := fun j : nat => _).
  cut (forall n k s w, length (ptable s) = (k + n)%nat ->
    for_each (seq k n) body s w = Ok tt (s <| ptable :=
      wake_if (existsb (zombie_child i) (drop k (ptable s))) (CH_PROC <$> initproc s)
        (take k (ptable s) ++ (adopt i (initproc s) <$> drop k (ptable s))) |>) w).
  { intros H. by rewrite (H NPROC 0%nat). }
  clear. induction n as [|n IH]; intros k s w Hlen.
  { cbn [seq for_each]. rewrite drop_ge, take_ge by lia. cbn. rewrite app_nil_r. by destruct s. }
  cbn [seq for_each]. destruct (lookup_lt_is_Some_2 (ptable s) k) as [q Hk]; [lia|].
  rewrite <- (wake_if_step i (initproc s) k q (ptable s) Hk).
  set (pt1 := wake_if (zombie_child i q) _ _).
  erewrite bind_ok.
  - rewrite (IH (S k) (s <| ptable := pt1 |>) w); [done|].
    cbn. unfold pt1, wake_if. destruct (zombie_child i q); rewrite ?length_fmap, length_insert; lia.
  - unfold body, get_proc. rewrite bind_gets, (getp_lookup _ _ _ Hk).
    unfold pt1, zombie_child, adopt, is_child, is_zombie.
    destruct (bool_decide (parent q = Some i)); cbn [when andb wake_if].
    2:{ rewrite list_insert_id by done. by destruct s. }
    rewrite bind_gets. unfold upd_proc. rewrite bind_modify, (setp_insert _ _ _ _ Hk).
    destruct (bool_decide (pstate q = ZOMBIE)); done.
Qed.

Definition release_agent (p : proc) (sp : sched_params) : sched_params :=
  if agent_pid sp =? pid p then sp <| agent_pid := 0 |> else sp.
(** The table [exit] leaves, [p] being the exiting process in slot [i]. *)
Definition exit_table (i : nat) (ip : option nat) (p : proc) (pt : list proc) : list proc :=
  alter (fun p => p <| pstate := ZOMBIE |>) i
    (wake_if (existsb (zombie_child i) pt) (CH_PROC <$> ip)
       (adopt i ip <$> (wakeup1_proc (CH_PROC <$> parent p) <$> pt))).

Lemma exit_finish_eq i s :
  in_process i s -> ptable_wf s -> ncli (kcpu s) = 0 -> lock_free PTABLE s -> lock_free SCHEDP s ->
  exit_finish i s [] =
    Blocked (enter PTABLE s <| schedp ::= release_agent (getp i s) |>
               <| ptable ::= exit_table i (initproc s) (getp i s) |>).
Proof.
  intros [Hc Hi Hr] Hwf Hn Hl Hls. unfold exit_finish. rewrite acquire_then by done.
  assert (Hn1 : ncli (kcpu (enter PTABLE s)) = 1) by (cbn; by rewrite Hn).
  assert (Hc1 : cpu_ok (kcpu (enter PTABLE s))) by (split; [lia|done]).
  assert (Hls1 : lock_free SCHEDP (enter PTABLE s)).
  { unfold lock_free; cbn. by rewrite lookup_insert_ne. }
  rewrite acquire_then by done. unfold get_proc. rewrite !bind_gets.
  change (getp i (enter SCHEDP (enter PTABLE s))) with (getp i s).
  change (schedp (enter SCHEDP (enter PTABLE s))) with (schedp s).
  set (g := fun s0 : kstate => s0 <| schedp ::= release_agent (getp i s) |>).
  assert (Hg : off_cpu g) by by intros ???.
  erewrite (bind_ok _ _ _ _ tt (g (enter SCHEDP (enter PTABLE s)))).
  2:{ unfold g, release_agent. destruct (agent_pid (schedp s) =? pid (getp i s)) eqn:E; cbn [when].
      - unfold upd_schedp, modify. cbn. by rewrite E.
      - cbn. rewrite E. by destruct s. }
  destruct (enter_ncli SCHEDP (enter PTABLE s) Hc1 ltac:(lia)) as [Hn2 Hif2].
  rewrite release_then; [|by apply enter_held|by rewrite off_cpu_kcpu|rewrite off_cpu_kcpu by done; lia].
  rewrite leave_enter by (done || lia). rewrite settle_nested by (change (0 < ncli (kcpu (enter PTABLE s))); lia).
  rewrite bind_gets. change (getp i (g (enter PTABLE s))) with (getp i s).
  unfold wakeup1. rewrite bind_modify.
  erewrite bind_ok.
  2:{ apply reparent_eq. unfold ptable_wf in *; cbn. by rewrite length_fmap. }
  unfold set_state, upd_proc. rewrite bind_modify. set (s1 := setp i _ _).
  assert (Hex : existsb (zombie_child i) (wakeup1_proc (CH_PROC <$> parent (getp i s)) <$> ptable s) =
    existsb (zombie_child i) (ptable s)).
  { rewrite existsb_fmap. apply existsb_ext'. intros q. apply wakeup1_proc_zombie. }
  assert (E : s1 = enter PTABLE s <| schedp ::= release_agent (getp i s) |>
               <| ptable ::= exit_table i (initproc s) (getp i s) |>).
  { unfold s1, setp, exit_table. cbn. by rewrite Hex. }
  rewrite E. apply (sched_blocks i).
  - split; [done| |done|done]. unfold lock_held; cbn. apply lookup_insert_eq.
  - rewrite <- E. unfold s1. rewrite getp_setp; [done|]. cbn. unfold wake_if.
    destruct (existsb _ _); by rewrite ?length_fmap.
Qed.

(** A process as [exit] may change it: only its parent and whether it sleeps. *)
Definition touched (q q' : proc) : Prop :=
  q' = q <| parent := parent q' |> <| pstate := pstate q' |>.

Lemma touched_wakeup1 ch q : touched q (wakeup1_proc ch q).
Proof. unfold touched, wakeup1_proc. destruct (_ && _); by destruct q. Qed.
Lemma touched_adopt i ip q : touched q (adopt i ip q).
Proof. unfold touched, adopt. destruct (is_child i q); by destruct q. Qed.
Lemma touched_trans q1 q2 q3 : touched q1 q2 -> touched q2 q3 -> touched q1 q3.
Proof. unfold touched. intros -> ->. by destruct q1. Qed.

(** What [exit_table] makes of the process in slot [j]. *)
Definition exit_proc (i : nat) (ip : option nat) (p : proc) (pt : list proc) (q : proc) : proc :=
  let q := adopt i ip (wakeup1_proc (CH_PROC <$> parent p) q) in
  if existsb (zombie_child i) pt then wakeup1_proc (CH_PROC <$> ip) q else q.

Lemma exit_table_lookup i ip p pt j :
  exit_table i ip p pt !! j =
    (fun q => if decide (j = i) then exit_proc i ip p pt q <| pstate := ZOMBIE |>
              else exit_proc i ip p pt q) <$> pt !! j.
Proof.
  assert (H : forall k, wake_if (existsb (zombie_child i) pt) (CH_PROC <$> ip)
    (adopt i ip <$> (wakeup1_proc (CH_PROC <$> parent p) <$> pt)) !! k =
    exit_proc i ip p pt <$> pt !! k).
  { intros k. unfold wake_if, exit_proc. destruct (existsb _ _);
      rewrite !list_lookup_fmap; by destruct (pt !! k). }
  unfold exit_table. destruct (decide (j = i)) as [->|Hne].
  - rewrite list_lookup_alter_eq, H. by destruct (pt !! i).
  - by rewrite list_lookup_alter_ne, H by done.
Qed.

Lemma exit_proc_touched i ip p pt q : touched q (exit_proc i ip p pt q).
Proof.
  unfold exit_proc; cbv zeta.
  destruct (existsb _ _); eauto using touched_trans, touched_wakeup1, touched_adopt.
Qed.

Lemma exit_proc_parent i ip p pt q :
  parent (exit_proc i ip p pt q) = if is_child i q then ip else parent q.
Proof.
  assert (Hw : forall ch q, parent (wakeup1_proc ch q) = parent q).
  { intros ch r. unfold wakeup1_proc. by destruct (_ && _). }
  unfold exit_proc; cbv zeta.
  destruct (existsb _ _); rewrite ?Hw; unfold adopt; rewrite wakeup1_proc_child;
    destruct (is_child i q); cbn; by rewrite ?Hw.
Qed.

(** Once woken, [exit] does not put a process back to sleep. *)
Lemma exit_proc_woken i ip p pt q ch :
  pstate q = SLEEPING -> chan q = Some ch ->
  (Some ch = CH_PROC <$> parent p \/ (Some ch = CH_PROC <$> ip /\ existsb (zombie_child i) pt = true)) ->
  pstate (exit_proc i ip p pt q) = RUNNABLE.
Proof.
  intros Hs Hc Hwhy.
  assert (Hw : forall ch0, pstate (wakeup1_proc ch0 q) = RUNNABLE \/
    (pstate (wakeup1_proc ch0 q) = SLEEPING /\ chan (wakeup1_proc ch0 q) = Some ch)).
  { intros ch0. unfold wakeup1_proc. destruct (_ && _); [by left|by right]. }
  assert (Ha : forall r, pstate (adopt i ip r) = pstate r /\ chan (adopt i ip r) = chan r).
  { intros r. unfold adopt. by destruct (is_child i r). }
  assert (Hr : forall ch0 r, pstate r = RUNNABLE -> wakeup1_proc ch0 r = r).
  { intros ch0 r E. unfold wakeup1_proc. by rewrite E. }
  assert (Hy : forall r, pstate r = SLEEPING -> chan r = Some ch -> pstate (wakeup1_proc (Some ch) r) = RUNNABLE).
  { intros r E1 E2. unfold wakeup1_proc. rewrite E1, E2. by rewrite !bool_decide_eq_true_2. }
  unfold exit_proc; cbv zeta. destruct Hwhy as [E|[E Hex]].
  - assert (H1 : pstate (adopt i ip (wakeup1_proc (CH_PROC <$> parent p) q)) = RUNNABLE).
    { rewrite (proj1 (Ha _)), <- E. by apply Hy. }
    destruct (existsb _ _); [by rewrite Hr|done].
  - rewrite Hex, <- E. destruct (Hw (CH_PROC <$> parent p)) as [H1|[H1 H2]].
    + rewrite Hr; [by rewrite (proj1 (Ha _))|by rewrite (proj1 (Ha _))].
    + apply Hy; [by rewrite (proj1 (Ha _))|by rewrite (proj2 (Ha _))].
Qed.

