(* ===== verification/Fifo.v ===== *)
(** The pipe as a queue of bytes.

    The ring buffer with its two free-running 32-bit counters refines a FIFO
    of at most PIPESIZE bytes: [pipewrite] appends and [piperead] takes from
    the front, across every wrap of the buffer and of the counters. *)

From S2P Require Import Prelude Control Memory KState Boot Spinlock Format Sched Kalloc Vm.
From S2P Require Import Sleeplock Disk Bio Log Inode Console Fs Pipe File Proc Trap Handoff.

(** * The abstraction *)

Definition pipe_count (x : pipe) : Z := u32 (nwrite x - nread x).
Definition pipe_byte (x : pipe) (k : Z) : Z := getb (pdata x) (Z.to_nat ((nread x + k) mod PIPESIZE)).
Definition pipe_queue (x : pipe) : list Z :=
  (fun k => pipe_byte x (Z.of_nat k)) <$> seq 0 (Z.to_nat (pipe_count x)).

Definition pipe_ok (x : pipe) : Prop :=
  length (pdata x) = 512%nat /\ 0 <= nread x < 2 ^ 32 /\ 0 <= nwrite x < 2 ^ 32 /\
  pipe_count x <= PIPESIZE.

Lemma u32_mod_512 a : u32 a mod 512 = a mod 512.
Proof.
  unfold u32. apply Z.mod_mod_divide. by exists (2 ^ 23).
Qed.

Lemma pipe_count_range x : 0 <= pipe_count x < 2 ^ 32.
Proof. apply u32_bounds. Qed.

(** [u32] of a sum in terms of its two halves. *)
Lemma u32_sub_succ a b : u32 (a - b) < 2 ^ 32 - 1 -> u32 (u32 (a + 1) - b) = u32 (a - b) + 1.
Proof.
  unfold u32. intros H. rewrite Zminus_mod_idemp_l. replace (a + 1 - b) with (a - b + 1) by lia.
  pose proof (Z.mod_pos_bound (a - b) (2 ^ 32) ltac:(lia)).
  rewrite Z.add_mod by lia. rewrite (Z.mod_small 1) by lia. rewrite Z.mod_small; lia.
Qed.

Lemma u32_sub_pred a b : 0 < u32 (a - b) -> u32 (a - u32 (b + 1)) = u32 (a - b) - 1.
Proof.
  unfold u32. intros H. rewrite Zminus_mod_idemp_r. replace (a - (b + 1)) with (a - b - 1) by lia.
  pose proof (Z.mod_pos_bound (a - b) (2 ^ 32) ltac:(lia)).
  rewrite Zminus_mod. rewrite (Z.mod_small 1) by lia. rewrite Z.mod_small; lia.
Qed.

Lemma pipe_full_count x : pipe_ok x -> pipe_full x = (pipe_count x =? PIPESIZE).
Proof.
  intros (_ & Hr & Hw & _). unfold pipe_full, pipe_count, PIPESIZE.
  apply eq_true_iff_eq. rewrite !Z.eqb_eq. unfold u32. split.
  - intros ->. rewrite Zminus_mod_idemp_l. by replace (nread x + 512 - nread x) with 512 by lia.
  - intros He. rewrite <- He, Zplus_mod_idemp_r.
    replace (nread x + (nwrite x - nread x)) with (nwrite x) by lia. symmetry. apply Z.mod_small; lia.
Qed.

Lemma pipe_empty_count x : pipe_ok x -> pipe_empty x = (pipe_count x =? 0).
Proof.
  intros (_ & Hr & Hw & _). unfold pipe_empty, pipe_count, u32.
  destruct (Z.eqb_spec (nread x) (nwrite x)) as [->|Hne].
  - by rewrite Z.sub_diag.
  - symmetry. apply Z.eqb_neq. intros He. apply Z.mod_divide in He as [k Hk]; lia.
Qed.

Lemma length_pipe_queue x : length (pipe_queue x) = Z.to_nat (pipe_count x).
Proof. unfold pipe_queue. by rewrite length_fmap, length_seq. Qed.

Lemma put_byte_queue x b :
  pipe_ok x -> pipe_count x < PIPESIZE ->
  pipe_ok (put_byte b x) /\ pipe_queue (put_byte b x) = pipe_queue x ++ [b].
Proof.
  intros (Hl & Hr & Hw & Hc) Hlt. unfold PIPESIZE in *. pose proof (pipe_count_range x) as Hp.
  assert (Hcnt : pipe_count (put_byte b x) = pipe_count x + 1).
  { unfold pipe_count at 1; cbn. apply u32_sub_succ. fold (pipe_count x). lia. }
  split.
  { split_and!; cbn; [by rewrite length_insert|lia|lia|apply u32_bounds..|].
    rewrite Hcnt. unfold PIPESIZE. lia. }
  unfold pipe_queue. rewrite Hcnt. replace (Z.to_nat (pipe_count x + 1)) with (S (Z.to_nat (pipe_count x))) by lia.
  rewrite seq_S, fmap_app. cbn [fmap list_fmap Nat.add].
  assert (Hpos : (nread x + pipe_count x) mod 512 = nwrite x mod 512).
  { unfold pipe_count. rewrite <- Zplus_mod_idemp_r, u32_mod_512, Zplus_mod_idemp_r. f_equal. lia. }
  pose proof (Z.mod_pos_bound (nwrite x) 512 ltac:(lia)).
  f_equal.
  - apply list_fmap_ext. intros i k Hk. apply lookup_seq in Hk as [-> Hk].
    unfold pipe_byte, getb; cbn; unfold PIPESIZE. rewrite list_lookup_insert_ne; [done|].
    intros E. apply Z2Nat.inj in E; [|lia|apply Z.mod_pos_bound; lia].
    rewrite <- Hpos in E. Z.to_euclidean_division_equations. lia.
  - f_equal. unfold pipe_byte, getb; cbn; unfold PIPESIZE. rewrite Z2Nat.id by lia. rewrite Hpos.
    rewrite list_lookup_insert_eq; [done|]. rewrite Hl. lia.
Qed.

Lemma drop_byte_queue x :
  pipe_ok x -> 0 < pipe_count x ->
  pipe_ok (drop_byte x) /\ pipe_queue x = next_byte x :: pipe_queue (drop_byte x).
Proof.
  intros (Hl & Hr & Hw & Hc) Hlt. unfold PIPESIZE in *.
  assert (Hcnt : pipe_count (drop_byte x) = pipe_count x - 1).
  { unfold pipe_count at 1; cbn. apply u32_sub_pred. done. }
  split.
  { split_and!; cbn; [done|apply u32_bounds..|lia|lia|]. rewrite Hcnt. unfold PIPESIZE. lia. }
  unfold pipe_queue. rewrite Hcnt.
  replace (Z.to_nat (pipe_count x)) with (S (Z.to_nat (pipe_count x - 1))) by lia.
  cbn [seq fmap list_fmap]. f_equal.
  - unfold pipe_byte, next_byte. by rewrite Z.add_0_r.
  - rewrite <- fmap_S_seq, <- list_fmap_compose. apply list_fmap_ext. intros i k _.
    unfold pipe_byte, PIPESIZE; cbn. f_equal. f_equal.
    rewrite <- (Zplus_mod_idemp_l (u32 (nread x + 1))), u32_mod_512, Zplus_mod_idemp_l. f_equal. lia.
Qed.

(** * The operations *)

Definition set_pipe (p : Z) (x : pipe) (s : kstate) : kstate := s <| pipes ::= insert p x |>.

Lemma set_pipe_twice p x y s : set_pipe p y (set_pipe p x s) = set_pipe p y s.
Proof. unfold set_pipe; cbn. by rewrite insert_insert_eq. Qed.

Lemma set_pipe_same p x s : pipes s !! p = Some x -> set_pipe p x s = s.
Proof. intros Hp. unfold set_pipe; cbn. rewrite insert_id by done. by destruct s. Qed.

Lemma upd_pipe_then p x f {A} (k : unit -> K A) s w :
  pipes s !! p = Some x -> (upd_pipe p f ≫= k) s w = k tt (set_pipe p (f x) s) w.
Proof.
  intros Hp. unfold upd_pipe. rewrite bind_modify. unfold get_pipe. by rewrite Hp.
Qed.

(** The bytes [l] are readable at [va] of the process in slot [i]. *)
Definition readable_at (i : nat) (s : kstate) (va : Z) (l : list Z) : Prop :=
  forall k b, l !! k = Some b -> exists a,
    translate (mem s) (pgdir (getp i s)) (u64 (va + Z.of_nat k)) = Some a /\ mem s a = b.

Lemma fetch_user i va k b a s w :
  cur (kcpu s) = Some i -> translate (mem s) (pgdir (getp i s)) (u64 (va + k)) = Some a ->
  mem s a = b -> fetch (FromUser va) k 1 s w = Ok [b] s w.
Proof.
  intros Hc Ht Hb. unfold fetch, cur_pgdir, myproc. rewrite !bind_assoc, bind_gets, Hc, bind_mret.
  unfold get_proc. rewrite bind_assoc, bind_gets, bind_mret. cbn [uload_list].
  unfold uload. rewrite bind_assoc, bind_gets, Ht, bind_mret. by rewrite Hb.
Qed.

Definition put_all (l : list Z) (x : pipe) : pipe := foldl (fun x b => put_byte b x) x l.

Lemma put_all_queue l x :
  pipe_ok x -> pipe_count x + Z.of_nat (length l) <= PIPESIZE ->
  pipe_ok (put_all l x) /\ pipe_queue (put_all l x) = pipe_queue x ++ l.
Proof.
  revert x. induction l as [|b l IH]; intros x Hx Hroom; cbn [put_all foldl length] in *.
  { by rewrite app_nil_r. }
  destruct (put_byte_queue x b Hx ltac:(lia)) as [Hx1 Hq1].
  assert (Hc1 : pipe_count (put_byte b x) = pipe_count x + 1).
  { pose proof (length_pipe_queue (put_byte b x)) as Hl. rewrite Hq1, length_app, length_pipe_queue in Hl.
    pose proof (pipe_count_range x). pose proof (pipe_count_range (put_byte b x)). cbn in Hl. lia. }
  destruct (IH (put_byte b x) Hx1 ltac:(lia)) as [Hx2 Hq2]. split; [done|].
  unfold put_all in Hq2. by rewrite Hq2, Hq1, <- app_assoc.
Qed.

Lemma pipe_wait_room_now p x s w :
  pipes s !! p = Some x -> pipe_ok x -> pipe_count x < PIPESIZE ->
  pipe_wait_room p s w = Ok true s w.
Proof.
  intros Hp Hx Hlt. apply loop_now. rewrite bind_gets. unfold get_pipe. rewrite Hp. cbn.
  rewrite pipe_full_count by done. by destruct (Z.eqb_spec (pipe_count x) PIPESIZE); [lia|].
Qed.

Lemma pipewrite_loop_eq p i va l k x s w :
  cur (kcpu s) = Some i -> pipes s !! p = Some x -> pipe_ok x ->
  pipe_count x + Z.of_nat (length l) <= PIPESIZE ->
  (forall j b, l !! j = Some b -> exists a,
     translate (mem s) (pgdir (getp i s)) (u64 (va + (k + Z.of_nat j))) = Some a /\ mem s a = b) ->
  pipewrite_loop p (FromUser va) k (length l) s w = Ok true (set_pipe p (put_all l x) s) w.
Proof.
  revert k x s. induction l as [|b l IH]; intros k x s Hc Hp Hx Hroom Hrd; cbn [length pipewrite_loop].
  { by rewrite set_pipe_same. }
  cbn [length] in Hroom. erewrite bind_ok by (apply (pipe_wait_room_now p x); [done|done|lia]).
  cbn [negb]. destruct (Hrd 0%nat b eq_refl) as (a & Ha & Hb). rewrite Z.add_0_r in Ha.
  erewrite bind_ok by by apply (fetch_user i va k b a). rewrite (upd_pipe_then p x) by done.
  change (hd0 [b]) with b.
  destruct (put_byte_queue x b Hx ltac:(lia)) as [Hx1 Hq1].
  assert (Hc1 : pipe_count (put_byte b x) = pipe_count x + 1).
  { pose proof (length_pipe_queue (put_byte b x)) as Hl. rewrite Hq1, length_app, length_pipe_queue in Hl.
    pose proof (pipe_count_range x). pose proof (pipe_count_range (put_byte b x)). cbn in Hl. lia. }
  rewrite (IH (k + 1) (put_byte b x)); [by rewrite set_pipe_twice|done| |done|lia|].
  - cbn. apply lookup_insert_eq.
  - intros j c Hj. destruct (Hrd (S j) c Hj) as (a' & Ha' & Hb'). exists a'. split; [|done].
    replace (k + 1 + Z.of_nat j) with (k + Z.of_nat (S j)) by lia. done.
Qed.

(** C31: a write that fits appends its bytes to the queue: with room
    for all of them [pipewrite] never sleeps, returns their number, leaves the
    queue extended by exactly the user's bytes in order and wakes the readers
    waiting on the pipe. *)
Theorem pipewrite_appends p i va l x s w :
  cur (kcpu s) = Some i -> cpu_ready s -> lock_free (PIPELOCK p) s -> lock_free PTABLE s ->
  pipes s !! p = Some x -> pipe_ok x -> readable_at i s va l ->
  pipe_count x + Z.of_nat (length l) <= PIPESIZE ->
  exists x', pipe_ok x' /\ pipe_queue x' = pipe_queue x ++ l /\
    pipewrite p (FromUser va) (Z.of_nat (length l)) s w =
      Ok (Z.of_nat (length l))
        (settle (set_pipe p x' (s <| ptable ::= fmap (wakeup1_proc (Some (CH_PIPE_NREAD p))) |>))) w.
Proof.
  intros Hc Hr Hl Hpt Hp Hx Hrd Hroom. destruct (put_all_queue l x Hx Hroom) as [Hx' Hq'].
  exists (put_all l x). split_and!; [done|done|].
  unfold pipewrite. rewrite acquire_then by done. rewrite Nat2Z.id.
  erewrite bind_ok by by apply (pipewrite_loop_eq p i va l 0 x). cbn [negb].
  pose proof Hr as [Hcpu Hn]. destruct (enter_ncli (PIPELOCK p) s Hcpu ltac:(lia)) as [Hn' Hif].
  destruct Hcpu as [Hc1 Hc2].
  set (g := fun s0 : kstate => set_pipe p (put_all l x)
    (s0 <| ptable ::= fmap (wakeup1_proc (Some (CH_PIPE_NREAD p))) |>)).
  assert (Hg : off_cpu g) by by intros ???.
  set (s1 := set_pipe p (put_all l x) (enter (PIPELOCK p) s)).
  assert (Hw : wakeup (CH_PIPE_NREAD p) s1 w = Ok tt (g (enter (PIPELOCK p) s)) w).
  { by rewrite (wakeup_in_section (PIPELOCK p) _ s s1) by done. }
  erewrite bind_ok by exact Hw.
  rewrite release_then; [|by apply enter_held|by rewrite off_cpu_kcpu|rewrite off_cpu_kcpu by done; lia].
  by rewrite leave_enter by (done || lia).
Qed.

(** A destination that takes bytes: delivering one changes memory only, and
    keeps the property of memory that delivery relies on. *)
Definition sink (i : nat) (pg : Z) (dst : dest) (P : memory -> Prop) : Prop :=
  forall s w off b, cur (kcpu s) = Some i -> pgdir (getp i s) = pg -> P (mem s) ->
    exists m, P m /\ deliver dst off [b] s w = Ok tt (s <| mem := m |>) w.

Lemma piperead_loop_eq p i dst P n got x s w :
  cur (kcpu s) = Some i -> sink i (pgdir (getp i s)) dst P -> P (mem s) ->
  pipes s !! p = Some x -> pipe_ok x ->
  exists m x', P m /\ pipe_ok x' /\ pipe_queue x' = drop n (pipe_queue x) /\
    piperead_loop p dst got n s w =
      Ok (got ++ take n (pipe_queue x)) (set_pipe p x' (s <| mem := m |>)) w.
Proof.
  revert got x s. induction n as [|n IH]; intros got x s Hc Hsink HP Hp Hx; cbn [piperead_loop].
  { exists (mem s), x. split_and!; try done. rewrite take_0, app_nil_r.
    replace (s <| mem := mem s |>) with s by by destruct s. by rewrite set_pipe_same. }
  rewrite bind_gets. replace (get_pipe p s) with x by (unfold get_pipe; by rewrite Hp).
  rewrite pipe_empty_count by done. pose proof (pipe_count_range x) as Hcr.
  destruct (Z.eqb_spec (pipe_count x) 0) as [He|Hne].
  { assert (Hnil : pipe_queue x = []) by (unfold pipe_queue; by rewrite He).
    exists (mem s), x. split_and!; try done; [by rewrite Hnil|].
    rewrite Hnil, take_nil, app_nil_r.
    replace (s <| mem := mem s |>) with s by by destruct s. by rewrite set_pipe_same. }
  destruct (drop_byte_queue x Hx ltac:(lia)) as [Hx1 Hq1].
  rewrite (upd_pipe_then p x) by done.
  destruct (Hsink (set_pipe p (drop_byte x) s) w (Z.of_nat (length got)) (next_byte x) Hc eq_refl HP)
    as (m1 & HP1 & Hd1).
  erewrite bind_ok by exact Hd1.
  destruct (IH (got ++ [next_byte x]) (drop_byte x) (set_pipe p (drop_byte x) s <| mem := m1 |>))
    as (m2 & x2 & HP2 & Hx2 & Hq2 & Hrun); [done|done|done|cbn; apply lookup_insert_eq|done|].
  exists m2, x2. split_and!; [done|done|by rewrite Hq1|].
  rewrite Hrun, Hq1. cbn [take]. rewrite <- app_assoc. cbn [app]. f_equal.
  unfold set_pipe; cbn. by rewrite insert_insert_eq.
Qed.

