(* ===== verification/Create.v ===== *)
(** Process creation: what [allocproc] hands out. *)

From S2P Require Import Prelude Control Memory KState Boot Spinlock Format Sched Kalloc Vm.
From S2P Require Import Sleeplock Disk Bio Log Inode Console Fs Pipe File Proc Trap Syscall.
From S2P Require Import SysProc Frame Safety Handoff Calls.

Lemma free_pages_same s s' l :
  mem s' = mem s -> kmem s' = kmem s -> syms s' = syms s -> free_pages s l -> free_pages s' l.
Proof. unfold free_pages. by intros -> -> ->. Qed.

(** A store inside an allocated page does not disturb the free list. *)
Lemma free_pages_store s l v a x :
  free_pages s l -> v mod PGSIZE = 0 -> v ∉ l -> v <= a -> a + 8 <= v + PGSIZE ->
  free_pages (s <| mem ::= fun m => store64 m a x |>) l.
Proof.
  intros (Hch & Hnd & Hall) Hv Hin Ha Hb. split_and!; [|done|done].
  eapply (free_chain_frame (syms s) (mem s) _ v); [done|done|done| |done].
  intros y Hy. cbn. unfold store64. ranges.
Qed.

Lemma kmem_ready_frame s s' :
  kmem s' = kmem s -> locks s' = locks s -> kcpu s' = kcpu s -> kmem_ready s -> kmem_ready s'.
Proof. unfold kmem_ready, lock_free. by intros -> -> ->. Qed.

Lemma kmem_ready_settle s : kmem_ready s -> kmem_ready (settle s).
Proof. done. Qed.

(** The slot as [allocproc] leaves it. *)
Definition fresh_proc (newpid now ks : Z) (y : symbols) (p : proc) : proc :=
  embryo newpid now p <| kstack := ks |>
    <| pcontext := zero_context <| c_rip := sym_forkret y |> |>.

Lemma allocproc_none s w :
  cpu_ready s -> lock_free PTABLE s ->
  (forall j q, ptable s !! j = Some q -> pstate q <> UNUSED) ->
  allocproc s w = Ok None (settle s) w.
Proof.
  intros Hr Hl Hno. unfold allocproc. rewrite acquire_then by done. rewrite bind_gets.
  change (ptable (enter PTABLE s)) with (ptable s).
  pose proof (first_slot_spec is_unused (ptable s) 0) as Hf.
  destruct (first_slot is_unused (ptable s) 0) as [i|].
  { destruct Hf as (p & _ & Hi & Hp & _). unfold is_unused in Hp. apply bool_decide_eq_true in Hp.
    rewrite Nat.sub_0_r in Hi. by destruct (Hno i p Hi). }
  destruct Hr as [Hcpu Hn]. destruct (enter_ncli PTABLE s Hcpu ltac:(lia)) as [Hn' Hif].
  destruct Hcpu as [Hc1 Hc2].
  rewrite release_then; [|by apply (enter_held PTABLE (fun s => s))|done|lia].
  by rewrite (leave_enter PTABLE (fun s => s)) by (done || lia).
Qed.

(** What [allocproc] leaves alone. *)
Definition alloc_frame (s s' : kstate) : Prop :=
  s' = s <| kcpu := kcpu s' |> <| kmem := kmem s' |> <| mem := mem s' |> <| ptable := ptable s' |> <| nextpid := nextpid s' |>.

Lemma allocproc_some i p v l s w :
  cpu_ready s -> lock_free PTABLE s -> kmem_ready s -> free_pages s (v :: l) ->
  ptable s !! i = Some p -> pstate p = UNUSED ->
  (forall j q, (j < i)%nat -> ptable s !! j = Some q -> pstate q <> UNUSED) ->
  exists s', allocproc s w = Ok (Some i) s' w /\
    ptable s' = <[i := fresh_proc (nextpid s) (ticks s) v (syms s) p]> (ptable s) /\
    nextpid s' = i32 (nextpid s + 1) /\ free_pages s' l /\ schedp s' = schedp s /\
    alloc_frame s s' /\
    mem s' = store64 (mem s) (v + KSTACKSIZE - sizeof_trapframe - 8) (sym_syscall_trapret (syms s)) /\
    use_lock (kmem s') = use_lock (kmem s) /\ cpu_ready s' /\ ncli (kcpu s') = ncli (kcpu s).
Proof.
  intros Hr Hl Hk Hfp Hi Hst Hmin. unfold allocproc. rewrite acquire_then by done. rewrite bind_gets.
  change (ptable (enter PTABLE s)) with (ptable s).
  pose proof (first_slot_spec is_unused (ptable s) 0) as Hf.
  assert (Hfirst : first_slot is_unused (ptable s) 0 = Some i).
  { destruct (first_slot is_unused (ptable s) 0) as [j|].
    - destruct Hf as (q & _ & Hj & Hq & Hm). rewrite Nat.sub_0_r in Hj.
      unfold is_unused in Hq. apply bool_decide_eq_true in Hq.
      destruct (lt_eq_lt_dec i j) as [[Hlt| ->]|Hgt]; [|done|].
      + specialize (Hm i p ltac:(lia)). rewrite Nat.sub_0_r in Hm. specialize (Hm Hi).
        unfold is_unused in Hm. by rewrite bool_decide_eq_true_2 in Hm.
      + by destruct (Hmin j q Hgt Hj).
    - specialize (Hf i p Hi). unfold is_unused in Hf. by rewrite bool_decide_eq_true_2 in Hf. }
  rewrite Hfirst, !bind_gets. unfold upd_proc. rewrite !bind_modify.
  set (g := fun s0 : kstate => setp i (embryo (nextpid s) (ticks s)) s0 <| nextpid ::= fun n => i32 (n + 1) |>).
  assert (Hg : off_cpu g) by by intros ???.
  pose proof Hr as [Hcpu Hn]. destruct (enter_ncli PTABLE s Hcpu ltac:(lia)) as [Hn' Hif].
  destruct Hcpu as [Hc1 Hc2].
  change (setter nextpid _ _) with (g (enter PTABLE s)).
  rewrite release_then; [|by apply enter_held|by rewrite off_cpu_kcpu|rewrite off_cpu_kcpu by done; lia].
  rewrite leave_enter by (done || lia).
  destruct (kalloc_run v l (settle (g s)) w) as (s2 & Hka & Hfp2 & Hsame & Hmem);
    [by apply (free_pages_same s)|by apply (kmem_ready_frame (settle s))|].
  erewrite bind_ok by exact Hka. destruct Hsame as (Hs2 & Hcok & _ & Hcn & _ & _ & Hul).
  assert (Hpt2 : ptable s2 = ptable (g s)) by by rewrite Hs2.
  assert (Hv : page_ok (syms s) v) by (destruct Hfp as (_ & _ & Hall); by apply Forall_cons_1 in Hall as [? _]).
  assert (Hin : v ∉ l) by (destruct Hfp as (_ & Hnd & _); by apply NoDup_cons in Hnd as [? _]).
  destruct Hv as (Hva & _ & _ & Hv0). rewrite bind_modify.
  destruct (Z.eqb_spec v 0); [lia|]. rewrite bind_gets. unfold write64, upd_mem. rewrite !bind_modify.
  set (s3 := setp i _ (setter mem _ _)). exists s3. split_and!.
  - done.
  - unfold s3, setp; cbn. rewrite Hpt2. unfold g, setp; cbn. rewrite !alter_alter.
    rewrite (list_alter_insert _ i _ p Hi). cbn. by rewrite Hs2.
  - unfold s3; cbn. by rewrite Hs2.
  - unfold s3, setp. apply (free_pages_same (s2 <| mem ::= fun m =>
      store64 m (v + KSTACKSIZE - sizeof_trapframe - 8) (sym_syscall_trapret (syms s2)) |>)); [done..|].
    apply (free_pages_store s2 l v); [done|done|done|..]; unfold KSTACKSIZE, sizeof_trapframe, PGSIZE; lia.
  - unfold s3; cbn. by rewrite Hs2.
  - unfold alloc_frame, s3, setp; cbn. rewrite Hs2. by destruct s.
  - unfold s3; cbn. rewrite Hmem. by rewrite Hs2.
  - unfold s3; cbn. rewrite Hul. done.
  - split; [done|]. unfold s3; cbn. rewrite Hcn. done.
  - unfold s3; cbn. rewrite Hcn. done.
Qed.

(** C19: [allocproc] hands out the first unused slot, as an embryo in the
    top queue with an initial burst estimate of one tick, a fresh pid, a kernel
    stack taken from the free pages and a context that starts in [forkret];
    no other process changes, and pids below [nextpid] stay below it, so the
    new pid is nobody else's.  With the table full it returns 0 and changes
    nothing. *)
Theorem allocproc_behaviour v l s w :
  cpu_ready s -> lock_free PTABLE s -> kmem_ready s -> free_pages s (v :: l) ->
  0 < nextpid s < 2 ^ 31 - 1 -> (forall j q, ptable s !! j = Some q -> pid q < nextpid s) ->
  (exists i p s', ptable s !! i = Some p /\ pstate p = UNUSED /\
     (forall j q, (j < i)%nat -> ptable s !! j = Some q -> pstate q <> UNUSED) /\
     allocproc s w = Ok (Some i) s' w /\
     ptable s' = <[i := fresh_proc (nextpid s) (ticks s) v (syms s) p]> (ptable s) /\
     free_pages s' l /\
     (forall j q, ptable s !! j = Some q -> pid q <> pid (getp i s')) /\
     (forall j q, ptable s' !! j = Some q -> pid q < nextpid s'))
  \/ ((forall j q, ptable s !! j = Some q -> pstate q <> UNUSED) /\
      allocproc s w = Ok None (settle s) w).
Proof.
  intros Hr Hl Hk Hfp Hnp Hpids.
  pose proof (first_slot_spec is_unused (ptable s) 0) as Hf.
  destruct (first_slot is_unused (ptable s) 0) as [i|].
  - left. destruct Hf as (p & _ & Hi & Hp & Hmin). rewrite Nat.sub_0_r in Hi.
    unfold is_unused in Hp. apply bool_decide_eq_true in Hp.
    assert (Hm : forall j q, (j < i)%nat -> ptable s !! j = Some q -> pstate q <> UNUSED).
    { intros j q Hj Hq. specialize (Hmin j q ltac:(lia)). rewrite Nat.sub_0_r in Hmin.
      specialize (Hmin Hq). unfold is_unused in Hmin. by apply bool_decide_eq_false in Hmin. }
    destruct (allocproc_some i p v l s w) as (s' & Hrun & Hpt & Hn' & Hfp' & _); try done.
    assert (Hi' : ptable s' !! i = Some (fresh_proc (nextpid s) (ticks s) v (syms s) p)).
    { rewrite Hpt. apply list_lookup_insert_eq. by eapply lookup_lt_Some. }
    exists i, p, s'. split_and!; try done.
    + intros j q Hj. rewrite (getp_lookup _ _ _ Hi'). cbn. specialize (Hpids j q Hj). lia.
    + intros j q Hj. rewrite Hn', i32_id by (unfold i32_range; lia).
      destruct (decide (j = i)) as [->|Hne].
      * rewrite Hi' in Hj. injection Hj as <-. cbn. lia.
      * rewrite Hpt, list_lookup_insert_ne in Hj by done. specialize (Hpids j q Hj). lia.
  - right. assert (Hno : forall j q, ptable s !! j = Some q -> pstate q <> UNUSED).
    { intros j q Hj. specialize (Hf j q Hj). unfold is_unused in Hf. by apply bool_decide_eq_false in Hf. }
    split; [done|]. by apply allocproc_none.
Qed.
