(* ===== verification/Layout.v ===== *)
(** On-disk structures and names: inodes and directory entries in blocks, the
    free-block bitmap, the log header and path elements. *)

From S2P Require Import Prelude Control Memory KState Boot Spinlock Format Sched Kalloc Vm.
From S2P Require Import Sleeplock Disk Bio Log Inode Console Fs.

(** * Fields of byte arrays *)

Lemma getb_splice_in d off b k :
  (off + length b <= length d)%nat -> (k < length b)%nat -> getb (splice d off b) (off + k) = getb b k.
Proof.
  intros Hd Hk. unfold getb, splice. rewrite lookup_app_r by (rewrite length_take; lia).
  rewrite length_take, Nat.min_l by lia. rewrite lookup_app_l by lia. do 2 f_equal. lia.
Qed.

Lemma getb_splice_out d off b k :
  (off + length b <= length d)%nat -> (k < off \/ off + length b <= k)%nat ->
  getb (splice d off b) k = getb d k.
Proof.
  intros Hd Hk. unfold getb, splice. destruct Hk as [Hk|Hk].
  - rewrite lookup_app_l by (rewrite length_take; lia). by rewrite lookup_take_lt.
  - rewrite lookup_app_r by (rewrite length_take; lia). rewrite length_take, Nat.min_l by lia.
    rewrite lookup_app_r by lia. rewrite lookup_drop. do 2 f_equal. lia.
Qed.

Lemma get16_splice d off b k :
  (off + length b <= length d)%nat -> (k + 2 <= length b)%nat ->
  get16 (splice d off b) (off + k) = get16 b k.
Proof.
  intros Hd Hk. unfold get16. rewrite getb_splice_in by lia.
  rewrite <- Nat.add_assoc, getb_splice_in by lia. done.
Qed.

Lemma get32_splice d off b k :
  (off + length b <= length d)%nat -> (k + 4 <= length b)%nat ->
  get32 (splice d off b) (off + k) = get32 b k.
Proof.
  intros Hd Hk. unfold get32. rewrite get16_splice by lia.
  rewrite <- Nat.add_assoc, get16_splice by lia. done.
Qed.

Lemma get16_app b c k : get16 (b ++ c) (length b + k) = get16 c k.
Proof.
  unfold get16, getb. rewrite !lookup_app_r by lia.
  by replace (length b + k - length b)%nat with k by lia;
     replace (length b + k + 1 - length b)%nat with (k + 1)%nat by lia.
Qed.

Lemma get32_app b c k : get32 (b ++ c) (length b + k) = get32 c k.
Proof.
  unfold get32. rewrite get16_app. by rewrite <- Nat.add_assoc, get16_app.
Qed.

Lemma get16_bytes v l : get16 (bytes16 v ++ l) 0 = u16 v.
Proof.
  transitivity (load_bytes (fun x => byte_of v x) 0 2).
  - unfold get32, get16, getb, bytes16. cbn -[Z.mul Z.add byte_of]. change (0 + 1) with 1. try change (1 + 1) with 2. try change (2 + 1) with 3. lia.
  - rewrite (load_bytes_of v _ _ _ 0); [by rewrite Z.mul_0_r, Z.div_1_r|lia|].
    intros x _. f_equal. lia.
Qed.

Lemma get32_bytes v l : get32 (bytes32 v ++ l) 0 = u32 v.
Proof.
  transitivity (load_bytes (fun x => byte_of v x) 0 4).
  - unfold get32, get16, getb, bytes32. cbn -[Z.mul Z.add byte_of]. change (0 + 1) with 1. try change (1 + 1) with 2. try change (2 + 1) with 3. lia.
  - rewrite (load_bytes_of v _ _ _ 0); [by rewrite Z.mul_0_r, Z.div_1_r|lia|].
    intros x _. f_equal. lia.
Qed.

(** * Inodes *)

Definition i16_range (z : Z) : Prop := - 2 ^ 15 <= z < 2 ^ 15.

Lemma i16_u16 z : i16_range z -> i16 (u16 z) = z.
Proof.
  unfold i16, u16, i16_range. intros Hz. rewrite Zplus_mod_idemp_l. rewrite Z.mod_small; lia.
Qed.

(** An in-memory inode that fits the disk format. *)
Definition inode_fits (ip : inode) : Prop :=
  i16_range (itype ip) /\ i16_range (imajor ip) /\ i16_range (iminor ip) /\ i16_range (inlink ip) /\
  u32_range (isize ip) /\ length (iaddrs ip) = 13%nat /\ Forall u32_range (iaddrs ip).

Lemma length_words (l : list Z) : length (mjoin (bytes32 <$> l)) = (4 * length l)%nat.
Proof.
  induction l as [|a l IH]; [done|].
  change (mjoin (bytes32 <$> (a :: l))) with (bytes32 a ++ mjoin (bytes32 <$> l)).
  rewrite length_app, IH. unfold bytes32; cbn. lia.
Qed.

Lemma get32_words (l : list Z) k a :
  l !! k = Some a -> get32 (mjoin (bytes32 <$> l)) (4 * k) = u32 a.
Proof.
  revert k. induction l as [|b l IH]; intros [|k] Hk; try done.
  - injection Hk as ->. apply get32_bytes.
  - change (mjoin (bytes32 <$> (b :: l))) with (bytes32 b ++ mjoin (bytes32 <$> l)).
    replace (4 * S k)%nat with (length (bytes32 b) + 4 * k)%nat.
    + rewrite get32_app. by apply IH.
    + unfold bytes32. cbn. lia.
Qed.

Lemma length_dinode_bytes ip : length (iaddrs ip) = 13%nat -> length (dinode_bytes ip) = 64%nat.
Proof. intros Hl. unfold dinode_bytes. rewrite !length_app, length_words, Hl. done. Qed.

Lemma dinode_off_fits n : 0 <= n -> (dinode_off n + 64 <= 512)%nat.
Proof. intros Hn. unfold dinode_off. change IPB with 8. pose proof (Z.mod_pos_bound n 8 ltac:(lia)). lia. Qed.

(** Decoding what was encoded into a block. *)
Lemma read_dinode_bytes ip ip0 d n :
  inode_fits ip -> length d = 512%nat -> 0 <= n ->
  read_dinode (splice d (dinode_off n) (dinode_bytes ip)) (dinode_off n) ip0 =
    ip0 <| itype := itype ip |> <| imajor := imajor ip |> <| iminor := iminor ip |>
        <| inlink := inlink ip |> <| isize := isize ip |> <| iaddrs := iaddrs ip |>.
Proof.
  intros (Ht & Hmj & Hmi & Hnl & Hsz & Hlen & Haddr) Hd Hn. pose proof (dinode_off_fits n Hn) as Hoff.
  set (d' := splice _ _ _). pose proof (length_dinode_bytes ip Hlen) as Hb.
  assert (Hget16 : forall k, (k + 2 <= 64)%nat -> get16 d' (dinode_off n + k) = get16 (dinode_bytes ip) k)
    by (intros; apply get16_splice; lia).
  assert (Hget32 : forall k, (k + 4 <= 64)%nat -> get32 d' (dinode_off n + k) = get32 (dinode_bytes ip) k)
    by (intros; apply get32_splice; lia).
  assert (Hget0 : get16 d' (dinode_off n) = get16 (dinode_bytes ip) 0)
    by (rewrite <- Hget16 by lia; by rewrite Nat.add_0_r).
  assert (Haddrs : ((fun k => get32 d' (dinode_off n + 12 + 4 * k)) <$> seq 0 (NDIRECT + 1)) = iaddrs ip).
  { apply list_eq. intros k. rewrite list_lookup_fmap.
  destruct (decide (k < 13)%nat) as [Hk|Hk].
  2:{ rewrite lookup_seq_ge by (cbn; lia). rewrite lookup_ge_None_2 by lia. done. }
  rewrite lookup_seq_lt by (cbn; lia). cbn [fmap option_fmap option_map].
  destruct (lookup_lt_is_Some_2 (iaddrs ip) k ltac:(lia)) as [a Ha]. rewrite Ha. f_equal.
  rewrite Nat.add_0_l. replace (dinode_off n + 12 + 4 * k)%nat with (dinode_off n + (12 + 4 * k))%nat by lia.
  rewrite Hget32 by lia. unfold dinode_bytes.
  rewrite (get32_app (bytes16 (itype ip)) _ (10 + 4 * k)), (get32_app (bytes16 (imajor ip)) _ (8 + 4 * k)),
    (get32_app (bytes16 (iminor ip)) _ (6 + 4 * k)), (get32_app (bytes16 (inlink ip)) _ (4 + 4 * k)),
    (get32_app (bytes32 (isize ip)) _ (4 * k)).
  rewrite (get32_words _ _ a Ha). apply u32_id. by eapply Forall_lookup_1 in Haddr. }
  unfold read_dinode. rewrite Haddrs, Hget0, !Hget16, Hget32 by lia.
  unfold dinode_bytes. rewrite get16_bytes, i16_u16 by done.
  rewrite (get16_app (bytes16 (itype ip)) _ 0), get16_bytes, i16_u16 by done.
  rewrite (get16_app (bytes16 (itype ip)) _ 2), (get16_app (bytes16 (imajor ip)) _ 0),
    get16_bytes, i16_u16 by done.
  rewrite (get16_app (bytes16 (itype ip)) _ 4), (get16_app (bytes16 (imajor ip)) _ 2),
    (get16_app (bytes16 (iminor ip)) _ 0), get16_bytes, i16_u16 by done.
  rewrite (get32_app (bytes16 (itype ip)) _ 6), (get32_app (bytes16 (imajor ip)) _ 4),
    (get32_app (bytes16 (iminor ip)) _ 2), (get32_app (bytes16 (inlink ip)) _ 0),
    get32_bytes, u32_id by done.
  done.
Qed.

Lemma getb_dinode_other ip d n n' k :
  length (iaddrs ip) = 13%nat -> length d = 512%nat -> 0 <= n -> 0 <= n' -> n' mod IPB <> n mod IPB -> (k < 64)%nat ->
  getb (splice d (dinode_off n) (dinode_bytes ip)) (dinode_off n' + k) = getb d (dinode_off n' + k).
Proof.
  intros Hlen Hd Hn Hn' Hne Hk. pose proof (length_dinode_bytes ip Hlen) as Hb. pose proof (dinode_off_fits n Hn).
  apply getb_splice_out; [lia|]. rewrite Hb. unfold dinode_off in *. change IPB with 8 in *.
  pose proof (Z.mod_pos_bound n 8 ltac:(lia)). pose proof (Z.mod_pos_bound n' 8 ltac:(lia)). lia.
Qed.

(** Writing an inode to its block and reading it back gives the
    same inode: [iupdate]'s encoding followed by [ilock]'s decoding restores
    every on-disk field, and no byte of the other inodes in the block is
    touched. *)
Theorem dinode_roundtrip ip ip0 d n :
  inode_fits ip -> length d = 512%nat -> 0 <= n ->
  let d' := splice d (dinode_off n) (dinode_bytes ip) in
  read_dinode d' (dinode_off n) ip0 =
    ip0 <| itype := itype ip |> <| imajor := imajor ip |> <| iminor := iminor ip |>
        <| inlink := inlink ip |> <| isize := isize ip |> <| iaddrs := iaddrs ip |> /\
  length d' = 512%nat /\
  (forall n' k, 0 <= n' -> n' mod IPB <> n mod IPB -> (k < 64)%nat ->
     getb d' (dinode_off n' + k) = getb d (dinode_off n' + k)).
Proof.
  intros Hf Hd Hn d'. pose proof Hf as (_ & _ & _ & _ & _ & Hlen & _). split_and!.
  - by apply read_dinode_bytes.
  - pose proof (length_dinode_bytes ip Hlen). pose proof (dinode_off_fits n Hn).
    unfold d', splice. rewrite !length_app, length_take, length_drop. lia.
  - intros n' k Hn' Hne Hk. by apply getb_dinode_other.
Qed.

(** * The free-block bitmap *)

Lemma land_shiftl_testbit b k : 0 <= k -> negb (Z.land b (Z.shiftl 1 k) =? 0) = Z.testbit b k.
Proof.
  intros Hk. rewrite Z.shiftl_1_l. destruct (Z.testbit b k) eqn:E.
  - apply negb_true_iff, Z.eqb_neq. intros H0.
    assert (Hb : Z.testbit (Z.land b (2 ^ k)) k = true) by by rewrite Z.land_spec, E, Z.pow2_bits_true.
    by rewrite H0, Z.bits_0 in Hb.
  - apply negb_false_iff, Z.eqb_eq. apply Z.bits_inj'. intros j Hj. rewrite Z.land_spec, Z.bits_0.
    destruct (Z.eq_dec j k) as [->|Hne]; [by rewrite E|].
    rewrite Z.pow2_bits_false by lia. apply andb_false_r.
Qed.

Lemma bit_set_testbit d bi : bit_set d bi = Z.testbit (getb d (bi / 8)) (Z.of_nat bi mod 8).
Proof. apply land_shiftl_testbit. apply Z.mod_pos_bound. lia. Qed.

Lemma same_byte_bit i j :
  (i / 8)%nat = (j / 8)%nat -> Z.of_nat i mod 8 = Z.of_nat j mod 8 -> i = j.
Proof.
  intros Hd Hm. apply Nat2Z.inj. rewrite (Z.div_mod (Z.of_nat i) 8), (Z.div_mod (Z.of_nat j) 8) by lia.
  rewrite Hm. rewrite <- !(Nat2Z.inj_div _ 8), Hd. done.
Qed.

Lemma getb_insert d k v : (k < length d)%nat -> getb (<[k := v]> d) k = v.
Proof. intros Hk. unfold getb. by rewrite list_lookup_insert_eq. Qed.
Lemma getb_insert_ne d k j v : k <> j -> getb (<[k := v]> d) j = getb d j.
Proof. intros Hk. unfold getb. by rewrite list_lookup_insert_ne. Qed.

(** One bit of a byte changed by [f], all others kept. *)
Lemma bit_update d bi j (f : Z -> Z -> Z) (r : bool) :
  (bi / 8 < length d)%nat ->
  (forall b k, 0 <= k -> Z.testbit (f b (Z.shiftl 1 k)) k = r) ->
  (forall b k k', 0 <= k -> 0 <= k' -> k <> k' -> Z.testbit (f b (Z.shiftl 1 k)) k' = Z.testbit b k') ->
  bit_set (<[(bi / 8)%nat := f (getb d (bi / 8)) (Z.shiftl 1 (Z.of_nat bi mod 8))]> d) j =
    if decide (j = bi) then r else bit_set d j.
Proof.
  intros Hlen Heq Hne. rewrite !bit_set_testbit.
  pose proof (Z.mod_pos_bound (Z.of_nat bi) 8 ltac:(lia)). pose proof (Z.mod_pos_bound (Z.of_nat j) 8 ltac:(lia)).
  destruct (decide (j = bi)) as [->|Hji].
  - rewrite getb_insert by done. apply Heq. lia.
  - destruct (decide ((bi / 8)%nat = (j / 8)%nat)) as [E|E]; [|by rewrite getb_insert_ne].
    rewrite <- E, getb_insert by done. apply Hne; [lia|lia|].
    intros Hm. apply Hji. symmetry. by apply same_byte_bit.
Qed.

Lemma mark_bit_spec d bi j :
  (bi / 8 < length d)%nat -> bit_set (mark_bit bi d) j = if decide (j = bi) then true else bit_set d j.
Proof.
  intros Hlen. apply (bit_update d bi j Z.lor true Hlen).
  - intros b k Hk. by rewrite Z.lor_spec, Z.shiftl_1_l, Z.pow2_bits_true, orb_true_r.
  - intros b k k' Hk Hk' Hne. by rewrite Z.lor_spec, Z.shiftl_1_l, Z.pow2_bits_false, orb_false_r by lia.
Qed.

Lemma clear_bit_spec d bi j :
  (bi / 8 < length d)%nat -> bit_set (clear_bit bi d) j = if decide (j = bi) then false else bit_set d j.
Proof.
  intros Hlen. apply (bit_update d bi j Z.ldiff false Hlen).
  - intros b k Hk. by rewrite Z.ldiff_spec, Z.shiftl_1_l, Z.pow2_bits_true, andb_false_r.
  - intros b k k' Hk Hk' Hne. by rewrite Z.ldiff_spec, Z.shiftl_1_l, Z.pow2_bits_false, andb_true_r by lia.
Qed.

Lemma free_bit_spec d k bi :
  match free_bit d bi k with
  | Some b => (bi <= b < bi + k)%nat /\ bit_set d b = false /\
      forall j, (bi <= j < b)%nat -> bit_set d j = true
  | None => forall j, (bi <= j < bi + k)%nat -> bit_set d j = true
  end.
Proof.
  revert bi. induction k as [|k IH]; intros bi; cbn [free_bit]; [lia|].
  destruct (bit_set d bi) eqn:E.
  - specialize (IH (S bi)). destruct (free_bit d (S bi) k) as [b|].
    + destruct IH as (Hb & Hf & Hall). split_and!; [lia..|done|]. intros j Hj.
      destruct (decide (j = bi)) as [->|]; [done|]. apply Hall. lia.
    + intros j Hj. destruct (decide (j = bi)) as [->|]; [done|]. apply IH. lia.
  - split_and!; [lia..|done|]. lia.
Qed.

(** The allocator's view of a bitmap block.  The scan of [balloc]
    finds the first clear bit below the bound, or none exactly when all are
    set; marking it sets that bit and no other, so the next scan cannot return
    it; clearing it as [bfree] does restores every bit. *)
Theorem bitmap_alloc_free d k :
  length d = 512%nat -> (k <= 4096)%nat ->
  match free_bit d 0 k with
  | Some b => (b < k)%nat /\ bit_set d b = false /\ (forall j, (j < b)%nat -> bit_set d j = true) /\
      (forall j, bit_set (mark_bit b d) j = if decide (j = b) then true else bit_set d j) /\
      free_bit (mark_bit b d) 0 k <> Some b /\
      (forall j, bit_set (clear_bit b (mark_bit b d)) j = bit_set d j)
  | None => forall j, (j < k)%nat -> bit_set d j = true
  end.
Proof.
  intros Hd Hk. pose proof (free_bit_spec d k 0) as Hs.
  destruct (free_bit d 0 k) as [b|]; [|intros j Hj; apply Hs; lia].
  destruct Hs as (Hb & Hf & Hall).
  assert (Hlen : (b / 8 < length d)%nat).
  { rewrite Hd. apply (Nat.Div0.div_lt_upper_bound b 8 512). lia. }
  split_and!; [lia|done| | | |].
  - intros j Hj. apply Hall. lia.
  - intros j. by apply mark_bit_spec.
  - intros E. pose proof (free_bit_spec (mark_bit b d) k 0) as Hs'. rewrite E in Hs'.
    destruct Hs' as (_ & Hf' & _). rewrite mark_bit_spec, decide_True in Hf' by done. done.
  - intros j. rewrite clear_bit_spec; [|unfold mark_bit; by rewrite length_insert].
    rewrite mark_bit_spec by done. by destruct (decide (j = b)) as [->|].
Qed.

(** * The log's table of blocks *)

(** The blocks the current transaction has logged. *)
Definition logged (l : log_t) : list Z := take (Z.to_nat (lh_n l)) (lh_block l).
Definition log_ok (l : log_t) : Prop :=
  length (lh_block l) = 30%nat /\ 0 <= lh_n l <= LOGSIZE /\ NoDup (logged l) /\
  Forall (fun b => 0 <= b < 2 ^ 31) (logged l).

Lemma log_slot_spec bno bs n i :
  (n <= length bs)%nat -> Forall (fun b => 0 <= b < 2 ^ 31) (take n bs) ->
  let r := log_slot bno bs n i in
  (i <= r <= i + n)%nat /\
  ((r < i + n)%nat -> bs !! (r - i)%nat = Some bno) /\
  (r = (i + n)%nat -> bno ∉ take n bs).
Proof.
  revert n i. induction bs as [|x bs IH]; intros [|n] i Hn Hr; cbn [log_slot length] in *;
    try (split_and!; [lia..|set_solver]); try lia.
  cbn [take] in Hr. apply Forall_cons_1 in Hr as [Hx Hr]. rewrite u32_id by (unfold u32_range; lia).
  destruct (Z.eqb_spec x bno) as [->|Hne].
  - split_and!; [lia..|intros _; by rewrite Nat.sub_diag|lia].
  - destruct (IH n (S i) ltac:(lia) Hr) as (H1 & H2 & H3). split_and!; [lia..| |].
    + intros Hlt. replace (log_slot bno bs n (S i) - i)%nat with (S (log_slot bno bs n (S i) - S i)) by lia.
      apply H2. lia.
    + intros Heq. cbn [take]. specialize (H3 ltac:(lia)). set_solver.
Qed.

(** Log absorption.  Recording a block that the transaction has
    already logged changes nothing; recording a new one appends it: the table
    never holds a block twice, so a transaction uses one log block per
    distinct block it modifies, and it never overflows its array. *)
Theorem log_absorption bno l :
  log_ok l -> lh_n l < LOGSIZE -> 0 <= bno < 2 ^ 31 ->
  log_ok (log_record bno l) /\
  (bno ∈ logged l -> log_record bno l = l) /\
  (bno ∉ logged l -> logged (log_record bno l) = logged l ++ [bno] /\
                     lh_n (log_record bno l) = lh_n l + 1).
Proof.
  intros (Hlen & Hn & Hnd & Hall) Hlt Hb. unfold LOGSIZE, MAXOPBLOCKS in *.
  set (n := Z.to_nat (lh_n l)). assert (Hn30 : (n < 30)%nat) by lia.
  destruct (log_slot_spec bno (lh_block l) n 0 ltac:(lia) Hall) as (Hr1 & Hr2 & Hr3).
  unfold log_record; cbv zeta. fold n. rewrite i32_id by (unfold i32_range; lia).
  set (r := log_slot bno (lh_block l) n 0) in *.
  destruct (Z.eqb_spec (Z.of_nat r) (lh_n l)) as [E|E].
  - assert (Hrn : r = n) by lia. specialize (Hr3 ltac:(lia)). fold (logged l) in Hr3.
    assert (Hlog : logged (l <| lh_block ::= <[r := bno]> |> <| lh_n ::= fun k => i32 (k + 1) |>) =
      logged l ++ [bno]).
    { unfold logged; cbn. rewrite i32_id by (unfold i32_range; lia).
      replace (Z.to_nat (lh_n l + 1)) with (S n) by lia. rewrite Hrn.
      erewrite take_S_r by (apply list_lookup_insert_eq; lia). by rewrite take_insert_ge by lia. }
    split_and!.
    + unfold log_ok. rewrite Hlog. cbn. rewrite length_insert, i32_id by (unfold i32_range; lia).
      unfold LOGSIZE, MAXOPBLOCKS. split_and!; [done|lia|lia| |].
      * apply NoDup_app. split_and!; [done|set_solver|apply NoDup_singleton].
      * apply Forall_app. split; [done|]. by constructor.
    + done.
    + intros _. split; [done|]. cbn. by rewrite i32_id by (unfold i32_range; lia).
  - assert (Hlt' : (r < n)%nat) by lia. specialize (Hr2 ltac:(lia)). rewrite Nat.sub_0_r in Hr2.
    assert (Hid : l <| lh_block ::= <[r := bno]> |> = l).
    { destruct l; cbn in *. by rewrite list_insert_id. }
    rewrite Hid. split_and!; [unfold log_ok, LOGSIZE, MAXOPBLOCKS; split_and!; done || lia|done|].
    intros Hnot. destruct Hnot. apply list_elem_of_lookup. exists r. unfold logged.
    by rewrite lookup_take_lt by lia.
Qed.

(** * Path elements *)

Definition plain (c : Z) : Prop := c <> slash /\ c <> 0.

Lemma take_elem_spec e rest :
  Forall plain e -> (rest = [] \/ hd0 rest = slash \/ hd0 rest = 0) -> take_elem (e ++ rest) = (e, rest).
Proof.
  intros He Hr. induction He as [|c e [Hs H0] He IH]; cbn [app].
  - destruct rest as [|c rest]; [done|]. destruct Hr as [|Hr]; [done|]. cbn in Hr. cbn [take_elem].
    destruct Hr as [->| ->]; done.
  - cbn [take_elem]. destruct (Z.eqb_spec c slash), (Z.eqb_spec c 0); try done. cbn. by rewrite IH.
Qed.

Lemma skip_slashes_app k l :
  hd0 l <> slash -> skip_slashes (replicate k slash ++ l) = l.
Proof.
  intros Hl. induction k as [|k IH]; cbn; [|done].
  destruct l as [|c l]; [done|]. cbn in *. by destruct (Z.eqb_spec c slash).
Qed.

Lemma skip_slashes_length l : (length (skip_slashes l) <= length l)%nat.
Proof. induction l as [|c l IH]; cbn; [done|]. destruct (c =? slash); cbn; lia. Qed.

(** [skipelem] takes exactly the first element of a path: leading
    slashes are skipped, the element runs to the next slash or the end, at most
    DIRSIZ bytes of it are kept as the name, and the rest comes back without
    leading slashes and shorter than the path; a path of slashes only has no
    element. *)
Theorem skipelem_first k e rest :
  Forall plain e -> e <> [] -> (rest = [] \/ hd0 rest = slash \/ hd0 rest = 0) ->
  skipelem (replicate k slash ++ e ++ rest) = Some (elem_name e, skip_slashes rest) /\
  (length (elem_name e) <= DIRSIZ)%nat /\
  (length (skip_slashes rest) < length (replicate k slash ++ e ++ rest))%nat /\
  skipelem (replicate k slash) = None.
Proof.
  intros He Hne Hr.
  destruct e as [|c e]; [done|]. pose proof (Forall_cons_1 _ _ _ He) as [[Hs H0] _].
  split_and!.
  - unfold skipelem. rewrite skip_slashes_app by done. cbv zeta.
    change (hd0 ((c :: e) ++ rest)) with c. destruct (Z.eqb_spec c 0); [done|].
    by rewrite take_elem_spec.
  - unfold elem_name, DIRSIZ. case_bool_decide.
    + rewrite length_take. lia.
    + rewrite length_app. cbn in *. lia.
  - pose proof (skip_slashes_length rest). rewrite !length_app. cbn. lia.
  - unfold skipelem. replace (replicate k slash) with (replicate k slash ++ []) by apply app_nil_r.
    by rewrite skip_slashes_app.
Qed.
