(* ===== verification/Args.v ===== *)
(** Checking what user space passes in: ranges, pointers and signal frames. *)

From S2P Require Import Prelude Control Memory KState Boot Spinlock Format Sched Kalloc Vm.
From S2P Require Import Sleeplock Disk Bio Log Inode Console Fs Pipe File Proc Trap Syscall.
From S2P Require Import SysProc Exec SysFile Frame Safety Handoff Calls.

(** The range check of [fetchint], [fetchaddr] and
    [sys_getschedstats] is exact for every process size below the kernel: it
    accepts precisely the ranges that lie between the first page and the end
    of the process's memory, 64-bit wrap-around included. *)
Theorem bad_range_exact p addr n :
  0 <= sz p <= KERNBASE -> 0 <= addr < 2 ^ 64 -> 0 < n < 2 ^ 32 ->
  bad_range p addr n = false <-> PGSIZE <= addr /\ addr + n <= sz p.
Proof.
  unfold bad_range, KERNBASE, PGSIZE, u64. intros Hs Ha Hn.
  rewrite !orb_false_iff, !Z.ltb_ge, Z.leb_gt. split.
  - intros ((H1 & H2) & H3). rewrite Z.mod_small in H3 by lia. lia.
  - intros (H1 & H2). rewrite Z.mod_small by lia. lia.
Qed.

(** C39: [argptr] looks at the low 32 bits of the pointer only and then
    hands out all 64: every address that agrees with an acceptable one in its
    low half is accepted too, among them addresses of the kernel, to which
    [sys_read] then writes. *)
Theorem argptr_accepts_high_half p i k size :
  argptr_bad p (i + 2 ^ 32 * k) size = argptr_bad p i size /\
  (PGSIZE + size <= sz p < 2 ^ 32 -> 0 < size -> argptr_bad p (KERNBASE + PGSIZE) size = false).
Proof.
  unfold argptr_bad. split.
  - assert (E : u32 (i + 2 ^ 32 * k) = u32 i) by (unfold u32; rewrite Z.mul_comm; apply Z.mod_add; lia).
    by rewrite E.
  - intros Hs Hz. replace (u32 (KERNBASE + PGSIZE)) with PGSIZE by by vm_compute.
    unfold PGSIZE in *. rewrite u32_id by (unfold u32_range; lia).
    rewrite !orb_false_iff, !Z.ltb_ge, Z.leb_gt. lia.
Qed.

(** [sys_setschedparam]'s own range check lets the 32 bytes wrap
    around the end of the address space: an address in the last 32 bytes
    passes it, far above the process's memory. *)
Theorem update_addr_wraps p a :
  32 <= sz p -> 2 ^ 64 - 32 <= a < 2 ^ 64 -> update_addr_bad p a = false.
Proof.
  intros Hs Ha. unfold update_addr_bad, PGSIZE, sizeof_sched_update, u64.
  rewrite orb_false_iff, !Z.ltb_ge. split; [lia|].
  replace (a + 8 * 4) with (a + 32 - 2 ^ 64 + 1 * 2 ^ 64) by lia.
  rewrite Z.mod_add by lia. rewrite Z.mod_small; lia.
Qed.

(** * Returning from a signal handler *)

Section Sigret.
Context `{!DiskDriver}.

(** C40: the system call that ends a signal handler restores the trap
    frame saved when the signal was delivered, except for %rax: its own result
    is stored there after the frame has been restored, so the interrupted
    code resumes with 0 in %rax whatever it held. *)
Theorem sigret_loses_rax i t s w :
  in_process i s -> lock_free CONS s -> rax t = 24 ->
  killed (getp i s) = 0 -> signal_pending (getp i s) = 0 ->
  exists s', syscall t s w = Ok tt s' w /\
    tf (getp i s') = tf_backup (getp i s) <| rax := 0 |>.
Proof.
  intros [Hc Hi Hr] Hl Ht Hk Hsig. unfold syscall. rewrite (myproc_then i) by done.
  unfold upd_proc. rewrite bind_modify. unfold get_proc. rewrite bind_gets, getp_setp by done.
  cbv zeta. cbn [tf setter]. rewrite Ht. cbn [syscalls]. rewrite !bind_assoc. unfold sys_sigret.
  rewrite !bind_assoc. set (s0 := setp i _ s).
  erewrite bind_ok by by apply cprintf_eq. set (s1 := settle _).
  rewrite bind_assoc, (myproc_then i) by done. unfold upd_proc.
  rewrite bind_assoc, bind_modify, bind_mret, bind_modify. set (s2 := setp i _ (setp i _ s1)).
  assert (Hg1 : getp i s1 = getp i s <| tf := t |>) by by apply getp_setp.
  assert (Hlen : length (ptable s1) = length (ptable s)) by apply length_setp.
  assert (Hg2 : getp i s2 = getp i s <| tf := tf_backup (getp i s) <| rax := 0 |> |>).
  { unfold s2. rewrite setp_setp, getp_setp by by rewrite Hlen. rewrite Hg1. done. }
  exists s2. split; [|by rewrite Hg2].
  unfold check_signals. rewrite bind_gets. change (cur (kcpu s2)) with (cur (kcpu s)). rewrite Hc.
  unfold get_proc. rewrite bind_gets, Hg2. cbn [killed signal_pending setter]. by rewrite Hk, Hsig.
Qed.
End Sigret.
