(* ===== verification/Paging.v ===== *)
(** Page tables: the kernel's walk against the hardware's, and what mapping a
    page makes of the address space. *)

From S2P Require Import Prelude Control Memory KState Boot Spinlock Format Sched Kalloc Vm Handoff.

(** Addresses of the entries the walk for [va] reads. *)
Definition entry4 (pml4 va : Z) : Z := pml4 + 8 * PMX va.
Definition next (m : memory) (e : Z) : Z := P2V (PTE_ADDR (load64 m e)).
Definition entry3 (m : memory) (pml4 va : Z) : Z := next m (entry4 pml4 va) + 8 * PDPX va.
Definition entry2 (m : memory) (pml4 va : Z) : Z := next m (entry3 m pml4 va) + 8 * PDX va.
Definition entry1 (m : memory) (pml4 va : Z) : Z := next m (entry2 m pml4 va) + 8 * PTX va.
Definition present (m : memory) (e : Z) : bool := has PTE_P (load64 m e).

(** The upper three levels exist. *)
Definition tables_present (m : memory) (pml4 va : Z) : bool :=
  present m (entry4 pml4 va) && present m (entry3 m pml4 va) && present m (entry2 m pml4 va).

Lemma walk_level_ro t idx s w :
  walk_level t idx false s w =
    Ok (if present (mem s) (t + 8 * idx) then Some (next (mem s) (t + 8 * idx)) else None) s w.
Proof.
  unfold walk_level, present, next. cbv zeta. unfold read64. rewrite bind_gets.
  by destruct (has PTE_P (load64 (mem s) (t + 8 * idx))).
Qed.

Lemma walkpgdir_ro pml4 va s w :
  walkpgdir pml4 va false s w =
    Ok (if tables_present (mem s) pml4 va then entry1 (mem s) pml4 va else 0) s w.
Proof.
  unfold walkpgdir, tables_present, entry1, entry2, entry3, entry4.
  erewrite bind_ok by apply walk_level_ro.
  destruct (present (mem s) (pml4 + 8 * PMX va)); cbn [andb]; [|done].
  erewrite bind_ok by apply walk_level_ro.
  destruct (present (mem s) (next (mem s) (pml4 + 8 * PMX va) + 8 * PDPX va)); cbn [andb]; [|done].
  erewrite bind_ok by apply walk_level_ro.
  by destruct (present (mem s) _).
Qed.

Lemma translate_entries m pml4 va :
  has PTE_PS (load64 m (entry3 m pml4 va)) = false ->
  translate m pml4 va =
    if tables_present m pml4 va && present m (entry1 m pml4 va)
    then Some (next m (entry1 m pml4 va) + va mod PGSIZE) else None.
Proof.
  unfold translate, tables_present, present, entry1, entry2, entry3, entry4, next. cbv zeta.
  destruct (has PTE_P (load64 m (pml4 + 8 * PMX va))); cbn [negb andb]; [|done].
  intros Hps. destruct (has PTE_P (load64 m (_ + 8 * PDPX va))); cbn [negb andb]; [|done].
  rewrite Hps. destruct (has PTE_P (load64 m (_ + 8 * PDX va))); cbn [negb andb]; [|done].
  by destruct (has PTE_P _).
Qed.

(** The kernel's table walk and the processor's agree.  Without
    allocation [walkpgdir] changes nothing and always returns; for an address
    not covered by a huge page it finds the entry the MMU uses, so the address
    translates exactly when the walk succeeds and the entry is present, to the
    entry's frame and the offset in the page. *)
Theorem walkpgdir_agrees_with_mmu pml4 va s w :
  has PTE_PS (load64 (mem s) (entry3 (mem s) pml4 va)) = false ->
  entry1 (mem s) pml4 va <> 0 ->
  exists pte, walkpgdir pml4 va false s w = Ok pte s w /\
    translate (mem s) pml4 va =
      if (pte =? 0) || negb (has PTE_P (load64 (mem s) pte)) then None
      else Some (P2V (PTE_ADDR (load64 (mem s) pte)) + va mod PGSIZE).
Proof.
  intros Hps H1. eexists. split; [apply walkpgdir_ro|]. rewrite translate_entries by done.
  destruct (tables_present (mem s) pml4 va); cbn [andb]; [|done].
  destruct (Z.eqb_spec (entry1 (mem s) pml4 va) 0); [done|]. cbn [orb].
  unfold present, next. by destruct (has PTE_P _).
Qed.

(** * Mapping a page *)

Lemma high_bits_zero x n k : 0 <= x < 2 ^ n -> 0 <= n <= k -> Z.testbit x k = false.
Proof.
  intros Hx Hk. destruct (Z.eq_dec x 0) as [->|]; [apply Z.bits_0|].
  apply Z.bits_above_log2; [lia|]. apply Z.log2_lt_pow2; [lia|].
  apply (Z.lt_le_trans _ (2 ^ n)); [lia|]. apply Z.pow_le_mono_r; lia.
Qed.

Lemma page_mask_spec k : 0 <= k ->
  Z.testbit (u64 (Z.lnot 0xFFF)) k = (12 <=? k) && (k <? 64).
Proof.
  intros Hk. change (u64 (Z.lnot 0xFFF)) with (Z.shiftl (Z.ones 52) 12). rewrite Z.shiftl_spec by lia.
  destruct (Z.leb_spec 12 k); cbn [andb]; [|by apply Z.testbit_neg_r; lia].
  rewrite Z.testbit_ones_nonneg by lia. destruct (Z.ltb_spec k 64), (Z.ltb_spec (k - 12) 52); (done || lia).
Qed.

(** The mask of [PGROUNDDOWN] and [PTE_ADDR] clears the offset in the page. *)
Lemma page_mask x : 0 <= x < 2 ^ 64 -> Z.land x (u64 (Z.lnot 0xFFF)) = PGSIZE * (x / PGSIZE).
Proof.
  intros Hx. replace (PGSIZE * (x / PGSIZE)) with (Z.shiftl (Z.shiftr x 12) 12)
    by (rewrite Z.shiftl_mul_pow2, Z.shiftr_div_pow2 by lia; change (2 ^ 12) with PGSIZE; lia).
  apply Z.bits_inj'. intros k Hk. rewrite Z.land_spec, page_mask_spec, Z.shiftl_spec by lia.
  destruct (Z.leb_spec 12 k); cbn [andb].
  - rewrite Z.shiftr_spec by lia. replace (k - 12 + 12) with k by lia.
    destruct (Z.ltb_spec k 64); [apply andb_true_r|]. rewrite andb_false_r.
    symmetry. apply (high_bits_zero _ 64); lia.
  - rewrite andb_false_r, Z.testbit_neg_r; (done || lia).
Qed.

(** Page-aligned addresses, flag sets, and the entry that combines them. *)
Definition aligned (a : Z) : Prop := 0 <= a /\ a + PGSIZE <= 2 ^ 64 /\ a mod PGSIZE = 0.
Definition flags_ok (perm : Z) : Prop := 0 <= perm < 2 ^ 12.
Definition mk_pte (a perm : Z) : Z := Z.lor (Z.lor a perm) PTE_P.

Lemma pgrounddown_in va o : aligned va -> 0 <= o < PGSIZE -> PGROUNDDOWN (va + o) = va.
Proof.
  intros (H0 & H1 & H2) Ho. unfold PGROUNDDOWN. change (PGSIZE - 1) with 0xFFF.
  unfold aligned, PGSIZE in *. rewrite page_mask by lia.
  unfold PGSIZE. Z.div_mod_to_equations. lia.
Qed.

Lemma mk_pte_addr a perm : aligned a -> flags_ok perm -> PTE_ADDR (mk_pte a perm) = a.
Proof.
  intros (H0 & H1 & H2) Hp. unfold PTE_ADDR, mk_pte, PTE_P, flags_ok in *.
  rewrite !Z.land_lor_distr_l. rewrite page_mask by (unfold PGSIZE in *; lia).
  change (Z.land 1 (u64 (Z.lnot 0xFFF))) with 0. rewrite page_mask by lia.
  rewrite (Z.div_small perm) by (unfold PGSIZE; lia). rewrite Z.mul_0_r, !Z.lor_0_r.
  unfold PGSIZE in *. Z.div_mod_to_equations. lia.
Qed.

Lemma mk_pte_u64 a perm : aligned a -> flags_ok perm -> u64 (mk_pte a perm) = mk_pte a perm.
Proof.
  intros (H0 & H1 & H2) Hp. apply u64_id. unfold flags_ok, u64_range, mk_pte, PTE_P in *.
  assert (E : forall x y, 0 <= x < 2 ^ 64 -> 0 <= y < 2 ^ 64 -> 0 <= Z.lor x y < 2 ^ 64).
  { intros x y Hx Hy. split; [apply Z.lor_nonneg; lia|].
    rewrite <- (Z.mod_small x (2 ^ 64)), <- (Z.mod_small y (2 ^ 64)) by lia.
    rewrite <- !Z.land_ones, <- Z.land_lor_distr_l, Z.land_ones by lia. apply Z.mod_pos_bound. lia. }
  unfold PGSIZE in *. repeat apply E; lia.
Qed.

Lemma mk_pte_present a perm : has PTE_P (mk_pte a perm) = true.
Proof.
  unfold has, mk_pte. destruct (Z.eqb_spec (Z.land (Z.lor (Z.lor a perm) PTE_P) PTE_P) 0) as [E|]; [|done].
  apply (f_equal (fun z => Z.testbit z 0)) in E. rewrite Z.land_spec, Z.lor_spec in E.
  change (Z.testbit PTE_P 0) with true in E. by rewrite orb_true_r, Z.bits_0 in E.
Qed.

(** The table indices of an address do not depend on the offset in its page. *)
Lemma shift_in_page va o n : aligned va -> 0 <= o < PGSIZE -> 12 <= n ->
  Z.shiftr (va + o) n = Z.shiftr va n.
Proof.
  intros (H0 & H1 & H2) Ho Hn. rewrite !Z.shiftr_div_pow2 by lia.
  replace n with (12 + (n - 12)) by lia. rewrite Z.pow_add_r by lia.
  rewrite <- !Z.div_div by lia. f_equal. unfold PGSIZE in *. change (2 ^ 12) with 4096.
  Z.div_mod_to_equations. lia.
Qed.

Lemma entries_in_page m pml4 va o : aligned va -> 0 <= o < PGSIZE ->
  entry3 m pml4 (va + o) = entry3 m pml4 va /\ entry1 m pml4 (va + o) = entry1 m pml4 va /\
  tables_present m pml4 (va + o) = tables_present m pml4 va.
Proof.
  intros Ha Ho. unfold tables_present, entry1, entry2, entry3, entry4, PMX, PDPX, PDX, PTX.
  by rewrite !shift_in_page by by unfold PML4XSHIFT, PDPXSHIFT, PDXSHIFT, PTXSHIFT.
Qed.

(** Eight-byte words that do not overlap, and an entry the walk for [va] does
    not read on its way down. *)
Definition apart (a b : Z) : Prop := b + 8 <= a \/ a + 8 <= b.
Definition off_path (m : memory) (e pml4 va : Z) : Prop :=
  apart e (entry4 pml4 va) /\ apart e (entry3 m pml4 va) /\ apart e (entry2 m pml4 va).

Lemma path_frame m e v pml4 va : off_path m e pml4 va ->
  entry3 (store64 m e v) pml4 va = entry3 m pml4 va /\
  load64 (store64 m e v) (entry3 m pml4 va) = load64 m (entry3 m pml4 va) /\
  entry1 (store64 m e v) pml4 va = entry1 m pml4 va /\
  tables_present (store64 m e v) pml4 va = tables_present m pml4 va.
Proof.
  intros (H4 & H3 & H2).
  assert (E3 : entry3 (store64 m e v) pml4 va = entry3 m pml4 va)
    by (unfold entry3, next; by rewrite load64_store64_ne).
  assert (L3 : load64 (store64 m e v) (entry3 m pml4 va) = load64 m (entry3 m pml4 va))
    by by rewrite load64_store64_ne.
  assert (E2 : entry2 (store64 m e v) pml4 va = entry2 m pml4 va)
    by (unfold entry2, next; by rewrite E3, L3).
  assert (L2 : load64 (store64 m e v) (entry2 m pml4 va) = load64 m (entry2 m pml4 va))
    by by rewrite load64_store64_ne.
  split_and!; [done|done|unfold entry1, next; by rewrite E2, L2|].
  unfold tables_present, present. by rewrite E3, E2, L3, L2, load64_store64_ne.
Qed.

Lemma walk_level_present t idx alloc s w :
  present (mem s) (t + 8 * idx) = true ->
  walk_level t idx alloc s w = Ok (Some (next (mem s) (t + 8 * idx))) s w.
Proof.
  intros Hp. unfold walk_level, next. cbv zeta. unfold read64. rewrite bind_gets.
  unfold present in Hp. by rewrite Hp.
Qed.

Lemma walkpgdir_present pml4 va alloc s w :
  tables_present (mem s) pml4 va = true ->
  walkpgdir pml4 va alloc s w = Ok (entry1 (mem s) pml4 va) s w.
Proof.
  unfold tables_present. rewrite !andb_true_iff. intros ((H4 & H3) & H2).
  unfold walkpgdir, entry1, entry2, entry3, entry4 in *.
  rewrite (bind_ok _ _ _ _ _ _ _ (walk_level_present _ _ alloc _ w H4)).
  rewrite (bind_ok _ _ _ _ _ _ _ (walk_level_present _ _ alloc _ w H3)).
  by rewrite (bind_ok _ _ _ _ _ _ _ (walk_level_present _ _ alloc _ w H2)).
Qed.

(** Mapping one page when its page table exists: the entry was free and is
    written, or the kernel stops. *)
Lemma mappages_page_eq pml4 va pa perm s w :
  tables_present (mem s) pml4 va = true -> entry1 (mem s) pml4 va <> 0 -> aligned va ->
  mappages pml4 va PGSIZE pa perm s w =
    if present (mem s) (entry1 (mem s) pml4 va) then Panic "remap" s
    else Ok 0 (s <| mem := store64 (mem s) (entry1 (mem s) pml4 va) (mk_pte pa perm) |>) w.
Proof.
  intros Ht He Ha. unfold mappages. cbv zeta.
  rewrite (u64_id (va + PGSIZE - 1)) by (destruct Ha as (?&?&?); unfold u64_range, PGSIZE in *; lia).
  rewrite <- Z.add_sub_assoc, pgrounddown_in by (done || unfold PGSIZE; lia).
  assert (Hr : PGROUNDDOWN va = va) by (rewrite <- (Z.add_0_r va) at 1; by apply pgrounddown_in).
  rewrite Hr.
  rewrite Z.sub_diag. change (Z.to_nat (u64 0 / PGSIZE + 1)) with 1%nat. cbn [mappages_loop].
  rewrite (bind_ok _ _ _ _ _ _ _ (walkpgdir_present _ _ true _ w Ht)).
  destruct (Z.eqb_spec (entry1 (mem s) pml4 va) 0); [done|]. unfold read64 at 1. rewrite bind_gets.
  unfold present. destruct (has PTE_P _); [done|]. by rewrite Z.eqb_refl.
Qed.

