(* ===== verification/Cache.v ===== *)
(** The buffer cache as the code above it uses it: what [bread], [bwrite] and
    [brelse] do to blocks, when no one else runs in between. *)

From S2P Require Import Prelude Control Memory KState Spinlock Format Sched Kalloc Vm Sleeplock.
From S2P Require Import Disk Bio Log Inode Console Fs Pipe File Proc Trap Handoff.

(** * Runs without interference *)

(** The parts of the state a file system routine leaves as they are. *)
Definition same_rest (s s' : kstate) : Prop :=
  locks s' = locks s /\ ncli (kcpu s') = ncli (kcpu s) /\
  eflags_if (kcpu s') = eflags_if (kcpu s) /\ cpu_id (kcpu s') = cpu_id (kcpu s) /\
  cur (kcpu s') = cur (kcpu s).

#[export] Instance same_rest_refl : Reflexive same_rest.
Proof. by intros s. Qed.
#[export] Instance same_rest_trans : Transitive same_rest.
Proof. unfold same_rest. intros a b c (?&?&?&?&?) (?&?&?&?&?). split_and!; congruence. Qed.

(** [m] returns whatever the schedule, without using it up. *)
Definition returns {A} (s : kstate) (m : K A) (Q : A -> kstate -> Prop) : Prop :=
  forall w, exists a s', m s w = Ok a s' w /\ same_rest s s' /\ Q a s'.

Lemma returns_bind {A B} s (m : K A) (f : A -> K B) Q :
  returns s m (fun a s' => same_rest s s' -> returns s' (f a) Q) -> returns s (m ≫= f) Q.
Proof.
  intros Hm w. destruct (Hm w) as (a & s1 & E & Hs & Hr). destruct (Hr Hs w) as (b & s2 & E2 & Hs2 & HQ).
  exists b, s2. rewrite (bind_ok _ _ _ _ _ _ _ E). split_and!; [done|by etransitivity|done].
Qed.
Lemma returns_ret {A} s (a : A) (Q : A -> kstate -> Prop) : Q a s -> returns s (mret a) Q.
Proof. intros HQ w. by exists a, s. Qed.
Lemma returns_gets {A} s (f : kstate -> A) (Q : A -> kstate -> Prop) : Q (f s) s -> returns s (gets f) Q.
Proof. intros HQ w. by exists (f s), s. Qed.
Lemma returns_mono {A} s (m : K A) (Q R : A -> kstate -> Prop) :
  returns s m R -> (forall a s', same_rest s s' -> R a s' -> Q a s') -> returns s m Q.
Proof. intros Hm HR w. destruct (Hm w) as (a & s' & E & Hs & Hr). exists a, s'. eauto. Qed.
Lemma returns_upd_fs s f (Q : unit -> kstate -> Prop) :
  Q tt (s <| fs ::= f |>) -> returns s (upd_fs f) Q.
Proof. intros HQ w. by eexists tt, _. Qed.

(** No lock of the cache is held and the CPU is in a process. *)
Record calm (s : kstate) : Prop := {
  calm_bcache : lock_free BCACHE s;
  calm_ptable : lock_free PTABLE s;
  calm_log : lock_free LOGLOCK s;
  calm_bufs b : (b < NBUF)%nat -> lock_free (SLEEPLK (BUFLK b)) s;
  calm_cpu : cpu_ready s;
  calm_cur : exists i, cur (kcpu s) = Some i
}.

Lemma calm_same s s' : same_rest s s' -> calm s -> calm s'.
Proof.
  intros (Hl & Hn & Hf & Hi & Hc) [H1 H2 Hg H3 [[H4 H4'] H5] H6].
  split; unfold lock_free, cpu_ready, cpu_ok in *; rewrite ?Hl, ?Hn, ?Hf, ?Hc; auto.
Qed.

(** The end of a critical section whose body amounts to one change of state. *)
Lemma release_section lk g s w :
  off_cpu g -> lock_free lk s -> cpu_ready s -> release lk (g (enter lk s)) w = Ok tt (settle (g s)) w.
Proof.
  intros Hg Hl [Hc Hn]. destruct (enter_ncli lk s Hc ltac:(lia)) as [Hn' Hif]. pose proof Hc as [? ?].
  rewrite release_held; [|by apply enter_held|by rewrite off_cpu_kcpu|rewrite off_cpu_kcpu by done; lia].
  by rewrite leave_enter by (done || lia).
Qed.

(** A critical section whose body amounts to one change of state. *)
Lemma returns_section {A B} lk s (m : K A) (k : A -> K B) (g : kstate -> kstate) a Q :
  off_cpu g -> lock_free lk s -> cpu_ready s ->
  (forall w, m (enter lk s) w = Ok a (g (enter lk s)) w) ->
  (same_rest s (settle (g s)) -> returns (settle (g s)) (k a) Q) ->
  returns s (acquire lk ;; a ← m; release lk ;; k a) Q.
Proof.
  intros Hg Hl [Hc Hn] Hm Hk. assert (Hs : same_rest s (settle (g s))).
  { unfold same_rest, settle, settle_cpu; cbn. by rewrite off_cpu_locks, off_cpu_kcpu. }
  intros w. rewrite acquire_then by done. rewrite (bind_ok _ _ _ _ _ _ _ (Hm w)).
  rewrite (bind_ok _ _ _ _ _ _ _ (release_section lk g s w Hg Hl (conj Hc Hn))). destruct (Hk Hs w) as (b & s' & E & Hs' & HQ).
  exists b, s'. split_and!; [done|by etransitivity|done].
Qed.

(** * Sleep locks *)

Definition sleep_word (lk : sleeplockid) (x : fsstate) : Z :=
  sl_locked (default zero_sleeplock (sleeplocks x !! lk)).
Definition set_sleep (lk : sleeplockid) (v : sleeplock) (x : fsstate) : fsstate :=
  x <| sleeplocks ::= insert lk v |>.

Lemma returns_acquire_sleep s lk (Q : unit -> kstate -> Prop) :
  calm s -> lock_free (SLEEPLK lk) s -> sleep_word lk (fs s) = 0 ->
  (forall s' v, sl_locked v = 1 -> fs s' = set_sleep lk v (fs s) -> Q tt s') ->
  returns s (acquiresleep lk) Q.
Proof.
  intros Hc Hfree Hl HQ. destruct (calm_cur s Hc) as [i Hi].
  set (v := get_sleeplock lk s <| sl_locked := 1 |> <| sl_pid := pid (getp i s) |>).
  set (g := fun s : kstate => s <| fs ::= set_sleep lk v |>).
  intros w. unfold acquiresleep. rewrite acquire_then by done.
  rewrite (bind_ok _ _ _ w tt (enter (SLEEPLK lk) s) w).
  2:{ apply loop_now. rewrite bind_gets. unfold get_sleeplock. cbn [fs enter].
      change (fs (enter (SLEEPLK lk) s)) with (fs s). unfold sleep_word in Hl. by rewrite Hl. }
  unfold upd_sleeplock. rewrite bind_modify. unfold myproc. rewrite !bind_assoc, bind_gets.
  change (cur (kcpu (setter fs _ _))) with (cur (kcpu s)). rewrite Hi, bind_mret. unfold get_proc.
  rewrite bind_gets, bind_modify.
  match goal with |- exists _ _, release _ ?s1 _ = _ /\ _ => assert (E : s1 = g (enter (SLEEPLK lk) s)) end.
  { unfold g, set_sleep, v, get_sleeplock. destruct s as [c l ? ? ? ? ? ? ? ? ? ? ? ? ? ? ? ? ? x ? ?]. destruct x. cbn.
    rewrite !lookup_insert_eq, insert_insert_eq. done. }
  rewrite E, release_section by ((by intros ???) || done || by apply calm_cpu).
  eexists tt, _. split_and!; [done|by unfold same_rest|]. by apply (HQ _ v).
Qed.

Lemma returns_holding_sleep s lk (Q : Z -> kstate -> Prop) :
  calm s -> lock_free (SLEEPLK lk) s ->
  (forall s', same_rest s s' -> fs s' = fs s -> Q (sleep_word lk (fs s)) s') ->
  returns s (holdingsleep lk) Q.
Proof.
  intros Hc Hfree HQ. unfold holdingsleep. apply (returns_section _ _ _ _ id (sleep_word lk (fs s))).
  - by intros ???.
  - done.
  - by apply calm_cpu.
  - done.
  - intros Hs. apply returns_ret. by apply HQ.
Qed.

Lemma returns_release_sleep s lk (Q : unit -> kstate -> Prop) :
  calm s -> lock_free (SLEEPLK lk) s ->
  (forall s', fs s' = set_sleep lk zero_sleeplock (fs s) -> Q tt s') ->
  returns s (releasesleep lk) Q.
Proof.
  intros Hc Hfree HQ. intros w. unfold releasesleep, upd_sleeplock. rewrite acquire_then by done.
  rewrite !bind_modify.
  erewrite bind_ok.
  2:{ apply (wakeup_in_section (SLEEPLK lk) _ s); [done|by apply calm_ptable|by apply calm_cpu|done|done]. }
  set (g := fun s : kstate => s <| fs ::= set_sleep lk zero_sleeplock |>
    <| ptable ::= fmap (wakeup1_proc (Some (CH_SLEEPLOCK lk))) |>).
  match goal with |- exists _ _, release _ ?s1 _ = _ /\ _ => assert (E : s1 = g (enter (SLEEPLK lk) s)) end.
  { unfold g, set_sleep, get_sleeplock. destruct s as [c l ? ? ? ? ? ? ? ? ? ? ? ? ? ? ? ? ? x ? ?]. destruct x. cbn.
    rewrite !lookup_insert_eq, insert_insert_eq. done. }
  rewrite E, release_section by ((by intros ???) || done || by apply calm_cpu).
  eexists tt, _. split_and!; [done|by unfold same_rest|]. by apply HQ.
Qed.

(** The locks of the buffers. *)
Definition lock_word (b : nat) : fsstate -> Z := sleep_word (BUFLK b).
Definition set_sleeplock (b : nat) : sleeplock -> fsstate -> fsstate := set_sleep (BUFLK b).

Lemma returns_acquiresleep s b (Q : unit -> kstate -> Prop) :
  calm s -> (b < NBUF)%nat -> lock_word b (fs s) = 0 ->
  (forall s' v, sl_locked v = 1 -> fs s' = set_sleeplock b v (fs s) -> Q tt s') ->
  returns s (acquiresleep (BUFLK b)) Q.
Proof. intros Hc Hb. apply returns_acquire_sleep; [done|by apply calm_bufs]. Qed.

Lemma returns_holdingsleep s b (Q : Z -> kstate -> Prop) :
  calm s -> (b < NBUF)%nat ->
  (forall s', same_rest s s' -> fs s' = fs s -> Q (lock_word b (fs s)) s') ->
  returns s (holdingsleep (BUFLK b)) Q.
Proof. intros Hc Hb. apply returns_holding_sleep; [done|by apply calm_bufs]. Qed.

Lemma returns_releasesleep s b (Q : unit -> kstate -> Prop) :
  calm s -> (b < NBUF)%nat ->
  (forall s', fs s' = set_sleeplock b zero_sleeplock (fs s) -> Q tt s') ->
  returns s (releasesleep (BUFLK b)) Q.
Proof. intros Hc Hb. apply returns_release_sleep; [done|by apply calm_bufs]. Qed.

(** * The state of the cache *)

Definition buffer (b : nat) (x : fsstate) : buf := default zero_buf (bufs x !! b).
Definition set_buffer (b : nat) (v : buf) (x : fsstate) : fsstate := x <| bufs ::= <[b := v]> |>.
Abbreviation content := (Z -> list Z).
Definition write (D : content) (n : Z) (d : list Z) : content := fun m => if m =? n then d else D m.

(** [cache N H D Pn x]: the drive holds [D], in [N] blocks; the buffers in [H] are locked
    by the caller, with the contents [H] gives them; of the others, the dirty
    ones hold the blocks [Pn] that the log keeps in memory, and the clean
    valid ones agree with the drive. *)
Record cache (N : Z) (H : gmap nat buf) (D : content) (Pn : gmap Z (list Z)) (x : fsstate) : Prop := {
  c_disk : disk x 1 = D;
  c_size : disksize x = N;
  c_length : length (bufs x) = NBUF;
  c_lru : lru x ≡ₚ seq 0 NBUF;
  c_held b v : H !! b = Some v ->
    (b < NBUF)%nat /\ buffer b x = v /\ bdev v = 1 /\ refcnt v = 1 /\ lock_word b x = 1 /\
    (bflags v = 2 \/ (bflags v = 6 /\ Pn !! blockno v = Some (bdata v)));
  c_free b : H !! b = None -> (b < NBUF)%nat -> refcnt (buffer b x) = 0 /\ lock_word b x = 0;
  c_clean b : H !! b = None -> (b < NBUF)%nat ->
    bflags (buffer b x) = 0 \/
    (bdev (buffer b x) = 1 /\ bflags (buffer b x) = 2 /\ bdata (buffer b x) = D (blockno (buffer b x))) \/
    (bdev (buffer b x) = 1 /\ bflags (buffer b x) = 6 /\ Pn !! blockno (buffer b x) = Some (bdata (buffer b x)));
  c_unique b b' : (b < NBUF)%nat -> (b' < NBUF)%nat -> bdev (buffer b x) = 1 -> bdev (buffer b' x) = 1 ->
    blockno (buffer b x) = blockno (buffer b' x) -> b = b';
  c_pinned n d : Pn !! n = Some d -> exists b, (b < NBUF)%nat /\ bdev (buffer b x) = 1 /\
    blockno (buffer b x) = n /\ bflags (buffer b x) = 6 /\ bdata (buffer b x) = d
}.

Lemma buffer_set_eq b v x : (b < length (bufs x))%nat -> buffer b (set_buffer b v x) = v.
Proof. intros Hb. unfold buffer, set_buffer; cbn. by rewrite list_lookup_insert_eq. Qed.
Lemma buffer_set_ne b b' v x : b <> b' -> buffer b' (set_buffer b v x) = buffer b' x.
Proof. intros Hb. unfold buffer, set_buffer; cbn. by rewrite list_lookup_insert_ne. Qed.
Lemma buffer_lock b b' v x : buffer b' (set_sleeplock b v x) = buffer b' x.
Proof. done. Qed.
Lemma lock_word_eq b v x : lock_word b (set_sleeplock b v x) = sl_locked v.
Proof. unfold lock_word, sleep_word, set_sleeplock, set_sleep; cbn. by rewrite lookup_insert_eq. Qed.
Lemma lock_word_ne b b' v x : b <> b' -> lock_word b' (set_sleeplock b v x) = lock_word b' x.
Proof. intros Hb. unfold lock_word, sleep_word, set_sleeplock, set_sleep; cbn. rewrite lookup_insert_ne; congruence. Qed.
Lemma lock_word_buffer b b' v x : lock_word b' (set_buffer b v x) = lock_word b' x.
Proof. done. Qed.
Lemma upd_buf_set b f x : (b < length (bufs x))%nat ->
  x <| bufs ::= alter f b |> = set_buffer b (f (buffer b x)) x.
Proof.
  intros Hb. unfold set_buffer, buffer. destruct (lookup_lt_is_Some_2 (bufs x) b Hb) as [v Hv]. rewrite Hv.
  destruct x; cbn in *. by rewrite (list_alter_insert _ _ _ _ Hv).
Qed.

Lemma upd_buf_eq b f s w : (b < length (bufs (fs s)))%nat ->
  upd_buf b f s w = Ok tt (s <| fs ::= set_buffer b (f (buffer b (fs s))) |>) w.
Proof.
  intros Hb. unfold upd_buf, upd_fs, modify. pose proof (upd_buf_set b f (fs s) Hb) as E.
  destruct s; cbn in *. by rewrite E.
Qed.

(** Enough buffers: if the held and the pinned ones are fewer than all, one
    can be recycled. *)
Lemma spare_buffer N H D Pn x :
  cache N H D Pn x -> (size H + size Pn < NBUF)%nat ->
  exists b, (b < NBUF)%nat /\ H !! b = None /\ bflags (buffer b x) <> 6.
Proof.
  intros Hc Hsz. set (P := fun b => H !! b = None /\ bflags (buffer b x) <> 6).
  destruct (decide (Exists P (seq 0 NBUF))) as [He|Hn].
  { apply Exists_exists in He as (b & Hb%elem_of_seq & ? & ?). exists b. split_and!; [lia|done..]. }
  exfalso. assert (Hall : forall b, (b < NBUF)%nat -> H !! b = None -> bflags (buffer b x) = 6).
  { intros b Hb Hh. destruct (decide (bflags (buffer b x) = 6)) as [|Hf]; [done|]. destruct Hn.
    apply Exists_exists. exists b. split; [apply elem_of_seq; lia|by split]. }
  set (X := set_seq 0 NBUF ∖ dom H : gset nat).
  assert (HX : (NBUF <= size H + size X)%nat).
  { rewrite <- (size_set_seq (C:=gset nat) 0 NBUF), <- (size_dom (D:=gset nat) H).
    rewrite <- size_union by (unfold X; set_solver). apply subseteq_size. unfold X. intros b Hb.
    destruct (decide (b ∈ dom H)); set_solver. }
  assert (HP : (size X <= size Pn)%nat); [|lia].
  assert (Hd : forall b, b ∈ X -> (b < NBUF)%nat /\ bdev (buffer b x) = 1 /\ is_Some (Pn !! blockno (buffer b x))).
  { intros b Hb. unfold X in Hb. apply elem_of_difference in Hb as [Hb%elem_of_set_seq Hh%not_elem_of_dom].
    specialize (Hall b ltac:(lia) Hh). destruct (c_clean _ _ _ _ _ Hc b Hh ltac:(lia)) as [?|[(?&?&?)|(?&?&?)]]; try lia.
    split_and!; [lia|done|eauto]. }
  rewrite <- (size_dom (D:=gset Z) Pn).
  transitivity (size (list_to_set (C:=gset Z) ((fun b => blockno (buffer b x)) <$> elements X))).
  - rewrite size_list_to_set; [by rewrite length_fmap|]. apply NoDup_fmap_2_strong; [|apply NoDup_elements].
    intros b b' Hb%elem_of_elements%Hd Hb'%elem_of_elements%Hd. destruct Hb as (?&?&_), Hb' as (?&?&_).
    by apply (c_unique _ _ _ _ _ Hc).
  - apply subseteq_size. intros n Hn'. apply elem_of_list_to_set, list_elem_of_fmap in Hn' as (b & -> & Hb).
    apply elem_of_elements, Hd in Hb. apply elem_of_dom. tauto.
Qed.

(** The buffer that has block [n], if one does. *)
Definition has_block (x : fsstate) (n : Z) (b : nat) : Prop :=
  bdev (buffer b x) = 1 /\ blockno (buffer b x) = n.

(** What [bget] makes of buffer [b]: the buffer of block [n] as it was, or a
    recycled one that is to be filled. *)
Definition obtained (x : fsstate) (n : Z) (b : nat) (v : buf) : Prop :=
  (has_block x n b /\ v = buffer b x <| refcnt := 1 |>) \/
  ((forall b', (b' < NBUF)%nat -> ~ has_block x n b') /\ bflags (buffer b x) <> 6 /\
   v = buffer b x <| bdev := 1 |> <| blockno := n |> <| bflags := 0 |> <| refcnt := 1 |>).

Lemma find_first_Some P `{!forall i, Decision (P i)} l b : find_first P l = Some b -> P b /\ b ∈ l.
Proof.
  unfold find_first. intros Hb. apply (list_elem_of_filter P). destruct (filter P l) as [|y l']; [done|].
  injection Hb as ->. apply elem_of_cons. by left.
Qed.
Lemma find_first_None P `{!forall i, Decision (P i)} l b : find_first P l = None -> b ∈ l -> ~ P b.
Proof.
  unfold find_first. intros Hb Hl HP. assert (Hin : b ∈ filter P l) by by apply list_elem_of_filter.
  destruct (filter P l); [set_solver|done].
Qed.

Lemma returns_bget N H D Pn s n (Q : nat -> kstate -> Prop) :
  calm s -> cache N H D Pn (fs s) -> (size H + size Pn < NBUF)%nat \/ is_Some (Pn !! n) ->
  (forall b v, H !! b = Some v -> blockno v <> n) ->
  (forall b v lv s', (b < NBUF)%nat -> H !! b = None -> obtained (fs s) n b v -> sl_locked lv = 1 ->
     fs s' = set_sleeplock b lv (set_buffer b v (fs s)) -> Q b s') ->
  returns s (bget 1 n) Q.
Proof.
  intros Hc HH Hsz Hn HQ. 
  pose proof (c_length _ _ _ _ _ HH) as Hlen.
  assert (Hfin : forall b v f, (b < NBUF)%nat -> H !! b = None -> obtained (fs s) n b v -> f (buffer b (fs s)) = v ->
    returns s (acquire BCACHE ;; (upd_buf b f ;; release BCACHE ;; acquiresleep (BUFLK b) ;; mret b)) Q).
  { intros b v f Hb Hh Hob Hf.
    apply (returns_section BCACHE s (upd_buf b f) (fun _ => acquiresleep (BUFLK b) ;; mret b)
      (fun s => s <| fs ::= set_buffer b v |>) tt).
    - by intros ???.
    - by apply calm_bcache.
    - by apply calm_cpu.
    - intros w. rewrite upd_buf_eq by (cbn; lia). cbn [fs]. by rewrite <- Hf.
    - intros Hs. apply returns_bind. apply returns_acquiresleep; [by eapply calm_same|done|apply (c_free _ _ _ _ _ HH b Hh Hb)|].
      intros s' lv Hlv Hfs Hs'. apply returns_ret. by eapply HQ. }
  intros w. unfold bget. rewrite acquire_then by (done || by apply calm_bcache). rewrite bind_gets.
  change (fs (enter BCACHE s)) with (fs s).
  assert (Hrun : forall b v f, (b < NBUF)%nat -> H !! b = None -> obtained (fs s) n b v -> f (buffer b (fs s)) = v ->
    exists a s', (upd_buf b f ;; release BCACHE ;; acquiresleep (BUFLK b) ;; mret b) (enter BCACHE s) w = Ok a s' w /\
      same_rest s s' /\ Q a s').
  { intros b v f Hb Hh Hob Hf. destruct (Hfin b v f Hb Hh Hob Hf w) as (a & s' & E & Hs & Hq).
    rewrite acquire_then in E by (done || by apply calm_bcache). eauto. }
  clear Hfin HQ. destruct (find_first _ (lru _)) as [b|] eqn:Eb.
  - apply find_first_Some in Eb as [Hb Hin]. rewrite (c_lru _ _ _ _ _ HH) in Hin. apply elem_of_seq in Hin.
    assert (Hh : H !! b = None).
    { destruct (H !! b) as [v|] eqn:Hh; [|done]. destruct (c_held _ _ _ _ _ HH b v Hh) as (_ & Hv & _).
      destruct (Hn b v Hh). rewrite <- Hv. apply Hb. }
    apply (Hrun b (buffer b (fs s) <| refcnt := 1 |>)); [lia|done|by left|].
    destruct (c_free _ _ _ _ _ HH b Hh ltac:(lia)) as [Hr _]. destruct (buffer b (fs s)) as [? ? ? r ?].
    cbn in *. by rewrite Hr.
  - assert (Hno : forall b, (b < NBUF)%nat -> ~ has_block (fs s) n b).
    { intros b Hb. apply (find_first_None _ _ b Eb). rewrite (c_lru _ _ _ _ _ HH). apply elem_of_seq. lia. }
    destruct Hsz as [Hsz|[d Hd]].
    2:{ destruct (c_pinned _ _ _ _ _ HH n d Hd) as (b & Hb & ? & ? & _). destruct (Hno b Hb). by split. }
    destruct (find_first _ (reverse _)) as [b|] eqn:Er.
    + apply find_first_Some in Er as [[Hr Hd] Hin]. rewrite elem_of_reverse, (c_lru _ _ _ _ _ HH) in Hin.
      apply elem_of_seq in Hin. fold (buffer b (fs s)) in Hr, Hd.
      assert (Hh : H !! b = None).
      { destruct (H !! b) as [v|] eqn:Hh; [|done].
        destruct (c_held _ _ _ _ _ HH b v Hh) as (_ & Hv & _ & Hv1 & _). rewrite <- Hv in Hv1. lia. }
      eapply (Hrun b); [lia|done|right; split_and!; [done| |reflexivity]|done].
      intros Hf. unfold bflag in Hd. by rewrite Hf in Hd.
    + destruct (spare_buffer _ _ _ _ _ HH Hsz) as (b & Hb & Hh & Hf).
      destruct (find_first_None _ _ b Er).
      { rewrite elem_of_reverse, (c_lru _ _ _ _ _ HH). apply elem_of_seq. lia. }
      split; fold (buffer b (fs s)); [by apply (c_free _ _ _ _ _ HH)|]. unfold bflag.
      destruct (c_clean _ _ _ _ _ HH b Hh Hb) as [->|[(_ & -> & _)|(_ & ? & _)]]; done.
Qed.

(** * Changes of the cache *)

(** A buffer whose block is known. *)
Definition loaded (D : content) (Pn : gmap Z (list Z)) (n : Z) : buf :=
  mkBuf (if decide (is_Some (Pn !! n)) then 6 else 2) 1 n 1 (default (D n) (Pn !! n)).

Ltac buffer_cases b b' :=
  destruct (decide (b = b')) as [<-|?];
  rewrite ?lookup_insert_eq, ?lookup_insert_ne, ?lookup_delete_eq, ?lookup_delete_ne, ?buffer_lock, ?lock_word_eq,
    ?lock_word_ne, ?lock_word_buffer, ?buffer_set_ne, ?buffer_set_eq in * by (done || congruence).

Lemma cache_take N H D Pn x b lv n :
  cache N H D Pn x -> (b < NBUF)%nat -> H !! b = None -> sl_locked lv = 1 ->
  (forall b', (b' < NBUF)%nat -> b' <> b -> ~ has_block x n b') ->
  (bflags (buffer b x) = 6 -> has_block x n b) ->
  cache N (<[b := loaded D Pn n]> H) D Pn (set_sleeplock b lv (set_buffer b (loaded D Pn n) x)).
Proof.
  intros Hc Hb Hh Hlv Hoth Hd. assert (Hl : (b < length (bufs x))%nat) by by rewrite (c_length _ _ _ _ _ Hc).
  split.
  - apply Hc.
  - apply Hc.
  - cbn. rewrite length_insert. apply Hc.
  - apply Hc.
  - intros b' v Hv. buffer_cases b b'; [|by apply Hc]. injection Hv as <-. split_and!; try done.
    unfold loaded. destruct (decide _) as [[d Hd']|]; cbn; rewrite ?Hd'; auto.
  - intros b' Hb' Hlt. buffer_cases b b'; [done|]. by apply Hc.
  - intros b' Hb' Hlt. buffer_cases b b'; [done|]. by apply Hc.
  - intros b1 b2 H1 H2. destruct (decide (b = b1)) as [<-|N1], (decide (b = b2)) as [<-|N2];
      rewrite !buffer_lock, ?(buffer_set_eq b), ?(buffer_set_ne b) by done; cbn; intros Hd1 Hd2 Hbn.
    + done.
    + destruct (Hoth b2 H2 ltac:(done)). by split.
    + destruct (Hoth b1 H1 ltac:(done)). by split.
    + by apply (c_unique _ _ _ _ _ Hc).
  - intros m d Hm. destruct (c_pinned _ _ _ _ _ Hc m d Hm) as (b' & Hb' & Hdev & Hno & Hf & Hdat).
    exists b'. split; [done|]. destruct (decide (b = b')) as [<-|Hne].
    + destruct (Hd Hf) as [_ Hn]. rewrite Hn in Hno. subst m. rewrite buffer_lock, buffer_set_eq by done.
      unfold loaded. by rewrite Hm, decide_True by eauto.
    + by rewrite buffer_lock, buffer_set_ne by done.
Qed.

(** Changing the data of a locked buffer that is not pinned. *)
Lemma cache_edit N H D Pn x b v d :
  cache N H D Pn x -> H !! b = Some v -> bflags v = 2 ->
  cache N (<[b := v <| bdata := d |>]> H) D Pn (set_buffer b (v <| bdata := d |>) x).
Proof.
  intros Hc Hv Hf. destruct (c_held _ _ _ _ _ Hc b v Hv) as (Hb & Hbv & Hdev & Hr & Hw & _).
  assert (Hl : (b < length (bufs x))%nat) by by rewrite (c_length _ _ _ _ _ Hc).
  assert (Hsame : forall b', bdev (buffer b' (set_buffer b (v <| bdata := d |>) x)) = bdev (buffer b' x) /\
    blockno (buffer b' (set_buffer b (v <| bdata := d |>) x)) = blockno (buffer b' x)).
  { intros b'. buffer_cases b b'; [|done]. by rewrite Hbv. }
  split.
  - apply Hc.
  - apply Hc.
  - cbn. rewrite length_insert. apply Hc.
  - apply Hc.
  - intros b' v' Hv'. buffer_cases b b'; [|by apply Hc]. injection Hv' as <-. split_and!; try done. by left.
  - intros b' Hb' Hlt. buffer_cases b b'; [done|]. by apply Hc.
  - intros b' Hb' Hlt. buffer_cases b b'; [done|]. by apply Hc.
  - intros b1 b2 H1 H2. destruct (Hsame b1) as [-> ->], (Hsame b2) as [-> ->]. by apply (c_unique _ _ _ _ _ Hc).
  - intros m d' Hm. destruct (c_pinned _ _ _ _ _ Hc m d' Hm) as (b' & Hb' & Hdev' & Hno & Hf' & Hdat).
    exists b'. split; [done|]. buffer_cases b b'; [|done]. exfalso. rewrite Hbv in Hf'. lia.
Qed.

(** Pinning a locked buffer, with what it then holds. *)
Lemma cache_pin N H D Pn x b v d :
  cache N H D Pn x -> H !! b = Some v ->
  cache N (<[b := v <| bdata := d |> <| bflags := 6 |>]> H) D (<[blockno v := d]> Pn)
    (set_buffer b (v <| bdata := d |> <| bflags := 6 |>) x).
Proof.
  intros Hc Hv. destruct (c_held _ _ _ _ _ Hc b v Hv) as (Hb & Hbv & Hdev & Hr & Hw & Hflag).
  assert (Hl : (b < length (bufs x))%nat) by by rewrite (c_length _ _ _ _ _ Hc).
  set (u := v <| bdata := d |> <| bflags := 6 |>).
  assert (Hsame : forall b', bdev (buffer b' (set_buffer b u x)) = bdev (buffer b' x) /\
    blockno (buffer b' (set_buffer b u x)) = blockno (buffer b' x)).
  { intros b'. buffer_cases b b'; [|done]. by rewrite Hbv. }
  assert (Hne : forall b', (b' < NBUF)%nat -> b <> b' -> bdev (buffer b' x) = 1 -> blockno (buffer b' x) <> blockno v).
  { intros b' Hb' Hn Hdev' Hno. apply Hn. apply (c_unique _ _ _ _ _ Hc); try done; by rewrite Hbv. }
  split.
  - apply Hc.
  - apply Hc.
  - cbn. rewrite length_insert. apply Hc.
  - apply Hc.
  - intros b' v' Hv'. destruct (decide (b = b')) as [<-|Hn].
    + rewrite lookup_insert_eq in Hv'. injection Hv' as <-. rewrite buffer_set_eq by done. split_and!; try done.
      right. split; [done|]. by rewrite lookup_insert_eq.
    + rewrite lookup_insert_ne in Hv' by done. rewrite buffer_set_ne by done.
      destruct (c_held _ _ _ _ _ Hc b' v' Hv') as (Hb' & Hbv' & Hdev' & Hr' & Hw' & Hfl). split_and!; try done.
      destruct Hfl as [|[Hf6 HP]]; [by left|right]. split; [done|]. rewrite lookup_insert_ne; [done|].
      rewrite <- Hbv'. apply not_eq_sym, Hne; [done..|by rewrite Hbv'].
  - intros b' Hb' Hlt. buffer_cases b b'; [done|]. by apply Hc.
  - intros b' Hb' Hlt. buffer_cases b b'; [done|]. specialize (Hne b' Hlt ltac:(done)).
    destruct (c_clean _ _ _ _ _ Hc b' Hb' Hlt) as [?|[?|(Hd' & Hf' & HP)]]; [by left|by right; left|right; right].
    split_and!; [done..|]. rewrite lookup_insert_ne; [done|]. by apply not_eq_sym, Hne.
  - intros b1 b2 H1 H2. destruct (Hsame b1) as [-> ->], (Hsame b2) as [-> ->]. by apply (c_unique _ _ _ _ _ Hc).
  - intros m d' Hm. apply lookup_insert_Some in Hm as [[<- <-]|[Hmn Hm]].
    + exists b. rewrite buffer_set_eq by done. by split_and!.
    + destruct (c_pinned _ _ _ _ _ Hc m d' Hm) as (b' & Hb' & Hdev' & Hno & Hf' & Hdat).
      exists b'. split; [done|]. buffer_cases b b'; [|done]. rewrite Hbv in Hno. done.
Qed.

(** Writing a locked buffer to the drive. *)
Lemma cache_write N H D Pn x b v :
  cache N H D Pn x -> H !! b = Some v ->
  cache N (<[b := v <| bflags := 2 |>]> H) (write D (blockno v) (bdata v)) (delete (blockno v) Pn)
    (set_buffer b (v <| bflags := 2 |>) (disk_write 1 (blockno v) (bdata v) x)).
Proof.
  intros Hc Hv. destruct (c_held _ _ _ _ _ Hc b v Hv) as (Hb & Hbv & Hdev & Hr & Hw & Hflag).
  assert (Hl : (b < length (bufs x))%nat) by by rewrite (c_length _ _ _ _ _ Hc).
  set (x1 := disk_write 1 (blockno v) (bdata v) x).
  assert (Hx1 : forall b, buffer b x1 = buffer b x) by done.
  assert (Hl1 : (b < length (bufs x1))%nat) by done.
  assert (Hsame : forall b', bdev (buffer b' (set_buffer b (v <| bflags := 2 |>) x1)) = bdev (buffer b' x) /\
    blockno (buffer b' (set_buffer b (v <| bflags := 2 |>) x1)) = blockno (buffer b' x)).
  { intros b'. buffer_cases b b'; [by rewrite Hbv|by rewrite Hx1]. }
  assert (Hne : forall b', (b' < NBUF)%nat -> b <> b' -> bdev (buffer b' x) = 1 -> blockno (buffer b' x) <> blockno v).
  { intros b' Hb' Hn Hdev' Hno. apply Hn. apply (c_unique _ _ _ _ _ Hc); try done; by rewrite Hbv. }
  split.
  - cbn. by rewrite (c_disk _ _ _ _ _ Hc).
  - apply Hc.
  - cbn. rewrite length_insert. apply Hc.
  - apply Hc.
  - intros b' v' Hv'. destruct (decide (b = b')) as [<-|Hn].
    + rewrite lookup_insert_eq in Hv'. injection Hv' as <-. rewrite buffer_set_eq by done. split_and!; try done. by left.
    + rewrite lookup_insert_ne in Hv' by done. rewrite buffer_set_ne, Hx1 by done.
      destruct (c_held _ _ _ _ _ Hc b' v' Hv') as (Hb' & Hbv' & Hdev' & Hr' & Hw' & Hfl). split_and!; try done.
      destruct Hfl as [|[Hf6 HP]]; [by left|right]. split; [done|]. rewrite lookup_delete_ne; [done|].
      rewrite <- Hbv'. apply not_eq_sym, Hne; [done..|by rewrite Hbv'].
  - intros b' Hb' Hlt. buffer_cases b b'; [done|]. rewrite Hx1. by apply Hc.
  - intros b' Hb' Hlt. buffer_cases b b'; [done|]. rewrite Hx1. specialize (Hne b' Hlt ltac:(done)).
    destruct (c_clean _ _ _ _ _ Hc b' Hb' Hlt) as [?|[(Hd' & Hf' & Hdat)|(Hd' & Hf' & HP)]]; [by left|right; left|right; right].
    + split_and!; [done..|]. unfold write. specialize (Hne Hd'). destruct (Z.eqb_spec (blockno (buffer b' x)) (blockno v)); done.
    + split_and!; [done..|]. rewrite lookup_delete_ne; [done|]. by apply not_eq_sym, Hne.
  - intros b1 b2 H1 H2. destruct (Hsame b1) as [-> ->], (Hsame b2) as [-> ->]. by apply (c_unique _ _ _ _ _ Hc).
  - intros m d' Hm. apply lookup_delete_Some in Hm as [Hmn Hm].
    destruct (c_pinned _ _ _ _ _ Hc m d' Hm) as (b' & Hb' & Hdev' & Hno & Hf' & Hdat).
    exists b'. split; [done|]. buffer_cases b b'; [|done]. rewrite Hbv in Hno. done.
Qed.

(** [brelse]: the buffer becomes the most recently used one. *)
Definition to_front (b : nat) (x : fsstate) : fsstate :=
  x <| lru ::= fun l => b :: filter (fun j => j <> b) l |>.

Lemma to_front_perm b (l : list nat) : NoDup l -> b ∈ l -> b :: filter (fun j => j <> b) l ≡ₚ l.
Proof.
  intros Hnd Hb. apply NoDup_Permutation; [|done|].
  - apply NoDup_cons. split; [|by apply NoDup_filter]. intros [? _]%list_elem_of_filter. done.
  - intros j. rewrite elem_of_cons, list_elem_of_filter. destruct (decide (j = b)) as [->|]; naive_solver.
Qed.

Lemma cache_give N H D Pn x b v :
  cache N H D Pn x -> H !! b = Some v -> (bflags v = 2 -> bdata v = D (blockno v)) ->
  cache N (delete b H) D Pn
    (to_front b (set_buffer b (v <| refcnt := 0 |>) (set_sleeplock b zero_sleeplock x))).
Proof.
  intros Hc Hv Hdat. destruct (c_held _ _ _ _ _ Hc b v Hv) as (Hb & Hbv & Hdev & Hr & Hw & Hflag).
  assert (Hl : (b < length (bufs x))%nat) by by rewrite (c_length _ _ _ _ _ Hc).
  set (x1 := set_buffer b (v <| refcnt := 0 |>) (set_sleeplock b zero_sleeplock x)).
  assert (E : buffer b (to_front b x1) = v <| refcnt := 0 |>) by by apply buffer_set_eq.
  assert (Ene : forall b', b <> b' -> buffer b' (to_front b x1) = buffer b' x) by (intros; by apply (buffer_set_ne b b' _ (set_sleeplock b zero_sleeplock x))).
  assert (W : lock_word b (to_front b x1) = 0) by apply (lock_word_eq b zero_sleeplock x).
  assert (Wne : forall b', b <> b' -> lock_word b' (to_front b x1) = lock_word b' x) by (intros; by apply (lock_word_ne b b' zero_sleeplock x)).
  assert (Hsame : forall b', bdev (buffer b' (to_front b x1)) = bdev (buffer b' x) /\
    blockno (buffer b' (to_front b x1)) = blockno (buffer b' x) /\
    bflags (buffer b' (to_front b x1)) = bflags (buffer b' x) /\
    bdata (buffer b' (to_front b x1)) = bdata (buffer b' x)).
  { intros b'. destruct (decide (b = b')) as [<-|Hn]; [by rewrite E, Hbv|by rewrite Ene]. }
  split.
  - apply Hc.
  - apply Hc.
  - cbn. rewrite length_insert. apply Hc.
  - cbn. rewrite to_front_perm; [apply Hc|rewrite (c_lru _ _ _ _ _ Hc); apply NoDup_seq|].
    rewrite (c_lru _ _ _ _ _ Hc). apply elem_of_seq. lia.
  - intros b' v' [Hn Hv']%lookup_delete_Some. rewrite Ene, Wne by done. by apply Hc.
  - intros b' Hb' Hlt. destruct (decide (b = b')) as [<-|Hn]; [by rewrite E|].
    rewrite lookup_delete_ne in Hb' by done. rewrite Ene, Wne by done. by apply Hc.
  - intros b' Hb' Hlt. destruct (decide (b = b')) as [<-|Hn].
    + rewrite E; cbn. destruct Hflag as [Hf|[Hf HP]]; [right; left|right; right]; auto.
    + rewrite lookup_delete_ne in Hb' by done. rewrite Ene by done. by apply Hc.
  - intros b1 b2 H1 H2. destruct (Hsame b1) as (-> & -> & _), (Hsame b2) as (-> & -> & _). by apply (c_unique _ _ _ _ _ Hc).
  - intros m d' Hm. destruct (c_pinned _ _ _ _ _ Hc m d' Hm) as (b' & ?). exists b'.
    by destruct (Hsame b') as (-> & -> & -> & ->).
Qed.

Lemma returns_brelse N H D Pn s b v (Q : unit -> kstate -> Prop) :
  calm s -> cache N H D Pn (fs s) -> H !! b = Some v -> (bflags v = 2 -> bdata v = D (blockno v)) ->
  (forall s', cache N (delete b H) D Pn (fs s') -> flog (fs s') = flog (fs s) -> Q tt s') ->
  returns s (brelse b) Q.
Proof.
  intros Hc HH Hv Hdat HQ. destruct (c_held _ _ _ _ _ HH b v Hv) as (Hb & Hbv & Hdev & Hr & Hw & Hflag).
  pose proof (c_length _ _ _ _ _ HH) as Hlen. unfold brelse. apply returns_bind, returns_holdingsleep; [done..|].
  intros s1 Hs1 Hfs1 _. rewrite Hw. change (1 =? 0) with false. cbn iota.
  apply returns_bind, returns_releasesleep; [by eapply calm_same|done|].
  intros s2 Hfs2 Hs2. pose proof (calm_same _ _ (transitivity Hs1 Hs2) Hc) as Hc2. rewrite Hfs1 in Hfs2.
  set (g := fun s : kstate => s <| fs ::= fun x => to_front b (set_buffer b (v <| refcnt := 0 |>) x) |>).
  intros w. rewrite acquire_then by (done || by apply calm_bcache).
  assert (Hl2 : (b < length (bufs (fs (enter BCACHE s2))))%nat) by (change (fs (enter BCACHE s2)) with (fs s2); rewrite Hfs2; cbn; lia).
  rewrite (bind_ok _ _ _ _ _ _ _ (upd_buf_eq b _ _ w Hl2)). rewrite bind_gets.
  change (fs (enter BCACHE s2)) with (fs s2).
  assert (Eb : buffer b (fs s2) = v) by by rewrite Hfs2, buffer_lock. rewrite Eb.
  match goal with |- context [get_buf b ?s3] => assert (Eb3 : get_buf b s3 = v <| refcnt := 0 |>) end.
  { unfold get_buf. cbn. rewrite list_lookup_insert_eq by done. cbn. by rewrite Hr. }
  rewrite Eb3. change (refcnt (v <| refcnt := 0 |>) =? 0) with true. unfold when, upd_fs. rewrite bind_modify.
  match goal with |- exists _ _, release _ ?s1 _ = _ /\ _ => assert (E : s1 = g (enter BCACHE s2)) end.
  { unfold g. destruct s2; cbn. rewrite Hr. done. }
  rewrite E, release_section by ((by intros ???) || (by apply calm_bcache) || by apply calm_cpu).
  eexists tt, _. split_and!; [done|by unfold same_rest|]. apply HQ.
  - cbn. rewrite Hfs2. by apply cache_give.
  - cbn. by rewrite Hfs2.
Qed.
