(* ===== verification/Crash.v ===== *)
(** Crash safety of the log: what is on the drive after a power failure, and
    what recovery makes of it. *)

From S2P Require Import Prelude Control Memory KState Spinlock Format Sched Kalloc Vm Sleeplock.
From S2P Require Import Disk Bio Log Inode Console Fs Pipe File Proc Trap Handoff Layout Cache.

(** memide.c on a machine whose power can fail before each transfer, if
    [fault] is set: a schedule of [k] empty turns lets [k] transfers through,
    and the state in which the run stops is the one in which the power failed.
    With [fault] unset it is memide.c itself ([faulty_off]). *)
Module Faulty.
Definition iderw (fault : bool) (b : nat) : K unit := when fault interfere ;; MemIde.iderw b.
Definition driver (fault : bool) : DiskDriver := Build_DiskDriver (iderw fault) MemIde.ideintr.
End Faulty.

Lemma faulty_off : Faulty.driver false = MemIde.driver.
Proof. reflexivity. Qed.

(** How the code above the log changes a block; [bzero] is an instance. *)
Definition update `{!DiskDriver} (n : Z) (f : list Z -> list Z) : K unit :=
  bp ← bread 1 n;
  upd_data bp f ;;
  log_write bp ;;
  brelse bp.
(** A file system operation: its updates, bracketed by [begin_op] and [end_op]. *)
Definition operation `{!DiskDriver} (us : list (Z * (list Z -> list Z))) : K unit :=
  begin_op ;;
  for_each us (fun u => update (fst u) (snd u)) ;;
  end_op.

Lemma bzero_update `{!DiskDriver} n : bzero 1 n = update n (fun _ => replicate 512 0).
Proof. reflexivity. Qed.

Section Power.
Context (fault : bool).
#[local] Instance the_driver : DiskDriver := Faulty.driver fault.

(** * Runs under power failures *)

(** From [s], [m] returns in [Q], or the power fails with [C] on the drive. *)
Definition survives {A} (C : content -> Prop) (s : kstate) (m : K A) (Q : A -> kstate -> Prop) : Prop :=
  forall k, match m s (replicate k id) with
  | Ok a s' w => same_rest s s' /\ Q a s' /\ exists k', w = replicate k' id
  | Blocked s' => fault = true /\ C (disk (fs s') 1)
  | _ => False
  end.

Lemma survives_returns {A} C s (m : K A) Q : returns s m Q -> survives C s m Q.
Proof. intros Hm k. destruct (Hm (replicate k id)) as (a & s' & -> & Hs & HQ). eauto. Qed.

Lemma survives_bind {A B} C s (m : K A) (f : A -> K B) Q :
  survives C s m (fun a s' => same_rest s s' -> survives C s' (f a) Q) -> survives C s (m ≫= f) Q.
Proof.
  intros Hm k. specialize (Hm k). unfold mbind, M_bind. destruct (m s _) as [a s' w|? ?|s'|s']; try done.
  destruct Hm as (Hs & Hf & k' & ->). specialize (Hf Hs k'). destruct (f a s' _) as [b s2 w|? ?|?|?]; try done.
  destruct Hf as (Hs' & HQ & Hk). split_and!; [by etransitivity|done|done].
Qed.

Lemma survives_mono {A} (C C' : content -> Prop) s (m : K A) (Q Q' : A -> kstate -> Prop) :
  survives C s m Q -> (forall D, C D -> C' D) -> (forall a s', same_rest s s' -> Q a s' -> Q' a s') ->
  survives C' s m Q'.
Proof.
  intros Hm HC HQ k. specialize (Hm k). destruct (m s _) as [a s' w|? ?|s'|s']; try done; [|destruct Hm; auto].
  destruct Hm as (Hs & Hq & Hk). auto.
Qed.

Lemma survives_same {A} C s (m : K A) (Q : A -> kstate -> Prop) :
  survives C s m (fun a s' => same_rest s s' -> Q a s') -> survives C s m Q.
Proof. intros Hm. eapply survives_mono; [exact Hm|done|]. cbn. auto. Qed.

Lemma survives_interfere (C : content -> Prop) s (Q : unit -> kstate -> Prop) :
  C (disk (fs s) 1) -> Q tt s -> survives C s (when fault interfere) Q.
Proof.
  intros HC HQ [|k]; unfold when; destruct fault; cbn; split_and?; try done; [by exists 0%nat|by exists k|by exists (S k)].
Qed.

Lemma survives_ret {A} C s (a : A) (Q : A -> kstate -> Prop) : Q a s -> survives C s (mret a) Q.
Proof. intros HQ. by apply survives_returns, returns_ret. Qed.
Lemma survives_gets {A B} C s (f : kstate -> A) (g : A -> K B) (Q : B -> kstate -> Prop) :
  survives C s (g (f s)) Q -> survives C s (gets f ≫= g) Q.
Proof. done. Qed.

(** * Transfers *)

Lemma set_buffer_twice b u v x : set_buffer b v (set_buffer b u x) = set_buffer b v x.
Proof. unfold set_buffer. destruct x; cbn. by rewrite list_insert_insert_eq. Qed.

Lemma returns_upd_buf s b f (Q : unit -> kstate -> Prop) :
  (b < length (bufs (fs s)))%nat ->
  (forall s', fs s' = set_buffer b (f (buffer b (fs s))) (fs s) -> Q tt s') ->
  returns s (upd_buf b f) Q.
Proof. intros Hb HQ w. rewrite upd_buf_eq by done. eexists tt, _. split_and!; [done|done|]. by apply HQ. Qed.

Lemma iderw_read s b v (Q : unit -> kstate -> Prop) :
  calm s -> (b < NBUF)%nat -> length (bufs (fs s)) = NBUF -> lock_word b (fs s) = 1 ->
  buffer b (fs s) = v -> bflags v = 0 -> bdev v = 1 -> blockno v < disksize (fs s) ->
  (forall s', fs s' = set_buffer b (v <| bdata := disk (fs s) 1 (blockno v) |> <| bflags := 2 |>) (fs s) -> Q tt s') ->
  returns s (MemIde.iderw b) Q.
Proof.
  intros Hc Hb Hlen Hw Hv Hf Hd Hn HQ. unfold MemIde.iderw. apply returns_bind, returns_holdingsleep; [done..|].
  intros s1 Hs1 Hfs1 _. rewrite Hw. change (1 =? 0) with false. cbn iota.
  apply returns_bind, returns_gets. intros _. change (get_buf b s1) with (buffer b (fs s1)). rewrite Hfs1, Hv.
  unfold in_sync, bflag. rewrite Hf, Hd. change (Z.land 0 _ =? B_VALID) with false. change (negb (1 =? 1)) with false.
  change (negb (Z.land 0 B_DIRTY =? 0)) with false. cbn iota.
  apply returns_bind, returns_gets. intros _. rewrite Hfs1. rewrite (proj2 (Z.leb_gt _ _) Hn).
  apply returns_bind, returns_bind, returns_gets. intros _. rewrite Hfs1.
  apply returns_upd_buf; [by rewrite Hfs1, Hlen|]. intros s2 Hfs2 Hs2 Hs2'. rewrite Hfs1, Hv in Hfs2.
  apply returns_upd_buf; [rewrite Hfs2; cbn; by rewrite length_insert, Hlen|]. intros s3 Hfs3. apply HQ.
  rewrite Hfs3, Hfs2, set_buffer_twice, buffer_set_eq by by rewrite Hlen. unfold set_flag. destruct v; cbn in *. by subst.
Qed.

Lemma iderw_write s b v (Q : unit -> kstate -> Prop) :
  calm s -> (b < NBUF)%nat -> length (bufs (fs s)) = NBUF -> lock_word b (fs s) = 1 ->
  buffer b (fs s) = v -> bflags v = 6 -> bdev v = 1 -> blockno v < disksize (fs s) ->
  (forall s', fs s' = set_buffer b (v <| bflags := 2 |>) (disk_write 1 (blockno v) (bdata v) (fs s)) -> Q tt s') ->
  returns s (MemIde.iderw b) Q.
Proof.
  intros Hc Hb Hlen Hw Hv Hf Hd Hn HQ. unfold MemIde.iderw. apply returns_bind, returns_holdingsleep; [done..|].
  intros s1 Hs1 Hfs1 _. rewrite Hw. change (1 =? 0) with false. cbn iota.
  apply returns_bind, returns_gets. intros _. change (get_buf b s1) with (buffer b (fs s1)). rewrite Hfs1, Hv.
  unfold in_sync, bflag. rewrite Hf, Hd. change (Z.land 6 _ =? B_VALID) with false. change (negb (1 =? 1)) with false.
  change (negb (Z.land 6 B_DIRTY =? 0)) with true. cbn iota.
  apply returns_bind, returns_gets. intros _. rewrite Hfs1. rewrite (proj2 (Z.leb_gt _ _) Hn).
  apply returns_bind, returns_bind. apply returns_upd_buf; [by rewrite Hfs1, Hlen|]. intros s2 Hfs2 Hs2.
  rewrite Hfs1, Hv in Hfs2. apply returns_upd_fs. intros _.
  apply returns_upd_buf; [cbn; rewrite Hfs2; cbn; by rewrite length_insert, Hlen|]. intros s3 Hfs3. apply HQ.
  rewrite Hfs3; cbn. rewrite Hfs2. change (disk_write 1 ?n ?d (set_buffer b ?u ?x)) with (set_buffer b u (disk_write 1 n d x)).
  rewrite set_buffer_twice, buffer_set_eq by (cbn; by rewrite Hlen).
  unfold set_flag, clear_flag. destruct v; cbn in *. by subst.
Qed.

(** * The cache operations *)

(** The state between two cache operations: nothing is locked but the
    buffers [H]; the drive, the pinned blocks and the log are as given. *)
Definition at_rest (N : Z) (H : gmap nat buf) (D : content) (Pn : gmap Z (list Z)) (l : log_t) (s : kstate) : Prop :=
  calm s /\ cache N H D Pn (fs s) /\ flog (fs s) = l.

Lemma obtained_cases N H D Pn x n b v :
  cache N H D Pn x -> (b < NBUF)%nat -> H !! b = None -> obtained x n b v ->
  (forall b', (b' < NBUF)%nat -> b' <> b -> ~ has_block x n b') /\
  (bflags (buffer b x) = 6 -> has_block x n b) /\
  ((bflag B_VALID v = true /\ v = loaded D Pn n) \/
   (bflag B_VALID v = false /\ bflags v = 0 /\ bdev v = 1 /\ blockno v = n /\
    v <| bdata := D n |> <| bflags := 2 |> = loaded D Pn n)).
Proof.
  intros HH Hb Hh [[Hbl ->]|(Hno & Hf & ->)].
  - assert (Hoth : forall b', (b' < NBUF)%nat -> b' <> b -> ~ has_block x n b').
    { intros b' Hb' Hne [H1 H2]. apply Hne. destruct Hbl. apply (c_unique _ _ _ _ _ HH); congruence. }
    assert (HP : bflags (buffer b x) <> 6 -> Pn !! n = None).
    { intros Hf. destruct (Pn !! n) as [d|] eqn:Ed; [|done].
      destruct (c_pinned _ _ _ _ _ HH n d Ed) as (b' & Hb' & Hd1 & Hd2 & Hd3 & _).
      destruct (decide (b' = b)) as [->|Hne]; [done|]. by destruct (Hoth b' Hb' Hne). }
    split_and!; [done|done|]. destruct (c_free _ _ _ _ _ HH b Hh Hb) as [Hr _]. destruct Hbl as [Hd Hn].
    pose proof (c_clean _ _ _ _ _ HH b Hh Hb) as Hcl. unfold loaded, bflag. rewrite Hn in Hcl.
    destruct (buffer b x) as [f dv bn r dt]; cbn in *. subst bn dv.
    destruct Hcl as [->|[(_ & -> & ->)|(_ & -> & ->)]]; cbn [bflags bdev blockno refcnt bdata] in *.
    + right. by rewrite HP by done.
    + left. by rewrite HP by done.
    + left. by rewrite decide_True by eauto.
  - split_and!; [auto|done|]. right. unfold loaded. assert (HP : Pn !! n = None).
    { destruct (Pn !! n) as [d|] eqn:Ed; [|done].
      destruct (c_pinned _ _ _ _ _ HH n d Ed) as (b' & Hb' & ? & ? & _). by destruct (Hno b' Hb'). }
    by rewrite HP.
Qed.

Lemma survives_bread (C : content -> Prop) N H D Pn l s n (Q : nat -> kstate -> Prop) :
  at_rest N H D Pn l s -> C D -> n < N -> (size H + size Pn < NBUF)%nat \/ is_Some (Pn !! n) ->
  (forall b v, H !! b = Some v -> blockno v <> n) ->
  (forall b s', H !! b = None -> at_rest N (<[b := loaded D Pn n]> H) D Pn l s' -> Q b s') ->
  survives C s (bread 1 n) Q.
Proof.
  intros (Hc & HH & Hl) HC Hn Hsz Hfresh HQ. apply survives_bind, survives_returns. eapply returns_bget; [done..|].
  intros b v lv s1 Hb Hh Hob Hlv Hfs Hs1. pose proof (calm_same _ _ Hs1 Hc) as Hc1.
  pose proof (c_length _ _ _ _ _ HH) as Hlen.
  assert (Hbuf : buffer b (fs s1) = v) by by rewrite Hfs, buffer_lock, buffer_set_eq by lia.
  destruct (obtained_cases _ _ _ _ _ _ _ _ HH Hb Hh Hob) as (Hoth & Hdirty & Hval).
  pose proof (cache_take _ _ _ _ _ b lv n HH Hb Hh Hlv Hoth Hdirty) as Htake.
  apply survives_gets. change (get_buf b s1) with (buffer b (fs s1)). rewrite Hbuf.
  destruct Hval as [[-> ->]|(-> & Hf & Hd & Hno & E)]; cbn [negb when].
  - apply survives_bind, survives_ret. intros _. apply survives_ret. apply HQ; [done|]. split_and!; [done|by rewrite Hfs|by rewrite Hfs].
  - apply survives_bind. change (iderw b) with (Faulty.iderw fault b). unfold Faulty.iderw. apply survives_bind.
    apply survives_interfere; [rewrite Hfs; cbn; by rewrite (c_disk _ _ _ _ _ HH)|]. intros _.
    apply survives_returns. apply (iderw_read s1 b v); try done.
    + rewrite Hfs; cbn. by rewrite length_insert.
    + rewrite Hfs. by rewrite lock_word_eq.
    + rewrite Hfs; cbn. rewrite (c_size _ _ _ _ _ HH). lia.
    + intros s2 Hfs2 Hs2. apply survives_ret. apply HQ; [done|].
      assert (Ed : disk (fs s1) 1 = D) by (rewrite Hfs; cbn; apply (c_disk _ _ _ _ _ HH)).
      rewrite Hno, Ed, E, Hfs in Hfs2.
      change (set_buffer b ?u (set_sleeplock b lv ?y)) with (set_sleeplock b lv (set_buffer b u y)) in Hfs2.
      rewrite set_buffer_twice in Hfs2.
      split_and!; [by eapply calm_same|by rewrite Hfs2|by rewrite Hfs2].
Qed.

Lemma survives_bwrite (C : content -> Prop) N H D Pn l s b v (Q : unit -> kstate -> Prop) :
  at_rest N H D Pn l s -> C D -> H !! b = Some v -> blockno v < N ->
  (forall s', at_rest N (<[b := v <| bflags := 2 |>]> H) (write D (blockno v) (bdata v)) (delete (blockno v) Pn) l s' ->
    Q tt s') ->
  survives C s (bwrite b) Q.
Proof.
  intros (Hc & HH & Hl) HC Hv Hn HQ. destruct (c_held _ _ _ _ _ HH b v Hv) as (Hb & Hbv & Hdev & Hr & Hw & Hflag).
  pose proof (c_length _ _ _ _ _ HH) as Hlen. apply survives_bind, survives_returns, returns_holdingsleep; [done..|].
  intros s1 Hs1 Hfs1 _. rewrite Hw. change (1 =? 0) with false. cbn iota.
  apply survives_bind, survives_returns, returns_upd_buf; [by rewrite Hfs1, Hlen|].
  rewrite Hfs1, Hbv. intros s2 Hfs2 Hs2. assert (Hc2 : calm s2) by (eapply calm_same; [|done]; by etransitivity).
  change (iderw b) with (Faulty.iderw fault b). unfold Faulty.iderw. apply survives_bind.
  apply survives_interfere; [rewrite Hfs2; cbn; by rewrite (c_disk _ _ _ _ _ HH)|]. intros _. apply survives_same, survives_returns.
  assert (Ev : set_flag B_DIRTY v = v <| bflags := 6 |>).
  { unfold set_flag. destruct v as [f ? ? ? ?]; cbn in *. by destruct Hflag as [->|[-> _]]. }
  rewrite Ev in Hfs2. apply (iderw_write s2 b (v <| bflags := 6 |>)); try done.
  - rewrite Hfs2; cbn. by rewrite length_insert.
  - by rewrite Hfs2.
  - by rewrite Hfs2, buffer_set_eq by by rewrite Hlen.
  - rewrite Hfs2; cbn. by rewrite (c_size _ _ _ _ _ HH).
  - intros s3 Hfs3 Hs3. apply HQ. rewrite Hfs2 in Hfs3.
    change (disk_write 1 ?n ?d (set_buffer b ?u ?x)) with (set_buffer b u (disk_write 1 n d x)) in Hfs3.
    rewrite set_buffer_twice in Hfs3. pose proof (cache_write _ _ _ _ _ b v HH Hv) as Hwr.
    split_and!; [by eapply calm_same|by rewrite Hfs3|by rewrite Hfs3].
Qed.

Lemma survives_brelse (C : content -> Prop) N H D Pn l s b v (Q : unit -> kstate -> Prop) :
  at_rest N H D Pn l s -> H !! b = Some v -> (bflags v = 2 -> bdata v = D (blockno v)) ->
  (forall s', at_rest N (delete b H) D Pn l s' -> Q tt s') ->
  survives C s (brelse b) Q.
Proof.
  intros (Hc & HH & Hl) Hv Hd HQ. apply survives_same, survives_returns. eapply returns_brelse; [done..|].
  intros s' HH' Hl' Hs. apply HQ. split_and!; [by eapply calm_same|done|congruence].
Qed.

Lemma survives_upd_data (C : content -> Prop) N H D Pn l s b v f (Q : unit -> kstate -> Prop) :
  at_rest N H D Pn l s -> H !! b = Some v -> bflags v = 2 \/ f (bdata v) = bdata v ->
  (forall s', at_rest N (<[b := v <| bdata ::= f |>]> H) D Pn l s' -> Q tt s') ->
  survives C s (upd_data b f) Q.
Proof.
  intros (Hc & HH & Hl) Hv Hf HQ. destruct (c_held _ _ _ _ _ HH b v Hv) as (Hb & Hbv & _).
  pose proof (c_length _ _ _ _ _ HH) as Hlen. apply survives_same, survives_returns, returns_upd_buf; [by rewrite Hlen|].
  rewrite Hbv. intros s' Hfs' Hs'. apply HQ. split_and!; [by eapply calm_same| |by rewrite Hfs'].
  rewrite Hfs'. destruct Hf as [Hf|Hf].
  - by apply (cache_edit _ _ _ _ _ b v (f (bdata v))).
  - assert (E : v <| bdata ::= f |> = v) by (destruct v; cbn in *; by rewrite Hf).
    rewrite E, insert_id by done. assert (Ex : set_buffer b v (fs s) = fs s); [|by rewrite Ex].
    rewrite <- Hbv. unfold set_buffer, buffer. destruct (lookup_lt_is_Some_2 (bufs (fs s)) b ltac:(lia)) as [u Hu].
    rewrite Hu. destruct (fs s); cbn in *. by rewrite list_insert_id.
Qed.

(** * Copying a block *)

(** The contents a reader of block [n] sees. *)
Definition seen (D : content) (Pn : gmap Z (list Z)) (n : Z) : list Z := default (D n) (Pn !! n).

Definition copy_block (src dst : nat) : K unit :=
  d ← buf_data src;
  upd_data dst (fun _ => d) ;;
  bwrite dst ;;
  brelse src ;;
  brelse dst.

Lemma survives_copy_block (C : content -> Prop) N D Pn l s src dst n m (Q : unit -> kstate -> Prop) :
  at_rest N (<[src := loaded D Pn n]> {[dst := loaded D Pn m]}) D Pn l s -> C D -> src <> dst -> n <> m -> m < N ->
  Pn !! m = None \/ Pn !! m = Some (seen D Pn n) ->
  (forall s', at_rest N ∅ (write D m (seen D Pn n)) (delete m Pn) l s' -> Q tt s') ->
  survives C s (copy_block src dst) Q.
Proof.
  intros Hs HC Hne Hnm Hm Hd HQ. unfold copy_block, buf_data. apply survives_gets.
  assert (Hsrc : bdata (get_buf src s) = seen D Pn n).
  { destruct Hs as (_ & HH & _). destruct (c_held _ _ _ _ _ HH src (loaded D Pn n)) as (_ & E & _); [by simplify_map_eq|].
    change (get_buf src s) with (buffer src (fs s)). by rewrite E. }
  rewrite Hsrc. apply survives_bind. eapply survives_upd_data; [exact Hs|by simplify_map_eq| |].
  { cbn. destruct Hd as [Hd|Hd]; rewrite Hd; [left; by rewrite decide_False by (by intros [])|by right]. }
  intros s1 Hs1 _. apply survives_bind.
  eapply (survives_bwrite _ _ _ _ _ _ _ dst); [exact Hs1|done|apply lookup_insert_eq|done|].
  cbn [blockno bdata loaded]. intros s2 Hs2 _. apply survives_bind.
  eapply (survives_brelse _ _ _ _ _ _ _ src); [exact Hs2|by simplify_map_eq| |].
  { cbn. unfold write. destruct (Z.eqb_spec n m); [done|]. destruct (decide _) as [|Hn]; [done|].
    intros _. destruct (Pn !! n); [|done]. destruct Hn; eauto. }
  intros s3 Hs3 _. eapply (survives_brelse _ _ _ _ _ _ _ dst); [exact Hs3|by simplify_map_eq| |].
  { cbn. unfold write. by rewrite Z.eqb_refl. }
  intros s4 Hs4. apply HQ.
  match type of Hs4 with at_rest _ ?H _ _ _ _ => assert (E : H = ∅) end; [|by rewrite <- E].
  apply map_eq. intros k. rewrite lookup_empty. destruct (decide (k = dst)) as [->|]; [by simplify_map_eq|].
  destruct (decide (k = src)) as [->|]; by simplify_map_eq.
Qed.

Lemma survives_for_each C (I : nat -> kstate -> Prop) (f : nat -> K unit) n i s (Q : unit -> kstate -> Prop) :
  I i s -> (forall j s, (i <= j < i + n)%nat -> I j s -> survives C s (f j) (fun _ s' => I (S j) s')) ->
  (forall s', I (i + n)%nat s' -> Q tt s') ->
  survives C s (for_each (seq i n) f) Q.
Proof.
  revert i s. induction n as [|n IH]; intros i s Hi Hf HQ; cbn [seq for_each].
  - apply survives_ret, HQ. by rewrite Nat.add_0_r.
  - apply survives_bind. eapply survives_mono; [apply Hf; [lia|exact Hi]|done|]. intros [] s' _ Hi' _.
    apply IH; [done|intros; apply Hf; [lia|done]|]. intros s2 H2. apply HQ. by replace (i + S n)%nat with (S i + n)%nat by lia.
Qed.

(** * The log on the drive *)

Section Log.
(** The log occupies the blocks [start] (the header) to [start + lsize - 1]
    of a drive of [N] blocks. *)
Context (N start lsize : Z).

Definition outside (m : Z) : Prop := m < start \/ start + lsize <= m.
Definition geometry : Prop :=
  0 <= start /\ 1 <= lsize <= LOGSIZE /\ start + lsize <= N /\ N < 2 ^ 31.
(** A list of home blocks the log can hold. *)
Definition blocks_ok (bs : list Z) : Prop :=
  Z.of_nat (length bs) < lsize /\ NoDup bs /\ Forall (fun b => 0 <= b < N /\ outside b) bs.
(** The in-memory log, with the blocks [bs] logged. *)
Definition log_holds (l : log_t) (bs : list Z) : Prop :=
  lg_dev l = 1 /\ lg_start l = start /\ lg_size l = lsize /\ length (lh_block l) = 30%nat /\
  lh_n l = Z.of_nat (length bs) /\ logged l = bs.

Hypothesis Hgeo : geometry.

Lemma log_holds_get l bs i b : log_holds l bs -> bs !! i = Some b -> lh_get l i = b.
Proof.
  intros (_ & _ & _ & _ & _ & <-) Hb. unfold lh_get. unfold logged in Hb. apply lookup_take_Some in Hb as [-> _]. done.
Qed.

Lemma blocks_ok_lookup bs i b : blocks_ok bs -> bs !! i = Some b ->
  0 <= b < N /\ outside b /\ Z.of_nat i + 1 < lsize.
Proof.
  intros (Hl & _ & Hall) Hb. pose proof (Forall_lookup_1 _ _ _ _ Hall Hb) as [? ?].
  apply lookup_lt_Some in Hb. split_and!; [lia..|done|lia].
Qed.

(** Block [i] of the log. *)
Definition log_block (i : nat) : Z := start + Z.of_nat i + 1.

Lemma log_block_i32 l bs i b : log_holds l bs -> blocks_ok bs -> bs !! i = Some b ->
  i32 (lg_start l + Z.of_nat i + 1) = log_block i /\ u32 (lh_get l i) = b /\ log_block i < N /\
  log_block i <> b /\ start < log_block i < start + lsize.
Proof.
  intros Hl Hbs Hb. rewrite (log_holds_get _ _ _ _ Hl Hb). destruct (blocks_ok_lookup _ _ _ Hbs Hb) as (Hb1 & Hb2 & Hi).
  destruct Hl as (_ & -> & _). destruct Hgeo as (? & ? & ? & ?). unfold log_block, outside, LOGSIZE, MAXOPBLOCKS in *.
  rewrite i32_id, u32_id by (unfold i32_range, u32_range; lia). split_and!; lia.
Qed.

(** ** [write_log] *)

(** The drive once the first [i] blocks have been copied to the log. *)
Definition copied (D : content) (Pn : gmap Z (list Z)) (bs : list Z) (i : nat) (D' : content) : Prop :=
  (forall m, m <= start \/ start + lsize <= m -> D' m = D m) /\
  (forall j b, (j < i)%nat -> bs !! j = Some b -> D' (log_block j) = seen D Pn b).

Lemma survives_write_log (C : content -> Prop) D Pn l bs s (Q : unit -> kstate -> Prop) :
  at_rest N ∅ D Pn l s -> log_holds l bs -> blocks_ok bs -> (size Pn < NBUF)%nat ->
  (forall b, is_Some (Pn !! b) <-> b ∈ bs) ->
  (forall D' i, copied D Pn bs i D' -> C D') ->
  (forall s' D', at_rest N ∅ D' Pn l s' -> copied D Pn bs (length bs) D' -> Q tt s') ->
  survives C s write_log Q.
Proof.
  intros Hs Hl Hbs Hsz HP HC HQ. unfold write_log, for_logged, the_log. apply survives_gets.
  destruct Hs as (Hc & HH & Hfl). rewrite Hfl.
  assert (Hn : Z.to_nat (lh_n l) = length bs) by (destruct Hl as (_ & _ & _ & _ & -> & _); lia). rewrite Hn.
  apply (survives_for_each _ (fun i s => exists D', at_rest N ∅ D' Pn l s /\ copied D Pn bs i D')).
  { exists D. split_and!; [done..|]. split; [done|]. lia. }
  2:{ intros s' (D' & Hs' & HD'). by eapply HQ. }
  clear s Hc HH Hfl. intros i s Hi (D' & Hs & Hout & Hin). apply survives_gets. destruct (Hs) as (_ & _ & ->).
  destruct (lookup_lt_is_Some_2 bs i ltac:(lia)) as [b Hb].
  destruct (log_block_i32 _ _ _ _ Hl Hbs Hb) as (-> & -> & HltN & Hne & Hrange). destruct (Hl) as (-> & _).
  destruct (blocks_ok_lookup _ _ _ Hbs Hb) as (HbN & Hbo & _).
  assert (HCD : C D') by (apply (HC _ i); by split).
  assert (HPb : is_Some (Pn !! b)) by (apply HP, list_elem_of_lookup; eauto).
  assert (HPl : Pn !! log_block i = None).
  { apply eq_None_not_Some. rewrite HP, list_elem_of_lookup. intros [j Hj].
    destruct (blocks_ok_lookup _ _ _ Hbs Hj) as (_ & [?|?] & _); lia. }
  apply survives_bind. eapply survives_bread; [exact Hs|done|done|left; by rewrite map_size_empty|done|].
  intros to s1 _ Hs1 _. apply survives_bind. eapply survives_bread; [exact Hs1|done|lia|by right| |].
  { intros b' v. rewrite insert_empty. intros [<- <-]%lookup_singleton_Some. done. }
  intros from s2 Hfrom Hs2 _. rewrite insert_empty in Hfrom, Hs2.
  apply survives_copy_block with (src := from) (dst := to) (n := b) (m := log_block i) (N := N) (D := D') (Pn := Pn) (l := l); try done.
  - intros ->. by simplify_map_eq.
  - by left.
  - intros s3 Hs3. rewrite delete_id in Hs3 by done. eexists; split; [exact Hs3|]. split.
    + intros m Hm. unfold write. destruct (Z.eqb_spec m (log_block i)); [lia|]. by apply Hout.
    + intros j b' Hj Hb'. unfold write. destruct (Z.eqb_spec (log_block j) (log_block i)) as [E|E].
      * assert (j = i) by (unfold log_block in E; lia). simplify_eq. destruct HPb as [d Hd]. unfold seen. by rewrite Hd.
      * apply Hin; [|done]. assert (j <> i) by congruence. lia.
Qed.

(** ** [install_trans] *)

(** The drive once the first [i] blocks have been installed. *)
Definition installed (D : content) (bs : list Z) (i : nat) (D' : content) : Prop :=
  (forall j b, bs !! j = Some b -> D' b = if decide (j < i)%nat then D (log_block j) else D b) /\
  (forall m, m ∉ bs -> D' m = D m).

(** What is left to write of the pinned blocks. *)
Definition pending (Pn : gmap Z (list Z)) (bs : list Z) (i : nat) (Pi : gmap Z (list Z)) : Prop :=
  (size Pi <= size Pn)%nat /\ (forall j b, bs !! j = Some b -> Pi !! b = if decide (j < i)%nat then None else Pn !! b) /\
  (forall m, m ∉ bs -> Pi !! m = Pn !! m).

Lemma installed_next D bs i b D' : NoDup bs -> bs !! i = Some b -> installed D bs i D' ->
  installed D bs (S i) (write D' b (D (log_block i))).
Proof.
  intros Hnd Hb [H1 H2]. unfold write. split.
  - intros j b' Hb'. destruct (Z.eqb_spec b' b) as [->|Hne].
    + rewrite (NoDup_lookup _ _ _ _ Hnd Hb' Hb). by rewrite decide_True by lia.
    + rewrite (H1 j b' Hb'). assert (j <> i) by congruence. repeat case_decide; done || lia.
  - intros m Hm. destruct (Z.eqb_spec m b) as [->|Hne]; [|by apply H2]. destruct Hm. apply list_elem_of_lookup; eauto.
Qed.

Lemma pending_next Pn bs i b Pi : NoDup bs -> bs !! i = Some b -> pending Pn bs i Pi -> pending Pn bs (S i) (delete b Pi).
Proof.
  intros Hnd Hb (H0 & H1 & H2). split_and!.
  - etransitivity; [|exact H0]. rewrite <- !(size_dom (D:=gset Z)). apply subseteq_size. rewrite dom_delete. set_solver.
  - intros j b' Hb'. destruct (decide (b' = b)) as [->|Hne].
    + rewrite (NoDup_lookup _ _ _ _ Hnd Hb' Hb), lookup_delete_eq. by rewrite decide_True by lia.
    + rewrite lookup_delete_ne by done. rewrite (H1 j b' Hb'). assert (j <> i) by congruence. repeat case_decide; done || lia.
  - intros m Hm. rewrite lookup_delete_ne; [by apply H2|]. intros ->. destruct Hm. apply list_elem_of_lookup; eauto.
Qed.

Lemma survives_install (C : content -> Prop) D Pn l bs s (Q : unit -> kstate -> Prop) :
  at_rest N ∅ D Pn l s -> log_holds l bs -> blocks_ok bs -> (size Pn < NBUF)%nat ->
  (forall m, is_Some (Pn !! m) -> m ∈ bs) ->
  (Pn = ∅ \/ forall i b, bs !! i = Some b -> Pn !! b = Some (D (log_block i))) ->
  (forall D' i, installed D bs i D' -> C D') ->
  (forall s' D', at_rest N ∅ D' ∅ l s' -> installed D bs (length bs) D' -> Q tt s') ->
  survives C s install_trans Q.
Proof.
  intros Hs Hl Hbs Hsz HP HPD HC HQ. unfold install_trans, for_logged, the_log. apply survives_gets.
  destruct Hs as (Hc & HH & Hfl). rewrite Hfl.
  assert (Hn : Z.to_nat (lh_n l) = length bs) by (destruct Hl as (_ & _ & _ & _ & -> & _); lia). rewrite Hn.
  pose proof (proj1 (proj2 Hbs)) as Hnd.
  apply (survives_for_each _ (fun i s => exists D' Pi, at_rest N ∅ D' Pi l s /\ installed D bs i D' /\ pending Pn bs i Pi)).
  { exists D, Pn. split_and!; [done..|split; [|done]|split_and!; [done| |done]]; intros j b _; by rewrite decide_False by lia. }
  2:{ intros s' (D' & Pi & Hs' & HD' & (_ & H1 & H2)). eapply HQ; [|exact HD'].
      assert (E : Pi = ∅); [|by rewrite <- E]. apply map_eq. intros m. rewrite lookup_empty.
      destruct (decide (m ∈ bs)) as [[j Hj]%list_elem_of_lookup|Hm].
      - rewrite (H1 j m Hj), decide_True; [done|]. by apply lookup_lt_Some in Hj.
      - rewrite H2 by done. apply eq_None_not_Some. auto. }
  clear s Hc HH Hfl. intros i s Hi (D' & Pi & Hs & Hin & Hpe). apply survives_gets. destruct (Hs) as (_ & _ & ->).
  destruct (lookup_lt_is_Some_2 bs i ltac:(lia)) as [b Hb].
  destruct (log_block_i32 _ _ _ _ Hl Hbs Hb) as (-> & -> & HltN & Hne & Hrange). destruct (Hl) as (-> & _).
  destruct (blocks_ok_lookup _ _ _ Hbs Hb) as (HbN & Hbo & _).
  assert (Hlog : log_block i ∉ bs).
  { intros [j Hj]%list_elem_of_lookup. destruct (blocks_ok_lookup _ _ _ Hbs Hj) as (_ & [?|?] & _); lia. }
  assert (HPl : Pi !! log_block i = None).
  { destruct Hpe as (_ & _ & ->); [|done]. apply eq_None_not_Some. auto. }
  assert (HPb : Pi !! b = Pn !! b) by (destruct Hpe as (_ & H1 & _); by rewrite (H1 i b Hb), decide_False by lia).
  assert (Hdl : D' (log_block i) = D (log_block i)) by by apply Hin.
  assert (Hsee : seen D' Pi (log_block i) = D (log_block i)) by (unfold seen; by rewrite HPl).
  pose proof (proj1 Hpe) as Hszi.
  apply survives_bind. eapply survives_bread; [exact Hs|by eapply HC|done|left; rewrite map_size_empty; lia|done|].
  intros lbuf s1 _ Hs1 _. apply survives_bind. eapply survives_bread; [exact Hs1|by eapply HC|lia| | |].
  { rewrite HPb. destruct HPD as [HPD|HPD]; [left|right].
    - rewrite insert_empty, map_size_singleton, HPD, map_size_empty in *. unfold NBUF. lia.
    - rewrite (HPD i b Hb). eauto. }
  { intros b' v. rewrite insert_empty. intros [<- <-]%lookup_singleton_Some. done. }
  intros dbuf s2 Hd Hs2 _. rewrite insert_empty in Hd, Hs2.
  assert (Hbd : dbuf <> lbuf) by (intros ->; by simplify_map_eq). rewrite insert_singleton_ne in Hs2 by done.
  apply survives_copy_block with (src := lbuf) (dst := dbuf) (n := log_block i) (m := b) (N := N) (D := D') (Pn := Pi) (l := l);
    try done; [by eapply HC|lia| |].
  - rewrite HPb, Hsee. destruct HPD as [->|HPD]; [by left|right; by apply HPD].
  - intros s3 Hs3. rewrite Hsee in Hs3. do 2 eexists. split_and!; [exact Hs3|by apply installed_next|by apply pending_next].
Qed.

(** ** The header *)

(** The header block with its first [i] block numbers written. *)
Definition head_bytes (l : log_t) (d : list Z) (i : nat) : list Z :=
  foldl (fun d j => splice d (4 + 4 * j) (bytes32 (u32 (lh_get l j)))) (splice d 0 (bytes32 (u32 (lh_n l)))) (seq 0 i).
(** The blocks a header block lists. *)
Definition header_blocks (d : list Z) : list Z :=
  (fun i => i32 (get32 d (4 + 4 * i))) <$> seq 0 (Z.to_nat (i32 (get32 d 0))).

Lemma length_splice d off b : (off + length b <= length d)%nat -> length (splice d off b) = length d.
Proof. intros Hd. unfold splice. rewrite !length_app, length_take, length_drop. lia. Qed.
Lemma get32_splice_out d off b k :
  (off + length b <= length d)%nat -> (k + 4 <= off \/ off + length b <= k)%nat ->
  get32 (splice d off b) k = get32 d k.
Proof. intros Hd Hk. unfold get32, get16. by rewrite !getb_splice_out by (done || lia). Qed.
Lemma get32_put d off v : (off + 4 <= length d)%nat -> get32 (splice d off (bytes32 (u32 v))) off = u32 v.
Proof.
  intros Hd. rewrite <- (Nat.add_0_r off) at 2. rewrite get32_splice by (cbn; lia).
  rewrite <- (app_nil_r (bytes32 _)), get32_bytes. apply u32_id, u32_bounds.
Qed.

Lemma length_bytes32 v : length (bytes32 v) = 4%nat.
Proof. done. Qed.

Lemma head_bytes_spec l d i : length d = 512%nat -> (i <= 30)%nat ->
  length (head_bytes l d i) = 512%nat /\ get32 (head_bytes l d i) 0 = u32 (lh_n l) /\
  forall j, (j < i)%nat -> get32 (head_bytes l d i) (4 + 4 * j) = u32 (lh_get l j).
Proof.
  intros Hd. induction i as [|i IH]; intros Hi.
  - cbn [head_bytes seq foldl]. rewrite length_splice, get32_put by (rewrite ?length_bytes32; lia). split_and!; [done|done|lia].
  - destruct IH as (Hl & H0 & Hj); [lia|]. unfold head_bytes in *. rewrite seq_S, foldl_app. cbn [foldl].
    rewrite Nat.add_0_l.
    rewrite length_splice by (rewrite ?length_bytes32; lia). split_and!; [done| |].
    + by rewrite get32_splice_out by (rewrite ?length_bytes32; lia).
    + intros j Hj'. destruct (decide (j = i)) as [->|Hne]; [by rewrite get32_put by lia|].
      rewrite get32_splice_out by (rewrite ?length_bytes32; lia). apply Hj. lia.
Qed.

Lemma i32_u32 z : i32 (u32 z) = i32 z.
Proof. unfold i32, u32. by rewrite Zplus_mod_idemp_l. Qed.

(** What [write_head] writes is what [read_head] will read. *)
Lemma header_blocks_head l bs d : log_holds l bs -> blocks_ok bs -> length d = 512%nat ->
  header_blocks (head_bytes l d (length bs)) = bs.
Proof.
  intros Hl Hbs Hd. assert (Hlen : (length bs <= 30)%nat).
  { destruct Hbs as (H1 & _), Hgeo as (_ & H2 & _). unfold LOGSIZE, MAXOPBLOCKS in H2. lia. }
  destruct (head_bytes_spec l d (length bs) Hd Hlen) as (_ & H0 & Hj). unfold header_blocks. rewrite H0, i32_u32.
  destruct (Hl) as (_ & _ & _ & _ & -> & _). rewrite i32_id, Nat2Z.id by (unfold i32_range; lia).
  apply list_eq. intros i. rewrite list_lookup_fmap. destruct (bs !! i) as [b|] eqn:Hb.
  - pose proof (lookup_lt_Some _ _ _ Hb). rewrite lookup_seq_lt by done. cbn [fmap option_fmap option_map].
    rewrite Nat.add_0_l, Hj, i32_u32 by done. rewrite (log_holds_get _ _ _ _ Hl Hb). f_equal. apply i32_id.
    destruct (blocks_ok_lookup _ _ _ Hbs Hb) as (? & _). destruct Hgeo as (_ & _ & _ & ?). unfold i32_range. lia.
  - apply lookup_ge_None in Hb. by rewrite lookup_seq_ge.
Qed.

Lemma survives_write_head (C : content -> Prop) D Pn l bs s (Q : unit -> kstate -> Prop) :
  at_rest N ∅ D Pn l s -> log_holds l bs -> (size Pn < NBUF)%nat -> Pn !! start = None -> C D ->
  (forall s', at_rest N ∅ (write D start (head_bytes l (D start) (length bs))) Pn l s' -> Q tt s') ->
  survives C s write_head Q.
Proof.
  intros Hs Hl Hsz HP HC HQ. unfold write_head, the_log. apply survives_gets. destruct (Hs) as (_ & _ & ->).
  destruct (Hl) as (-> & -> & _ & _ & -> & _). rewrite Nat2Z.id.
  apply survives_bind. eapply survives_bread; [exact Hs|done|destruct Hgeo; lia|left; by rewrite map_size_empty|done|].
  intros b s1 _ Hs1 _. rewrite insert_empty in Hs1.
  set (v := loaded D Pn start) in *. assert (Hf : bflags v = 2) by (unfold v, loaded; by rewrite HP).
  assert (Hd : bdata v = D start) by (unfold v, loaded; by rewrite HP).
  apply survives_bind. eapply survives_upd_data; [exact Hs1|by simplify_map_eq|by left|].
  rewrite insert_singleton_eq. intros s2 Hs2 _. apply survives_bind.
  assert (Ev : forall f, v <| bdata ::= f |> = v <| bdata := f (D start) |>) by (intros f; rewrite <- Hd; done).
  apply (survives_for_each _ (fun i s => at_rest N {[b := v <| bdata := head_bytes l (D start) i |>]} D Pn l s)).
  { rewrite Ev in Hs2. unfold head_bytes. cbn [seq foldl]. destruct Hl as (_ & _ & _ & _ & -> & _). exact Hs2. }
  - intros i s3 Hi Hs3. eapply survives_upd_data; [exact Hs3|by simplify_map_eq|by left|].
    rewrite insert_singleton_eq. intros s4 Hs4. unfold head_bytes. rewrite seq_S, foldl_app. exact Hs4.
  - intros s3 Hs3 _. apply survives_bind. eapply survives_bwrite; [exact Hs3|done|by simplify_map_eq| |].
    { cbn. destruct Hgeo; lia. }
    rewrite insert_singleton_eq. cbn [blockno bdata loaded v]. intros s4 Hs4 _.
    eapply (survives_brelse _ _ _ _ _ _ _ b); [exact Hs4|by simplify_map_eq| |].
    { intros _. cbn. unfold write. by rewrite Z.eqb_refl. }
    rewrite delete_singleton_eq. intros s5 Hs5. apply HQ. cbn in Hs5. by rewrite delete_id in Hs5.
Qed.

(** ** Recovery *)

(** The log as [initlog] sets it up, before the header is read. *)
Definition log_base (l : log_t) : Prop :=
  lg_dev l = 1 /\ lg_start l = start /\ lg_size l = lsize /\ length (lh_block l) = 30%nat.
Definition header_ok (d : list Z) : Prop :=
  length d = 512%nat /\ 0 <= i32 (get32 d 0) /\ blocks_ok (header_blocks d).

Lemma survives_upd_log (C : content -> Prop) H D Pn l s f (Q : unit -> kstate -> Prop) :
  at_rest N H D Pn l s -> (forall s', at_rest N H D Pn (f l) s' -> Q tt s') -> survives C s (upd_log f) Q.
Proof.
  intros (Hc & HH & Hl) HQ. apply survives_same, survives_returns, returns_upd_fs. intros Hs. apply HQ.
  split_and!; [by eapply calm_same| |cbn; by rewrite Hl]. destruct HH. by constructor.
Qed.

Lemma length_header_blocks d : length (header_blocks d) = Z.to_nat (i32 (get32 d 0)).
Proof. unfold header_blocks. by rewrite length_fmap, length_seq. Qed.

Lemma survives_read_head (C : content -> Prop) D l s (Q : unit -> kstate -> Prop) :
  at_rest N ∅ D ∅ l s -> log_base l -> header_ok (D start) -> C D ->
  (forall l' s', at_rest N ∅ D ∅ l' s' -> log_holds l' (header_blocks (D start)) -> Q tt s') ->
  survives C s read_head Q.
Proof.
  intros Hs Hl (Hd & Hn & Hbs) HC HQ. unfold read_head, the_log. apply survives_gets. destruct (Hs) as (_ & _ & ->).
  destruct (Hl) as (Hdev & Hst & Hsize & Hblk). rewrite Hdev, Hst.
  apply survives_bind. eapply survives_bread;
    [exact Hs|done|destruct Hgeo; lia|left; rewrite !map_size_empty; unfold NBUF; lia|done|].
  intros b s1 _ Hs1 _. rewrite insert_empty in Hs1. unfold buf_data. apply survives_gets.
  assert (Ed : bdata (get_buf b s1) = D start).
  { destruct Hs1 as (_ & HH & _). destruct (c_held _ _ _ _ _ HH b (loaded D ∅ start)) as (_ & E & _); [by simplify_map_eq|].
    change (get_buf b s1) with (buffer b (fs s1)). by rewrite E. }
  rewrite Ed. set (d := D start) in *. apply survives_bind. eapply survives_upd_log; [exact Hs1|]. intros s2 Hs2 _.
  apply survives_gets. destruct (Hs2) as (_ & _ & ->). cbn [lh_n]. apply survives_bind.
  set (l1 := l <| lh_n := i32 (get32 d 0) |>) in *.
  set (n := Z.to_nat (i32 (get32 d 0))).
  assert (Hn30 : (n <= 30)%nat).
  { destruct Hbs as (H1 & _). rewrite length_header_blocks in H1. fold n in H1.
    destruct Hgeo as (_ & H2 & _). unfold LOGSIZE, MAXOPBLOCKS in H2. lia. }
  apply (survives_for_each _ (fun i s => exists l', at_rest N {[b := loaded D ∅ start]} D ∅ l' s /\ log_base l' /\
    lh_n l' = i32 (get32 d 0) /\ forall j, (j < i)%nat -> lh_block l' !! j = Some (i32 (get32 d (4 + 4 * j))))).
  { exists l1. split_and!; [done..|lia]. }
  - intros i s3 Hi (l' & Hs3 & (H1 & H2 & H3 & H4) & H5 & H6). eapply survives_upd_log; [exact Hs3|].
    intros s4 Hs4. eexists. split; [exact Hs4|].
    split_and!; [by split_and!; cbn; rewrite ?length_insert|done|]. cbn.
    change (Z.to_nat (lh_n l1)) with n in Hi.
    intros j Hj. destruct (decide (j = i)) as [->|Hne]; [rewrite list_lookup_insert_eq; [done|lia]|].
    rewrite list_lookup_insert_ne by done. apply H6. lia.
  - intros s3 (l' & Hs3 & (H1 & H2 & H3 & H4) & H5 & H6) _. change (Z.to_nat (lh_n l1)) with n in H6.
    eapply (survives_brelse _ _ _ _ _ _ _ b); [exact Hs3|by simplify_map_eq|by intros _|].
    rewrite delete_singleton_eq. intros s4 Hs4. eapply HQ; [exact Hs4|]. unfold log_holds.
    rewrite length_header_blocks. split_and!; [done..|rewrite H5; lia|].
    unfold logged, header_blocks. rewrite H5. fold n. apply list_eq. intros j. rewrite list_lookup_fmap.
    destruct (decide (j < n)%nat) as [Hj|Hj].
    + rewrite lookup_take_lt, lookup_seq_lt by done. rewrite H6 by lia. done.
    + rewrite lookup_take_ge, lookup_seq_ge by lia. done.
Qed.

(** The contents the log and the home blocks stand for. *)
Definition replay (D : content) (bs : list Z) : content := fun m =>
  match list_find (eq m) bs with
  | Some (i, _) => D (log_block i)
  | None => D m
  end.
Definition recovered (D : content) : content := replay D (header_blocks (D start)).

Lemma replay_in D bs i b : NoDup bs -> bs !! i = Some b -> replay D bs b = D (log_block i).
Proof.
  intros Hnd Hb. unfold replay. destruct (list_find (eq b) bs) as [[j c]|] eqn:E.
  - apply list_find_Some in E as (Hj & <- & _). by rewrite (NoDup_lookup _ _ _ _ Hnd Hj Hb).
  - exfalso. eapply list_find_None in E. rewrite Forall_lookup in E. by apply (E _ _ Hb).
Qed.
Lemma replay_out D bs m : m ∉ bs -> replay D bs m = D m.
Proof.
  intros Hm. unfold replay. destruct (list_find (eq m) bs) as [[j c]|] eqn:E; [|done].
  apply list_find_Some in E as (Hj & <- & _). destruct Hm. apply list_elem_of_lookup. eauto.
Qed.
Lemma outside_not_in bs m : blocks_ok bs -> ~ outside m -> m ∉ bs.
Proof. intros (_ & _ & Hall) Hm Hin. rewrite Forall_forall in Hall. by destruct (Hall m Hin). Qed.
Lemma installed_replay D bs D' m : NoDup bs -> installed D bs (length bs) D' -> D' m = replay D bs m.
Proof.
  intros Hnd [H1 H2]. destruct (decide (m ∈ bs)) as [[i Hi]%list_elem_of_lookup|Hm].
  - rewrite (replay_in _ _ _ _ Hnd Hi), (H1 _ _ Hi), decide_True; [done|]. by apply lookup_lt_Some in Hi.
  - rewrite replay_out by done. by apply H2.
Qed.
Lemma log_block_inside bs i b : blocks_ok bs -> bs !! i = Some b -> ~ outside (log_block i).
Proof. intros Hbs Hb. destruct (blocks_ok_lookup _ _ _ Hbs Hb) as (_ & _ & ?). unfold outside, log_block. lia. Qed.
Lemma start_inside : ~ outside start.
Proof. destruct Hgeo as (_ & ? & _). unfold outside. lia. Qed.

(** Installing part of the log does not change what it stands for. *)
Lemma installed_recovered D i D' : header_ok (D start) -> installed D (header_blocks (D start)) i D' ->
  header_ok (D' start) /\ forall m, recovered D' m = recovered D m.
Proof.
  intros Hok [H1 H2]. pose proof (proj2 (proj2 Hok)) as Hbs. pose proof (proj1 (proj2 Hbs)) as Hnd.
  assert (E : D' start = D start) by (apply H2, outside_not_in; [done|apply start_inside]).
  unfold recovered. rewrite E. split; [done|]. intros m. set (bs := header_blocks (D start)) in *.
  destruct (decide (m ∈ bs)) as [[j Hj]%list_elem_of_lookup|Hm].
  - rewrite !(replay_in _ _ _ _ Hnd Hj). by eapply H2, outside_not_in, log_block_inside.
  - rewrite !replay_out by done. by apply H2.
Qed.

Lemma log_holds_clear l bs : log_holds l bs -> log_holds (l <| lh_n := 0 |>) [].
Proof. intros (H1 & H2 & H3 & H4 & _). by split_and!. Qed.
Lemma log_holds_base l bs : log_holds l bs -> log_base l.
Proof. intros (H1 & H2 & H3 & H4 & _). by split_and!. Qed.
Lemma blocks_ok_nil : blocks_ok [].
Proof. split_and!; [cbn; destruct Hgeo; lia|constructor|constructor]. Qed.

(** The header with [bs] in it. *)
Lemma head_bytes_ok l bs d : log_holds l bs -> blocks_ok bs -> length d = 512%nat ->
  header_ok (head_bytes l d (length bs)).
Proof.
  intros Hl Hbs Hd. pose proof (header_blocks_head _ _ _ Hl Hbs Hd) as E. split_and!; [| |by rewrite E].
  - apply head_bytes_spec; [done|]. destruct Hbs as (H1 & _), Hgeo as (_ & H2 & _). unfold LOGSIZE, MAXOPBLOCKS in H2. lia.
  - destruct (head_bytes_spec l d (length bs) Hd) as (_ & -> & _).
    { destruct Hbs as (H1 & _), Hgeo as (_ & H2 & _). unfold LOGSIZE, MAXOPBLOCKS in H2. lia. }
    rewrite i32_u32. destruct Hl as (_ & _ & _ & _ & -> & _). destruct Hbs as (H1 & _), Hgeo as (_ & H2 & _).
    unfold LOGSIZE, MAXOPBLOCKS in H2. rewrite i32_id by (unfold i32_range; lia). lia.
Qed.

(** A drive whose log is empty and which holds [V] elsewhere. *)
Definition settled (V D : content) : Prop :=
  header_ok (D start) /\ header_blocks (D start) = [] /\ forall m, outside m -> D m = V m.
(** A drive that stands for [V]. *)
Definition stands_for (V D : content) : Prop :=
  header_ok (D start) /\ forall m, outside m -> recovered D m = V m.

Lemma settled_stands V D : settled V D -> stands_for V D.
Proof. intros (Hok & Hh & HV). split; [done|]. intros m Hm. unfold recovered. rewrite Hh. by apply HV. Qed.

(** Installing the log that is on the drive and clearing it, the common end
    of [recover_from_log] and [commit]. *)
Lemma survives_install_clear (C : content -> Prop) D Pn l s V (Q : unit -> kstate -> Prop) :
  let bs := header_blocks (D start) in
  at_rest N ∅ D Pn l s -> log_holds l bs -> stands_for V D -> (size Pn < NBUF)%nat ->
  (forall m, is_Some (Pn !! m) -> m ∈ bs) ->
  (Pn = ∅ \/ forall i b, bs !! i = Some b -> Pn !! b = Some (D (log_block i))) ->
  (forall D', stands_for V D' -> C D') ->
  (forall s' D', at_rest N ∅ D' ∅ (l <| lh_n := 0 |>) s' -> settled V D' -> Q tt s') ->
  survives C s (install_trans ;; upd_log (fun l => l <| lh_n := 0 |>) ;; write_head) Q.
Proof.
  intros bs Hs Hl [Hok HV] Hsz HP HPD HC HQ. pose proof (proj2 (proj2 Hok)) as Hbs.
  assert (Hmid : forall D' i, installed D bs i D' -> stands_for V D').
  { intros D' i HD'. destruct (installed_recovered D i D' Hok HD') as [Hok' E]. split; [done|].
    intros m Hm. rewrite E. by apply HV. }
  apply survives_bind. eapply survives_install; [done..|eauto|]. intros s1 D1 Hs1 HD1 _. apply survives_bind.
  eapply survives_upd_log; [exact Hs1|]. intros s2 Hs2 _. pose proof (log_holds_clear _ _ Hl) as Hl2.
  pose proof (Hmid _ _ HD1) as [Hok1 HV1].
  eapply survives_write_head; [exact Hs2|exact Hl2|rewrite map_size_empty; unfold NBUF; lia|done|by apply HC|].
  intros s3 Hs3. eapply HQ; [exact Hs3|].
  assert (E : write D1 start (head_bytes (l <| lh_n := 0 |>) (D1 start) (length (A:=Z) [])) start = head_bytes (l <| lh_n := 0 |>) (D1 start) (length (A:=Z) [])).
  { unfold write. by rewrite Z.eqb_refl. }
  split_and!; rewrite ?E.
  - by apply head_bytes_ok; [|apply blocks_ok_nil|apply Hok1].
  - by apply header_blocks_head; [|apply blocks_ok_nil|apply Hok1].
  - intros m Hm. unfold write. destruct (Z.eqb_spec m start) as [->|_]; [by destruct start_inside|].
    rewrite (installed_replay D bs D1 m) by (done || apply Hbs). by apply HV.
Qed.

Lemma survives_recover D l s V (Q : unit -> kstate -> Prop) :
  at_rest N ∅ D ∅ l s -> log_base l -> stands_for V D ->
  (forall l' s' D', at_rest N ∅ D' ∅ l' s' -> log_holds l' [] -> settled V D' -> Q tt s') ->
  survives (stands_for V) s recover_from_log Q.
Proof.
  intros Hs Hl HV HQ. unfold recover_from_log. apply survives_bind.
  eapply survives_read_head; [done..|apply HV|done|]. intros l' s' Hs' Hl' _.
  eapply survives_install_clear; [exact Hs'|done|done|rewrite map_size_empty; unfold NBUF; lia| |by left|done|].
  2:{ intros s2 D' Hs2 HD'. eapply HQ; [exact Hs2|by eapply log_holds_clear|done]. }
  intros m [d Hd]. by rewrite lookup_empty in Hd.
Qed.

(** ** [commit] *)

(** A transaction under way: [o] operations are running, [c] is set while
    the commit runs; the blocks [bs] are logged and their new contents [Pn]
    are in the cache; the log on the drive is empty, no buffer is locked. *)
Definition transaction (o c : Z) (D : content) (Pn : gmap Z (list Z)) (bs : list Z) (s : kstate) : Prop :=
  exists l, at_rest N ∅ D Pn l s /\ log_holds l bs /\ blocks_ok bs /\
    (forall b, is_Some (Pn !! b) <-> b ∈ bs) /\ settled D D /\ outstanding l = o /\ committing l = c.

Lemma size_pinned (Pn : gmap Z (list Z)) bs : blocks_ok bs -> (forall b, is_Some (Pn !! b) <-> b ∈ bs) -> (size Pn < NBUF)%nat.
Proof.
  intros (Hlen & Hnd & _) HP. destruct Hgeo as (_ & Hls & _). unfold LOGSIZE, MAXOPBLOCKS, NBUF in *.
  apply (Nat.le_lt_trans _ (length bs)); [|lia]. rewrite <- (size_list_to_set (C:=gset Z) bs) by done.
  rewrite <- (size_dom (D:=gset Z)). apply subseteq_size. intros b Hb%elem_of_dom. apply elem_of_list_to_set. by apply HP.
Qed.

Lemma copied_stands D Pn bs i D' : settled D D -> copied D Pn bs i D' -> stands_for D D'.
Proof.
  intros (Hok & Hh & _) [Hout _]. assert (E : D' start = D start) by (apply Hout; lia).
  split; [by rewrite E|]. intros m Hm. unfold recovered. rewrite E, Hh. unfold replay; cbn.
  apply Hout. destruct Hm; lia.
Qed.

Lemma committed_stands D Pn bs D' l : settled D D -> blocks_ok bs -> log_holds l bs ->
  (forall b, is_Some (Pn !! b) <-> b ∈ bs) -> copied D Pn bs (length bs) D' ->
  let D2 := write D' start (head_bytes l (D' start) (length bs)) in
  header_blocks (D2 start) = bs /\ stands_for (seen D Pn) D2 /\
  (forall i b, bs !! i = Some b -> Pn !! b = Some (D2 (log_block i))).
Proof.
  intros (Hok & Hh & _) Hbs Hl HP [Hout Hin] D2. assert (E : D' start = D start) by (apply Hout; lia).
  assert (Ed : D2 start = head_bytes l (D start) (length bs)) by (unfold D2, write; by rewrite Z.eqb_refl, E).
  assert (Eb : header_blocks (D2 start) = bs) by (rewrite Ed; apply header_blocks_head; [done..|apply Hok]).
  assert (Elog : forall i b, bs !! i = Some b -> D2 (log_block i) = seen D Pn b).
  { intros i b Hb. unfold D2, write. destruct (Z.eqb_spec (log_block i) start) as [Es|_]; [unfold log_block in Es; lia|].
    apply Hin; [|done]. by apply lookup_lt_Some in Hb. }
  split_and!; [done|split|].
  - rewrite Ed. apply head_bytes_ok; [done..|apply Hok].
  - intros m Hm. unfold recovered. rewrite Eb. destruct (decide (m ∈ bs)) as [[i Hi]%list_elem_of_lookup|Hn].
    + rewrite (replay_in _ _ _ _ (proj1 (proj2 Hbs)) Hi). by apply Elog.
    + rewrite replay_out by done. unfold D2, write. destruct (Z.eqb_spec m start) as [->|_]; [by destruct start_inside|].
      rewrite Hout by (destruct Hm; lia). unfold seen. rewrite <- HP in Hn. apply eq_None_not_Some in Hn. by rewrite Hn.
  - intros i b Hb. rewrite (Elog i b Hb). destruct (proj2 (HP b)) as [d Hd]; [apply list_elem_of_lookup; eauto|].
    unfold seen. by rewrite Hd.
Qed.

Lemma settled_self V D : settled V D -> settled D D.
Proof. intros (H1 & H2 & _). by split_and!. Qed.

Lemma transaction_empty o c D l s : at_rest N ∅ D ∅ l s -> log_holds l [] -> settled D D ->
  outstanding l = o -> committing l = c -> transaction o c D ∅ [] s.
Proof.
  intros Hs Hl Hset Ho Hc. exists l. split_and!; try done; [apply blocks_ok_nil|].
  intros b. rewrite lookup_empty. split; [by intros []|set_solver].
Qed.

Lemma survives_commit o c D Pn bs s (Q : unit -> kstate -> Prop) :
  transaction o c D Pn bs s ->
  (forall s' D', transaction o c D' ∅ [] s' -> settled (seen D Pn) D' -> Q tt s') ->
  survives (fun D' => stands_for D D' \/ stands_for (seen D Pn) D') s commit Q.
Proof.
  intros (l & Hs & Hl & Hbs & HP & Hset & Ho & Hcm) HQ. pose proof (size_pinned _ _ Hbs HP) as Hsz.
  unfold commit, the_log. apply survives_gets. destruct (Hs) as (_ & _ & ->).
  destruct (Hl) as (_ & _ & _ & _ & Hn & _). destruct (Z.ltb_spec 0 (lh_n l)) as [Hpos|Hz]; cbn [when].
  - apply survives_bind. eapply survives_write_log; [done..|left; by eapply copied_stands|].
    intros s1 D1 Hs1 HD1 _. destruct (committed_stands _ _ _ _ _ Hset Hbs Hl HP HD1) as (Eb & Hst & Hlog).
    apply survives_bind. eapply survives_write_head; [exact Hs1|exact Hl|done| |left; by eapply copied_stands|].
    { apply eq_None_not_Some. rewrite HP. apply outside_not_in; [done|apply start_inside]. }
    intros s2 Hs2 _. eapply survives_install_clear; rewrite ?Eb; [exact Hs2|exact Hl|exact Hst|done| |by right|by right|].
    { intros m Hm. by apply HP. }
    intros s3 D3 Hs3 HD3. eapply HQ; [|exact HD3].
    eapply transaction_empty; [exact Hs3|by eapply log_holds_clear|by eapply settled_self|done|done].
  - assert (bs = []) as -> by (destruct bs; [done|cbn in Hn; lia]).
    assert (Pn = ∅) as ->.
    { apply map_eq. intros m. rewrite lookup_empty. apply eq_None_not_Some. rewrite HP. set_solver. }
    apply survives_ret. eapply HQ; [by eapply transaction_empty|done].
Qed.

(** ** [log_write] *)

Lemma log_record_holds l bs n : log_holds l bs -> blocks_ok bs -> Z.of_nat (length bs) + 1 < lsize -> 0 <= n < N -> outside n ->
  let bs' := if decide (n ∈ bs) then bs else bs ++ [n] in
  log_holds (log_record n l) bs' /\ blocks_ok bs' /\ outstanding (log_record n l) = outstanding l.
Proof.
  intros Hl Hbs Hlen Hn Hout. pose proof Hl as (H1 & H2 & H3 & H4 & H5 & H6). pose proof Hbs as (_ & Hnd & Hall).
  pose proof Hgeo as (_ & Hls & _ & HN). unfold LOGSIZE, MAXOPBLOCKS in Hls.
  assert (Hok : log_ok l).
  { unfold log_ok, LOGSIZE, MAXOPBLOCKS. rewrite H6, H5. split_and!; [done|lia|lia|done|].
    eapply Forall_impl; [exact Hall|]. intros b [? _]. lia. }
  assert (Hlt : lh_n l < LOGSIZE) by (unfold LOGSIZE, MAXOPBLOCKS; lia).
  destruct (log_absorption n l Hok Hlt ltac:(lia)) as ((Hlen' & _) & Hin & Hnot). rewrite H6 in Hin, Hnot.
  assert (Hsame : lg_dev (log_record n l) = lg_dev l /\ lg_start (log_record n l) = lg_start l /\
    lg_size (log_record n l) = lg_size l /\ outstanding (log_record n l) = outstanding l).
  { unfold log_record. cbv zeta. by destruct (_ =? _). }
  destruct Hsame as (E1 & E2 & E3 & E4). destruct (decide (n ∈ bs)) as [Hm|Hm].
  - rewrite Hin by done. done.
  - destruct (Hnot Hm) as [Hlog Hn']. split; [|split; [split_and!|done]].
    + unfold log_holds. rewrite E1, E2, E3, Hlog, Hn', length_app. cbn. split_and!; [done..|lia|done].
    + rewrite length_app. cbn. lia.
    + apply NoDup_app. split_and!; [done|set_solver|apply NoDup_singleton].
    + apply Forall_app. split; [done|]. by constructor.
Qed.

Lemma survives_log_write (C : content -> Prop) H D Pn l bs s b v (Q : unit -> kstate -> Prop) :
  at_rest N H D Pn l s -> log_holds l bs -> H !! b = Some v ->
  Z.of_nat (length bs) + 1 < lsize -> 1 <= outstanding l ->
  (forall s', at_rest N (<[b := v <| bflags := 6 |>]> H) D (<[blockno v := bdata v]> Pn) (log_record (blockno v) l) s' ->
     Q tt s') ->
  survives C s (log_write b) Q.
Proof.
  intros (Hc & HH & Hfl) Hl Hv Hlen Hout HQ. destruct (c_held _ _ _ _ _ HH b v Hv) as (Hb & Hbv & _ & _ & _ & Hflag).
  pose proof (c_length _ _ _ _ _ HH) as Hbufs. pose proof Hl as (_ & _ & H3 & _ & H5 & _).
  pose proof Hgeo as (_ & Hls & _). unfold LOGSIZE, MAXOPBLOCKS in Hls.
  apply survives_same, survives_returns. unfold log_write, the_log. intros w. rewrite bind_gets, Hfl.
  destruct (Z.leb_spec LOGSIZE (lh_n l)) as [Hx|_]; [unfold LOGSIZE, MAXOPBLOCKS in Hx; lia|].
  destruct (Z.leb_spec (lg_size l - 1) (lh_n l)); [lia|]. destruct (Z.ltb_spec (outstanding l) 1); [lia|]. cbn [orb].
  rewrite acquire_then by (done || by apply calm_log). rewrite bind_gets.
  change (get_buf b (enter LOGLOCK s)) with (buffer b (fs s)). rewrite Hbv. unfold upd_log, upd_fs. rewrite bind_modify.
  set (u := v <| bflags := 6 |>). assert (Eu : set_flag B_DIRTY v = u).
  { unfold set_flag, u. destruct v as [f ? ? ? ?]; cbn in *. by destruct Hflag as [->|[-> _]]. }
  set (g := fun s : kstate => s <| fs ::= fun x => set_buffer b u (x <| flog ::= log_record (blockno v) |>) |>).
  rewrite (bind_ok _ _ _ w tt (g (enter LOGLOCK s)) w).
  2:{ rewrite upd_buf_eq by (cbn; lia). change (buffer b (fs _)) with (buffer b (fs s)). unfold g. rewrite Hbv, Eu. by destruct s. }
  rewrite release_section by ((by intros ???) || (by apply calm_log) || by apply calm_cpu).
  eexists tt, _. split_and!; [done|by unfold same_rest|]. intros Hs. apply HQ.
  split_and!; [by eapply calm_same| |cbn; by rewrite Hfl].
  pose proof (cache_pin _ _ _ _ _ b v (bdata v) HH Hv) as HH'.
  assert (Ev : v <| bdata := bdata v |> <| bflags := 6 |> = u) by by destruct v. rewrite Ev in HH'.
  destruct HH'. by constructor.
Qed.

(** ** Operations *)

Lemma survives_edit (C : content -> Prop) H D Pn l s b v f (Q : unit -> kstate -> Prop) :
  at_rest N H D Pn l s -> H !! b = Some v ->
  (forall s' Pn', at_rest N (<[b := v <| bdata ::= f |>]> H) D Pn' l s' ->
     <[blockno v := f (bdata v)]> Pn' = <[blockno v := f (bdata v)]> Pn -> Q tt s') ->
  survives C s (upd_data b f) Q.
Proof.
  intros Hs Hv HQ. pose proof Hs as (Hc & HH & Hfl). destruct (c_held _ _ _ _ _ HH b v Hv) as (Hb & Hbv & _ & _ & _ & Hflag).
  destruct Hflag as [Hf|[Hf HP]]; [eapply survives_upd_data; [exact Hs|done|by left|]; intros s' Hs'; by eapply HQ|].
  pose proof (c_length _ _ _ _ _ HH) as Hlen. apply survives_same, survives_returns, returns_upd_buf; [by rewrite Hlen|].
  rewrite Hbv. intros s' Hfs' Hs'. apply (HQ _ (<[blockno v := f (bdata v)]> Pn)); [|by rewrite insert_insert_eq].
  split_and!; [by eapply calm_same| |by rewrite Hfs']. rewrite Hfs'.
  pose proof (cache_pin _ _ _ _ _ b v (f (bdata v)) HH Hv) as HH'.
  assert (E : v <| bdata := f (bdata v) |> <| bflags := 6 |> = v <| bdata ::= f |>) by (destruct v; cbn in *; by rewrite Hf).
  by rewrite E in HH'.
Qed.

Lemma survives_update o D Pn bs s n f (Q : unit -> kstate -> Prop) :
  transaction o 0 D Pn bs s -> 1 <= o -> Z.of_nat (length bs) + 1 < lsize -> 0 <= n < N -> outside n ->
  (forall s', transaction o 0 D (<[n := f (seen D Pn n)]> Pn) (if decide (n ∈ bs) then bs else bs ++ [n]) s' -> Q tt s') ->
  survives (stands_for D) s (update n f) Q.
Proof.
  intros (l & Hs & Hl & Hbs & HP & Hset & Ho & Hcm) Hpos Hlen Hn Hout HQ. unfold update. apply survives_bind.
  eapply survives_bread; [exact Hs|by apply settled_stands|lia| |done|].
  { left. rewrite map_size_empty. by eapply size_pinned. }
  intros b s1 _ Hs1 _. rewrite insert_empty in Hs1. apply survives_bind.
  eapply survives_edit; [exact Hs1|by simplify_map_eq|]. rewrite insert_singleton_eq. intros s2 Pn' Hs2 EP _.
  apply survives_bind. eapply survives_log_write; [exact Hs2|exact Hl|by simplify_map_eq|done|lia|].
  rewrite insert_singleton_eq. intros s3 Hs3 _.
  eapply (survives_brelse _ _ _ _ _ _ _ b); [exact Hs3|by simplify_map_eq|done|].
  rewrite delete_singleton_eq. intros s4 Hs4. apply HQ. cbn in Hs4, EP. rewrite EP in Hs4.
  destruct (log_record_holds l bs n Hl Hbs Hlen Hn Hout) as (Hl' & Hbs' & Ho').
  eexists. split_and!; [exact Hs4|exact Hl'|exact Hbs'| |exact Hset|by rewrite Ho'|].
  - intros m. rewrite lookup_insert_is_Some, HP. destruct (decide (n ∈ bs)) as [Hin|Hin].
    + destruct (decide (n = m)) as [->|]; naive_solver.
    + rewrite elem_of_app, list_elem_of_singleton. destruct (decide (n = m)) as [->|]; naive_solver.
  - unfold log_record. cbv zeta. by destruct (_ =? _).
Qed.

Lemma at_rest_log l f s : forall H D Pn, at_rest N H D Pn l s -> at_rest N H D Pn (f l) (s <| fs ::= fun x => x <| flog ::= f |> |>).
Proof. intros H D Pn (Hc & HH & Hl). split_and!; [by apply (calm_same s)| |cbn; by rewrite Hl]. destruct HH. by constructor. Qed.
Lemma at_rest_settle H D Pn l s : at_rest N H D Pn l s -> at_rest N H D Pn l (settle s).
Proof. intros (Hc & HH & Hl). split_and!; [by apply (calm_same s)|done|done]. Qed.

Lemma survives_begin_op (C : content -> Prop) o D Pn bs s (Q : unit -> kstate -> Prop) :
  transaction o 0 D Pn bs s -> 0 <= o -> Z.of_nat (length bs) + (o + 1) * MAXOPBLOCKS <= LOGSIZE ->
  (forall s', transaction (o + 1) 0 D Pn bs s' -> Q tt s') ->
  survives C s begin_op Q.
Proof.
  intros (l & Hs & Hl & Hbs & HP & Hset & Ho & Hcm) Hpos Hroom HQ. pose proof Hs as (Hc & _ & Hfl).
  pose proof Hl as (_ & _ & _ & _ & Hn & _). unfold MAXOPBLOCKS, LOGSIZE, MAXOPBLOCKS in *.
  set (f := fun l : log_t => l <| outstanding ::= fun n => i32 (n + 1) |>).
  apply survives_returns. intros w. unfold begin_op. rewrite acquire_then by by apply calm_log.
  assert (Hfull : log_full l = false).
  { unfold log_full, LOGSIZE, MAXOPBLOCKS. rewrite Ho, Hn. rewrite (i32_id (o + 1)), (i32_id ((o + 1) * 10)), i32_id by (unfold i32_range; lia).
    apply Z.ltb_ge. lia. }
  erewrite loop_now.
  2:{ unfold the_log. rewrite bind_gets. change (flog (fs (enter LOGLOCK s))) with (flog (fs s)). rewrite Hfl, Hcm, Hfull.
      change (z2b 0) with false. cbn iota. unfold upd_log, upd_fs. rewrite bind_modify.
      erewrite bind_ok; [reflexivity|].
      apply (release_section LOGLOCK (fun s => s <| fs ::= fun x => x <| flog ::= f |> |>)).
      - by intros ???.
      - by apply calm_log.
      - by apply calm_cpu. }
  eexists tt, _. split_and!; [done|done|]. apply HQ. exists (f l). split_and!; try done.
  - by apply at_rest_settle, at_rest_log.
  - cbn. rewrite i32_id by (unfold i32_range; lia). lia.
Qed.

(** The end of the last operation: [committing] is set, the commit runs, and
    whoever waits for the log is woken. *)
Lemma survives_end_op D Pn bs s (Q : unit -> kstate -> Prop) :
  transaction 1 0 D Pn bs s ->
  (forall s' D', transaction 0 0 D' ∅ [] s' -> settled (seen D Pn) D' -> Q tt s') ->
  survives (fun D' => stands_for D D' \/ stands_for (seen D Pn) D') s end_op Q.
Proof.
  intros (l & Hs & Hl & Hbs & HP & Hset & Ho & Hcm) HQ. pose proof Hs as (Hc & _ & Hfl).
  set (f := fun l : log_t => l <| outstanding ::= fun n => i32 (n - 1) |> <| committing := 1 |>).
  assert (Hopen : survives (fun D' => stands_for D D' \/ stands_for (seen D Pn) D') (settle (s <| fs ::= fun x => x <| flog ::= f |> |>))
    (commit ;; (acquire LOGLOCK ;; upd_log (fun l => l <| committing := 0 |>) ;; wakeup CH_LOG ;; release LOGLOCK)) Q).
  { apply survives_bind. apply (survives_commit 0 1 D Pn bs).
    - exists (f l). split_and!; try done; [by apply at_rest_settle, at_rest_log|]. cbn. by rewrite Ho.
    - intros s1 D1 (l1 & Hs1 & Hl1 & _ & _ & Hset1 & Ho1 & _) HD1 _. pose proof Hs1 as (Hc1 & _ & _).
      apply survives_returns. intros w. rewrite acquire_then by by apply calm_log. unfold upd_log, upd_fs. rewrite bind_modify.
      erewrite bind_ok.
      2:{ apply (wakeup_in_section LOGLOCK _ s1); [done|by apply calm_ptable|by apply calm_cpu|done|done]. }
      set (g := fun s : kstate => s <| fs ::= fun x => x <| flog ::= fun l => l <| committing := 0 |> |> |>
        <| ptable ::= fmap (wakeup1_proc (Some CH_LOG)) |>).
      change (release LOGLOCK _ w) with (release LOGLOCK (g (enter LOGLOCK s1)) w).
      rewrite release_section by ((by intros ???) || (by apply calm_log) || by apply calm_cpu).
      eexists tt, _. split_and!; [done|done|]. eapply HQ; [|exact HD1].
      eapply (transaction_empty _ _ _ (l1 <| committing := 0 |>)); [|done..].
      apply at_rest_settle. destruct (at_rest_log l1 (fun l => l <| committing := 0 |>) s1 _ _ _ Hs1) as (_ & H2 & H3).
      split_and!; [by apply (calm_same s1)|destruct H2; by constructor|done]. }
  intros k. unfold end_op. rewrite acquire_then by by apply calm_log. unfold upd_log, upd_fs, the_log.
  rewrite bind_modify, bind_gets.
  match goal with |- context [flog (fs ?s1)] => assert (E : flog (fs s1) = l <| outstanding := 0 |>) end.
  { cbn. rewrite Hfl. destruct l; cbn in *. by subst. }
  rewrite E. change (z2b (committing (l <| outstanding := 0 |>))) with (z2b (committing l)). rewrite Hcm.
  change (outstanding (l <| outstanding := 0 |>) =? 0) with true. change (z2b 0) with false. cbn [when]. rewrite bind_modify.
  match goal with |- context [(release LOGLOCK ≫= _) ?s1] =>
    assert (E' : s1 = (fun s : kstate => s <| fs ::= fun x => x <| flog ::= f |> |>) (enter LOGLOCK s)) end.
  { by destruct s. }
  rewrite E'. erewrite bind_ok by (apply release_section; [by intros ???|by apply calm_log|by apply calm_cpu]).
  exact (Hopen k).
Qed.

(** What a list of updates makes of the drive. *)
Definition apply_updates (V : content) (us : list (Z * (list Z -> list Z))) : content :=
  foldl (fun V u => write V (fst u) (snd u (V (fst u)))) V us.

Lemma apply_updates_ext V V' us m : (forall m, V m = V' m) -> apply_updates V us m = apply_updates V' us m.
Proof.
  revert V V'. induction us as [|[n f] us IH]; intros V V' E; [apply E|]. cbn. apply IH. intros m'. unfold write. by rewrite !E.
Qed.
Lemma settled_ext V V' D : (forall m, V m = V' m) -> settled V D -> settled V' D.
Proof. intros E (H1 & H2 & H3). split_and!; [done..|]. intros m Hm. rewrite <- E. by apply H3. Qed.
Lemma stands_for_ext V V' D : (forall m, V m = V' m) -> stands_for V D -> stands_for V' D.
Proof. intros E [H1 H2]. split; [done|]. intros m Hm. rewrite <- E. by apply H2. Qed.

Lemma survives_updates us D Pn bs s (Q : unit -> kstate -> Prop) :
  transaction 1 0 D Pn bs s -> Z.of_nat (length bs + length us) < lsize ->
  Forall (fun u => 0 <= fst u < N /\ outside (fst u)) us ->
  (forall s' Pn' bs', transaction 1 0 D Pn' bs' s' -> (forall m, seen D Pn' m = apply_updates (seen D Pn) us m) -> Q tt s') ->
  survives (stands_for D) s (for_each us (fun u => update (fst u) (snd u))) Q.
Proof.
  revert Pn bs s. induction us as [|[n f] us IH]; intros Pn bs s Hs Hlen Hus HQ; cbn [for_each].
  { apply survives_ret. by eapply HQ. }
  apply Forall_cons_1 in Hus as [[Hn Hout] Hus]. cbn [length fst snd] in *. apply survives_bind.
  eapply survives_update; [exact Hs|lia|lia|done|done|]. intros s1 Hs1 _. eapply IH; [exact Hs1| |done|].
  { destruct (decide _); rewrite ?length_app; cbn; lia. }
  intros s2 Pn' bs' Hs2 E. eapply HQ; [exact Hs2|]. intros m. rewrite E. cbn. apply apply_updates_ext.
  intros m'. unfold seen, write; cbn. destruct (Z.eqb_spec m' n) as [->|]; by simplify_map_eq.
Qed.

(** An idle file system: no operation is running and nothing is pinned. *)
Definition idle (D : content) (s : kstate) : Prop := transaction 0 0 D ∅ [] s.

Lemma survives_operation us D s (Q : unit -> kstate -> Prop) :
  idle D s -> Z.of_nat (length us) < lsize -> Forall (fun u => 0 <= fst u < N /\ outside (fst u)) us ->
  (forall s' D', idle D' s' -> settled (apply_updates D us) D' -> Q tt s') ->
  survives (fun D' => stands_for D D' \/ stands_for (apply_updates D us) D') s (operation us) Q.
Proof.
  intros Hs Hlen Hus HQ. unfold operation. apply survives_bind.
  eapply survives_begin_op; [exact Hs|lia|cbn; unfold LOGSIZE, MAXOPBLOCKS; lia|]. intros s1 Hs1 _. apply survives_bind.
  eapply survives_mono; [eapply survives_updates; [exact Hs1|done|done|]|by left|intros a s' _ H; exact H].
  intros s2 Pn bs Hs2 E _. assert (E' : forall m, seen D Pn m = apply_updates D us m) by (intros; rewrite E; by apply apply_updates_ext).
  eapply survives_mono; [eapply survives_end_op; [exact Hs2|]| |intros a s' _ H; exact H].
  - intros s3 D3 Hs3 HD3. eapply HQ; [exact Hs3|]. by eapply settled_ext.
  - intros D' [HD'|HD']; [by left|right]. by eapply stands_for_ext.
Qed.

(** The machine after a restart, when [initlog] is about to recover. *)
Definition booted (D : content) (s : kstate) : Prop := exists l, at_rest N ∅ D ∅ l s /\ log_base l.

Lemma idle_disk D s : idle D s -> disk (fs s) 1 = D.
Proof. intros (l & (_ & HH & _) & _). apply (c_disk _ _ _ _ _ HH). Qed.
End Log.
End Power.

(** Restarts until a recovery completes; the power may fail during each of
    the earlier ones. *)
Inductive power_cycles (N start lsize : Z) : content -> content -> Prop :=
| recovery_completes D s k s' w :
    booted N start lsize D s -> @recover_from_log (Faulty.driver true) s (replicate k id) = Ok tt s' w ->
    power_cycles N start lsize D (disk (fs s') 1)
| recovery_interrupted D s k s' D' :
    booted N start lsize D s -> @recover_from_log (Faulty.driver true) s (replicate k id) = Blocked s' ->
    power_cycles N start lsize (disk (fs s') 1) D' -> power_cycles N start lsize D D'.

Lemma power_cycles_settle N start lsize D D' V :
  geometry N start lsize -> power_cycles N start lsize D D' -> stands_for N start lsize V D -> settled N start lsize V D'.
Proof.
  intros Hgeo Hc. induction Hc as [D s k s' w (l & Hs & Hl) E|D s k s' D' (l & Hs & Hl) E _ IH]; intros HV;
    pose proof (survives_recover true N start lsize Hgeo D l s V (fun _ s' => settled N start lsize V (disk (fs s') 1)) Hs Hl HV) as Hr;
    assert (Hq : forall (l' : log_t) (s' : kstate) (D' : content), at_rest N ∅ D' ∅ l' s' ->
      log_holds start lsize l' [] -> settled N start lsize V D' -> settled N start lsize V (disk (fs s') 1))
      by (intros l1 s1 D1 (_ & HH & _) _ HD1; by rewrite (c_disk _ _ _ _ _ HH));
    specialize (Hr Hq k); unfold the_driver in Hr; rewrite E in Hr.
  - apply Hr.
  - apply IH, Hr.
Qed.

(** C4: crash safety of the file system's operations.  An operation
    that updates up to [lsize - 1] blocks outside the log ([begin_op], reads,
    [log_write]s, [end_op]) is atomic: if it returns, the drive holds all its
    updates and the log is empty; wherever the power fails, every sequence of
    restarts that ends in a completed recovery gives either none or all of the
    updates, and the same one of the two however often recovery itself is
    interrupted.  With the power on, the operation returns: it does not panic
    for lack of buffers or log space, nor wait. *)
Theorem operation_crash_safe N start lsize D s us :
  geometry N start lsize -> idle N start lsize D s -> Z.of_nat (length us) < lsize ->
  Forall (fun u => 0 <= fst u < N /\ outside start lsize (fst u)) us ->
  (forall k, match @operation (Faulty.driver true) us s (replicate k id) with
    | Ok _ s' _ => idle N start lsize (disk (fs s') 1) s' /\ settled N start lsize (apply_updates D us) (disk (fs s') 1)
    | Blocked s' => exists V, (V = D \/ V = apply_updates D us) /\
        forall D', power_cycles N start lsize (disk (fs s') 1) D' -> settled N start lsize V D'
    | _ => False
    end) /\
  exists s' w, @operation MemIde.driver us s [] = Ok tt s' w /\
    settled N start lsize (apply_updates D us) (disk (fs s') 1).
Proof.
  intros Hgeo Hs Hlen Hus.
  assert (Hrun : forall fault, survives fault (fun D' => stands_for N start lsize D D' \/ stands_for N start lsize (apply_updates D us) D')
    s (@operation (Faulty.driver fault) us)
    (fun _ s' => idle N start lsize (disk (fs s') 1) s' /\ settled N start lsize (apply_updates D us) (disk (fs s') 1))).
  { intros fault. apply (survives_operation fault N start lsize Hgeo); [done..|].
    intros s' D' Hs' HD'. by rewrite (idle_disk _ _ _ _ _ Hs'). }
  split.
  - intros k. specialize (Hrun true k). destruct (operation _ _ _) as [a s' w|? ?|s'|s']; [apply Hrun|done| |done].
    destruct Hrun as (_ & [HV|HV]); [exists D|exists (apply_updates D us)]; (split; [auto|]);
      intros D' Hc; by eapply power_cycles_settle.
  - specialize (Hrun false 0%nat). change (replicate 0 id) with (@nil (kstate -> kstate)) in Hrun.
    rewrite <- faulty_off. destruct (operation _ _ _) as [[] s' w|? ?|s'|s']; [|done|by destruct Hrun|done].
    exists s', w. split; [done|apply Hrun].
Qed.

(** C5: recovery.  On a drive whose log stands for the contents [V],
    [recover_from_log] installs them and clears the log; interrupted anywhere,
    it leaves a drive that still stands for [V], so it can be run again. *)
Theorem recovery_idempotent N start lsize D s V :
  geometry N start lsize -> booted N start lsize D s -> stands_for N start lsize V D ->
  (forall k, match @recover_from_log (Faulty.driver true) s (replicate k id) with
    | Ok _ s' _ => settled N start lsize V (disk (fs s') 1)
    | Blocked s' => stands_for N start lsize V (disk (fs s') 1)
    | _ => False
    end) /\
  exists s' w, @recover_from_log MemIde.driver s [] = Ok tt s' w /\ settled N start lsize V (disk (fs s') 1).
Proof.
  intros Hgeo (l & Hs & Hl) HV.
  assert (Hrun : forall fault, survives fault (stands_for N start lsize V) s (@recover_from_log (Faulty.driver fault))
    (fun _ s' => settled N start lsize V (disk (fs s') 1))).
  { intros fault. apply (survives_recover fault N start lsize Hgeo D l); [done..|].
    intros l' s' D' (_ & HH & _) _ HD'. by rewrite (c_disk _ _ _ _ _ HH). }
  split.
  - intros k. specialize (Hrun true k). destruct (recover_from_log _ _) as [a s' w|? ?|s'|s']; by try apply Hrun.
  - specialize (Hrun false 0%nat). change (replicate 0 id) with (@nil (kstate -> kstate)) in Hrun.
    rewrite <- faulty_off. destruct (recover_from_log _ _) as [[] s' w|? ?|s'|s']; [|done|by destruct Hrun|done].
    exists s', w. split; [done|apply Hrun].
Qed.
