(* ===== verification/Report.v ===== *)
(** spinlock.c, console.c: call stacks and the report of a panic.

    [getstackpcs] follows the chain of saved frame pointers; on a well-formed
    chain it is proved to return the return addresses of the innermost ten
    frames.  A panic is the outcome [Panic] of an operation; [panic_report] is
    what it leaves on the console. *)

From S2P Require Import Prelude Control Memory KState Spinlock Format Sched.

(** The frame pointers at which the walk ends. *)
Definition chain_end (rbp : Z) : bool := (rbp =? 0) || (rbp <? KERNBASE) || (rbp =? 0xffffffff).

(** [n] entries: a return address per frame, then zeros. *)
Fixpoint stack_pcs (n : nat) (m : memory) (rbp : Z) : list Z :=
  match n with
  | O => []
  | S n' => if chain_end rbp then replicate n 0 else load64 m (u64 (rbp + 8)) :: stack_pcs n' m (load64 m rbp)
  end.
Definition getstackpcs (m : memory) (rbp : Z) : list Z := stack_pcs 10 m rbp.
(** [rbp] is the frame pointer of the caller. *)
Definition getcallerpcs (rbp : Z) : K (list Z) := s ← get; mret (getstackpcs (mem s) rbp).

(** The addresses [procdump] prints of a sleeping process. *)
Fixpoint until_zero (l : list Z) : list Z :=
  match l with
  | [] => []
  | x :: l' => if x =? 0 then [] else x :: until_zero l'
  end.
Definition sleeper_pcs (m : memory) (p : proc) : list Z := until_zero (getstackpcs m (u64 (c_rbp (pcontext p) + 16))).

(** [panic] up to the loop in which the processor halts; [cons.locking] is off.
    The message is the format of a [cprintf] of its own. *)
Definition panic_report (rbp : Z) (s : list Z) : K unit :=
  upd_cpu (fun c => c <| eflags_if := false |>) ;;
  c ← gets kcpu;
  modify (fun x => x <| console ::= fun l => l ++ cprintf_out (bytes_of "cpu%d: panic: ") [AInt (cpu_id c)] |>) ;;
  modify (fun x => x <| console ::= fun l => l ++ cprintf_out s [] |>) ;;
  modify (fun x => x <| console ::= fun l => l ++ cprintf_out [10] [] |>) ;;
  pcs ← getcallerpcs rbp;
  for_each pcs (fun pc => modify (fun x => x <| console ::= fun l => l ++ cprintf_out (bytes_of " %p" ++ [10]) [APtr pc] |>)).

(** * The chain of frames *)

(** A frame at each address, with its return address, the innermost first. *)
Inductive frames (m : memory) : Z -> list Z -> Prop :=
| Frames_end rbp : chain_end rbp = true -> frames m rbp []
| Frames_next rbp pc pcs : chain_end rbp = false -> load64 m (u64 (rbp + 8)) = pc -> frames m (load64 m rbp) pcs -> frames m rbp (pc :: pcs).

Lemma stack_pcs_frames m n : forall rbp pcs, frames m rbp pcs -> stack_pcs n m rbp = take n (pcs ++ replicate n 0).
Proof.
  induction n as [|n IH]; intros rbp pcs H; [done|]. cbn [stack_pcs].
  destruct H as [rbp He|rbp pc pcs He <- H]; rewrite He.
  - by rewrite app_nil_l, take_ge by (by rewrite length_replicate).
  - cbn [app take]. f_equal. rewrite (IH _ _ H), replicate_S_end, app_assoc. symmetry. apply take_app_le. rewrite length_app, length_replicate. lia.
Qed.

Lemma until_zero_take n k pcs : Forall (fun pc => pc <> 0) pcs -> until_zero (take n (pcs ++ replicate k 0)) = take n pcs.
Proof.
  intros Hall. revert n. induction Hall as [|pc pcs Hpc _ IH]; intros n.
  - rewrite app_nil_l, take_nil. by destruct n, k.
  - destruct n as [|n]; [done|]. cbn [app take until_zero]. by rewrite (proj2 (Z.eqb_neq _ _) Hpc), IH.
Qed.

(** On a chain of frames [getstackpcs] gives the ten innermost return addresses,
    zeros where the chain is shorter, and [procdump] prints those of all frames
    up to the tenth. *)
Theorem getstackpcs_frames m rbp pcs : frames m rbp pcs ->
  getstackpcs m rbp = take 10 (pcs ++ replicate 10 0) /\
  (Forall (fun pc => pc <> 0) pcs -> until_zero (getstackpcs m rbp) = take 10 pcs).
Proof.
  intros H. unfold getstackpcs. rewrite (stack_pcs_frames m 10 rbp pcs H). split; [done|]. apply until_zero_take.
Qed.

(** The report: the processor, the message, and a line per return address; no
    interrupt comes after it. *)
Theorem panic_reports rbp msg s w :
  exists s', panic_report rbp msg s w = Ok tt s' w /\ eflags_if (kcpu s') = false /\
    console s' = console s ++ cprintf_out (bytes_of "cpu%d: panic: ") [AInt (cpu_id (kcpu s))] ++ cprintf_out msg [] ++ [10] ++
      mjoin ((fun pc => cprintf_out (bytes_of " %p" ++ [10]) [APtr pc]) <$> getstackpcs (mem s) rbp).
Proof.
  assert (G : forall pcs s w, exists s', for_each pcs (fun pc => modify (fun x : kstate => x <| console ::= fun l => l ++ cprintf_out (bytes_of " %p" ++ [10]) [APtr pc] |>)) s w = Ok tt s' w /\ kcpu s' = kcpu s /\
    console s' = console s ++ mjoin ((fun pc => cprintf_out (bytes_of " %p" ++ [10]) [APtr pc]) <$> pcs)).
  { induction pcs as [|pc pcs IH]; intros s0 w0; [exists s0; split; [done|]; split; [done|]; by rewrite app_nil_r|]. cbn [for_each fmap list_fmap mjoin list_join]. rewrite bind_modify.
    destruct (IH (s0 <| console ::= fun l => l ++ cprintf_out (bytes_of " %p" ++ [10]) [APtr pc] |>) w0) as (s' & E & Hc & Hs'). exists s'. split; [exact E|]. split; [by rewrite Hc|].
    rewrite Hs'. cbn [console setter]. by rewrite <- app_assoc. }
  unfold panic_report, upd_cpu. rewrite bind_modify, bind_gets, !bind_modify. unfold getcallerpcs.
  match goal with |- context [(_ ≫= _) ?s1 w] => destruct (G (getstackpcs (mem s) rbp) s1 w) as (s' & E & Hc & Hs') end.
  exists s'. split; [exact E|]. split; [by rewrite Hc|]. rewrite Hs'. cbn [console setter]. rewrite <- !app_assoc. reflexivity.
Qed.
