(* ===== verification/Segments.v ===== *)
(** vm.c, mmu.h, x86.h: segments and the system call entry.

    [seginit] builds the processor's descriptor table and task state segment in
    a page of its own; [syscallinit] sets the registers that say where a system
    call enters the kernel and which segments it and the return use.  Registers
    the model does not keep are returned as the values loaded into them, and
    proved to be what the processor's own decoding of descriptors and selectors
    needs. *)

From S2P Require Import Prelude Control Memory KState Spinlock Format Sched Kalloc Vm Sleeplock.
From S2P Require Import Disk Bio Log Inode Console Fs Pipe File Proc Trap Handoff.

(** * mmu.h *)

Definition SEG_KCODE : Z := 1.
Definition SEG_KDATA : Z := 2.
Definition SEG_UCODE32 : Z := 3.
Definition SEG_UDATA : Z := 4.
Definition SEG_UCODE : Z := 5.
Definition SEG_KCPU : Z := 6.
Definition SEG_TSS : Z := 7.
Definition NSEGS : Z := 8.
Definition STA_X : Z := 0x8.
Definition STA_W : Z := 0x2.
Definition STA_R : Z := 0x2.
Definition STS_T64A : Z := 0x9.
Definition APP_SEG : Z := 1.
Definition USER32_CS : Z := Z.lor (Z.shiftl SEG_UCODE32 3) DPL_USER.

Record segdesc := mkSegdesc {
  lim_15_0 : Z;
  base_15_0 : Z;
  base_23_16 : Z;
  type_ : Z;
  s_ : Z;
  dpl : Z;
  p_ : Z;
  lim_19_16 : Z;
  avl : Z;
  rsv1 : Z;
  db : Z;
  g_ : Z;
  base_31_24 : Z
}.
Definition zero_segdesc : segdesc := mkSegdesc 0 0 0 0 0 0 0 0 0 0 0 0 0.

Definition SEG (type lim base sys dpl rsv : Z) : segdesc :=
  mkSegdesc (Z.land lim 0xffff) (Z.land (u32 base) 0xffff) (Z.land (Z.shiftr base 16) 0xff) type sys dpl 1
    (Z.shiftr lim 60) 0 rsv 0 1 (Z.shiftr base 24).

(** The bit fields in memory, each truncated to its width. *)
Definition field (width off v : Z) : Z := Z.shiftl (v mod 2 ^ width) off.
Definition segdesc_word (d : segdesc) : Z :=
  field 16 0 (lim_15_0 d) + field 16 16 (base_15_0 d) + field 8 32 (base_23_16 d) + field 4 40 (type_ d) + field 1 44 (s_ d) +
  field 2 45 (dpl d) + field 1 47 (p_ d) + field 4 48 (lim_19_16 d) + field 1 52 (avl d) + field 1 53 (rsv1 d) + field 1 54 (db d) +
  field 1 55 (g_ d) + field 8 56 (base_31_24 d).

(** * x86.h *)

(** The ten bytes the processor loads its table register from. *)
Definition lgdt (p size : Z) : list Z :=
  [ (size - 1) mod 2 ^ 16; p mod 2 ^ 16; Z.shiftr p 16 mod 2 ^ 16; Z.shiftr p 32 mod 2 ^ 16; Z.shiftr p 48 mod 2 ^ 16 ].
Definition lidt (p size : Z) : list Z := lgdt p size.

(** * vm.c *)

(** The registers [seginit] loads: the base of the %fs segment, the table
    register and the task register. *)
Record seg_regs := mkSegRegs {
  fs_base : Z;
  gdtr : list Z;
  task : Z
}.

(** The descriptors, in the order of the table, for a task state segment at
    [addr]. *)
Definition gdt_entries (addr : Z) : list (Z * segdesc) :=
  [ (0, zero_segdesc);
    (SEG_KCODE, SEG (Z.lor STA_X STA_R) 0 0 APP_SEG 0 1);
    (SEG_KDATA, SEG STA_W 0 0 APP_SEG 0 0);
    (SEG_UCODE32, zero_segdesc);
    (SEG_UDATA, SEG STA_W 0 0 APP_SEG DPL_USER 0);
    (SEG_UCODE, SEG (Z.lor STA_X STA_R) 0 0 APP_SEG DPL_USER 1);
    (SEG_KCPU, zero_segdesc);
    (SEG_TSS, SEG STS_T64A 0xb addr 0 DPL_USER 0);
    (SEG_TSS + 1, SEG 0 (Z.shiftr addr 32) (Z.shiftr addr 48) 0 0 0) ].

(** [cpu->local] is the page itself; the stack pointer in the task state
    segment is kept as [tss_rsp0]. *)
Definition seginit : K seg_regs :=
  local ← kalloc;
  upd_mem (fun m => memset m local 0 PGSIZE) ;;
  let gdt := local in
  let tss := local + 1024 in
  upd_mem (fun m => store32 m (tss + 4 * 16) 0x00680000) ;;
  upd_cpu (fun c => c <| tss_rsp0 := 0 |> <| cur := None |>) ;;
  for_each (gdt_entries tss) (fun e => upd_mem (fun m => store64 m (gdt + 8 * fst e) (segdesc_word (snd e)))) ;;
  mret (mkSegRegs (local + 2048) (lgdt gdt ((NSEGS + 1) * 8)) (Z.shiftl SEG_TSS 3)).

Definition MSR_STAR : Z := 0xC0000081.
Definition MSR_LSTAR : Z := 0xC0000082.
Definition MSR_CSTAR : Z := 0xC0000083.
Definition MSR_SFMASK : Z := 0xC0000084.
Definition FL_TF : Z := 0x100.
Definition FL_DF : Z := 0x400.
Definition FL_IOPL_3 : Z := 0x3000.
Definition FL_NT : Z := 0x4000.
Definition FL_AC : Z := 0x40000.

(** The registers written and their values. *)
Definition syscallinit (syscall_entry ignore_sysret : Z) : list (Z * Z) :=
  [ (MSR_STAR, Z.lor (Z.shiftl USER32_CS 48) (Z.shiftl KERNEL_CS 32));
    (MSR_LSTAR, syscall_entry);
    (MSR_CSTAR, ignore_sysret);
    (MSR_SFMASK, Z.lor (Z.lor (Z.lor (Z.lor (Z.lor FL_TF FL_DF) FL_IF) FL_IOPL_3) FL_AC) FL_NT) ].

(** * The processor's view *)

(** Fields of a descriptor as the processor reads them. *)
Definition hw_type (v : Z) : Z := v / 2 ^ 40 mod 2 ^ 4.
Definition hw_app (v : Z) : bool := v / 2 ^ 44 mod 2 =? 1.
Definition hw_dpl (v : Z) : Z := v / 2 ^ 45 mod 2 ^ 2.
Definition hw_present (v : Z) : bool := v / 2 ^ 47 mod 2 =? 1.
Definition hw_long (v : Z) : bool := v / 2 ^ 53 mod 2 =? 1.
(** The base of a system segment, from its two entries. *)
Definition hw_base (lo hi : Z) : Z := lo / 2 ^ 16 mod 2 ^ 24 + 2 ^ 24 * (lo / 2 ^ 56 mod 2 ^ 8) + 2 ^ 32 * (hi mod 2 ^ 32).
(** Table registers: limit and base. *)
Definition hw_limit (pd : list Z) : Z := getb pd 0.
Definition hw_table (pd : list Z) : Z := getb pd 1 + 2 ^ 16 * getb pd 2 + 2 ^ 32 * getb pd 3 + 2 ^ 48 * getb pd 4.

(** A selector picks an entry and a privilege level. *)
Definition selects (sel entry level : Z) : Prop := sel / 8 = entry /\ sel mod 4 = level /\ Z.testbit sel 2 = false.
(** The segments SYSCALL and SYSRET load, from MSR_STAR. *)
Definition syscall_cs (star : Z) : Z := star / 2 ^ 32 mod 2 ^ 16.
Definition syscall_ss (star : Z) : Z := syscall_cs star + 8.
Definition sysret_cs (star : Z) : Z := star / 2 ^ 48 mod 2 ^ 16 + 16.
Definition sysret_ss (star : Z) : Z := star / 2 ^ 48 mod 2 ^ 16 + 8.

(** The two entries of the task state segment give back its address. *)
Lemma tss_words addr : 0 <= addr < 2 ^ 64 ->
  segdesc_word (SEG STS_T64A 0xb addr 0 DPL_USER 0) =
    0xb + 2 ^ 16 * (addr mod 2 ^ 16) + 2 ^ 32 * (addr / 2 ^ 16 mod 2 ^ 8) + 2 ^ 40 * 0x80e9 + 2 ^ 56 * (addr / 2 ^ 24 mod 2 ^ 8) /\
  segdesc_word (SEG 0 (Z.shiftr addr 32) (Z.shiftr addr 48) 0 0 0) =
    addr / 2 ^ 32 mod 2 ^ 16 + 2 ^ 16 * (addr / 2 ^ 48) + 2 ^ 40 * 0x8080.
Proof.
  intros Ha. unfold segdesc_word, field, SEG. cbn [lim_15_0 base_15_0 base_23_16 type_ s_ dpl p_ lim_19_16 avl rsv1 db g_ base_31_24].
  change 0xffff with (Z.ones 16). change 0xff with (Z.ones 8). rewrite !Z.land_ones by lia. rewrite !Z.shiftr_div_pow2, !Z.shiftl_mul_pow2 by lia.
  rewrite !Z.mod_mod by lia. unfold u32.
  assert (Hs : addr / 2 ^ 32 / 2 ^ 60 = 0 /\ addr / 2 ^ 48 / 2 ^ 16 = 0 /\ addr / 2 ^ 48 / 2 ^ 24 = 0) by (split_and!; Z.div_mod_to_equations; lia).
  destruct Hs as (-> & -> & ->).
  assert (H48 : 0 <= addr / 2 ^ 48 < 2 ^ 16) by (Z.div_mod_to_equations; lia). rewrite (Z.mod_small (addr / 2 ^ 48)) by lia. rewrite (Z.mod_small (addr / 2 ^ 48)) by lia.
  assert (H32 : (addr mod 2 ^ 32) mod 2 ^ 16 = addr mod 2 ^ 16) by (apply Z.mod_mod_divide; by exists (2 ^ 16)).
  rewrite H32. change (Z.ones 16) with 65535 in *. unfold STS_T64A, DPL_USER.
  change (9 mod 2 ^ 4) with 9. change (0 mod 2 ^ 1) with 0. change (3 mod 2 ^ 2) with 3. change (1 mod 2 ^ 1) with 1. change (11 / 2 ^ 60) with 0.
  change (0 mod 2 ^ 4) with 0. change (11 mod 2 ^ 16) with 11. change (0 mod 2 ^ 2) with 0. change (0 mod 2 ^ 8) with 0. split; lia.
Qed.

Lemma tss_base addr : 0 <= addr < 2 ^ 64 ->
  let lo := segdesc_word (SEG STS_T64A 0xb addr 0 DPL_USER 0) in
  let hi := segdesc_word (SEG 0 (Z.shiftr addr 32) (Z.shiftr addr 48) 0 0 0) in
  hw_base lo hi = addr /\ hw_type lo = STS_T64A /\ hw_app lo = false /\ hw_dpl lo = DPL_USER /\ hw_present lo = true /\
  0 <= lo < 2 ^ 64 /\ 0 <= hi < 2 ^ 64.
Proof.
  intros Ha. cbv zeta. destruct (tss_words addr Ha) as [-> ->].
  assert (E : addr = addr mod 2 ^ 16 + 2 ^ 16 * (addr / 2 ^ 16 mod 2 ^ 8) + 2 ^ 24 * (addr / 2 ^ 24 mod 2 ^ 8) + 2 ^ 32 * (addr / 2 ^ 32 mod 2 ^ 16) + 2 ^ 48 * (addr / 2 ^ 48))
    by (Z.div_mod_to_equations; lia).
  assert (H4 : 0 <= addr / 2 ^ 48 < 2 ^ 16) by (Z.div_mod_to_equations; lia).
  pose proof (Z.mod_pos_bound addr (2 ^ 16) ltac:(lia)) as H0. pose proof (Z.mod_pos_bound (addr / 2 ^ 16) (2 ^ 8) ltac:(lia)) as H1.
  pose proof (Z.mod_pos_bound (addr / 2 ^ 24) (2 ^ 8) ltac:(lia)) as H2. pose proof (Z.mod_pos_bound (addr / 2 ^ 32) (2 ^ 16) ltac:(lia)) as H3.
  generalize dependent (addr mod 2 ^ 16). generalize dependent (addr / 2 ^ 16 mod 2 ^ 8). generalize dependent (addr / 2 ^ 24 mod 2 ^ 8).
  generalize dependent (addr / 2 ^ 32 mod 2 ^ 16). generalize dependent (addr / 2 ^ 48). intros a4 H4 a3 H3 a2 H2 a1 H1 a0 E H0. subst addr.
  unfold hw_base, hw_type, hw_app, hw_dpl, hw_present, STS_T64A, DPL_USER. split_and!; try lia.
  - Z.div_mod_to_equations; lia.
  - Z.div_mod_to_equations; lia.
  - apply Z.eqb_neq. Z.div_mod_to_equations; lia.
  - Z.div_mod_to_equations; lia.
  - apply Z.eqb_eq. Z.div_mod_to_equations; lia.
Qed.

(** The table register's five halfwords give back the table. *)
Lemma lgdt_table p size : 0 <= p < 2 ^ 64 -> 0 < size <= 2 ^ 16 -> hw_table (lgdt p size) = p /\ hw_limit (lgdt p size) = size - 1.
Proof.
  intros Hp Hs. unfold hw_table, hw_limit, lgdt, getb. cbn [lookup list_lookup default]. unfold id. rewrite !Z.shiftr_div_pow2 by lia.
  split; [|apply Z.mod_small; lia]. Z.div_mod_to_equations. lia.
Qed.

(** The descriptors are in place. *)
Definition gdt_loaded (gdt : Z) (m : memory) : Prop :=
  forall e, e ∈ gdt_entries (gdt + 1024) -> load64 m (gdt + 8 * fst e) = segdesc_word (snd e).

Definition application (v : Z) (code : bool) (level : Z) : Prop :=
  hw_present v = true /\ hw_app v = true /\ hw_dpl v = level /\ hw_long v = code /\
  hw_type v = if code then Z.lor STA_X STA_R else STA_W.

(** What the processor makes of the table at [gdt]: the segments a system call
    and its return use are those of the kernel and of user programs, and the
    task state segment is the one after the table. *)
Record segments_ready (gdt : Z) (m : memory) : Prop := {
  sr_kcode : application (load64 m (gdt + 8 * SEG_KCODE)) true 0;
  sr_kdata : application (load64 m (gdt + 8 * SEG_KDATA)) false 0;
  sr_ucode : application (load64 m (gdt + 8 * SEG_UCODE)) true DPL_USER;
  sr_udata : application (load64 m (gdt + 8 * SEG_UDATA)) false DPL_USER;
  sr_tss : let lo := load64 m (gdt + 8 * SEG_TSS) in
    hw_base lo (load64 m (gdt + 8 * (SEG_TSS + 1))) = gdt + 1024 /\ hw_type lo = STS_T64A /\ hw_app lo = false /\
    hw_dpl lo = DPL_USER /\ hw_present lo = true
}.

Lemma gdt_ready gdt m : 0 <= gdt < 2 ^ 64 - PGSIZE -> gdt_loaded gdt m -> segments_ready gdt m.
Proof.
  intros Hg H. assert (Hin : forall i d, (i, d) ∈ gdt_entries (gdt + 1024) -> load64 m (gdt + 8 * i) = segdesc_word d) by (intros i d; apply (H (i, d))).
  assert (Ha : 0 <= gdt + 1024 < 2 ^ 64) by (unfold PGSIZE in Hg; lia). destruct (tss_base _ Ha) as (H1 & H2 & H3 & H4 & H5 & _).
  unfold gdt_entries in Hin. split.
  - erewrite Hin by (apply list_elem_of_In; cbn; right; left; reflexivity). by vm_compute.
  - erewrite Hin by (apply list_elem_of_In; cbn; do 2 right; left; reflexivity). by vm_compute.
  - erewrite Hin by (apply list_elem_of_In; cbn; do 5 right; left; reflexivity). by vm_compute.
  - erewrite Hin by (apply list_elem_of_In; cbn; do 4 right; left; reflexivity). by vm_compute.
  - rewrite (Hin SEG_TSS _ ltac:(apply list_elem_of_In; cbn; do 7 right; left; reflexivity)).
    rewrite (Hin (SEG_TSS + 1) _ ltac:(apply list_elem_of_In; cbn; do 8 right; left; reflexivity)). done.
Qed.

(** The segments [syscallinit] names are those of the table: a system call
    enters with the kernel's code and data segments at level 0, with
    interrupts, single stepping and the direction flag off, and returns to the
    user's at level 3. *)
Theorem syscall_segments syscall_entry ignore_sysret :
  exists star mask, (MSR_STAR, star) ∈ syscallinit syscall_entry ignore_sysret /\ (MSR_SFMASK, mask) ∈ syscallinit syscall_entry ignore_sysret /\
    (MSR_LSTAR, syscall_entry) ∈ syscallinit syscall_entry ignore_sysret /\
    selects (syscall_cs star) SEG_KCODE 0 /\ selects (syscall_ss star) SEG_KDATA 0 /\
    selects (sysret_cs star) SEG_UCODE DPL_USER /\ selects (sysret_ss star) SEG_UDATA DPL_USER /\
    Z.land mask FL_IF = FL_IF /\ Z.land mask FL_TF = FL_TF /\ Z.land mask FL_DF = FL_DF.
Proof.
  eexists _, _. unfold syscallinit. split; [apply list_elem_of_In; left; reflexivity|]. split; [apply list_elem_of_In; do 3 right; left; reflexivity|].
  split; [apply list_elem_of_In; right; left; reflexivity|]. unfold selects. by vm_compute.
Qed.
