(* ===== verification/Main.v ===== *)
(** main.c: starting the kernel.

    [main] is the sequence of initialisations the boot processor runs, up to the
    scheduler's loop.  Those of the interrupt controllers, the serial port and
    the multiprocessor tables act on devices and are modelled over the machine of
    Device.v (Apic.v, Screen.v, Mp.v).
    The lemmas follow what each initialisation leaves of the kernel's state; that
    [main] reaches the scheduler with the first process ready is Booted.v. *)

From S2P Require Import Prelude Control Memory KState Spinlock Format Sched Kalloc Vm Sleeplock.
From S2P Require Import Disk Bio Log Inode Console Fs Pipe File Proc Trap Syscall SysProc Exec SysFile Frame Safety.
From S2P Require Import Handoff Create Paging Segments.

Section Definitions.
Context `{!DiskDriver}.

(** Printing before [consoleinit]: [cons.locking] is 0. *)
Definition early_cprintf (fmt : list Z) (args : list arg) : K unit :=
  modify (fun s => s <| console ::= fun l => l ++ cprintf_out fmt args |>).

(** [others] is the number of other processors and [entry32mp] the physical
    address they enter at; [lapicstartap], a write to the interrupt controller
    (Apic.v), starts one, and the wait for it is a switch point. *)
Definition startothers (entryother : list Z) (entry32mp : Z) (others : nat) : K unit :=
  let code := P2V 0x7000 in
  upd_mem (fun m => write_bytes m code entryother) ;;
  for_each (seq 0 others) (fun _ =>
    stack ← kalloc;
    upd_mem (fun m => store32 m (code - 4) 0x8000) ;;
    upd_mem (fun m => store32 m (code - 8) entry32mp) ;;
    upd_mem (fun m => store64 m (code - 16) (stack + KSTACKSIZE)) ;;
    interfere).

Definition newline : string := String.String (Ascii.ascii_of_nat 10) String.EmptyString.
(** [idtinit] of trap.c. *)
Definition idtinit (idt : Z) : list Z := lidt idt PGSIZE.

(** What the linker places: the trap vectors, the other processors' start code
    and entry points. *)
Record linked := mkLinked {
  vectors : list Z;
  entryother : list Z;
  entry32mp : Z;                   (* its physical address *)
  syscall_entry : Z;
  ignore_sysret : Z
}.

(** The registers of a processor that its start-up loads. *)
Record cpu_regs := mkRegs {
  segs : seg_regs;
  idtr : list Z;
  msrs : list (Z * Z)
}.

(** [mpmain] up to the call of [scheduler]; [started] is read only by the wait
    in [startothers]. *)
Definition mpmain (y : linked) (idt : Z) (sr : seg_regs) : K cpu_regs :=
  c ← gets kcpu;
  cprintf (String.append "cpu%d: starting" newline) [AInt (cpu_id c)] ;;
  mret (mkRegs sr (idtinit idt) (syscallinit (syscall_entry y) (ignore_sysret y))).

(** Where another processor enters; [lapicinit] is in Apic.v. *)
Definition mpenter (y : linked) (idt : Z) : K cpu_regs :=
  switchkvm ;;
  sr ← seginit;
  mpmain y idt sr.

(** The calls that act on devices alone, which neither read nor write the
    kernel's state, are left out: [uartearlyinit], [mpinit], [lapicinit],
    [ioapicinit] and [uartinit]. *)
Definition main (ideinit : K unit) (x : linked) (others : nat) : K cpu_regs :=
  y ← gets syms;
  kinit1 (sym_end y) (P2V PHYSTOP) ;;
  kvmalloc ;;
  idt ← tvinit (vectors x);
  sr ← seginit;
  c ← gets kcpu;
  early_cprintf ([10] ++ bytes_of "cpu%d: starting Fall 2025 xv6" ++ [10; 10]) [AInt (cpu_id c)] ;;
  consoleinit ;;
  pinit ;;
  binit ;;
  fileinit ;;
  ideinit ;;
  startothers (entryother x) (entry32mp x) others ;;
  kinit2 ;;
  userinit ;;
  mpmain x idt sr.
End Definitions.

(** * The state while booting *)

Definition static_locks : list lockid := [KMEM; CONS; INPUT; PTABLE; SCHEDP; BCACHE; FTABLE; IDELOCK; ICACHE].

(** What the initialisations read and write. *)
Record bview := mkB {
  v_mem : memory;
  v_table : list proc;
  v_nextpid : Z;
  v_kpdpt : Z;
  v_use_lock : Z;
  v_params : sched_params;
  v_init : option nat;
  v_icache : list inode;
  v_ncli : Z;
  v_rr : Z
}.
#[export] Instance bview_eta : Eta bview := fun b =>
  mkB (v_mem b) (v_table b) (v_nextpid b) (v_kpdpt b) (v_use_lock b) (v_params b) (v_init b) (v_icache b) (v_ncli b) (v_rr b).
Definition bview_of (s : kstate) : bview :=
  mkB (mem s) (ptable s) (nextpid s) (kpdpt s) (use_lock (kmem s)) (schedp s) (initproc s) (icache (fs s)) (ncli (kcpu s)) (rr_next s).

Record at_boot (y : symbols) (l : list Z) (b : bview) (s : kstate) : Prop := {
  ab_view : bview_of s = b;
  ab_syms : syms s = y;
  ab_pages : free_pages s l;
  ab_cpu : cpu_ready s;
  ab_locks lk : lk ∈ static_locks -> lock_free lk s;
  ab_use : v_use_lock b = 0 \/ v_use_lock b = 1
}.

Lemma ab_ready y l b s : at_boot y l b s -> kmem_ready s.
Proof.
  intros H. destruct (ab_cpu _ _ _ _ H) as [Hc Hn]. split_and!; [|done|lia].
  pose proof (f_equal v_use_lock (ab_view _ _ _ _ H)) as E. cbn in E. destruct (ab_use _ _ _ _ H) as [E'|E']; [left; lia|right].
  split; [lia|]. apply (ab_locks _ _ _ _ H). set_solver.
Qed.

(** A change of other fields, and what it is on the view. *)
Lemma runs_boot_modify h y l b s g (Q : unit -> kstate -> Prop) : at_boot y l b s ->
  (forall s, bview_of (g s) = h (bview_of s)) ->
  mem (g s) = mem s -> kmem (g s) = kmem s -> syms (g s) = syms s -> kcpu (g s) = kcpu s -> locks (g s) = locks s ->
  (forall s', at_boot y l (h b) s' -> Q tt s') -> runs s (modify g) Q.
Proof.
  intros [Hv Hy Hp Hc Hl Hu] Hh Em Ek Es Ec El HQ. apply runs_modify, HQ. split; [by rewrite Hh, Hv|by rewrite Es| | | |].
  - by apply (free_pages_same s).
  - by apply (cpu_ready_same s).
  - intros lk Hlk. unfold lock_free. rewrite El. by apply Hl.
  - rewrite <- Hv, <- Hh. cbn. rewrite Ek. pose proof (f_equal v_use_lock Hv) as E. cbn in E. by rewrite E.
Qed.

Lemma runs_boot_initlock y l b s lk (Q : unit -> kstate -> Prop) : at_boot y l b s ->
  (forall s', at_boot y l b s' -> console s' = console s -> Q tt s') -> runs s (initlock lk) Q.
Proof.
  intros H HQ. unfold initlock, upd_lock. apply runs_bind, runs_modify, runs_modify, HQ; [|done]. destruct H as [Hv Hy Hp Hc Hl Hu].
  split; [done|done|by apply (free_pages_same s)|done| |done].
  intros lk' Hlk. unfold lock_free. cbn. rewrite insert_insert_eq. unfold getlock. cbn. rewrite lookup_insert_eq. cbn.
  destruct (decide (lk' = lk)) as [->|Hne]; [by rewrite lookup_insert_eq|]. rewrite lookup_insert_ne by done. by apply Hl.
Qed.

(** Page allocation. *)
Lemma boot_same y l l' b s s' : at_boot y l b s -> same_except_mem s s' -> free_pages s' l' ->
  at_boot y l' (b <| v_mem := mem s' |>) s'.
Proof.
  intros [Hv Hy Hp Hc Hl Hu] (Es & Hcok & _ & Hn & _ & _ & Hul) Hf. split; [|by rewrite Es|done| | |done].
  - rewrite <- Hv. unfold bview_of. cbn. rewrite Hul, Hn. rewrite Es at 2 3 4 5 6 7 8. done.
  - split; [done|]. rewrite Hn. apply Hc.
  - intros lk Hlk. unfold lock_free. rewrite Es. by apply Hl.
Qed.

Lemma runs_boot_kalloc y v l b s (Q : Z -> kstate -> Prop) : at_boot y (v :: l) b s ->
  (forall s', at_boot y l b s' -> Q v s') -> runs s kalloc Q.
Proof.
  intros H HQ w. destruct (kalloc_run v l s w (ab_pages _ _ _ _ H) (ab_ready _ _ _ _ H)) as (s' & E & Hf & Hs & Hm).
  exists v, s'. split; [done|]. apply HQ. pose proof (boot_same _ _ _ _ _ _ H Hs Hf) as H'. rewrite Hm in H'.
  assert (Eb : b <| v_mem := mem s |> = b) by (rewrite <- (ab_view _ _ _ _ H); done). by rewrite Eb in H'.
Qed.

Lemma runs_boot_kfree y v l b s (Q : unit -> kstate -> Prop) : at_boot y l b s -> page_ok y v -> v ∉ l ->
  (forall s', at_boot y (v :: l) (b <| v_mem := mem s' |>) s' -> Q tt s') -> runs s (kfree v) Q.
Proof.
  intros H Hv Hin HQ w. rewrite <- (ab_syms _ _ _ _ H) in Hv.
  destruct (kfree_run v l s w (ab_pages _ _ _ _ H) Hv Hin (ab_ready _ _ _ _ H)) as (s' & E & Hf & Hs & Hm).
  exists tt, s'. split; [done|]. apply HQ. by eapply boot_same.
Qed.

(** Writing inside a page that is not free. *)
Definition inside (u : Z) (f : memory -> memory) : Prop := forall m x, ~ (u <= x < u + PGSIZE) -> f m x = m x.

Lemma runs_boot_mem y l b s u f (Q : unit -> kstate -> Prop) : at_boot y l b s -> u mod PGSIZE = 0 -> u ∉ l -> inside u f ->
  (forall s', at_boot y l (b <| v_mem ::= f |>) s' -> Q tt s') -> runs s (upd_mem f) Q.
Proof.
  intros [Hv Hy (Hch & Hnd & Hall) Hc Hl Hu] Hal Hin Hf HQ. apply runs_modify, HQ. split; try done.
  - by rewrite <- Hv.
  - split_and!; [|done|done]. cbn. eapply (free_chain_frame (syms s) (mem s)); [exact Hal|done|done| |done]. intros x Hx. by apply Hf.
Qed.

(** The same, the memory given a name. *)
Lemma runs_boot_poke y l b s u m f (Q : unit -> kstate -> Prop) : at_boot y l (b <| v_mem := m |>) s -> u mod PGSIZE = 0 -> u ∉ l -> inside u f ->
  (forall s' m', m' = f m -> at_boot y l (b <| v_mem := m' |>) s' -> Q tt s') -> runs s (upd_mem f) Q.
Proof. intros H Hu Hin Hf HQ. eapply runs_boot_mem; [exact H|done..|]. intros s' H'. by eapply HQ. Qed.

Lemma inside_zero u : inside u (fun m => memset m u 0 PGSIZE).
Proof. intros m x Hx. rewrite memset_fill by (unfold PGSIZE; lia). unfold fill. ranges. Qed.
Lemma inside_store u a x : u <= a -> a + 8 <= u + PGSIZE -> inside u (fun m => store64 m a x).
Proof. intros H1 H2 m z Hz. unfold store64. ranges. Qed.
Lemma inside_bytes u l : forall a, u <= a -> a + Z.of_nat (length l) <= u + PGSIZE -> inside u (fun m => write_bytes m a l).
Proof.
  induction l as [|c l IH]; intros a H1 H2 m x Hx; [done|]. cbn [write_bytes length] in *. rewrite IH by (done || lia).
  unfold mset. destruct (Z.eqb_spec x a); [lia|done].
Qed.

Lemma page_of y l v b s : at_boot y (v :: l) b s -> page_ok y v /\ v mod PGSIZE = 0 /\ v ∉ l.
Proof.
  intros H. destruct (ab_pages _ _ _ _ H) as (_ & Hnd & Hall). rewrite (ab_syms _ _ _ _ H) in Hall.
  apply Forall_cons in Hall as [Hv _]. apply NoDup_cons in Hnd as [Hin _]. split_and!; [done|apply Hv|done].
Qed.

Lemma runs_boot_zeroed y v l b s (Q : Z -> kstate -> Prop) : at_boot y (v :: l) b s ->
  (forall s', at_boot y l (b <| v_mem ::= fun m => memset m v 0 PGSIZE |>) s' -> Q v s') -> runs s kalloc_zeroed Q.
Proof.
  intros H HQ. destruct (page_of _ _ _ _ _ H) as (_ & Hv & Hin). unfold kalloc_zeroed. apply runs_bind. eapply runs_boot_kalloc; [exact H|].
  intros s1 H1. apply runs_bind. eapply (runs_boot_mem _ _ _ _ v); [exact H1|done|done|apply inside_zero|]. intros s2 H2. by apply runs_ret, HQ.
Qed.

Lemma runs_boot_cpu y l b s f (Q : unit -> kstate -> Prop) : at_boot y l b s -> (forall c, ncli (f c) = ncli c /\ eflags_if (f c) = eflags_if c) ->
  (forall s', at_boot y l b s' -> Q tt s') -> runs s (upd_cpu f) Q.
Proof.
  intros [Hv Hy Hp [[Hc1 Hc2] Hn] Hl Hu] Hf HQ. apply runs_modify, HQ. destruct (Hf (kcpu s)) as [E1 E2]. split; try done.
  - rewrite <- Hv. unfold bview_of. cbn. by rewrite E1.
  - split; [split|]; cbn; rewrite ?E1, ?E2; done.
Qed.

(** * The physical pages *)

Definition pages (p : Z) (n : nat) : list Z := (fun i => p + PGSIZE * Z.of_nat i) <$> seq 0 n.

Lemma pages_snoc p n : pages p (S n) = pages p n ++ [p + PGSIZE * Z.of_nat n].
Proof. unfold pages. by rewrite seq_S, fmap_app. Qed.
Lemma pages_S p n : pages p (S n) = p :: pages (p + PGSIZE) n.
Proof.
  unfold pages. cbn [seq fmap list_fmap]. f_equal; [lia|]. rewrite <- fmap_S_seq, <- list_fmap_compose. apply list_fmap_ext. intros i x _. cbn. lia.
Qed.
Lemma elem_pages p n v : v ∈ pages p n -> exists i, (i < n)%nat /\ v = p + PGSIZE * Z.of_nat i.
Proof. intros H. apply list_elem_of_fmap in H as (i & -> & Hi). apply elem_of_seq in Hi. exists i. split; [lia|done]. Qed.

Lemma runs_freerange_loop y vend n : forall b p l s (Q : unit -> kstate -> Prop), at_boot y l b s ->
  (forall v, v ∈ pages p n -> page_ok y v /\ v ∉ l) -> p + PGSIZE * Z.of_nat n <= vend ->
  (forall s', at_boot y (reverse (pages p n) ++ l) (b <| v_mem := mem s' |>) s' -> Q tt s') -> runs s (freerange_loop n p vend) Q.
Proof.
  induction n as [|n IH]; intros b p l s Q H Hp Hend HQ; cbn [freerange_loop].
  - apply runs_ret, HQ. destruct H as [<- ? ? ? ? ?]. by split.
  - rewrite (proj2 (Z.leb_le _ _)) by (unfold PGSIZE in *; lia). rewrite pages_S in Hp, HQ.
    destruct (Hp p) as [Hok Hin]; [set_solver|]. apply runs_bind. eapply runs_boot_kfree; [exact H|done|done|]. intros s1 H1.
    eapply IH; [exact H1| |unfold PGSIZE in *; lia|].
    + intros v Hv. destruct (Hp v) as [Hv1 Hv2]; [set_solver|]. split; [done|]. apply not_elem_of_cons. split; [|done].
      intros ->. apply elem_pages in Hv as (i & _ & E). unfold PGSIZE in E. lia.
    + intros s2 H2. apply HQ. rewrite reverse_cons, <- app_assoc. exact H2.
Qed.

(** The kernel ends well below the end of memory, and the first program is
    shorter than a page. *)
Definition symbols_ok (y : symbols) : Prop :=
  KERNBASE + 0x8000 <= sym_end y /\ sym_end y + 16 * PGSIZE <= KERNBASE + PHYSTOP /\ Z.of_nat (length (sym_initcode y)) < PGSIZE.
Definition all_pages (y : symbols) : list Z :=
  let p := PGROUNDUP (sym_end y) in pages p (Z.to_nat ((P2V PHYSTOP - p) / PGSIZE)).

Lemma P2V_top : P2V PHYSTOP = KERNBASE + PHYSTOP.
Proof. reflexivity. Qed.

Lemma base_spec y : symbols_ok y -> let p := PGROUNDUP (sym_end y) in p mod PGSIZE = 0 /\ sym_end y <= p < sym_end y + PGSIZE.
Proof.
  intros (H1 & H2 & _). unfold PGROUNDUP. change (PGSIZE - 1) with 0xFFF. unfold KERNBASE, PHYSTOP, PGSIZE in *.
  rewrite u64_id by (unfold u64_range; lia). rewrite page_mask by lia. unfold PGSIZE. cbv zeta.
  rewrite Z.mul_comm, Z.mod_mul by lia. pose proof (Z.div_mod (sym_end y + 0xFFF) 4096). pose proof (Z.mod_pos_bound (sym_end y + 0xFFF) 4096). lia.
Qed.

Lemma all_pages_ok y v : symbols_ok y -> v ∈ all_pages y -> page_ok y v.
Proof.
  intros Hy Hv. destruct (base_spec y Hy) as (Hm & Hlo & Hhi). destruct Hy as (H1 & H2 & _). apply elem_pages in Hv as (i & Hi & ->).
  rewrite P2V_top in Hi. set (p := PGROUNDUP (sym_end y)) in *. unfold page_ok, V2P.
  pose proof (Z.mul_div_le (KERNBASE + PHYSTOP - p) PGSIZE). unfold KERNBASE, PHYSTOP, PGSIZE in *.
  rewrite u64_id by (unfold u64_range; lia). split_and!; [|lia|lia|lia|lia].
  rewrite Z.mul_comm, Z.mod_add by lia. done.
Qed.

Lemma all_pages_many y : symbols_ok y -> (15 <= length (all_pages y))%nat.
Proof.
  intros Hy. destruct (base_spec y Hy) as (_ & Hlo & Hhi). destruct Hy as (H1 & H2 & _). unfold all_pages, pages. rewrite length_fmap, length_seq, P2V_top.
  assert (15 <= (KERNBASE + PHYSTOP - PGROUNDUP (sym_end y)) / PGSIZE) by (apply Z.div_le_lower_bound; unfold PGSIZE in *; lia). lia.
Qed.

Lemma runs_kinit1 y b s (Q : unit -> kstate -> Prop) : symbols_ok y -> at_boot y [] b s -> v_use_lock b = 0 ->
  (forall s', at_boot y (reverse (all_pages y)) (b <| v_mem := mem s' |>) s' -> Q tt s') -> runs s (kinit1 (sym_end y) (P2V PHYSTOP)) Q.
Proof.
  intros Hy H Hul HQ. unfold kinit1. apply runs_bind. eapply runs_boot_initlock; [exact H|]. clear H. intros s1 H _. clear s. rename s1 into s.
  assert (Hk : kmem s = mkKmem 0 0).
  { pose proof (f_equal v_use_lock (ab_view _ _ _ _ H)) as E. cbn in E. rewrite Hul in E.
    destruct (ab_pages _ _ _ _ H) as (E' & _). cbn in E'. destruct (kmem s). cbn in *. by subst. }
  assert (Es : s <| kmem ::= fun k => k <| use_lock := 0 |> |> <| kmem ::= fun k => k <| freelist := 0 |> |> = s).
  { destruct s. cbn in *. by subst. }
  apply runs_bind, runs_modify, runs_bind, runs_modify. rewrite Es. unfold freerange. cbv zeta.
  eapply runs_freerange_loop; [exact H| | |].
  - intros v Hv. split; [by apply all_pages_ok|set_solver].
  - destruct (base_spec y Hy) as (_ & Hlo & Hhi). destruct Hy as (H1 & H2 & _). rewrite P2V_top.
    pose proof (Z.mul_div_le (KERNBASE + PHYSTOP - PGROUNDUP (sym_end y)) PGSIZE). unfold PGSIZE in *. lia.
  - intros s' H'. rewrite app_nil_r in H'. by apply HQ.
Qed.

(** * Loads through writes to other pages *)

Lemma load_zeroed m u j : 0 <= j -> j + 8 <= PGSIZE -> load64 (memset m u 0 PGSIZE) (u + j) = 0.
Proof.
  intros H1 H2. rewrite (load64_frame _ (fun _ => 0)); [reflexivity|]. intros x Hx. rewrite memset_fill by (unfold PGSIZE; lia). unfold fill.
  by ranges.
Qed.
Lemma load_zeroed_other m u v j : u mod PGSIZE = 0 -> v mod PGSIZE = 0 -> u <> v -> 0 <= j -> j + 8 <= PGSIZE ->
  load64 (memset m u 0 PGSIZE) (v + j) = load64 m (v + j).
Proof.
  intros Hu Hv Hne H1 H2. destruct (page_disjoint u v Hu Hv Hne); apply load64_frame; intros x Hx; apply inside_zero; lia.
Qed.
Lemma load_stored_other m u v i j x : u mod PGSIZE = 0 -> v mod PGSIZE = 0 -> u <> v -> 0 <= i -> i + 8 <= PGSIZE -> 0 <= j -> j + 8 <= PGSIZE ->
  load64 (store64 m (u + i) x) (v + j) = load64 m (v + j).
Proof. intros Hu Hv Hne Hi1 Hi2 Hj1 Hj2. destruct (page_disjoint u v Hu Hv Hne); apply load64_store64_ne; lia. Qed.
Lemma load_bytes_other m u v l j : u mod PGSIZE = 0 -> v mod PGSIZE = 0 -> u <> v -> Z.of_nat (length l) <= PGSIZE -> 0 <= j -> j + 8 <= PGSIZE ->
  load64 (write_bytes m u l) (v + j) = load64 m (v + j).
Proof.
  intros Hu Hv Hne Hl Hj1 Hj2. destruct (page_disjoint u v Hu Hv Hne); apply load64_frame; intros x Hx; apply (inside_bytes u l u); lia.
Qed.

Definition kernel_pde : Z := Z.lor (Z.lor PTE_PS PTE_P) PTE_W.

Lemma boot_ext y l b b' s : at_boot y l b s -> b = b' -> at_boot y l b' s.
Proof. by intros ? <-. Qed.

Lemma runs_kvmalloc y p4 pd l b s (Q : unit -> kstate -> Prop) : at_boot y (p4 :: pd :: l) b s ->
  (forall s' m', at_boot y l (b <| v_mem := m' |> <| v_kpdpt := pd |>) s' -> load64 m' pd = kernel_pde -> Q tt s') -> runs s kvmalloc Q.
Proof.
  intros H HQ. destruct (page_of _ _ _ _ _ H) as (_ & H4 & Hin4). apply not_elem_of_cons in Hin4 as [Hne Hin4]. unfold kvmalloc.
  apply runs_bind. eapply runs_boot_zeroed; [exact H|]. clear H. intros s1 H. apply runs_bind.
  apply (runs_boot_modify (fun b => b) _ _ _ _ _ _ H); try done. clear H s1. intros s1 H.
  apply runs_bind. eapply runs_boot_zeroed; [exact H|]. destruct (page_of _ _ _ _ _ H) as (_ & Hd & Hind). clear H. intros s2 H.
  apply runs_bind. apply (runs_boot_modify (fun b => b <| v_kpdpt := pd |>) _ _ _ _ _ _ H); try done. clear H s2. intros s2 H.
  assert (Hi : 0 <= PMX KERNBASE < 512) by (vm_compute; intuition congruence).
  apply runs_bind. eapply (runs_boot_mem _ _ _ _ p4); [exact H|done|done|apply inside_store; unfold PGSIZE; lia|]. clear H. intros s4 H.
  apply runs_bind. eapply (runs_boot_mem _ _ _ _ pd); [exact H|done|done|apply inside_store; unfold PGSIZE; lia|]. clear H. intros s5 H.
  apply runs_bind. eapply (runs_boot_mem _ _ _ _ pd); [exact H|done|done|apply inside_store; unfold PGSIZE; lia|]. clear H. intros s6 H.
  unfold switchkvm. apply runs_bind, runs_gets. eapply runs_boot_cpu; [exact H|done|]. clear H. intros s7 H.
  cbn [v_mem setter v_table v_nextpid v_kpdpt v_use_lock v_params v_init v_icache v_ncli v_rr] in H. eapply HQ; [exact H|].
  rewrite Z.mul_0_r, Z.add_0_r. rewrite load64_store64_ne by lia. rewrite load64_store64. reflexivity.
Qed.

Lemma runs_tvinit y idt l b s vectors (Q : Z -> kstate -> Prop) : at_boot y (idt :: l) b s ->
  (forall s' m', at_boot y l (b <| v_mem := m' |>) s' -> (forall x, ~ (idt <= x < idt + PGSIZE) -> m' x = v_mem b x) -> Q idt s') ->
  runs s (tvinit vectors) Q.
Proof.
  intros H HQ. destruct (page_of _ _ _ _ _ H) as (_ & Hi & Hin). unfold tvinit. apply runs_bind. eapply runs_boot_kalloc; [exact H|]. clear H. intros s1 H.
  assert (H' : at_boot y l (b <| v_mem := v_mem b |>) s1) by (by destruct b). clear H. rename H' into H.
  apply runs_bind. eapply (runs_boot_poke _ _ _ _ idt); [exact H|done|done|apply inside_zero|]. clear H. intros s2 m2 Em2 H. apply runs_bind.
  assert (Hm2 : forall x, ~ (idt <= x < idt + PGSIZE) -> m2 x = v_mem b x) by (intros x Hx; rewrite Em2; by apply inside_zero).
  clear Em2.
  apply (runs_for_each (fun _ s' => exists m', at_boot y l (b <| v_mem := m' |>) s' /\ forall x, ~ (idt <= x < idt + PGSIZE) -> m' x = v_mem b x)).
  - by exists m2.
  - intros done n rest s3 En (m' & H3 & Hm'). assert (Hn : (n < 256)%nat).
    { assert (Hin' : n ∈ seq 0 256) by (rewrite En; set_solver). apply elem_of_seq in Hin'. lia. }
    set (gate := mjoin (bytes32 <$> mkgate (getb vectors n) 0)).
    assert (Hgate : inside idt (fun m => write_bytes m (idt + 16 * Z.of_nat n) gate)).
    { apply inside_bytes; [lia|]. change (length gate) with 16%nat. unfold PGSIZE. lia. }
    clearbody gate. eapply (runs_boot_poke _ _ _ _ idt); [exact H3|done|done|exact Hgate|].
    intros s4 m4 -> H4. eexists. split; [exact H4|]. intros x Hx. cbv beta. rewrite Hgate by done. by apply Hm'.
  - intros s' (m' & H' & Hm'). apply runs_ret. by eapply HQ.
Qed.

(** The descriptor table. *)
Lemma inside_store32 u a x : u <= a -> a + 4 <= u + PGSIZE -> inside u (fun m => store32 m a x).
Proof. intros H1 H2 m z Hz. unfold store32. ranges. Qed.

Lemma gdt_word e t : e ∈ gdt_entries t -> 0 <= t < 2 ^ 64 -> 0 <= fst e < 9 /\ u64 (segdesc_word (snd e)) = segdesc_word (snd e).
Proof.
  intros He Ht. destruct (tss_base t Ht) as (_ & _ & _ & _ & _ & Hlo & Hhi).
  unfold gdt_entries in He. do 7 (apply elem_of_cons in He as [->|He]; [by vm_compute|]).
  apply elem_of_cons in He as [->|He]; [split; [done|by apply u64_id]|]. apply elem_of_cons in He as [->|He]; [split; [done|by apply u64_id]|].
  by apply elem_of_nil in He.
Qed.

Lemma gdt_distinct t : NoDup (fst <$> gdt_entries t).
Proof. change (NoDup [0; 1; 2; 3; 4; 5; 6; 7; 8]). apply (proj1 (bool_decide_eq_true _)). by vm_compute. Qed.

Lemma runs_seginit y v l b s (Q : seg_regs -> kstate -> Prop) : at_boot y (v :: l) b s ->
  (forall s' m', at_boot y l (b <| v_mem := m' |>) s' -> (forall x, ~ (v <= x < v + PGSIZE) -> m' x = v_mem b x) -> gdt_loaded v m' ->
    Q (mkSegRegs (v + 2048) (lgdt v ((NSEGS + 1) * 8)) (Z.shiftl SEG_TSS 3)) s') -> runs s seginit Q.
Proof.
  intros H HQ. destruct (page_of _ _ _ _ _ H) as (Hok & Hi & Hin). unfold seginit. apply runs_bind. eapply runs_boot_kalloc; [exact H|]. clear H. intros s1 H.
  assert (H' : at_boot y l (b <| v_mem := v_mem b |>) s1) by (by destruct b). clear H. rename H' into H.
  apply runs_bind. eapply (runs_boot_poke _ _ _ _ v); [exact H|done|done|apply inside_zero|]. clear H. intros s2 m2 Em2 H.
  assert (Hm2 : forall x, ~ (v <= x < v + PGSIZE) -> m2 x = v_mem b x) by (intros x Hx; rewrite Em2; by apply inside_zero). clear Em2.
  apply runs_bind. eapply (runs_boot_poke _ _ _ _ v); [exact H|done|done|apply inside_store32; unfold PGSIZE; lia|]. clear H. intros s3 m3 Em3 H.
  assert (Hm3 : forall x, ~ (v <= x < v + PGSIZE) -> m3 x = v_mem b x).
  { intros x Hx. rewrite Em3, (inside_store32 v) by (done || unfold PGSIZE; lia). by apply Hm2. }
  clear Em3 Hm2. apply runs_bind. eapply runs_boot_cpu; [exact H|done|]. clear H. intros s4 H. apply runs_bind.
  apply (runs_for_each (fun d s' => exists m', at_boot y l (b <| v_mem := m' |>) s' /\ (forall x, ~ (v <= x < v + PGSIZE) -> m' x = v_mem b x) /\
    forall e, e ∈ d -> load64 m' (v + 8 * fst e) = segdesc_word (snd e))).
  - exists m3. split_and!; [done|done|]. intros e He. by apply elem_of_nil in He.
  - intros d e rest s5 En (m' & H5 & Hm' & Hd). pose proof (gdt_distinct (v + 1024)) as Hnd. rewrite En, fmap_app, fmap_cons in Hnd.
    assert (Ht : 0 <= v + 1024 < 2 ^ 64) by (destruct Hok as (_ & _ & _ & ?); unfold PGSIZE in *; lia).
    assert (He : forall e', e' ∈ d ++ e :: rest -> 0 <= fst e' < 9 /\ u64 (segdesc_word (snd e')) = segdesc_word (snd e')) by (rewrite <- En; intros e' He'; by apply (gdt_word e' _ He')).
    destruct (He e ltac:(set_solver)) as [He1 He2].
    eapply (runs_boot_poke _ _ _ _ v); [exact H5|done|done|apply inside_store; unfold PGSIZE; lia|]. intros s6 m6 E6 H6. exists m6. split_and!; [done| |].
    + intros x Hx. rewrite E6, (inside_store v) by (done || unfold PGSIZE; lia). by apply Hm'.
    + intros e' He'. rewrite E6. apply elem_of_app in He' as [He'|He'].
      * assert (Hne : fst e' <> fst e).
        { intros E. apply NoDup_app in Hnd as (_ & Hx & _). apply (Hx (fst e')); [by apply list_elem_of_fmap_2|]. rewrite E. set_solver. }
        destruct (He e' ltac:(set_solver)). rewrite load64_store64_ne by lia. by apply Hd.
      * apply list_elem_of_singleton in He' as ->. by rewrite load64_store64, He2.
  - intros s' (m' & H' & Hm' & Hd). apply runs_ret. by eapply HQ.
Qed.

(** * The other initialisations *)

Lemma runs_consoleinit y l b s (Q : unit -> kstate -> Prop) : at_boot y l b s ->
  (forall s', at_boot y l b s' -> Q tt s') -> runs s consoleinit Q.
Proof.
  intros H HQ. unfold consoleinit. apply runs_bind. eapply runs_boot_initlock; [exact H|]. intros s1 H1 _.
  apply runs_bind. eapply runs_boot_initlock; [exact H1|]. intros s2 H2 _. by apply (runs_boot_modify (fun b => b) _ _ _ _ _ _ H2).
Qed.

Definition initial_params : sched_params := mkParams 4 6 8 500 50 10 50 0 0 0.

Lemma runs_pinit y l b s (Q : unit -> kstate -> Prop) : at_boot y l b s ->
  (forall s', at_boot y l (b <| v_params := initial_params |>) s' -> Q tt s') -> runs s pinit Q.
Proof.
  intros H HQ. unfold pinit. apply runs_bind. eapply runs_boot_initlock; [exact H|]. intros s1 H1 _.
  apply runs_bind. eapply runs_boot_initlock; [exact H1|]. intros s2 H2 _.
  apply (runs_boot_modify (fun b => b <| v_params := initial_params |>) _ _ _ _ _ _ H2); try done.
Qed.

Lemma runs_boot_fs y l b s f (Q : unit -> kstate -> Prop) : at_boot y l b s -> (forall x, icache (f x) = icache x) ->
  (forall s', at_boot y l b s' -> Q tt s') -> runs s (upd_fs f) Q.
Proof.
  intros H Hf HQ. apply (runs_boot_modify (fun b => b) _ _ _ _ _ _ H); try done. intros s0. unfold bview_of. cbn. by rewrite Hf.
Qed.

Lemma runs_binit y l b s (Q : unit -> kstate -> Prop) : at_boot y l b s ->
  (forall s', at_boot y l b s' -> Q tt s') -> runs s binit Q.
Proof.
  intros H HQ. unfold binit. apply runs_bind. eapply runs_boot_initlock; [exact H|]. intros s1 H1 _.
  apply runs_bind. eapply runs_boot_fs; [exact H1|done|]. intros s2 H2.
  apply (runs_for_each (fun _ s' => at_boot y l b s')); [done| |done]. intros done i rest s3 _ H3. unfold initsleeplock.
  apply runs_bind, runs_bind. eapply runs_boot_initlock; [exact H3|]. intros s4 H4 _.
  apply runs_bind. apply (runs_boot_modify (fun b => b) _ _ _ _ _ _ H4); [done..|]. intros s5 H5.
  apply (runs_boot_modify (fun b => b) _ _ _ _ _ _ H5); [done..|]. intros s6 H6. by eapply runs_boot_fs; [exact H6|done|].
Qed.

Lemma runs_ideinit y l b s present (Q : unit -> kstate -> Prop) : at_boot y l b s ->
  (forall s', at_boot y l b s' -> Q tt s') -> runs s (Ide.ideinit present) Q.
Proof.
  intros H HQ. unfold Ide.ideinit, Ide.idewait. apply runs_bind. eapply runs_boot_initlock; [exact H|]. intros s1 H1 _.
  apply runs_bind, runs_bind, runs_gets, runs_ret. destruct present; cbn [when]; [by eapply runs_boot_fs; [exact H1|done|]|by apply runs_ret, HQ].
Qed.

Lemma runs_kinit2 y l b s (Q : unit -> kstate -> Prop) : at_boot y l b s ->
  (forall s', at_boot y l (b <| v_use_lock := 1 |>) s' -> Q tt s') -> runs s kinit2 Q.
Proof.
  intros [Hv Hy (Hch & Hnd & Hall) Hc Hl Hu] HQ. apply runs_modify, HQ. split; try done; [by rewrite <- Hv|by right].
Qed.

(** * The first process *)

Lemma boot_settle y l b s : at_boot y l b s -> at_boot y l b (settle s).
Proof. intros [Hv Hy Hp Hc Hl Hu]. by split. Qed.

Lemma boot_mem y l b m s : at_boot y l (b <| v_mem := m |>) s -> mem s = m.
Proof. intros H. exact (f_equal v_mem (ab_view _ _ _ _ H)). Qed.

Lemma runs_boot_clear y v l b m s (Q : Z -> kstate -> Prop) : at_boot y (v :: l) (b <| v_mem := m |>) s ->
  (forall s' m', m' = memset m v 0 PGSIZE -> at_boot y l (b <| v_mem := m' |>) s' -> Q v s') -> runs s kalloc_zeroed Q.
Proof. intros H HQ. eapply runs_boot_zeroed; [exact H|]. intros s' H'. by eapply HQ. Qed.

Lemma runs_boot_read y l b m s a (Q : Z -> kstate -> Prop) : at_boot y l (b <| v_mem := m |>) s -> Q (load64 m a) s -> runs s (read64 a) Q.
Proof. intros H HQ. apply runs_gets. by rewrite (boot_mem _ _ _ _ _ H). Qed.

Definition table_pte (t : Z) : Z := Z.lor (Z.lor (Z.lor (V2P t) PTE_P) PTE_W) PTE_U.

Lemma runs_walk_new y t l b m s u idx (Q : option Z -> kstate -> Prop) : at_boot y (t :: l) (b <| v_mem := m |>) s ->
  u mod PGSIZE = 0 -> u ∉ t :: l -> 0 <= idx < 512 -> load64 m (u + 8 * idx) = 0 ->
  (forall s' m', m' = store64 (memset m t 0 PGSIZE) (u + 8 * idx) (table_pte t) -> at_boot y l (b <| v_mem := m' |>) s' -> Q (Some t) s') ->
  runs s (walk_level u idx true) Q.
Proof.
  intros H Hu Hin Hidx Hz HQ. destruct (page_of _ _ _ _ _ H) as (Hok & Ht & Hint). apply not_elem_of_cons in Hin as [_ Hin]. unfold walk_level. cbv zeta.
  apply runs_bind. eapply runs_boot_read; [exact H|]. rewrite Hz. change (has PTE_P 0) with false. cbn [negb]. cbv iota.
  apply runs_bind. eapply runs_boot_kalloc; [exact H|]. clear H. intros s1 H.
  rewrite (proj2 (Z.eqb_neq t 0)) by (destruct Hok as (_ & _ & _ & ?); lia).
  apply runs_bind. eapply (runs_boot_poke _ _ _ _ t); [exact H|done|done|apply inside_zero|]. clear H. intros s2 m2 E2 H.
  apply runs_bind. eapply (runs_boot_poke _ _ _ _ u); [exact H|done|done|apply inside_store; unfold PGSIZE; lia|]. clear H. intros s3 m3 E3 H.
  apply runs_ret. eapply HQ; [|exact H]. by rewrite E3, E2.
Qed.

(** The slot of a process just made. *)
Lemma runs_boot_allocproc y v l b m s p T (Q : option nat -> kstate -> Prop) : at_boot y (v :: l) (b <| v_mem := m |>) s ->
  v_table b = p :: T -> pstate p = UNUSED ->
  (forall s' m' now, m' = store64 m (v + (KSTACKSIZE - sizeof_trapframe - 8)) (sym_syscall_trapret y) ->
    at_boot y l (b <| v_table := fresh_proc (v_nextpid b) now v y p :: T |> <| v_nextpid := i32 (v_nextpid b + 1) |> <| v_mem := m' |>) s' ->
    Q (Some 0%nat) s') -> runs s allocproc Q.
Proof.
  intros H HT Hp HQ w. assert (ET : ptable s = p :: T) by (rewrite <- HT; exact (f_equal v_table (ab_view _ _ _ _ H))).
  destruct (allocproc_some 0 p v l s w) as (s' & E & Ept & Enp & Hf & Esp & Efr & Em & Eul & Hc & Enc); try done.
  { apply H. }
  { apply (ab_locks _ _ _ _ H). set_solver. }
  { by eapply ab_ready. }
  { apply H. }
  { by rewrite ET. }
  { intros j q Hj. lia. }
  exists (Some 0%nat), s'. split; [exact E|]. rewrite (boot_mem _ _ _ _ _ H), (ab_syms _ _ _ _ H) in Em.
  replace (v + KSTACKSIZE - sizeof_trapframe - 8) with (v + (KSTACKSIZE - sizeof_trapframe - 8)) in Em by lia.
  eapply (HQ _ _ (ticks s) Em). pose proof (ab_view _ _ _ _ H) as Hv. destruct H as [_ Hy _ _ Hl Hu]. split; [|by rewrite Efr|done|done| |done].
  - unfold bview_of. rewrite Ept, Enp, Eul, Enc, ET, Hy. rewrite (f_equal v_nextpid Hv : nextpid s = v_nextpid b).
    rewrite Efr. cbn. f_equal; [exact (f_equal v_kpdpt Hv)|exact (f_equal v_use_lock Hv)|exact (f_equal v_params Hv)|exact (f_equal v_init Hv)|exact (f_equal v_icache Hv)|exact (f_equal v_ncli Hv)|exact (f_equal v_rr Hv)].
  - intros lk Hlk. unfold lock_free. rewrite Efr. by apply Hl.
Qed.

(** The user page: the memory after [inituvm] maps page 1 of [g] to [u] through
    the three new tables. *)
Definition user_pte (u : Z) : Z := Z.lor (Z.lor (V2P u) (Z.lor PTE_W PTE_U)) PTE_P.
Definition uvm_memory (g u t1 t2 t3 : Z) (init : list Z) (m : memory) : memory :=
  let m := memset m u 0 PGSIZE in
  let m := store64 (memset m t1 0 PGSIZE) (g + 8 * 0) (table_pte t1) in
  let m := store64 (memset m t2 0 PGSIZE) (t1 + 8 * 0) (table_pte t2) in
  let m := store64 (memset m t3 0 PGSIZE) (t2 + 8 * 0) (table_pte t3) in
  let m := store64 m (t3 + 8 * 1) (user_pte u) in
  write_bytes m u init.

Lemma runs_inituvm y g u t1 t2 t3 l b m s init (Q : unit -> kstate -> Prop) :
  at_boot y (u :: t1 :: t2 :: t3 :: l) (b <| v_mem := m |>) s -> g mod PGSIZE = 0 -> g ∉ u :: t1 :: t2 :: t3 :: l ->
  load64 m g = 0 -> Z.of_nat (length init) < PGSIZE ->
  (forall s' m', m' = uvm_memory g u t1 t2 t3 init m -> at_boot y l (b <| v_mem := m' |>) s' -> Q tt s') ->
  runs s (inituvm g init) Q.
Proof.
  intros H Hg Hgin Hz Hlen HQ. destruct (ab_pages _ _ _ _ H) as (_ & Hnd & Hall).
  assert (Hal : u mod PGSIZE = 0 /\ t1 mod PGSIZE = 0 /\ t2 mod PGSIZE = 0 /\ t3 mod PGSIZE = 0 /\ 0 < t3 < 2 ^ 64 - PGSIZE).
  { repeat (apply Forall_cons in Hall as [(? & _ & _ & ?) Hall]). done. }
  destruct Hal as (Hu & H1 & H2 & H3 & Hpos). clear Hall.
  apply NoDup_cons in Hnd as [Hu' Hnd]. apply NoDup_cons in Hnd as [H1' Hnd]. apply NoDup_cons in Hnd as [H2' Hnd]. apply NoDup_cons in Hnd as [H3' _].
  repeat (rewrite not_elem_of_cons in * ). unfold inituvm. rewrite (proj2 (Z.leb_gt _ _)) by done. apply runs_bind.
  eapply runs_boot_clear; [exact H|]. clear H. intros s1 m1 E1 H. apply runs_bind.
  change (mappages g PGSIZE PGSIZE (V2P u) (Z.lor PTE_W PTE_U)) with (mappages_loop 1 g 4096 4096 (V2P u) (Z.lor PTE_W PTE_U)).
  cbn [mappages_loop]. apply runs_bind. unfold walkpgdir.
  change (PMX 4096) with 0. change (PDPX 4096) with 0. change (PDX 4096) with 0. change (PTX 4096) with 1.
  apply runs_bind. eapply runs_walk_new; [exact H|done|rewrite !not_elem_of_cons; naive_solver|lia| |].
  { rewrite E1, Z.mul_0_r, load_zeroed_other, Z.add_0_r; try done; naive_solver. }
  clear H. intros s2 m2 E2 H.
  apply runs_bind. eapply runs_walk_new; [exact H|done|rewrite !not_elem_of_cons; naive_solver|lia| |].
  { rewrite E2, !Z.mul_0_r, load_stored_other, load_zeroed; try done; naive_solver. }
  clear H. intros s3 m3 E3 H.
  apply runs_bind. eapply runs_walk_new; [exact H|done|rewrite !not_elem_of_cons; naive_solver|lia| |].
  { rewrite E3, !Z.mul_0_r, load_stored_other, load_zeroed; try done; naive_solver. }
  clear H. intros s4 m4 E4 H. apply runs_ret. rewrite (proj2 (Z.eqb_neq (t3 + 8 * 1) 0)) by lia.
  apply runs_bind. eapply runs_boot_read; [exact H|].
  assert (Hz3 : load64 m4 (t3 + 8 * 1) = 0) by (rewrite E4, !Z.mul_0_r, load_stored_other, load_zeroed; try done; naive_solver).
  rewrite Hz3. change (has PTE_P 0) with false. cbv iota.
  apply runs_bind. eapply (runs_boot_poke _ _ _ _ t3); [exact H|done|naive_solver|apply inside_store; unfold PGSIZE; lia|]. clear H. intros s5 m5 E5 H.
  rewrite Z.eqb_refl. apply runs_ret.
  eapply (runs_boot_poke _ _ _ _ u); [exact H|done|naive_solver|apply inside_bytes; lia|]. intros s6 m6 E6 H6.
  eapply HQ; [|exact H6]. unfold uvm_memory, user_pte. by rewrite E6, E5, E4, E3, E2, E1.
Qed.

Section First.
Context `{DD : !DiskDriver}.

(** [namei("/")] on an empty inode cache: the first entry, with a reference. *)
Definition root_inode : inode := zero_inode <| idev := ROOTDEV |> <| inum := ROOTINO |> <| iref := 1 |> <| iflags := 0 |>.

Lemma runs_namei_root y l b s c (Q : option nat -> kstate -> Prop) : at_boot y l b s -> v_icache b = zero_inode :: c ->
  iget_scan ROOTDEV ROOTINO (zero_inode :: c) 0 None = (None, Some 0%nat) ->
  (forall s', at_boot y l (b <| v_icache := root_inode :: c |>) s' -> Q (Some 0%nat) s') -> runs s (namei (bytes_of "/")) Q.
Proof.
  intros H Hc Hscan HQ w. set (g := fun s : kstate => s <| fs ::= fun x => x <| icache ::= alter (fun ip => ip <| idev := ROOTDEV |> <| inum := ROOTINO |>
    <| iref := 1 |> <| iflags := 0 |>) 0%nat |> |>).
  assert (Ec : icache (fs s) = zero_inode :: c) by (rewrite <- Hc; exact (f_equal v_icache (ab_view _ _ _ _ H))).
  assert (Hl : lock_free ICACHE s) by (apply (ab_locks _ _ _ _ H); set_solver). destruct (ab_cpu _ _ _ _ H) as [Hcpu Hn].
  assert (E : iget ROOTDEV ROOTINO s w = Ok 0%nat (settle (g s)) w).
  { unfold iget. etransitivity; [|exact (section_then ICACHE g (fun _ => mret 0%nat) s w ltac:(done) Hl Hcpu ltac:(lia))].
    rewrite !acquire_then by done. rewrite bind_gets. change (icache (fs (enter ICACHE s))) with (icache (fs s)). rewrite Ec, Hscan. done. }
  exists (Some 0%nat), (settle (g s)). split.
  - unfold namei, namex. change (hd0 (bytes_of "/") =? slash) with true. cbv iota. unfold mbind at 1 2, M_bind at 1 2. rewrite E. done.
  - apply HQ. apply boot_settle. destruct H as [Hv Hy Hp Hcp Hlk Hu]. split; try done. rewrite <- Hv. unfold bview_of, g. cbn. rewrite Ec. done.
Qed.

Lemma boot_icache_mem y l b m c s : at_boot y l (b <| v_mem := m |> <| v_icache := c |>) s -> at_boot y l (b <| v_icache := c |> <| v_mem := m |>) s.
Proof. done. Qed.

Lemma runs_boot_proc y l b m s i f (Q : unit -> kstate -> Prop) : at_boot y l (b <| v_mem := m |>) s ->
  (forall s', at_boot y l (b <| v_table ::= alter f i |> <| v_mem := m |>) s' -> Q tt s') -> runs s (upd_proc i f) Q.
Proof. intros H HQ. by apply (runs_boot_modify (fun b => b <| v_table ::= alter f i |>) _ _ _ _ _ _ H). Qed.

Lemma runs_boot_initproc y l b m s i (Q : unit -> kstate -> Prop) : at_boot y l (b <| v_mem := m |>) s ->
  (forall s', at_boot y l (b <| v_init := Some i |> <| v_mem := m |>) s' -> Q tt s') -> runs s (modify (fun s => s <| initproc := Some i |>)) Q.
Proof. intros H HQ. by apply (runs_boot_modify (fun b => b <| v_init := Some i |>) _ _ _ _ _ _ H). Qed.

(** The first process, from its slot. *)
Definition made (g : Z) (p : proc) : proc :=
  p <| pgdir := g |> <| sz := PGSIZE * 2 |>
    <| tf := zero_trapframe <| r11 := FL_IF |> <| rsp := PGSIZE * 2 |> <| rcx := PGSIZE |> |>
    <| pname ::= fun n => safestrcpy n (bytes_of "initcode") 16 |> <| cwd := Some 0%nat |> <| pstate := RUNNABLE |>.
Definition first_proc (now k g : Z) (y : symbols) : proc := made g (fresh_proc 1 now k y zero_proc).

Lemma alter_head {A} (f : A -> A) x l : alter f 0%nat (x :: l) = f x :: l.
Proof. done. Qed.

(** What memory holds then. *)
Definition first_memory (k g u t1 t2 t3 kp : Z) (y : symbols) (m : memory) : memory :=
  let m := store64 m (k + (KSTACKSIZE - sizeof_trapframe - 8)) (sym_syscall_trapret y) in
  let m := store64 (memset m g 0 PGSIZE) (g + 8 * 256) (Z.lor (Z.lor (V2P kp) PTE_P) PTE_W) in
  uvm_memory g u t1 t2 t3 (sym_initcode y) m.

Lemma runs_userinit y k g u t1 t2 t3 l b m s T c (Q : unit -> kstate -> Prop) :
  at_boot y (k :: g :: u :: t1 :: t2 :: t3 :: l) (b <| v_mem := m |>) s -> symbols_ok y ->
  v_table b = zero_proc :: T -> v_nextpid b = 1 -> v_icache b = zero_inode :: c ->
  iget_scan ROOTDEV ROOTINO (zero_inode :: c) 0 None = (None, Some 0%nat) ->
  (forall s' now m', m' = first_memory k g u t1 t2 t3 (v_kpdpt b) y m ->
    at_boot y l (b <| v_table := first_proc now k g y :: T |> <| v_nextpid := 2 |> <| v_init := Some 0%nat |>
      <| v_icache := root_inode :: c |> <| v_mem := m' |>) s' -> Q tt s') ->
  runs s userinit Q.
Proof.
  intros H Hy HT Hnp Hic Hscan HQ. destruct Hy as (_ & _ & Hlen). unfold userinit. apply runs_bind.
  eapply runs_boot_allocproc; [exact H|done|done|]. clear H. intros s1 m1 now E1 H. rewrite Hnp in H.
  apply runs_bind. eapply runs_boot_initproc; [exact H|]. clear H. intros s2 H.
  destruct (page_of _ _ _ _ _ H) as (Hok & Hg & Hgin). set (p0 := fresh_proc 1 now k y zero_proc) in *. set (np := i32 (1 + 1)) in *.
  apply runs_bind. unfold setupkvm. apply runs_bind. eapply runs_boot_kalloc; [exact H|]. clear H. intros s3 H.
  apply runs_bind. eapply (runs_boot_poke _ _ _ _ g); [exact H|done|done|apply inside_zero|]. clear H. intros s4 m4 E4 H.
  apply runs_bind, runs_gets. assert (Ekp : kpdpt s4 = v_kpdpt b) by exact (f_equal v_kpdpt (ab_view _ _ _ _ H)). rewrite Ekp.
  apply runs_bind. eapply (runs_boot_poke _ _ _ _ g); [exact H|done|done|apply inside_store; unfold PGSIZE; lia|]. clear H. intros s5 m5 E5 H.
  apply runs_ret. apply runs_bind. eapply runs_boot_proc; [exact H|]. clear H. intros s6 H.
  rewrite (proj2 (Z.eqb_neq g 0)) by (destruct Hok as (_ & _ & _ & ?); lia). apply runs_bind, runs_gets. rewrite (ab_syms _ _ _ _ H).
  apply runs_bind. eapply runs_inituvm; [exact H|done|done| |done|].
  { rewrite E5, load64_store64_ne, E4 by lia. rewrite <- (Z.add_0_r g) at 2. by rewrite load_zeroed. }
  clear H. intros s7 m7 E7 H.
  apply runs_bind. eapply runs_boot_proc; [exact H|]. clear H. intros s8 H.
  apply runs_bind. eapply runs_boot_proc; [exact H|]. clear H. intros s9 H.
  apply runs_bind. eapply runs_boot_proc; [exact H|]. clear H. intros s10 H.
  apply runs_bind. eapply runs_namei_root; [exact H|exact Hic|exact Hscan|]. clear H. intros s11 H.
  assert (H' := boot_icache_mem _ _ _ _ _ _ H). clear H. rename H' into H.
  apply runs_bind. eapply runs_boot_proc; [exact H|]. clear H. intros s12 H.
  unfold set_state. eapply runs_boot_proc; [exact H|]. clear H. intros s13 H.
  assert (E : m7 = first_memory k g u t1 t2 t3 (v_kpdpt b) y m).
  { unfold first_memory. cbv zeta. rewrite <- E1, <- E4, <- E5. exact E7. }
  clear -HQ H E. apply (HQ s13 now m7 E). eapply boot_ext; [exact H|].
  unfold first_proc. fold p0. change np with 2. clearbody p0. destruct b. reflexivity.
Qed.
End First.
