(* ===== verification/Booted.v ===== *)
(** Booting composed: from a machine just switched on, [main] reaches the
    scheduler with the first program mapped and ready, and whatever the kernel
    does from there on keeps the scheduler's invariant. *)

From S2P Require Import Prelude Control Memory KState Spinlock Format Sched Kalloc Vm Sleeplock Selection Pass.
From S2P Require Import Disk Bio Log Inode Console Fs Pipe File Proc Trap Syscall SysProc Exec SysFile Frame Safety.
From S2P Require Import Reach Handoff Create Paging Segments Main.

(** * The page tables of the first process *)

Section Tables.
Context (y : symbols) (k g u t1 t2 t3 kp : Z) (m : memory).
Context (Hy : symbols_ok y) (Hok : Forall (page_ok y) [k; g; u; t1; t2; t3; kp]) (Hnd : NoDup [k; g; u; t1; t2; t3; kp]).

Abbreviation mem' := (first_memory k g u t1 t2 t3 kp y m).

Lemma ok_page v : page_ok y v -> v mod PGSIZE = 0 /\ KERNBASE <= v < KERNBASE + PHYSTOP /\ aligned (V2P v) /\ P2V (V2P v) = v.
Proof.
  intros (Hm & Hlo & Hhi & Hb). destruct Hy as (H1 & H2 & _). unfold V2P, KERNBASE, PHYSTOP, PGSIZE in *.
  assert (Hu : v < 2 ^ 64) by lia. rewrite u64_id in Hhi |- * by (unfold u64_range; lia). split; [done|]. split; [lia|]. split.
  - unfold aligned, PGSIZE. split; [lia|]. split; [lia|]. by rewrite Zminus_mod, Hm.
  - unfold P2V, KERNBASE. rewrite u64_id by (unfold u64_range; lia). lia.
Qed.

Lemma table_pte_mk t : table_pte t = mk_pte (V2P t) (Z.lor PTE_W PTE_U).
Proof. unfold table_pte, mk_pte. by rewrite <- !Z.lor_assoc. Qed.
Lemma kernel_entry_mk : Z.lor (Z.lor (V2P kp) PTE_P) PTE_W = mk_pte (V2P kp) PTE_W.
Proof. unfold mk_pte. by rewrite <- !Z.lor_assoc. Qed.

Lemma mk_pte_small a perm : aligned a -> Z.land perm PTE_PS = 0 -> has PTE_PS (mk_pte a perm) = false.
Proof.
  intros (H0 & H1 & H2) Hp. unfold has, mk_pte. rewrite !Z.land_lor_distr_l, Hp. change (Z.land PTE_P PTE_PS) with 0. rewrite !Z.lor_0_r.
  assert (E : Z.land a PTE_PS = 0); [|by rewrite E]. unfold PGSIZE in *. apply Z.bits_inj'. intros n Hn. rewrite Z.land_spec, Z.bits_0.
  change PTE_PS with (2 ^ 7). destruct (decide (n = 7)) as [->|Hne]; [|by rewrite Z.pow2_bits_false, andb_false_r].
  assert (Ea : a = a / 4096 * 2 ^ 12) by (change (2 ^ 12) with 4096; pose proof (Z.div_mod a 4096); lia).
  by rewrite Ea, Z.mul_pow2_bits_low by lia.
Qed.

Ltac far := first [ assumption | apply not_eq_sym; assumption | clear; unfold PGSIZE, KSTACKSIZE, sizeof_trapframe; lia ].
Ltac past_bytes := rewrite load_bytes_other by far.
Ltac past_store := rewrite load_stored_other by far.
Ltac past_zero := rewrite load_zeroed_other by far.

Lemma first_loads : Z.of_nat (length (sym_initcode y)) < PGSIZE ->
  load64 mem' (g + 8 * 0) = u64 (table_pte t1) /\ load64 mem' (t1 + 8 * 0) = u64 (table_pte t2) /\
  load64 mem' (t2 + 8 * 0) = u64 (table_pte t3) /\ load64 mem' (t3 + 8 * 1) = u64 (user_pte u) /\
  load64 mem' (g + 8 * 256) = u64 (Z.lor (Z.lor (V2P kp) PTE_P) PTE_W) /\
  forall v j, v mod PGSIZE = 0 -> v ∉ [k; g; u; t1; t2; t3] -> 0 <= j -> j + 8 <= PGSIZE -> load64 mem' (v + j) = load64 m (v + j).
Proof.
  intros Hlen. apply Z.lt_le_incl in Hlen. assert (Hal : Forall (fun v => v mod PGSIZE = 0) [k; g; u; t1; t2; t3; kp]).
  { eapply Forall_impl; [exact Hok|]. intros v Hv. by apply ok_page. }
  clear Hok. repeat (apply Forall_cons in Hal as [? Hal]). repeat (apply NoDup_cons in Hnd as [? Hnd]).
  repeat (rewrite not_elem_of_cons in * ). destruct_and!. unfold first_memory, uvm_memory. cbv zeta. split_and!; [..|intros v j Hv Hin Hj0 Hj1].
  - past_bytes. do 2 past_store. past_zero. past_store. past_zero. apply load64_store64.
  - past_bytes. do 2 past_store. past_zero. apply load64_store64.
  - past_bytes. past_store. apply load64_store64.
  - past_bytes. apply load64_store64.
  - past_bytes. do 2 past_store. past_zero. past_store. past_zero. rewrite load64_store64_ne by lia. do 2 past_zero. apply load64_store64.
  - repeat (rewrite not_elem_of_cons in Hin). destruct_and!.
    past_bytes. do 2 past_store. past_zero. past_store. past_zero. past_store. do 2 past_zero. past_store. past_zero. by past_store.
Qed.

(** An entry that points to a page. *)
Lemma entry_to mm e v perm : page_ok y v -> flags_ok perm -> load64 mm e = u64 (mk_pte (V2P v) perm) ->
  present mm e = true /\ next mm e = v.
Proof.
  intros Hv Hp He. destruct (ok_page v Hv) as (_ & _ & Ha & Hb). unfold present, next. rewrite He, mk_pte_u64 by done.
  by rewrite mk_pte_present, mk_pte_addr.
Qed.

Lemma user_flags : flags_ok (Z.lor PTE_W PTE_U).
Proof. vm_compute. intuition congruence. Qed.

(** The program's page is the second of its address space. *)
Lemma user_translate i : Z.of_nat (length (sym_initcode y)) < PGSIZE -> 0 <= i < PGSIZE -> translate mem' g (PGSIZE + i) = Some (u + i).
Proof.
  intros Hlen Hi. destruct (first_loads Hlen) as (Lg & L1 & L2 & L3 & _). generalize dependent mem'. intros mm Lg L1 L2 L3.
  repeat (apply Forall_cons in Hok as [? Hok]). rewrite table_pte_mk in Lg, L1, L2.
  assert (Ha : aligned PGSIZE) by (vm_compute; intuition congruence).
  destruct (entry_to mm (g + 8 * 0) t1 _ ltac:(done) user_flags Lg) as [P4 N4]. destruct (entry_to mm (t1 + 8 * 0) t2 _ ltac:(done) user_flags L1) as [P3 N3].
  destruct (entry_to mm (t2 + 8 * 0) t3 _ ltac:(done) user_flags L2) as [P2 N2]. destruct (entry_to mm (t3 + 8 * 1) u _ ltac:(done) user_flags L3) as [P1 N1].
  assert (E4 : entry4 g PGSIZE = g + 8 * 0) by done. assert (E3 : entry3 mm g PGSIZE = t1 + 8 * 0) by (unfold entry3; by rewrite E4, N4).
  assert (E2 : entry2 mm g PGSIZE = t2 + 8 * 0) by (unfold entry2; by rewrite E3, N3).
  assert (E1 : entry1 mm g PGSIZE = t3 + 8 * 1) by (unfold entry1; by rewrite E2, N2).
  destruct (entries_in_page mm g PGSIZE i Ha Hi) as (I3 & I1 & It). rewrite translate_entries.
  - rewrite It, I1, E1, P1, N1. unfold tables_present. rewrite E4, P4, E3, P3, E2, P2. cbn [andb]. f_equal. f_equal.
    rewrite <- (Z.mul_1_l PGSIZE) at 1. rewrite Z.add_comm, Z.mod_add by done. by apply Z.mod_small.
  - rewrite I3, E3, L1, mk_pte_u64 by (by apply ok_page || apply user_flags). apply mk_pte_small; [by apply ok_page|done].
Qed.

Lemma kp_page : kp mod PGSIZE = 0.
Proof. clear -Hy Hok. repeat (apply Forall_cons in Hok as [? Hok]). by apply ok_page. Qed.
Lemma kp_word : 0 + 8 <= PGSIZE.
Proof. clear. done. Qed.
Lemma kp_apart : kp ∉ [k; g; u; t1; t2; t3].
Proof.
  clear -Hnd. change [k; g; u; t1; t2; t3; kp] with ([k; g; u; t1; t2; t3] ++ [kp]) in Hnd. apply NoDup_app in Hnd as (_ & Hx & _).
  intros Hin. apply (Hx kp Hin). set_solver.
Qed.

(** The kernel's half maps the first gigabyte of memory to itself. *)
Lemma kernel_translate a : Z.of_nat (length (sym_initcode y)) < PGSIZE -> load64 m kp = kernel_pde -> 0 <= a < 2 ^ 30 ->
  translate mem' g (KERNBASE + a) = Some (KERNBASE + a).
Proof.
  intros Hlen Hkp Ha. destruct (first_loads Hlen) as (_ & _ & _ & _ & Lk & Lo).
  assert (L0 : load64 mem' kp = kernel_pde).
  { pose proof (Lo kp 0 kp_page kp_apart (Z.le_refl 0) kp_word) as L. rewrite (Z.add_0_r kp), Hkp in L. exact L. }
  clear Lo. rewrite kernel_entry_mk in Lk.
  generalize dependent mem'. intros mm Lk L0. repeat (apply Forall_cons in Hok as [? Hok]).
  destruct (entry_to mm (g + 8 * 256) kp PTE_W ltac:(done) ltac:(vm_compute; intuition congruence) Lk) as [P4 N4].
  assert (Hsh : forall n k, 30 <= n -> 0 <= k -> KERNBASE = k * 2 ^ n -> Z.shiftr (KERNBASE + a) n = k).
  { intros n q Hn Hq E. rewrite Z.shiftr_div_pow2, E, Z.add_comm, Z.div_add by lia. rewrite Z.div_small; [lia|].
    assert (2 ^ 30 <= 2 ^ n) by (apply Z.pow_le_mono_r; lia). lia. }
  assert (E4 : PMX (KERNBASE + a) = 256) by (unfold PMX; rewrite (Hsh PML4XSHIFT (KERNBASE / 2 ^ 39)) by done; reflexivity).
  assert (E3 : PDPX (KERNBASE + a) = 0) by (unfold PDPX; rewrite (Hsh PDPXSHIFT (KERNBASE / 2 ^ 30)) by done; reflexivity).
  unfold translate. rewrite E4, E3. unfold present in P4. unfold next in N4. rewrite P4. cbn [negb]. rewrite N4, Z.mul_0_r, Z.add_0_r, L0.
  change (has PTE_P kernel_pde) with true. change (has PTE_PS kernel_pde) with true. change (PTE_ADDR kernel_pde) with 0. cbn [negb].
  assert (Em : (KERNBASE + a) mod 2 ^ 30 = a).
  { replace KERNBASE with (KERNBASE / 2 ^ 30 * 2 ^ 30) by done. rewrite Z.add_comm, Z.mod_add by done. by apply Z.mod_small. }
  rewrite Em. unfold P2V. rewrite u64_id by (unfold u64_range, KERNBASE in *; lia). f_equal. lia.
Qed.

(** The page holds the program, and zeros after it. *)
Lemma other_page (f : memory -> memory) v w i mm : inside v f -> v mod PGSIZE = 0 -> w mod PGSIZE = 0 -> v <> w -> 0 <= i < PGSIZE -> f mm (w + i) = mm (w + i).
Proof. intros Hf Hv Hw Hne Hi. apply Hf. destruct (page_disjoint v w Hv Hw Hne); lia. Qed.

Ltac past f v := rewrite (other_page f v) by (far || apply inside_zero || (apply inside_store; far)).

Lemma uvm_program init m0 i : Forall (fun v => v mod PGSIZE = 0) [g; u; t1; t2; t3] -> g <> u -> t1 <> u -> t2 <> u -> t3 <> u -> 0 <= i < PGSIZE ->
  uvm_memory g u t1 t2 t3 init m0 (u + i) = getb init (Z.to_nat i).
Proof.
  clear Hok Hnd. intros Hal Hg H1 H2 H3 Hi. repeat (apply Forall_cons in Hal as [? Hal]). clear Hal. unfold uvm_memory. cbv zeta.
  rewrite write_bytes_at. case_decide as Hr; [by rewrite Z.add_simpl_l|]. unfold getb. rewrite lookup_ge_None_2 by (clear -Hr Hi; lia). cbn [default].
  past (fun m => store64 m (t3 + 8 * 1) (user_pte u)) t3. past (fun m => store64 m (t2 + 8 * 0) (table_pte t3)) t2.
  past (fun m => memset m t3 0 PGSIZE) t3. past (fun m => store64 m (t1 + 8 * 0) (table_pte t2)) t1.
  past (fun m => memset m t2 0 PGSIZE) t2. past (fun m => store64 m (g + 8 * 0) (table_pte t1)) g.
  past (fun m => memset m t1 0 PGSIZE) t1. rewrite memset_fill by far. unfold fill. clear -Hi. ranges.
Qed.

Lemma program_bytes i : 0 <= i < PGSIZE -> mem' (u + i) = getb (sym_initcode y) (Z.to_nat i).
Proof.
  intros Hi. unfold first_memory. cbv zeta. assert (Hal : Forall (fun v => v mod PGSIZE = 0) [k; g; u; t1; t2; t3; kp]).
  { eapply Forall_impl; [exact Hok|]. intros v Hv. by apply ok_page. }
  clear Hok. repeat (apply Forall_cons in Hal as [? Hal]). repeat (apply NoDup_cons in Hnd as [? Hnd]). repeat (rewrite not_elem_of_cons in * ).
  apply uvm_program; [by repeat constructor|naive_solver..].
Qed.
End Tables.

(** * From power-on to the scheduler *)

(** Memory cleared, nothing held, the allocator and the tables empty. *)
Record power_on (s : kstate) : Prop := {
  po_table : ptable s = replicate NPROC zero_proc;
  po_pid : nextpid s = 1;
  po_kmem : kmem s = mkKmem 0 0;
  po_icache : icache (fs s) = replicate NINODE zero_inode;
  po_cpu : cpu_ok (kcpu s) /\ ncli (kcpu s) = 0;
  po_next : rr_next s = 0;
  po_locks lk : lk ∈ static_locks -> lock_free lk s;
  po_syms : symbols_ok (syms s)
}.

(** What the kernel promises the scheduler: the first process alone in the
    table, its address space, the free pages left. *)
Record kernel_up (y : symbols) (r : cpu_regs) (s : kstate) : Prop := {
  bo_table : exists now k g, ptable s = first_proc now k g y :: replicate (NPROC - 1) zero_proc /\
    (exists u, forall i, 0 <= i < PGSIZE -> translate (mem s) g (PGSIZE + i) = Some (u + i) /\ mem s (u + i) = getb (sym_initcode y) (Z.to_nat i)) /\
    (forall a, 0 <= a < 2 ^ 30 -> translate (mem s) g (KERNBASE + a) = Some (KERNBASE + a));
  bo_init : initproc s = Some 0%nat;
  bo_pid : nextpid s = 2;
  bo_params : schedp s = initial_params;
  bo_pages : exists l, free_pages s l /\ (length l + 10 = length (all_pages y))%nat;
  bo_locked : use_lock (kmem s) = 1;
  bo_root : icache (fs s) = root_inode :: replicate (NINODE - 1) zero_inode;
  bo_ready : sched_ready s;
  bo_segments : exists gdt, segments_ready gdt (mem s) /\ hw_table (gdtr (segs r)) = gdt /\ hw_limit (gdtr (segs r)) = (NSEGS + 1) * 8 - 1 /\
    selects (task (segs r)) SEG_TSS 0
}.

Lemma power_on_boot s : power_on s -> at_boot (syms s) [] (bview_of s) s.
Proof.
  intros [? ? Hk ? [Hc Hn] ? ? ?]. split; [done|done| |split; [done|lia]|done|cbn; rewrite Hk; by left]. split_and!; [cbn; by rewrite Hk|constructor..].
Qed.

Lemma initial_params_ok : params_ok initial_params.
Proof. vm_compute. intuition congruence. Qed.

Lemma booted_inv y r s : kernel_up y r s -> sched_inv s.
Proof.
  intros H. destruct (bo_table _ _ _ H) as (now & k & g & Ht & _). split_and!.
  - rewrite (bo_params _ _ _ H). apply initial_params_ok.
  - unfold ptable_wf. by rewrite Ht.
  - unfold all_procs. rewrite Ht. constructor; [vm_compute; intuition congruence|]. apply Forall_replicate. vm_compute. intuition congruence.
Qed.

Lemma nine (l : list Z) : (15 <= length l)%nat -> exists a1 a2 a3 a4 a5 a6 a7 a8 a9 l', l = a1 :: a2 :: a3 :: a4 :: a5 :: a6 :: a7 :: a8 :: a9 :: l'.
Proof. intros H. do 9 (destruct l as [|? l]; [cbn in H; lia|]). eauto 12. Qed.

Section Boot.
Context `{DD : !DiskDriver}.

(** With a single processor there is only the start code to copy. *)
Lemma runs_startothers y l b m s entryother entry32mp (Q : unit -> kstate -> Prop) : at_boot y l (b <| v_mem := m |>) s -> symbols_ok y ->
  Z.of_nat (length entryother) <= PGSIZE ->
  (forall s' m', at_boot y l (b <| v_mem := m' |>) s' ->
    (forall v j, page_ok y v -> 0 <= j -> j + 8 <= PGSIZE -> load64 m' (v + j) = load64 m (v + j)) -> Q tt s') ->
  runs s (startothers entryother entry32mp 0) Q.
Proof.
  intros H Hy Hlen HQ. unfold startothers. cbv zeta. change (P2V 0x7000) with (KERNBASE + 0x7000).
  assert (Hlow : forall v, page_ok y v -> v <> KERNBASE + 0x7000).
  { intros v (_ & Hv & _). destruct Hy as (He & _). lia. }
  destruct (ab_pages _ _ _ _ H) as (_ & _ & Hall). rewrite (ab_syms _ _ _ _ H) in Hall.
  apply runs_bind. eapply (runs_boot_poke _ _ _ _ (KERNBASE + 0x7000)); [exact H|done| |apply inside_bytes; lia|].
  - intros Hin. rewrite Forall_forall in Hall. by apply (Hlow _ (Hall _ Hin)).
  - clear H. intros s1 m1 E1 H. apply runs_ret. eapply HQ; [exact H|]. intros v j Hv Hj0 Hj1. rewrite E1.
    apply load_bytes_other; [done|apply Hv|by apply not_eq_sym, Hlow|done..].
Qed.

Lemma runs_mpmain x idt sr y l b s (Q : cpu_regs -> kstate -> Prop) : at_boot y l b s ->
  (forall s', at_boot y l b s' -> Q (mkRegs sr (idtinit idt) (syscallinit (syscall_entry x) (ignore_sysret x))) s') -> runs s (mpmain x idt sr) Q.
Proof.
  intros H HQ. unfold mpmain. apply runs_bind, runs_gets, runs_bind. intros w. eexists tt, _. split.
  - apply cprintf_eq; [apply (ab_locks _ _ _ _ H); set_solver|apply H].
  - apply runs_ret, HQ, boot_settle. destruct H as [? ? ? ? ? ?]. by split.
Qed.

(** What the initialisations before the first process leave alone. *)
Definition initial_tables (b : bview) : Prop :=
  v_table b = replicate NPROC zero_proc /\ v_nextpid b = 1 /\ v_icache b = replicate NINODE zero_inode /\ v_ncli b = 0 /\ v_rr b = 0.
Definition kernel_mapped (pd : Z) (b : bview) : Prop := v_kpdpt b = pd /\ load64 (v_mem b) pd = kernel_pde.
Definition segment_regs (gdt : Z) : seg_regs := mkSegRegs (gdt + 2048) (lgdt gdt ((NSEGS + 1) * 8)) (Z.shiftl SEG_TSS 3).

(** Memory, the kernel's page tables, its trap and segment descriptors. *)
Lemma runs_memory_init {B} y b s vectors (f : Z -> seg_regs -> K B) (Q : B -> kstate -> Prop) :
  symbols_ok y -> at_boot y [] b s -> v_use_lock b = 0 -> initial_tables b ->
  (forall pd gdt idt l b' s', at_boot y l b' s' -> (length l + 4 = length (all_pages y))%nat -> Forall (fun v => page_ok y v /\ v ∉ l) [pd; gdt] ->
    initial_tables b' -> kernel_mapped pd b' -> gdt_loaded gdt (v_mem b') -> runs s' (f idt (segment_regs gdt)) Q) ->
  runs s (kinit1 (sym_end y) (P2V PHYSTOP) ;; kvmalloc ;; idt ← tvinit vectors; sr ← seginit; f idt sr) Q.
Proof.
  intros Hy H Hul Hinit HQ. apply runs_bind. eapply runs_kinit1; [exact Hy|exact H|exact Hul|]. clear H. intros s1 H.
  pose proof (all_pages_many y Hy) as Hmany. rewrite <- length_reverse in Hmany.
  destruct (nine _ Hmany) as (p4 & pd & idt & gdt & a5 & a6 & a7 & a8 & a9 & l & El). rewrite El in H.
  assert (Hlen : (length (a5 :: a6 :: a7 :: a8 :: a9 :: l) + 4 = length (all_pages y))%nat).
  { rewrite <- (length_reverse (all_pages y)), El. cbn [length]. lia. }
  set (l' := a5 :: a6 :: a7 :: a8 :: a9 :: l) in *. clearbody l'. clear El Hmany a5 a6 a7 a8 a9 l.
  destruct (ab_pages _ _ _ _ H) as (_ & Hnd & Hall). rewrite (ab_syms _ _ _ _ H) in Hall.
  apply Forall_cons in Hall as [_ Hall]. apply Forall_cons in Hall as [Hpd Hall]. apply Forall_cons in Hall as [Hidt Hall]. apply Forall_cons in Hall as [Hgdt _].
  apply NoDup_cons in Hnd as [_ Hnd]. apply NoDup_cons in Hnd as [Hin Hnd]. apply NoDup_cons in Hnd as [_ Hnd]. apply NoDup_cons in Hnd as [Hing _].
  repeat (rewrite not_elem_of_cons in Hin). destruct Hin as (Hne & Hneg & Hin).
  set (b1 := b <| v_mem := mem s1 |>) in *. assert (Hb1 : initial_tables b1) by exact Hinit. clearbody b1. clear Hinit Hul b.
  apply runs_bind. eapply runs_kvmalloc; [exact H|]. clear H s1. intros s1 m1 H Hm1. set (b2 := b1 <| v_mem := m1 |> <| v_kpdpt := pd |>) in *.
  assert (Hb2 : initial_tables b2) by exact Hb1. assert (Hk2 : kernel_mapped pd b2) by (split; [reflexivity|exact Hm1]). clearbody b2. clear Hb1 Hm1 b1 m1.
  assert (Hkeep : forall v m, page_ok y v -> pd <> v -> (forall x, ~ (v <= x < v + PGSIZE) -> m x = v_mem b2 x) -> load64 m pd = kernel_pde).
  { intros v m Hv Hpv Hm. rewrite <- (proj2 Hk2). apply load64_frame. intros x Hx. apply Hm.
    destruct (page_disjoint v pd) as [|]; [apply Hv|apply Hpd|by apply not_eq_sym|unfold PGSIZE in *; lia..]. }
  apply runs_bind. eapply runs_tvinit; [exact H|]. clear H s1. intros s1 m1 H Hm1. pose proof (Hkeep idt m1 Hidt Hne Hm1) as Hp1. clear Hkeep.
  set (b3 := b2 <| v_mem := m1 |>) in *. assert (Hb3 : initial_tables b3) by exact Hb2.
  assert (Hk3 : kernel_mapped pd b3) by (split; [exact (proj1 Hk2)|exact Hp1]). clearbody b3. clear Hb2 Hk2 Hp1 Hm1 b2 m1.
  apply runs_bind. eapply runs_seginit; [exact H|]. clear H s1. intros s1 m1 H Hm1 Hg. set (b4 := b3 <| v_mem := m1 |>) in *.
  eapply (HQ pd gdt idt l' b4); [exact H|done|rewrite Forall_cons, Forall_singleton; done|exact Hb3| |exact Hg]. split; [exact (proj1 Hk3)|]. rewrite <- (proj2 Hk3). cbn.
  apply load64_frame. intros x Hx. apply Hm1. destruct (page_disjoint gdt pd) as [|]; [apply Hgdt|apply Hpd|by apply not_eq_sym|unfold PGSIZE in *; lia..].
Qed.

(** The console, the process table, the buffers, the files and the disk. *)
Lemma runs_tables_init {B} y l b s pd gdt c present (f : K B) (Q : B -> kstate -> Prop) : at_boot y l b s -> initial_tables b -> kernel_mapped pd b -> gdt_loaded gdt (v_mem b) ->
  (forall b' s', at_boot y l b' s' -> initial_tables b' -> kernel_mapped pd b' -> gdt_loaded gdt (v_mem b') -> v_params b' = initial_params -> runs s' f Q) ->
  runs s (early_cprintf ([10] ++ bytes_of "cpu%d: starting Fall 2025 xv6" ++ [10; 10]) [AInt (cpu_id c)] ;;
          consoleinit ;; pinit ;; binit ;; fileinit ;; Ide.ideinit present ;; f) Q.
Proof.
  intros H Hi Hk Hg HQ. apply runs_bind. unfold early_cprintf. apply (runs_boot_modify (fun b => b) _ _ _ _ _ _ H); try done. clear H. intros s1 H.
  apply runs_bind. eapply runs_consoleinit; [exact H|]. clear H s1. intros s1 H.
  apply runs_bind. eapply runs_pinit; [exact H|]. clear H s1. intros s1 H. set (b' := b <| v_params := initial_params |>) in *.
  assert (Hb : initial_tables b' /\ kernel_mapped pd b' /\ gdt_loaded gdt (v_mem b') /\ v_params b' = initial_params)
    by (split; [exact Hi|split; [exact Hk|split; [exact Hg|reflexivity]]]).
  clearbody b'. destruct Hb as (Hi' & Hk' & Hg' & Hp). clear Hi Hk Hg b.
  apply runs_bind. eapply runs_binit; [exact H|]. clear H s1. intros s1 H.
  apply runs_bind. eapply runs_boot_initlock; [exact H|]. clear H. intros s3 H _. clear s1.
  apply runs_bind. eapply runs_ideinit; [exact H|]. clear H s3. intros s1 H. by eapply HQ.
Qed.

Lemma view_mem b : b = b <| v_mem := v_mem b |>.
Proof. by destruct b. Qed.

(** The first process ready, as the scheduler finds it. *)
Lemma ptable_static : PTABLE ∈ static_locks.
Proof. set_solver. Qed.
Lemma schedp_static : SCHEDP ∈ static_locks.
Proof. set_solver. Qed.
Lemma page_ok_0 y : ~ page_ok y 0.
Proof. intros (_ & _ & _ & ?). lia. Qed.
Lemma ready_of s : lock_free PTABLE s -> lock_free SCHEDP s -> ncli (kcpu s) = 0 -> rr_next s = 0 -> schedp s = initial_params ->
  (exists now k g y, ptable s = first_proc now k g y :: replicate (NPROC - 1) zero_proc /\ g <> 0) -> sched_ready s.
Proof.
  intros H1 H2 H3 H4 H5 (now & k & g & y & Ht & Hg). split; [done|done|done|unfold ptable_wf; by rewrite Ht|by rewrite H5|rewrite H4; by vm_compute| |].
  - unfold all_procs. rewrite Ht. constructor; [by vm_compute|]. by apply Forall_replicate.
  - unfold all_procs. rewrite Ht. constructor; [by intros _|]. by apply Forall_replicate.
Qed.

(** The scheduler's first pass gives the processor to the first process. *)
Lemma first_pass y r s : kernel_up y r s ->
  exists s', scheduler_pass s [] = Blocked s' /\ cur (kcpu s') = Some 0%nat /\ pstate (getp 0 s') = RUNNING.
Proof.
  intros H. destruct (bo_table _ _ _ H) as (now & k & g & Ht & _). destruct (scheduler_pass_runs s (bo_ready _ _ _ H)) as (s' & best & pt' & E & Hsc & Hb).
  assert (Hrun : forall j, slot_runnable (ptable s) j = true <-> j = 0%nat).
  { intros j. rewrite Ht. unfold slot_runnable. destruct j as [|j]; [done|]. cbn [lookup list_lookup]. split; [|done].
    destruct (replicate (NPROC - 1) zero_proc !! j) as [p|] eqn:Ep; [|done]. by apply lookup_replicate in Ep as [-> _]. }
  exists s'. split; [exact E|]. destruct best as [j|].
  - destruct Hb as (Hch & Hpt & Hcur & _). destruct (chosen_runnable _ _ _ _ Hch) as (p & Hp & Hst).
    assert (Hj : slot_runnable (pass_table s) j = true) by (unfold slot_runnable, is_runnable; rewrite Hp; by apply bool_decide_eq_true).
    rewrite slot_runnable_pass in Hj. apply Hrun in Hj as ->. split; [done|].
    destruct (same_but_scores_lookup' _ _ _ _ Hsc Hp) as (p2 & Hp2 & _). unfold getp. rewrite Hpt, list_lookup_alter_eq, Hp2. done.
  - destruct Hb as (Hno & _). pose proof (Hno 0%nat) as H0. by rewrite (proj2 (Hrun 0%nat) eq_refl) in H0.
Qed.


Lemma kernel_up_view y k g u t1 t2 t3 gdt r l b m m' now s : at_boot y l (b <| v_table := first_proc now k g y :: replicate (NPROC - 1) zero_proc |> <| v_nextpid := 2 |>
    <| v_init := Some 0%nat |> <| v_icache := root_inode :: replicate (NINODE - 1) zero_inode |> <| v_mem := m' |>) s ->
  m' = first_memory k g u t1 t2 t3 (v_kpdpt b) y m -> symbols_ok y ->
  Forall (page_ok y) (v_kpdpt b :: k :: g :: u :: t1 :: t2 :: t3 :: l) -> NoDup (v_kpdpt b :: k :: g :: u :: t1 :: t2 :: t3 :: l) ->
  page_ok y gdt -> gdt ∉ [k; g; u; t1; t2; t3] -> gdt_loaded gdt m -> segs r = segment_regs gdt ->
  load64 m (v_kpdpt b) = kernel_pde -> v_params b = initial_params -> v_use_lock b = 1 -> v_ncli b = 0 -> v_rr b = 0 -> (length l + 10 = length (all_pages y))%nat -> kernel_up y r s.
Proof.
  intros H Em Hy Hall Hnd Hgd Hgin Hgl Hr Hm Hp Hul Hnc Hrr Hlen. pose proof (ab_view _ _ _ _ H) as Hv.
  assert (Hall' : Forall (page_ok y) [k; g; u; t1; t2; t3; v_kpdpt b]).
  { repeat (apply Forall_cons in Hall as [? Hall]). repeat apply Forall_cons_2; by try apply Forall_nil_2. }
  assert (Hnd' : NoDup [k; g; u; t1; t2; t3; v_kpdpt b]).
  { change (v_kpdpt b :: k :: g :: u :: t1 :: t2 :: t3 :: l) with (([v_kpdpt b] ++ [k; g; u; t1; t2; t3]) ++ l) in Hnd.
    apply NoDup_app in Hnd as [Hnd _]. by rewrite Permutation_app_comm in Hnd. }
  assert (Emem : mem s = m') by exact (boot_mem _ _ _ _ _ H). assert (Hinit : Z.of_nat (length (sym_initcode y)) < PGSIZE) by apply Hy.
  destruct (first_loads _ _ _ _ _ _ _ _ m Hy Hall' Hnd' Hinit) as (_ & _ & _ & _ & _ & Hother).
  assert (Hgdt : 0 <= gdt < 2 ^ 64 - PGSIZE) by (destruct Hgd as (_ & _ & _ & ?); lia).
  split.
  - exists now, k, g. split; [exact (f_equal v_table Hv)|]. rewrite Emem, Em. clear -Hy Hall' Hnd' Hinit Hm. split.
    + exists u. intros i Hi. split; [by eapply user_translate|by eapply program_bytes].
    + intros a Ha. by eapply kernel_translate.
  - exact (f_equal v_init Hv).
  - exact (f_equal v_nextpid Hv).
  - rewrite <- Hp. exact (f_equal v_params Hv).
  - exists l. split; [apply H|done].
  - rewrite <- Hul. exact (f_equal v_use_lock Hv).
  - exact (f_equal v_icache Hv).
  - apply ready_of; [exact (ab_locks _ _ _ _ H _ ptable_static)|exact (ab_locks _ _ _ _ H _ schedp_static)|rewrite <- Hnc; exact (f_equal v_ncli Hv)|rewrite <- Hrr; exact (f_equal v_rr Hv)|
      rewrite <- Hp; exact (f_equal v_params Hv)|].
    exists now, k, g, y. split; [exact (f_equal v_table Hv)|]. repeat (apply Forall_cons in Hall as [? Hall]). intros ->. by eapply page_ok_0.
  - exists gdt. rewrite Emem, Em, Hr. clear Hv H Em Emem. destruct (lgdt_table gdt ((NSEGS + 1) * 8)) as [E1 E2]; [clear -Hgdt; unfold PGSIZE in *; lia|done|].
    split; [|split; [exact E1|split; [exact E2|by vm_compute]]]. apply gdt_ready; [exact Hgdt|]. intros e He.
    destruct (gdt_word e _ He) as [Hi _]; [clear -Hgdt; unfold PGSIZE in *; lia|].
    rewrite (Hother gdt (8 * fst e) (proj1 Hgd) Hgin) by (clear -Hi; unfold PGSIZE; lia). by apply Hgl.
Qed.

Lemma runs_kernel_main s x present : power_on s -> Z.of_nat (length (entryother x)) <= PGSIZE ->
  runs s (main (Ide.ideinit present) x 0) (kernel_up (syms s)).
Proof.
  intros Hs Hlen. pose proof (power_on_boot s Hs) as H. destruct Hs as [Ht Hp Hkm Hic [_ Hnc] Hnx _ Hy]. unfold main. apply runs_bind, runs_gets.
  assert (Hi : initial_tables (bview_of s)) by done. assert (Hu : v_use_lock (bview_of s) = 0) by (cbn; by rewrite Hkm).
  generalize dependent (bview_of s). generalize dependent (syms s). intros y Hy b H Hi Hu. clear Ht Hp Hkm Hic Hnc Hnx.
  eapply (runs_memory_init y b s (vectors x) (fun idt sr => c ← gets kcpu; _)); [exact Hy|exact H|exact Hu|exact Hi|].
  clear H Hi Hu b. intros pd gdt idt l b s1 H Hll Hpages Hi Hk Hg. cbv beta.
  apply Forall_cons in Hpages as [[Hpok Hpd] Hpages]. apply Forall_singleton in Hpages as [Hgok Hgd].
  apply runs_bind, runs_gets. eapply runs_tables_init; [exact H|exact Hi|exact Hk|exact Hg|]. clear H Hi Hk Hg b. intros b s2 H Hi Hk Hg Hpar.
  apply runs_bind. rewrite (view_mem b) in H. eapply runs_startothers; [exact H|exact Hy|exact Hlen|]. clear H s2. intros s2 m2 H Hm2.
  assert (Hpde : load64 m2 pd = kernel_pde) by (rewrite <- (proj2 Hk), <- (Z.add_0_r pd); apply Hm2; done).
  assert (Hg2 : gdt_loaded gdt m2).
  { intros e He. destruct Hgok as (? & ? & ? & Hr). destruct (gdt_word e _ He) as [? _]; [unfold PGSIZE in Hr; lia|].
    rewrite Hm2 by (done || unfold PGSIZE; lia). by apply Hg. }
  clear Hm2 Hg. apply runs_bind. eapply runs_kinit2; [exact H|]. clear H s2. intros s2 H.
  assert (Hmany := all_pages_many y Hy). assert (Hl6 : (6 <= length l)%nat) by lia.
  destruct l as [|k [|g [|u [|t1 [|t2 [|t3 l]]]]]]; try (cbn in Hl6; lia). clear Hmany Hl6.
  destruct (ab_pages _ _ _ _ H) as (_ & Hnd & Hall). rewrite (ab_syms _ _ _ _ H) in Hall.
  assert (Hnd' : NoDup (pd :: k :: g :: u :: t1 :: t2 :: t3 :: l)) by by constructor. assert (Hall' : Forall (page_ok y) (pd :: k :: g :: u :: t1 :: t2 :: t3 :: l)) by by constructor.
  assert (Hgd' : gdt ∉ [k; g; u; t1; t2; t3]) by (clear -Hgd; set_solver).
  clear Hnd Hall Hgd. set (b2 := b <| v_use_lock := 1 |>) in *.
  assert (Hb2 : initial_tables b2 /\ v_kpdpt b2 = pd /\ v_params b2 = initial_params /\ v_use_lock b2 = 1) by (split_and!; [apply Hi..|apply Hk|exact Hpar|reflexivity]).
  assert (H' : at_boot y (k :: g :: u :: t1 :: t2 :: t3 :: l) (b2 <| v_mem := m2 |>) s2) by exact H. clear H. rename H' into H.
  clearbody b2. destruct Hb2 as ((Ht & Hn & Hic & Hnc & Hrr) & Hkp & Hp2 & Hul2). clear Hi Hk Hpar b.
  apply runs_bind. eapply (runs_userinit y k g u t1 t2 t3 l b2 m2 s2 (replicate (NPROC - 1) zero_proc) (replicate (NINODE - 1) zero_inode));
    [exact H|exact Hy|exact Ht|exact Hn|exact Hic|vm_compute; reflexivity|].
  clear H s2. intros s2 now m3 Em3 H. eapply runs_mpmain; [exact H|]. clear H s2. intros s2 H.
  subst pd. eapply kernel_up_view; [exact H|exact Em3|exact Hy|exact Hall'|exact Hnd'|exact Hgok|exact Hgd'|exact Hg2|reflexivity|exact Hpde|exact Hp2|exact Hul2|exact Hnc|exact Hrr|
    cbn [length] in Hll; clear -Hll; lia].
Qed.

End Boot.
