(* ===== verification/Mkfs.v ===== *)
(** mkfs.c: the program that builds the initial file system image.

    The image is a host file, a number of 512-byte sectors; sectors past its
    end cannot be read, writing one extends the file.  [exit(1)] after an
    error message and a failed [assert] end the run with that message.  The
    host is little-endian, as the machines the kernel is built on: a [uint] in
    memory is its four bytes in that order, and what [xint] returns is read
    back from the four bytes it writes. *)

From S2P Require Import Prelude Control Memory KState Boot Spinlock Format Sched Kalloc Vm Sleeplock.
From S2P Require Import Disk Bio Log Inode Console Fs Pipe File Proc Trap Handoff Layout Cache Crash.

Module Mkfs.

(** The globals: the image, the super block and the two allocation counters. *)
Record host := mkHost {
  img : content;
  nsect : Z;
  hsb : superblock;
  freeinode : Z;
  freeblock : Z
}.
#[export] Instance host_eta : Eta host := fun h =>
  mkHost (img h) (nsect h) (hsb h) (freeinode h) (freeblock h).
Abbreviation H := (M host).

Definition NINODES : Z := 200.
Definition nbitmap : Z := FSSIZE / (BSIZE * 8) + 1.
Definition ninodeblocks : Z := NINODES / IPB + 1.
Definition nlog : Z := LOGSIZE.
Definition nmeta : Z := 2 + nlog + ninodeblocks + nbitmap.
Definition nblocks : Z := FSSIZE - nmeta.
Definition zeroes : list Z := replicate (Z.to_nat BSIZE) 0.

Definition xshort (x : Z) : Z := get16 [u8 x; u8 (Z.shiftr x 8)] 0.
Definition xint (x : Z) : Z := get32 [u8 x; u8 (Z.shiftr x 8); u8 (Z.shiftr x 16); u8 (Z.shiftr x 24)] 0.

(** [lseek(fsfd, sec * BSIZE, 0)]: the product is a [uint]. *)
Definition sector (sec : Z) : Z := u32 (sec * BSIZE) / BSIZE.

Definition wsect (sec : Z) (buf : list Z) : H unit :=
  modify (fun h => h <| img ::= fun D => write D (sector sec) buf |>
                     <| nsect ::= fun n => Z.max n (sector sec + 1) |>).

Definition rsect (sec : Z) : H (list Z) :=
  h ← get;
  if sector sec <? nsect h then mret (img h (sector sec)) else panic "read".

Definition winode (n : Z) (ip : inode) : H unit :=
  x ← gets hsb;
  let bn := IBLOCK n x in
  buf ← rsect bn;
  wsect bn (splice buf (dinode_off n) (dinode_bytes ip)).

Definition rinode (n : Z) : H inode :=
  x ← gets hsb;
  buf ← rsect (IBLOCK n x);
  mret (read_dinode buf (dinode_off n) zero_inode).

Definition ialloc (type : Z) : H Z :=
  n ← gets freeinode;
  modify (fun h => h <| freeinode := u32 (n + 1) |>) ;;
  winode n (zero_inode <| itype := i16 (xshort type) |> <| inlink := i16 (xshort 1) |> <| isize := xint 0 |>) ;;
  mret n.

(** [buf[i/8] = buf[i/8] | (0x1 << (i%8))] for [i] below [used]. *)
Definition bitmap (used : nat) : list Z := foldl (fun buf i => mark_bit i buf) zeroes (seq 0 used).

Definition balloc (used : Z) : H unit :=
  if negb (used <? BSIZE * 8) then panic "used < BSIZE*8" else
  x ← gets hsb;
  wsect (sb_bmapstart x) (bitmap (Z.to_nat used)).

(** [freeblock++] *)
Definition next_block : H Z :=
  b ← gets freeblock;
  modify (fun h => h <| freeblock := u32 (b + 1) |>) ;;
  mret b.

(** The block of the file that holds its byte [fbn * BSIZE], allocated if it
    has none; the inode with the new address. *)
Definition map_block (din : inode) (fbn : nat) : H (inode * Z) :=
  if bool_decide (fbn < NDIRECT)%nat then
    din ← (if xint (addr_at din fbn) =? 0 then
             b ← next_block;
             mret (din <| iaddrs ::= <[fbn := xint b]> |>)
           else mret din);
    mret (din, xint (addr_at din fbn))
  else
    din ← (if xint (addr_at din NDIRECT) =? 0 then
             b ← next_block;
             mret (din <| iaddrs ::= <[NDIRECT := xint b]> |>)
           else mret din);
    indirect ← rsect (xint (addr_at din NDIRECT));
    let k := (fbn - NDIRECT)%nat in
    indirect ← (if get32 indirect (4 * k) =? 0 then
                  b ← next_block;
                  let indirect := splice indirect (4 * k) (bytes32 (xint b)) in
                  wsect (xint (addr_at din NDIRECT)) indirect ;;
                  mret indirect
                else mret indirect);
    mret (din, xint (get32 indirect (4 * k))).

(** [while(n > 0)]; [off] is below MAXFILE * BSIZE in every round, so its
    arithmetic does not wrap.  Every round but the first and the last moves a
    whole block: [rounds], and one to see the end, are enough fuel. *)
Fixpoint iappend_loop (fuel : nat) (din : inode) (off : Z) (p : list Z) : H (inode * Z) :=
  match fuel with
  | O => no_return
  | S f =>
      if 0 <? Z.of_nat (length p) then
        let fbn := off / BSIZE in
        if negb (fbn <? MAXFILE) then panic "fbn < MAXFILE" else
        r ← map_block din (Z.to_nat fbn);
        let '(din, x) := r in
        let n1 := Z.min (Z.of_nat (length p)) ((fbn + 1) * BSIZE - off) in
        buf ← rsect x;
        wsect x (splice buf (Z.to_nat (off - fbn * BSIZE)) (take (Z.to_nat n1) p)) ;;
        iappend_loop f din (off + n1) (drop (Z.to_nat n1) p)
      else mret (din, off)
  end.

Definition iappend (n : Z) (p : list Z) : H unit :=
  din ← rinode n;
  r ← iappend_loop (1 + rounds (Z.of_nat (length p))) din (xint (isize din)) p;
  let '(din, off) := r in
  winode n (din <| isize := xint off |>).

(** A directory entry: [bzero] and two assignments. *)
Definition dirent (n : Z) (name : list Z) : list Z := bytes16 (xshort n) ++ strncpy name DIRSIZ.

Definition super : superblock :=
  mkSb (xint FSSIZE) (xint nblocks) (xint NINODES) (xint nlog) (xint 2) (xint (2 + nlog))
    (xint (2 + nlog + ninodeblocks)).
Definition sb_bytes (x : superblock) : list Z :=
  mjoin (bytes32 <$> [sb_size x; sb_nblocks x; sb_ninodes x; sb_nlog x; sb_logstart x; sb_inodestart x;
    sb_bmapstart x]).

(** The part of [main] before the files: an empty root directory. *)
Definition format : H Z :=
  modify (fun h => h <| hsb := super |> <| freeblock := nmeta |>) ;;
  for_each (Z.of_nat <$> seq 0 (Z.to_nat FSSIZE)) (fun i => wsect i zeroes) ;;
  wsect 1 (splice zeroes 0 (sb_bytes super)) ;;
  rootino ← ialloc T_DIR;
  if negb (rootino =? ROOTINO) then panic "rootino == ROOTINO" else
  iappend rootino (dirent rootino [46]) ;;
  iappend rootino (dirent rootino [46; 46]) ;;
  mret rootino.

(** The name a host file gets. *)
Definition file_name (arg : list Z) : list Z := if hd0 arg =? 95 then tail arg else arg.

(** One file: [disk_files] is the host's file system, giving for a file that
    can be opened the pieces its [read]s return. *)
Definition add_file (disk_files : list Z -> option (list (list Z))) (rootino : Z) (arg : list Z) : H unit :=
  if negb (forallb (fun c => negb (c =? slash)) arg) then panic "index(argv[i], '/') == 0" else
  match disk_files arg with
  | None => panic "open"
  | Some chunks =>
      n ← ialloc T_FILE;
      iappend rootino (dirent n (file_name arg)) ;;
      for_each chunks (iappend n)
  end.

(** Fix the size of the root directory and write the bitmap. *)
Definition finish (rootino : Z) : H unit :=
  din ← rinode rootino;
  let off := xint (isize din) in
  let off := (off / BSIZE + 1) * BSIZE in
  winode rootino (din <| isize := xint off |>) ;;
  b ← gets freeblock;
  balloc (i32 b).

Definition main (argv : list (list Z)) (opened : bool) (disk_files : list Z -> option (list (list Z))) : H unit :=
  if bool_decide (length argv < 2)%nat then panic "Usage: mkfs fs.img files..." else
  if negb opened then panic "open" else
  rootino ← format;
  for_each (drop 2 argv) (add_file disk_files rootino) ;;
  finish rootino.

(** The program's initial globals and an image just truncated. *)
Definition start_state : host := mkHost (fun _ => zeroes) 0 (mkSb 0 0 0 0 0 0 0) 1 0.

(** Two small files. *)
Example small_image :
  match main [[109]; [105]; [95; 97]; [98]] true
    (fun n => Some (if bool_decide (n = [98]) then [replicate 512 7; replicate 512 8; [9]] else [[1; 2; 3]]))
    start_state [] with
  | Ok _ h _ => take 80 (img h 59) = dirent 1 [46] ++ dirent 1 [46; 46] ++ dirent 2 [97] ++ dirent 3 [98] ++ replicate 16 0
      /\ take 4 (img h 60) = [1; 2; 3; 0] /\ take 2 (img h 63) = [9; 0] /\ freeblock h = 64
      /\ read_dinode (img h 32) (dinode_off 3) zero_inode =
         zero_inode <| itype := T_FILE |> <| inlink := 1 |> <| isize := 1025 |> <| iaddrs := [61; 62; 63; 0;0;0;0;0;0;0;0;0;0] |>
      /\ decode_sb (img h 1) = super
  | _ => False
  end.
Proof. vm_compute. split_and!; reflexivity. Qed.

End Mkfs.
