(* ===== verification/Image.v ===== *)
(** What mkfs.c puts on the image: after any run of the builder every file is
    found through its inode and the block addresses in it, no block belongs to
    two files, and the bitmap marks exactly the blocks in use. *)

From Stdlib Require Import ZifyNat.
From S2P Require Import Prelude Control Memory KState Boot Spinlock Format Sched Kalloc Vm Sleeplock.
From S2P Require Import Disk Bio Log Inode Console Fs Pipe File Proc Trap Handoff Layout Cache Crash Mkfs.
Import Mkfs.

(** * Sectors *)

Lemma xint_u32 x : xint x = u32 x.
Proof.
  rewrite <- (get32_bytes x []), app_nil_r. unfold xint, bytes32, byte_of, u8. cbn [fmap list_fmap].
  rewrite !Z.shiftr_div_pow2 by lia. do 2 f_equal. by rewrite Z.div_1_r.
Qed.
Lemma xint_id x : 0 <= x < 2 ^ 32 -> xint x = x.
Proof. intros Hx. rewrite xint_u32. by apply u32_id. Qed.
Lemma xshort_u16 x : xshort x = u16 x.
Proof.
  rewrite <- (get16_bytes x []), app_nil_r. unfold xshort, bytes16, byte_of, u8. cbn [fmap list_fmap].
  rewrite !Z.shiftr_div_pow2 by lia. do 2 f_equal. by rewrite Z.div_1_r.
Qed.

Lemma sector_id n : 0 <= n < FSSIZE -> sector n = n.
Proof.
  intros Hn. unfold sector, FSSIZE, BSIZE in *. rewrite u32_id by (unfold u32_range; lia). apply Z.div_mul. lia.
Qed.

Definition put (n : Z) (d : list Z) (h : host) : host := h <| img := write (img h) n d |>.

Lemma write_eq D n d : write D n d n = d.
Proof. unfold write. by rewrite Z.eqb_refl. Qed.
Lemma write_ne D n d m : m <> n -> write D n d m = D m.
Proof. intros Hm. unfold write. by destruct (Z.eqb_spec m n). Qed.

Lemma runs_wsect h n d (Q : unit -> host -> Prop) :
  0 <= n < nsect h -> nsect h <= FSSIZE -> Q tt (put n d h) -> runs h (wsect n d) Q.
Proof.
  intros Hn Hs HQ. apply runs_modify. rewrite sector_id by lia. destruct h; cbn in *. by rewrite Z.max_l by lia.
Qed.
Lemma runs_rsect h n (Q : list Z -> host -> Prop) :
  0 <= n < nsect h -> nsect h <= FSSIZE -> Q (img h n) h -> runs h (rsect n) Q.
Proof.
  intros Hn Hs HQ. apply runs_bind, runs_gets. rewrite sector_id by lia.
  destruct (Z.ltb_spec n (nsect h)); [|lia]. by apply runs_ret.
Qed.

(** A formatted image: blocks that have not been given out are zero. *)
Record formatted (h : host) : Prop := {
  f_sb : hsb h = super;
  f_sects : nsect h = FSSIZE;
  f_length b : length (img h b) = 512%nat;
  f_free : nmeta <= freeblock h <= FSSIZE;
  f_zero b : freeblock h <= b < FSSIZE -> img h b = zeroes
}.

(** Closes goals on block numbers. *)
Ltac blocks := change nmeta with 59 in *; change FSSIZE with 2000 in *; change BSIZE with 512 in *;
  unfold u32_range in *; try lia.

Lemma formatted_put h n d : formatted h -> 0 <= n < freeblock h -> length d = 512%nat -> formatted (put n d h).
Proof.
  intros [H1 H2 H3 H4 H5] Hn Hd. split; cbn; try done.
  - intros b. unfold write. by destruct (b =? n).
  - intros b Hb. rewrite write_ne by lia. auto.
Qed.

Lemma runs_next_block h (Q : Z -> host -> Prop) :
  formatted h -> freeblock h < FSSIZE ->
  Q (freeblock h) (h <| freeblock := freeblock h + 1 |>) -> runs h next_block Q.
Proof.
  intros Hf Hb HQ. apply runs_bind, runs_gets, runs_bind, runs_modify, runs_ret.
  pose proof (f_free h Hf). rewrite u32_id by blocks. done.
Qed.

Lemma formatted_next h : formatted h -> freeblock h < FSSIZE -> formatted (h <| freeblock := freeblock h + 1 |>).
Proof. intros [H1 H2 H3 H4 H5] Hb. split; cbn; try done; [lia|]. intros b Hb'. apply H5. lia. Qed.

(** * Files *)

Definition addr (a : list Z) (k : nat) : Z := default 0 (a !! k).
(** The address of block [k] of a file with the addresses [a]. *)
Definition entry (D : content) (a : list Z) (k : nat) : Z :=
  if decide (k < NDIRECT)%nat then addr a k
  else if addr a NDIRECT =? 0 then 0 else get32 (D (addr a NDIRECT)) (4 * (k - NDIRECT)).

(** The file with the addresses [a] has the blocks [L], which hold [data]
    followed by zeros. *)
Record file_rep (D : content) (a L data : list Z) : Prop := {
  r_addrs : length a = 13%nat;
  r_max : (length L <= 140)%nat;
  r_entry k : (k < 140)%nat -> entry D a k = default 0 (L !! k);
  r_indirect : addr a NDIRECT = 0 -> (length L <= NDIRECT)%nat;
  r_fits : (length data <= 512 * length L)%nat;
  r_byte j : (j < 512 * length L)%nat -> getb data j = getb (D (default 0 (L !! (j / 512)%nat))) (j mod 512)
}.
(** The blocks of the file, its indirect block among them. *)
Definition owned (a L : list Z) : list Z := L ++ (if addr a NDIRECT =? 0 then [] else [addr a NDIRECT]).
Definition owns (lo hi : Z) (a L : list Z) : Prop := NoDup (owned a L) /\ Forall (fun b => lo <= b < hi) (owned a L).

Lemma addr_insert a k v : (k < length a)%nat -> addr (<[k := v]> a) k = v.
Proof. intros Hk. unfold addr. by rewrite list_lookup_insert_eq. Qed.
Lemma addr_insert_ne a k j v : k <> j -> addr (<[k := v]> a) j = addr a j.
Proof. intros Hk. unfold addr. by rewrite list_lookup_insert_ne. Qed.

Lemma owned_blocks a L b : b ∈ L -> b ∈ owned a L.
Proof. unfold owned. set_solver. Qed.
Lemma owned_indirect a L : addr a NDIRECT <> 0 -> addr a NDIRECT ∈ owned a L.
Proof. intros Hi. unfold owned. destruct (Z.eqb_spec (addr a NDIRECT) 0); set_solver. Qed.

Lemma block_in (L : list Z) j : (j < 512 * length L)%nat -> default 0 (L !! (j / 512)%nat) ∈ L.
Proof.
  intros Hj. destruct (lookup_lt_is_Some_2 L (j / 512)) as [b Hb]; [apply Nat.Div0.div_lt_upper_bound; lia|].
  rewrite Hb. cbn. apply list_elem_of_lookup. eauto.
Qed.

(** A file depends on its own blocks only. *)
Lemma file_rep_frame D D' a L data :
  file_rep D a L data -> (forall b, b ∈ owned a L -> D' b = D b) -> file_rep D' a L data.
Proof.
  intros [H1 H2 H3 H4 H5 H6] HD. split; try done.
  - intros k Hk. rewrite <- H3 by done. unfold entry. destruct (decide _); [done|].
    destruct (Z.eqb_spec (addr a NDIRECT) 0); [done|]. rewrite HD; [done|]. by apply owned_indirect.
  - intros j Hj. rewrite H6 by done. rewrite HD; [done|]. by apply owned_blocks, block_in.
Qed.

Lemma getb_zeroes j : getb zeroes j = 0.
Proof.
  unfold getb. destruct (zeroes !! j) as [z|] eqn:E; [|done]. unfold zeroes in E.
  apply lookup_replicate in E as [-> _]. done.
Qed.
Lemma get32_zeroes j : get32 zeroes j = 0.
Proof. unfold get32, get16. by rewrite !getb_zeroes. Qed.
Lemma getb_beyond (l : list Z) j : (length l <= j)%nat -> getb l j = 0.
Proof. intros Hj. unfold getb. by rewrite lookup_ge_None_2. Qed.

Lemma default_snoc (L : list Z) b k :
  default 0 ((L ++ [b]) !! k) = if decide (k = length L) then b else default 0 (L !! k).
Proof.
  destruct (decide (k = length L)) as [->|Hk].
  - by rewrite lookup_app_r, Nat.sub_diag by lia.
  - destruct (decide (k < length L)%nat).
    + by rewrite lookup_app_l by lia.
    + rewrite lookup_app_r by lia. rewrite (lookup_ge_None_2 L k) by lia.
      by rewrite lookup_ge_None_2 by (cbn; lia).
Qed.

(** The bytes of a file that gets a zero block. *)
Lemma bytes_extend D L data b :
  (length data <= 512 * length L)%nat -> D b = zeroes ->
  (forall j, (j < 512 * length L)%nat -> getb data j = getb (D (default 0 (L !! (j / 512)%nat))) (j mod 512)) ->
  forall j, (j < 512 * (length L + 1))%nat ->
    getb data j = getb (D (default 0 ((L ++ [b]) !! (j / 512)%nat))) (j mod 512).
Proof.
  intros Hd Hb Hj j Hlt. rewrite default_snoc. destruct (decide (j / 512 = length L)%nat) as [E|E].
  - rewrite Hb, getb_zeroes. apply getb_beyond. pose proof (Nat.Div0.mul_div_le j 512). lia.
  - apply Hj. pose proof (Nat.div_mod_eq j 512).
    pose proof (Nat.mod_upper_bound j 512 ltac:(lia)). lia.
Qed.

Lemma entry_direct D a k : (k < NDIRECT)%nat -> entry D a k = addr a k.
Proof. intros Hk. unfold entry. by rewrite decide_True. Qed.
Lemma entry_indirect D a k : (NDIRECT <= k)%nat -> addr a NDIRECT <> 0 ->
  entry D a k = get32 (D (addr a NDIRECT)) (4 * (k - NDIRECT)).
Proof. intros Hk Ha. unfold entry. rewrite decide_False by lia. by destruct (Z.eqb_spec (addr a NDIRECT) 0). Qed.

Lemma file_rep_direct D a L data b :
  file_rep D a L data -> (length L < NDIRECT)%nat -> D b = zeroes ->
  file_rep D (<[length L := b]> a) (L ++ [b]) data.
Proof.
  intros [H1 H2 H3 H4 H5 H6] HL Hb.
  assert (Hi : addr (<[length L := b]> a) NDIRECT = addr a NDIRECT) by (apply addr_insert_ne; unfold NDIRECT in *; lia).
  split; rewrite ?length_insert, ?length_app, ?Hi; cbn [length]; try (done || (unfold NDIRECT in *; lia)).
  - intros k Hk. rewrite default_snoc. destruct (decide (k = length L)) as [->|Hne].
    + rewrite entry_direct by done. apply addr_insert. unfold NDIRECT in *. lia.
    + rewrite <- H3 by done. unfold entry. rewrite Hi. destruct (decide _); [|done]. by apply addr_insert_ne.
  - by apply bytes_extend.
Qed.

Lemma owned_not_indirect a L lo hi b : owns lo hi a L -> addr a NDIRECT <> 0 -> b ∈ L -> b <> addr a NDIRECT.
Proof.
  intros [Hnd _] Ha Hb ->. unfold owned in Hnd. destruct (Z.eqb_spec (addr a NDIRECT) 0) as [|_]; [done|].
  apply NoDup_app in Hnd as (_ & Hd & _). apply (Hd _ Hb). by apply list_elem_of_singleton.
Qed.

Lemma file_rep_indirect D a L data b lo hi :
  file_rep D a L data -> (NDIRECT <= length L < 140)%nat -> addr a NDIRECT <> 0 -> owns lo hi a L ->
  length (D (addr a NDIRECT)) = 512%nat -> D b = zeroes -> b <> addr a NDIRECT -> 0 <= b < 2 ^ 32 ->
  file_rep (write D (addr a NDIRECT) (splice (D (addr a NDIRECT)) (4 * (length L - NDIRECT)) (bytes32 b)))
    a (L ++ [b]) data.
Proof.
  intros [H1 H2 H3 H4 H5 H6] HL Ha Ho Hlen Hb Hne Hr. set (I := addr a NDIRECT) in *. set (D' := write _ _ _).
  assert (Hb32 : bytes32 b = bytes32 (u32 b)) by by rewrite u32_id.
  assert (Hsp : (4 * (length L - NDIRECT) + length (bytes32 b) <= 512)%nat) by (rewrite length_bytes32; unfold NDIRECT; lia).
  split; rewrite ?length_app; cbn [length]; try (done || (unfold NDIRECT in *; lia)).
  - intros k Hk. rewrite default_snoc. unfold entry, D'. fold I. destruct (decide (k < NDIRECT)%nat) as [Hd|Hd].
    + rewrite decide_False by lia. rewrite <- H3 by done. by rewrite entry_direct.
    + destruct (Z.eqb_spec I 0) as [|_]; [done|]. rewrite write_eq. destruct (decide (k = length L)) as [->|Hk'].
      * rewrite Hb32, get32_put by (unfold NDIRECT; lia). by apply u32_id.
      * rewrite get32_splice_out by (rewrite ?length_bytes32; unfold NDIRECT in *; lia).
        rewrite <- H3 by done. by rewrite entry_indirect by (done || lia).
  - apply bytes_extend; [done|unfold D'; by rewrite write_ne|]. intros j Hj. rewrite H6 by done. unfold D'.
    rewrite write_ne; [done|]. apply (owned_not_indirect a L lo hi); [done..|by apply block_in].
Qed.

(** * Appending to a file *)

(** The builder holds inode [din] of a file with the blocks [L]. *)
Record holds (h : host) (a L data : list Z) : Prop := {
  h_formatted : formatted h;
  h_file : file_rep (img h) a L data;
  h_owns : owns nmeta (freeblock h) a L
}.

(** From [h] to [h'] only this file changed, by blocks that were free. *)
Record grown (h : host) (a L : list Z) (h' : host) (a' L' : list Z) : Prop := {
  g_frame b : b < freeblock h -> b ∉ owned a L -> img h' b = img h b;
  g_inodes : freeinode h' = freeinode h;
  g_owned b : b ∈ owned a' L' -> b ∈ owned a L \/ freeblock h <= b < freeblock h';
  g_mono : freeblock h <= freeblock h'
}.

Lemma grown_refl h a L : grown h a L h a L.
Proof. split; auto. lia. Qed.
Lemma grown_trans h a L h1 a1 L1 h2 a2 L2 :
  grown h a L h1 a1 L1 -> grown h1 a1 L1 h2 a2 L2 -> grown h a L h2 a2 L2.
Proof.
  intros [F1 I1 O1 M1] [F2 I2 O2 M2]. split; [|congruence| |lia].
  - intros b Hb Hn. rewrite F2; [by apply F1|lia|]. intros [?|?]%O1; [done|lia].
  - intros b [[?|?]%O1|?]%O2; auto; right; lia.
Qed.

Lemma holds_range h a L data b : holds h a L data -> b ∈ owned a L -> 59 <= b < freeblock h /\ freeblock h <= 2000.
Proof.
  intros [Hf _ [_ Ho]] Hb. rewrite Forall_forall in Ho. pose proof (Ho b Hb). pose proof (f_free h Hf). blocks.
Qed.
Lemma holds_block h a L data k b : holds h a L data -> L !! k = Some b -> 59 <= b < freeblock h /\ freeblock h <= 2000.
Proof. intros Hh Hb. apply (holds_range h a L data); [done|]. apply owned_blocks, list_elem_of_lookup; eauto. Qed.

Lemma owned_snoc a L b : owned a (L ++ [b]) ≡ₚ b :: owned a L.
Proof. unfold owned. by rewrite (Permutation_app_comm L [b]). Qed.

(** A zero block is given to a file: as a data block ([L'] longer by it) or
    as its indirect block. *)
Lemma holds_alloc h a L data D' a' L' :
  holds h a L data -> freeblock h < FSSIZE -> owned a' L' ≡ₚ freeblock h :: owned a L ->
  file_rep D' a' L' data ->
  (forall b, length (D' b) = 512%nat) -> (forall b, b ∉ owned a L -> D' b = img h b) ->
  let h' := h <| freeblock := freeblock h + 1 |> <| img := D' |> in
  holds h' a' L' data /\ grown h a L h' a' L'.
Proof.
  intros Hh Hlt Hperm Hrep Hlen Hout h'. pose proof (f_free h (h_formatted _ _ _ _ Hh)) as Hfree.
  assert (Hnew : freeblock h ∉ owned a L) by (intros Hin; pose proof (holds_range _ _ _ _ _ Hh Hin); lia).
  split.
  - split.
    + destruct (h_formatted _ _ _ _ Hh) as [F1 F2 F3 F4 F5]. split; cbn; try done; [lia|].
      intros b Hb. rewrite Hout; [apply F5; lia|]. intros Hin. pose proof (holds_range _ _ _ _ _ Hh Hin). lia.
    + done.
    + destruct (h_owns _ _ _ _ Hh) as [N1 N2]. split; rewrite Hperm; [by constructor|].
      constructor; [cbn; lia|]. eapply Forall_impl; [exact N2|]. cbn. intros. lia.
  - split; cbn; [auto|done| |lia]. intros b. rewrite Hperm. intros [->|?]%elem_of_cons; [right; lia|by left].
Qed.

Definition fresh_cost (a : list Z) (k : nat) : Z := if decide (addr a NDIRECT = 0 /\ (NDIRECT <= k)%nat) then 2 else 1.

Lemma file_rep_root D a L data b :
  file_rep D a L data -> length L = NDIRECT -> addr a NDIRECT = 0 -> b <> 0 -> D b = zeroes ->
  file_rep D (<[NDIRECT := b]> a) L data.
Proof.
  intros [H1 H2 H3 H4 H5 H6] HL Ha Hb Hz.
  assert (Hi : addr (<[NDIRECT := b]> a) NDIRECT = b) by (apply addr_insert; unfold NDIRECT; lia).
  split; rewrite ?length_insert, ?Hi; try done.
  intros k Hk. rewrite <- H3 by done. unfold entry. rewrite Hi, Ha. destruct (decide (k < NDIRECT)%nat).
  - apply addr_insert_ne. lia.
  - destruct (Z.eqb_spec b 0); [done|]. cbn [Z.eqb]. by rewrite Hz, get32_zeroes.
Qed.

(** The entry of the indirect block. *)
Lemma runs_map_entry h a L data k (Q : list Z -> host -> Prop) :
  holds h a L data -> addr a NDIRECT <> 0 -> (NDIRECT <= k <= length L)%nat -> (k < 140)%nat ->
  (k = length L -> freeblock h < FSSIZE) ->
  (forall h' L' x d, holds h' a L' data -> grown h a L h' a L' -> L' !! k = Some x ->
     L' = (if decide (k < length L)%nat then L else L ++ [x]) ->
     freeblock h' = freeblock h + (if decide (k < length L)%nat then 0 else 1) ->
     get32 d (4 * (k - NDIRECT)) = x -> Q d h') ->
  let I := addr a NDIRECT in
  runs h (if get32 (img h I) (4 * (k - NDIRECT)) =? 0 then
            b ← next_block;
            let indirect := splice (img h I) (4 * (k - NDIRECT)) (bytes32 (xint b)) in
            wsect I indirect ;;
            mret indirect
          else mret (img h I)) Q.
Proof.
  intros Hh Ha Hk Hmax Hroom HQ I. pose proof (h_formatted _ _ _ _ Hh) as Hf. pose proof (f_free h Hf) as Hfr.
  pose proof (holds_range _ _ _ _ _ Hh (owned_indirect a L Ha)) as HI. fold I in HI.
  pose proof (r_entry _ _ _ _ (h_file _ _ _ _ Hh) k Hmax) as He. rewrite entry_indirect in He by (done || lia). fold I in He.
  rewrite He. destruct (decide (k < length L)%nat) as [Hlt|Hge].
  - destruct (lookup_lt_is_Some_2 L k Hlt) as [x Hx]. rewrite Hx in *. cbn [default] in *.
    pose proof (holds_block _ _ _ _ _ _ Hh Hx). cbn. destruct (Z.eqb_spec x 0); [lia|]. apply runs_ret.
    apply (HQ h L x); try done; [apply grown_refl|lia].
  - assert (Ek : k = length L) by lia. rewrite (lookup_ge_None_2 L k) by lia. cbn [default]. cbn [Z.eqb].
    change (default 0 None =? 0) with true. cbn iota.
    specialize (Hroom Ek). apply runs_bind, runs_next_block; [done..|]. cbv zeta. rewrite !xint_id by blocks.
    set (h1 := h <| freeblock := _ |>). apply runs_bind, runs_wsect; [cbn; rewrite (f_sects h Hf); blocks..|]. apply runs_ret.
    pose proof (f_length h Hf I) as HlI. assert (Hz : img h (freeblock h) = zeroes) by (apply f_zero; [done|blocks]).
    destruct (holds_alloc h a L data (write (img h) I (splice (img h I) (4 * (k - NDIRECT)) (bytes32 (freeblock h))))
      a (L ++ [freeblock h])) as [Hh' Hg]; [done..|apply owned_snoc| | | |].
    + rewrite Ek. apply (file_rep_indirect _ _ _ _ _ nmeta (freeblock h)); [apply Hh|lia|done|apply Hh|done|done|unfold I in *; lia|blocks].
    + intros b. unfold write. destruct (b =? I); [|apply Hf].
      rewrite length_splice; [done|]. rewrite length_bytes32, HlI. unfold NDIRECT. lia.
    + intros b Hb. apply write_ne. intros ->. by apply Hb, owned_indirect.
    + apply (HQ _ (L ++ [freeblock h]) (freeblock h)); try done.
      * by rewrite Ek, lookup_app_r, Nat.sub_diag by lia.
      * assert (Eb : bytes32 (freeblock h) = bytes32 (u32 (freeblock h))) by (rewrite u32_id by blocks; done).
        rewrite Eb, get32_put by (rewrite HlI; unfold NDIRECT; lia). apply u32_id. blocks.
Qed.

Section MapBlock.
Context (h : host) (din : inode) (L data : list Z) (k : nat).
Context (Hh : holds h (iaddrs din) L data) (Hk : (k <= length L)%nat) (Hmax : (k < 140)%nat).
Context (Hroom : k = length L -> freeblock h + fresh_cost (iaddrs din) k <= FSSIZE).

(** Block [x] of the file is found or made. *)
Definition mapped (h' : host) (a' L' : list Z) (x : Z) : Prop :=
  holds h' a' L' data /\ grown h (iaddrs din) L h' a' L' /\ L' !! k = Some x /\
  L' = (if decide (k < length L)%nat then L else L ++ [x]) /\
  freeblock h' = freeblock h + (if decide (k < length L)%nat then 0 else fresh_cost (iaddrs din) k) /\
  (addr a' NDIRECT = 0 <-> addr (iaddrs din) NDIRECT = 0 /\ (k < NDIRECT)%nat).

Lemma entry_found : (k < length L)%nat -> exists x, L !! k = Some x /\ entry (img h) (iaddrs din) k = x /\ 59 <= x < 2000.
Proof.
  intros Hlt. destruct (lookup_lt_is_Some_2 L k Hlt) as [x Hx]. exists x. pose proof (holds_block _ _ _ _ _ _ Hh Hx).
  split_and!; [done| |lia..]. rewrite (r_entry _ _ _ _ (h_file _ _ _ _ Hh)), Hx by done. done.
Qed.
Lemma entry_missing : k = length L -> entry (img h) (iaddrs din) k = 0.
Proof.
  intros ->. rewrite (r_entry _ _ _ _ (h_file _ _ _ _ Hh)) by done. by rewrite lookup_ge_None_2.
Qed.

Lemma runs_map_direct (Q : inode * Z -> host -> Prop) :
  (k < NDIRECT)%nat -> (forall h' a' L' x, mapped h' a' L' x -> Q (din <| iaddrs := a' |>, x) h') ->
  runs h (map_block din k) Q.
Proof.
  intros Hd HQ. unfold map_block. rewrite bool_decide_eq_true_2 by done.
  change (addr_at din k) with (addr (iaddrs din) k). rewrite <- (entry_direct (img h)) by done.
  pose proof (h_formatted _ _ _ _ Hh) as Hf. pose proof (f_free h Hf) as Hfr.
  destruct (decide (k < length L)%nat) as [Hlt|Hge].
  - destruct (entry_found Hlt) as (x & Hx & Ex & Hr). rewrite Ex, xint_id by lia.
    destruct (Z.eqb_spec x 0); [lia|]. apply runs_bind, runs_ret, runs_ret.
    change (addr_at din k) with (addr (iaddrs din) k). rewrite <- (entry_direct (img h)), Ex, xint_id by (done || lia).
    assert (E : din <| iaddrs := iaddrs din |> = din) by by destruct din. rewrite <- E at 1.
    apply (HQ h _ L). unfold mapped. rewrite !decide_True by done. split_and!; try done; [apply grown_refl|lia|].
    split; [by split|tauto].
  - assert (Ek : k = length L) by lia. rewrite entry_missing by done. cbn [Z.eqb]. change (xint 0 =? 0) with true. cbn iota.
    specialize (Hroom Ek). unfold fresh_cost in *. rewrite decide_False in * by lia.
    apply runs_bind, runs_bind, runs_next_block; [done|blocks|]. apply runs_ret, runs_ret.
    assert (Hz : img h (freeblock h) = zeroes) by (apply f_zero; [done|blocks]).
    assert (Hi : addr (<[k := freeblock h]> (iaddrs din)) NDIRECT = addr (iaddrs din) NDIRECT)
      by (apply addr_insert_ne; lia).
    destruct (holds_alloc h (iaddrs din) L data (img h) (<[k := freeblock h]> (iaddrs din)) (L ++ [freeblock h])) as [Hh' Hg];
      [done|blocks| | |by apply f_length|done|].
    { rewrite owned_snoc. unfold owned. by rewrite Hi. }
    { rewrite Ek. apply file_rep_direct; [apply Hh|lia|done]. }
    rewrite xint_id by blocks. set (h' := h <| freeblock := freeblock h + 1 |>) in *.
    assert (E : h' <| img := img h |> = h') by (subst h'; by destruct h). rewrite E in Hh', Hg.
    set (din' := din <| iaddrs ::= _ |>). change din' with (din <| iaddrs := <[k := freeblock h]> (iaddrs din) |>).
    set (a' := <[k := freeblock h]> (iaddrs din)) in *. cbn [addr_at iaddrs].
    change (addr_at _ k) with (addr a' k). unfold a' at 2. rewrite addr_insert, xint_id.
    2:{ blocks. }
    2:{ rewrite (r_addrs _ _ _ _ (h_file _ _ _ _ Hh)). unfold NDIRECT in *. lia. }
    apply (HQ h' a' (L ++ [freeblock h])). unfold mapped. rewrite !decide_False by done. split_and!; try done.
    + by rewrite Ek, lookup_app_r, Nat.sub_diag by lia.
    + unfold fresh_cost. rewrite decide_False by lia. done.
    + rewrite Hi. tauto.
Qed.

Lemma runs_map_indirect (Q : inode * Z -> host -> Prop) :
  (NDIRECT <= k)%nat -> (forall h' a' L' x, mapped h' a' L' x -> Q (din <| iaddrs := a' |>, x) h') ->
  runs h (map_block din k) Q.
Proof.
  intros Hd HQ. unfold map_block. rewrite bool_decide_eq_false_2 by lia.
  change (addr_at din NDIRECT) with (addr (iaddrs din) NDIRECT).
  pose proof (h_formatted _ _ _ _ Hh) as Hf. pose proof (f_free h Hf) as Hfr.
  assert (Hroot : runs h (if xint (addr (iaddrs din) NDIRECT) =? 0 then
             b ← next_block; mret (din <| iaddrs ::= <[NDIRECT := xint b]> |>) else mret din)
    (fun din1 h1 => exists a1, din1 = din <| iaddrs := a1 |> /\ holds h1 a1 L data /\ addr a1 NDIRECT <> 0 /\
       grown h (iaddrs din) L h1 a1 L /\
       (k < length L -> freeblock h1 = freeblock h)%nat /\
       (k = length L -> freeblock h1 + 1 = freeblock h + fresh_cost (iaddrs din) k))).
  { destruct (decide (addr (iaddrs din) NDIRECT = 0)) as [Ha|Ha].
    - rewrite Ha. change (xint 0 =? 0) with true. cbn iota. pose proof (r_indirect _ _ _ _ (h_file _ _ _ _ Hh) Ha).
      assert (Ek : k = length L) by lia. specialize (Hroom Ek). unfold fresh_cost in *. rewrite decide_True in * by done.
      apply runs_bind, runs_next_block; [done|blocks|]. apply runs_ret. rewrite xint_id by blocks.
      assert (Hz : img h (freeblock h) = zeroes) by (apply f_zero; [done|blocks]).
      assert (Hi : addr (<[NDIRECT := freeblock h]> (iaddrs din)) NDIRECT = freeblock h).
      { apply addr_insert. rewrite (r_addrs _ _ _ _ (h_file _ _ _ _ Hh)). unfold NDIRECT. lia. }
      destruct (holds_alloc h (iaddrs din) L data (img h) (<[NDIRECT := freeblock h]> (iaddrs din)) L) as [Hh' Hg];
        [done|blocks| | |by apply f_length|done|].
      { unfold owned. rewrite Hi, Ha. destruct (Z.eqb_spec (freeblock h) 0); [blocks|]. cbn [Z.eqb].
        change (0 =? 0) with true. cbn iota. rewrite app_nil_r. by rewrite Permutation_app_comm. }
      { apply file_rep_root; [apply Hh|lia|done|blocks|done]. }
      set (h' := h <| freeblock := freeblock h + 1 |>) in *.
      assert (E : h' <| img := img h |> = h') by (subst h'; by destruct h). rewrite E in Hh', Hg.
      eexists. split_and!; [reflexivity|done|rewrite Hi; blocks|done|lia|]. intros _. cbn. lia.
    - pose proof (holds_range _ _ _ _ _ Hh (owned_indirect (iaddrs din) L Ha)). rewrite xint_id by lia.
      destruct (Z.eqb_spec (addr (iaddrs din) NDIRECT) 0); [done|]. apply runs_ret. exists (iaddrs din).
      unfold fresh_cost. rewrite decide_False by tauto. split_and!; [by destruct din|done|done|apply grown_refl|lia|lia]. }
  apply runs_bind. eapply runs_mono; [exact Hroot|]. cbn beta.
  intros din1 h1 (a1 & -> & Hh1 & Ha1 & Hg1 & Hc1 & Hc2).
  change (addr_at (din <| iaddrs := a1 |>) NDIRECT) with (addr a1 NDIRECT).
  pose proof (holds_range _ _ _ _ _ Hh1 (owned_indirect a1 L Ha1)) as HI. pose proof (h_formatted _ _ _ _ Hh1) as Hf1.
  rewrite (xint_id (addr a1 NDIRECT)) by lia.
  apply runs_bind, runs_rsect; [rewrite (f_sects h1 Hf1); blocks..|]. apply runs_bind.
  apply (runs_map_entry h1 a1 L data k); [done|done|lia|done|intros Ek; specialize (Hroom Ek); specialize (Hc2 Ek); blocks|].
  intros h2 L2 x d Hh2 Hg2 Hx HL2 Hfb Hd2. apply runs_ret. rewrite Hd2.
  pose proof (holds_block _ _ _ _ _ _ Hh2 Hx). rewrite xint_id by lia. apply (HQ h2 a1 L2). unfold mapped.
  split_and!; try done.
  - by eapply grown_trans.
  - rewrite Hfb. destruct (decide _); [rewrite Hc1 by done; lia|]. rewrite <- Hc2 by lia. done.
  - split; [done|]. lia.
Qed.

Lemma runs_map_block (Q : inode * Z -> host -> Prop) :
  (forall h' a' L' x, mapped h' a' L' x -> Q (din <| iaddrs := a' |>, x) h') -> runs h (map_block din k) Q.
Proof.
  destruct (decide (k < NDIRECT)%nat); [by apply runs_map_direct|]. apply runs_map_indirect. lia.
Qed.
End MapBlock.

(** New bytes after the last one, in a block the file has. *)
Lemma holds_write h a L data x chunk :
  holds h a L data -> L !! (length data / 512)%nat = Some x -> (length data mod 512 + length chunk <= 512)%nat ->
  let h' := put x (splice (img h x) (length data mod 512) chunk) h in
  holds h' a L (data ++ chunk) /\ grown h a L h' a L.
Proof.
  intros Hh Hx Hfit h'. pose proof (h_formatted _ _ _ _ Hh) as Hf. pose proof (holds_block _ _ _ _ _ _ Hh Hx) as Hr.
  assert (Hown : x ∈ L) by (apply list_elem_of_lookup; eauto). pose proof (lookup_lt_Some _ _ _ Hx) as Hlt.
  assert (HndL : NoDup L) by (destruct (h_owns _ _ _ _ Hh) as [Hnd _]; by apply NoDup_app in Hnd as [? _]).
  pose proof (f_length h Hf x) as Hlx. set (d' := splice _ _ _) in h'.
  assert (Hd' : length d' = 512%nat) by (unfold d'; by rewrite length_splice by lia).
  destruct (h_file _ _ _ _ Hh) as [H1 H2 H3 H4 H5 H6]. split; [split|split].
  - by apply formatted_put; [|lia|].
  - change (img h') with (write (img h) x d'). split; try done.
    + intros j Hj. rewrite <- H3 by done. unfold entry. destruct (decide _); [done|].
      destruct (Z.eqb_spec (addr a NDIRECT) 0); [done|]. rewrite write_ne; [done|].
      apply not_eq_sym, (owned_not_indirect a L nmeta (freeblock h)); [apply Hh|done..].
    + rewrite length_app. divisions.
    + intros j Hj. destruct (decide (j / 512 = length data / 512)%nat) as [E|E].
      * specialize (H6 j Hj). rewrite E, Hx in *. change (default 0 (Some x)) with x in *. rewrite write_eq.
        destruct (decide (length data <= j < length data + length chunk)%nat) as [Hin|Hout].
        -- replace (j mod 512)%nat with (length data mod 512 + (j - length data))%nat by divisions.
           unfold d'. rewrite getb_splice_in by lia. unfold getb. by rewrite lookup_app_r by lia.
        -- unfold d'. rewrite getb_splice_out; [|lia|divisions]. rewrite <- H6. unfold getb.
           destruct (decide (j < length data)%nat); [by rewrite lookup_app_l|].
           rewrite !lookup_ge_None_2; [done|lia|rewrite length_app; lia].
      * rewrite write_ne.
        -- rewrite <- H6 by done. unfold getb. destruct (decide (j < length data)%nat); [by rewrite lookup_app_l|].
           rewrite !lookup_ge_None_2; [done|lia|rewrite length_app; divisions].
        -- destruct (lookup_lt_is_Some_2 L (j / 512)) as [y Hy]; [divisions|]. rewrite Hy. intros E'. change (y = x) in E'. subst y.
           apply E. by apply (NoDup_lookup L _ _ x).
  - apply Hh.
  - intros b _ Hb. cbn. apply write_ne. intros ->. by apply Hb, owned_blocks.
  - done.
  - by left.
  - cbn. lia.
Qed.

(** Blocks for [n] bytes, the indirect block included. *)
Definition nblocks_for (n : nat) : nat := (n + 511) / 512.
Definition needed (n : nat) : Z := Z.of_nat (nblocks_for n) + (if decide (NDIRECT < nblocks_for n)%nat then 1 else 0).
(** The file has no more blocks than its bytes need. *)
Definition sized (a L data : list Z) : Prop :=
  length L = nblocks_for (length data) /\ (addr a NDIRECT = 0 <-> (length L <= NDIRECT)%nat).

Lemma needed_mono m n : (m <= n)%nat -> needed m <= needed n.
Proof.
  intros Hmn. unfold needed. assert (nblocks_for m <= nblocks_for n)%nat by (unfold nblocks_for; divisions).
  repeat case_decide; lia.
Qed.

(** One round of the loop. *)
Lemma runs_append_round {A} h din L data p (rest : inode -> H A) (Q : A -> host -> Prop) :
  holds h (iaddrs din) L data -> sized (iaddrs din) L data -> (length data < 140 * 512)%nat ->
  (0 < length p)%nat -> (length data mod 512 + length p <= 512)%nat ->
  freeblock h + needed (length data + length p) - needed (length data) <= FSSIZE ->
  (forall h' a' L', holds h' a' L' (data ++ p) -> sized a' L' (data ++ p) -> grown h (iaddrs din) L h' a' L' ->
     freeblock h' = freeblock h + needed (length data + length p) - needed (length data) ->
     runs h' (rest (din <| iaddrs := a' |>)) Q) ->
  runs h (r ← map_block din (length data / 512);
          let '(din, x) := r in
          buf ← rsect x;
          wsect x (splice buf (length data mod 512) p) ;;
          rest din) Q.
Proof.
  intros Hh [HL Hind] Hmax Hp Hfit Hroom HQ. unfold nblocks_for in HL. pose proof (h_formatted _ _ _ _ Hh) as Hf.
  assert (Hcost : needed (length data + length p) - needed (length data) =
    if decide (length data / 512 < length L)%nat then 0 else fresh_cost (iaddrs din) (length data / 512)).
  { unfold needed, fresh_cost, nblocks_for. unfold NDIRECT in *. repeat case_decide; divisions. }
  apply runs_bind. apply (runs_map_block h din L data).
  - done.
  - divisions.
  - divisions.
  - intros E. rewrite decide_False in Hcost by lia. lia.
  - intros h1 a1 L1 x (Hh1 & Hg1 & Hx & HL1 & Hfb & Hi1). pose proof (holds_block _ _ _ _ _ _ Hh1 Hx) as Hr.
    pose proof (h_formatted _ _ _ _ Hh1) as Hf1.
    apply runs_bind, runs_rsect; [rewrite (f_sects h1 Hf1); blocks..|].
    apply runs_bind, runs_wsect; [rewrite (f_sects h1 Hf1); blocks..|].
    destruct (holds_write h1 a1 L1 data x p Hh1 Hx Hfit) as [Hh2 Hg2]. apply (HQ _ a1 L1); [done| |by eapply grown_trans|].
    + unfold sized, nblocks_for. rewrite length_app. assert (HlL1 : length L1 = (length L + if decide (length data / 512 < length L) then 0 else 1)%nat).
      { rewrite HL1. destruct (decide _); [lia|by rewrite length_app]. }
      rewrite HlL1. unfold NDIRECT in *. split; [|rewrite Hi1, Hind]; destruct (decide _); divisions.
    + cbn. rewrite Hfb. lia.
Qed.

(** The whole loop, with its fuel. *)
Lemma runs_iappend_loop fuel : forall h din L data p (Q : inode * Z -> host -> Prop),
  holds h (iaddrs din) L data -> sized (iaddrs din) L data -> (length data + length p <= 140 * 512)%nat ->
  (p = [] \/ length data mod 512 + length p <= 512 * fuel)%nat ->
  freeblock h + needed (length data + length p) - needed (length data) <= FSSIZE ->
  (forall h' a' L', holds h' a' L' (data ++ p) -> sized a' L' (data ++ p) -> grown h (iaddrs din) L h' a' L' ->
     freeblock h' = freeblock h + needed (length data + length p) - needed (length data) ->
     Q (din <| iaddrs := a' |>, Z.of_nat (length data + length p)) h') ->
  runs h (iappend_loop (S fuel) din (Z.of_nat (length data)) p) Q.
Proof.
  induction fuel as [|f IH]; intros h din L data p Q Hh Hs Hmax Hfuel Hroom HQ.
  all: destruct (decide (length p = 0%nat)) as [Hp|Hp];
    [apply nil_length_inv in Hp as ->; cbn [iappend_loop length Z.of_nat Z.ltb Z.compare];
     apply runs_ret; rewrite app_nil_r, Nat.add_0_r in HQ;
     assert (E : din <| iaddrs := iaddrs din |> = din) by (by destruct din); rewrite <- E at 1;
     apply (HQ h (iaddrs din) L); [done|done|apply grown_refl|lia]|].
  { destruct Hfuel as [->|?]; [done|lia]. }
  destruct Hfuel as [->|Hfuel]; [done|].
  change (iappend_loop (S (S f))) with (fun din off p =>
    if 0 <? Z.of_nat (length p) then
        let fbn := off / BSIZE in
        if negb (fbn <? MAXFILE) then panic "fbn < MAXFILE" else
        r ← map_block din (Z.to_nat fbn);
        let '(din, x) := r in
        let n1 := Z.min (Z.of_nat (length p)) ((fbn + 1) * BSIZE - off) in
        buf ← rsect x;
        wsect x (splice buf (Z.to_nat (off - fbn * BSIZE)) (take (Z.to_nat n1) p)) ;;
        iappend_loop (S f) din (off + n1) (drop (Z.to_nat n1) p)
      else mret (din, off)). cbv beta zeta.
  destruct (Z.ltb_spec 0 (Z.of_nat (length p))) as [_|]; [|lia].
  change BSIZE with 512. change MAXFILE with 140.
  set (n1 := Z.min _ _). set (c := take (Z.to_nat n1) p). set (p' := drop (Z.to_nat n1) p).
  assert (Hn1 : (length c = Nat.min (length p) (512 - length data mod 512))%nat) by (unfold c, n1; rewrite length_take; divisions).
  assert (Hp' : p = c ++ p') by (unfold c, p'; by rewrite take_drop).
  assert (Hlp : (length p = length c + length p')%nat) by (rewrite Hp' at 1; by rewrite length_app).
  destruct (Z.ltb_spec (Z.of_nat (length data) / 512) 140) as [_|]; [|divisions]. cbn [negb].
  replace (Z.to_nat (Z.of_nat (length data) / 512)) with (length data / 512)%nat by divisions.
  replace (Z.to_nat (Z.of_nat (length data) - Z.of_nat (length data) / 512 * 512)) with (length data mod 512)%nat by divisions.
  replace (Z.of_nat (length data) + n1) with (Z.of_nat (length (data ++ c))) by (rewrite length_app; unfold n1 in *; divisions).
  pose proof (needed_mono (length data + length c) (length data + length p) ltac:(lia)) as Hm.
  apply (runs_append_round h din L data c (fun din => iappend_loop (S f) din (Z.of_nat (length (data ++ c))) p')); try done.
  1-3: divisions.
  { lia. }
  intros h1 a1 L1 Hh1 Hs1 Hg1 Hfb1.
  apply (IH h1 (din <| iaddrs := a1 |>) L1 (data ++ c) p'); cbn [iaddrs setter]; try done.
  - rewrite length_app. lia.
  - destruct (decide (p' = [])); [by left|right]. rewrite length_app.
    assert (length p' <> 0)%nat by by (intros ?%nil_length_inv). divisions.
  - rewrite length_app, Hfb1. replace (length data + length c + length p')%nat with (length data + length p)%nat by lia. lia.
  - intros h2 a2 L2. rewrite <- app_assoc, <- Hp', length_app. intros Hh2 Hs2 Hg2 Hfb2.
    replace (length data + length c + length p')%nat with (length data + length p)%nat in * by lia.
    apply (HQ h2 a2 L2); [done|done|by eapply grown_trans|]. rewrite Hfb2, Hfb1. lia.
Qed.
