(* ===== verification/Built.v ===== *)
(** The whole run of mkfs.c: the image as a list of files, kept by every step
    of the builder, and what [main] leaves on the image. *)

From Stdlib Require Import ZifyNat.
From S2P Require Import Prelude Control Memory KState Boot Spinlock Format Sched Kalloc Vm Sleeplock.
From S2P Require Import Disk Bio Log Inode Console Fs Pipe File Proc Trap Handoff Layout Cache Crash Mkfs Image.
Import Mkfs.

(** * Inodes on the image *)

Definition inode_at (D : content) (n : Z) : inode := read_dinode (D (IBLOCK n super)) (dinode_off n) zero_inode.

Lemma super_words : super = mkSb 2000 1941 200 30 2 32 58.
Proof. vm_compute. reflexivity. Qed.
Lemma iblock_super n : 0 <= n < 208 -> IBLOCK n super = n / 8 + 32 /\ 32 <= n / 8 + 32 < 58.
Proof.
  intros Hn. rewrite super_words. unfold IBLOCK. cbn [sb_inodestart]. change IPB with 8.
  rewrite u32_id; [|unfold u32_range]; divisions.
Qed.

Lemma read_dinode_ext d d' off ip :
  (forall k, (k < 64)%nat -> getb d (off + k) = getb d' (off + k)) -> read_dinode d off ip = read_dinode d' off ip.
Proof.
  intros Hk.
  assert (H16 : forall k, (k < 63)%nat -> get16 d (off + k) = get16 d' (off + k)).
  { intros k ?. unfold get16. rewrite Hk by lia. rewrite <- Nat.add_assoc, Hk by lia. done. }
  assert (H32 : forall k, (k < 61)%nat -> get32 d (off + k) = get32 d' (off + k)).
  { intros k ?. unfold get32. rewrite H16 by lia. rewrite <- Nat.add_assoc, H16 by lia. done. }
  assert (H0 : get16 d off = get16 d' off) by (specialize (H16 0%nat); rewrite Nat.add_0_r in H16; apply H16; lia).
  assert (Ha : (fun k => get32 d (off + 12 + 4 * k)) <$> seq 0 (NDIRECT + 1) =
    (fun k => get32 d' (off + 12 + 4 * k)) <$> seq 0 (NDIRECT + 1)).
  { apply list_fmap_ext. intros i k [-> Hi]%lookup_seq. rewrite <- Nat.add_assoc. apply H32. unfold NDIRECT in Hi. lia. }
  unfold read_dinode. by rewrite H0, !H16, H32, Ha by lia.
Qed.

(** The fields [mkfs] leaves at their defaults. *)
Definition dinode (type size : Z) (a : list Z) : inode :=
  zero_inode <| itype := type |> <| inlink := 1 |> <| isize := size |> <| iaddrs := a |>.

Lemma runs_winode h n ip (Q : unit -> host -> Prop) :
  formatted h -> 0 <= n < 208 -> inode_fits ip ->
  (forall h', formatted h' -> freeblock h' = freeblock h -> freeinode h' = freeinode h ->
     (forall b, b < 32 \/ 58 <= b -> img h' b = img h b) ->
     inode_at (img h') n = zero_inode <| itype := itype ip |> <| imajor := imajor ip |> <| iminor := iminor ip |>
        <| inlink := inlink ip |> <| isize := isize ip |> <| iaddrs := iaddrs ip |> ->
     (forall n', 0 <= n' < 208 -> n' <> n -> inode_at (img h') n' = inode_at (img h) n') -> Q tt h') ->
  runs h (winode n ip) Q.
Proof.
  intros Hf Hn Hfit HQ. pose proof (f_free h Hf). destruct (iblock_super n Hn) as [Eb Hb]. pose proof Hfit as (_ & _ & _ & _ & _ & Hla & _).
  apply runs_bind, runs_gets. rewrite (f_sb h Hf). cbv zeta.
  apply runs_bind, runs_rsect; [rewrite (f_sects h Hf); blocks..|].
  apply runs_wsect; [rewrite (f_sects h Hf); blocks..|].
  assert (Hl : length (splice (img h (IBLOCK n super)) (dinode_off n) (dinode_bytes ip)) = 512%nat).
  { pose proof (dinode_off_fits n ltac:(lia)). rewrite length_splice; [by apply Hf|].
    rewrite (f_length h Hf), length_dinode_bytes by done. lia. }
  apply HQ; try done.
  - apply formatted_put; [done|blocks|done].
  - intros b Hb'. cbn. apply write_ne. lia.
  - unfold inode_at. cbn [img put setter]. change (img (put ?a ?b h)) with (write (img h) a b). rewrite write_eq.
    apply read_dinode_bytes; [done|by apply Hf|lia].
  - intros n' Hn' Hne. unfold inode_at. destruct (iblock_super n' Hn') as [Eb' Hb'].
    change (img (put ?a ?b h)) with (write (img h) a b). destruct (decide (IBLOCK n' super = IBLOCK n super)) as [E|E].
    + rewrite E, write_eq. apply read_dinode_ext. intros k Hk. apply getb_dinode_other; [done|by apply Hf|lia|lia| |done].
      change IPB with 8. rewrite Eb, Eb' in E. divisions.
    + by rewrite write_ne.
Qed.

Lemma runs_rinode h n (Q : inode -> host -> Prop) :
  formatted h -> 0 <= n < 208 -> Q (inode_at (img h) n) h -> runs h (rinode n) Q.
Proof.
  intros Hf Hn HQ. destruct (iblock_super n Hn) as [Eb Hb].
  apply runs_bind, runs_gets. rewrite (f_sb h Hf).
  apply runs_bind, runs_rsect; [rewrite (f_sects h Hf); blocks..|]. by apply runs_ret.
Qed.

(** * The image *)

(** A file of the image. *)
Record fil := mkFil { f_type : Z; f_size : Z; f_addrs : list Z; f_blocks : list Z; f_data : list Z }.

Definition used (G : list fil) : Z := foldr (fun g n => needed (length (f_data g)) + n) 0 G.

(** The image holds the files [G], the first one as inode 1. *)
Record image (h : host) (G : list fil) : Prop := {
  i_formatted : formatted h;
  i_next : freeinode h = 1 + Z.of_nat (length G);
  i_count : (length G <= 199)%nat;
  i_super : decode_sb (img h 1) = super;
  i_inode k g : G !! k = Some g ->
    inode_at (img h) (Z.of_nat k + 1) = dinode (f_type g) (f_size g) (f_addrs g) /\
    i16_range (f_type g) /\ u32_range (f_size g);
  i_file k g : G !! k = Some g ->
    file_rep (img h) (f_addrs g) (f_blocks g) (f_data g) /\ sized (f_addrs g) (f_blocks g) (f_data g) /\
    owns nmeta (freeblock h) (f_addrs g) (f_blocks g);
  i_disjoint k k' g g' b : G !! k = Some g -> G !! k' = Some g' -> k <> k' ->
    b ∈ owned (f_addrs g) (f_blocks g) -> b ∉ owned (f_addrs g') (f_blocks g');
  i_used : freeblock h = nmeta + used G
}.

Lemma used_cons g G : used (g :: G) = needed (length (f_data g)) + used G.
Proof. done. Qed.
Lemma used_app G G' : used (G ++ G') = used G + used G'.
Proof. induction G as [|g G IH]; cbn [app]; [done|]. rewrite !used_cons, IH. lia. Qed.
Lemma used_insert G k g g' : G !! k = Some g ->
  used (<[k := g']> G) = used G + needed (length (f_data g')) - needed (length (f_data g)).
Proof.
  revert k. induction G as [|x G IH]; intros [|k] Hk; try done.
  - injection Hk as ->. change (<[0%nat := g']> (g :: G)) with (g' :: G). rewrite !used_cons. lia.
  - change (<[S k := g']> (x :: G)) with (x :: <[k := g']> G). change (G !! k = Some g) in Hk.
    rewrite !used_cons, (IH k Hk). lia.
Qed.
Lemma needed_nonneg n : 0 <= needed n.
Proof. unfold needed. case_decide; lia. Qed.

Lemma image_holds h G k g : image h G -> G !! k = Some g -> holds h (f_addrs g) (f_blocks g) (f_data g).
Proof. intros Hi Hg. destruct (i_file h G Hi k g Hg) as (? & ? & ?). split; [apply Hi|done..]. Qed.

(** The addresses of a file fit its inode. *)
Lemma addrs_fit h a L data : holds h a L data -> sized a L data -> Forall u32_range a.
Proof.
  intros Hh [_ Hs]. apply Forall_lookup_2. intros k v Hv.
  pose proof (lookup_lt_Some _ _ _ Hv) as Hk. rewrite (r_addrs _ _ _ _ (h_file _ _ _ _ Hh)) in Hk.
  assert (Ea : addr a k = v) by (unfold addr; by rewrite Hv). unfold u32_range.
  destruct (decide (k < NDIRECT)%nat) as [Hd|Hd].
  - rewrite <- (entry_direct (img h)), (r_entry _ _ _ _ (h_file _ _ _ _ Hh)) in Ea by (done || lia).
    destruct (L !! k) as [b|] eqn:Eb; cbn in Ea; [|lia]. pose proof (holds_block _ _ _ _ _ _ Hh Eb). lia.
  - assert (k = NDIRECT) as -> by (unfold NDIRECT in *; lia). destruct (decide (v = 0)) as [->|Hne]; [lia|].
    rewrite <- Ea in Hne. pose proof (holds_range _ _ _ _ _ Hh (owned_indirect a L Hne)). lia.
Qed.

Lemma dinode_fits type size a : i16_range type -> u32_range size -> length a = 13%nat -> Forall u32_range a ->
  inode_fits (dinode type size a).
Proof. intros. unfold inode_fits. cbn. unfold i16_range in *. split_and!; done || lia. Qed.

(** Nothing of a file but its inode block and its own blocks matters to it. *)
Lemma image_insert h h' G k g g' :
  image h G -> G !! k = Some g -> formatted h' -> freeinode h' = freeinode h ->
  grown h (f_addrs g) (f_blocks g) h' (f_addrs g') (f_blocks g') ->
  holds h' (f_addrs g') (f_blocks g') (f_data g') -> sized (f_addrs g') (f_blocks g') (f_data g') ->
  freeblock h' = freeblock h + needed (length (f_data g')) - needed (length (f_data g)) ->
  forall h'', formatted h'' -> freeblock h'' = freeblock h' -> freeinode h'' = freeinode h' ->
  (forall b, b < 32 \/ 58 <= b -> img h'' b = img h' b) ->
  inode_at (img h'') (Z.of_nat k + 1) = dinode (f_type g') (f_size g') (f_addrs g') ->
  i16_range (f_type g') -> u32_range (f_size g') ->
  (forall n', 0 <= n' < 208 -> n' <> Z.of_nat k + 1 -> inode_at (img h'') n' = inode_at (img h') n') ->
  image h'' (<[k := g']> G).
Proof.
  intros Hi Hg Hf' Hfi Hgr Hh' Hs' Hfb h'' Hf'' Hfb'' Hfi'' Hout Hin Ht Hz Hoth.
  pose proof (i_count h G Hi) as Hcnt. pose proof (lookup_lt_Some _ _ _ Hg) as Hk.
  pose proof (f_free h (i_formatted h G Hi)) as Hfr. pose proof (f_free h'' Hf'') as Hfr''. pose proof (g_mono _ _ _ _ _ _ Hgr) as Hmono.
  assert (Hlow : forall b, b < 59 -> img h' b = img h b).
  { intros b Hb. apply (g_frame _ _ _ _ _ _ Hgr); [blocks|].
    intros Hin'. pose proof (holds_range _ _ _ _ _ (image_holds h G k g Hi Hg) Hin'). lia. }
  assert (Hframe : forall j gj b, G !! j = Some gj -> j <> k -> b ∈ owned (f_addrs gj) (f_blocks gj) -> img h'' b = img h b).
  { intros j gj b Hj Hne Hb. pose proof (holds_range _ _ _ _ _ (image_holds h G j gj Hi Hj) Hb).
    rewrite Hout by lia. apply (g_frame _ _ _ _ _ _ Hgr); [lia|]. by apply (i_disjoint h G Hi j k gj g). }
  assert (Hcase : forall j gj, <[k := g']> G !! j = Some gj -> (j = k /\ gj = g') \/ (j <> k /\ G !! j = Some gj)).
  { intros j gj Hj. apply list_lookup_insert_Some in Hj as [(-> & -> & _)|[Hne Hj]]; [by left|right; by split]. }
  split; rewrite ?length_insert; try done.
  - rewrite Hfi'', Hfi. apply Hi.
  - rewrite Hout, Hlow by lia. apply Hi.
  - intros j gj [[-> ->]|[Hne Hj]]%Hcase; [done|]. pose proof (lookup_lt_Some _ _ _ Hj).
    destruct (i_inode h G Hi j gj Hj) as (E & Hr). split; [|done]. rewrite Hoth by lia. rewrite <- E. unfold inode_at.
    destruct (iblock_super (Z.of_nat j + 1) ltac:(lia)) as [Eb ?]. rewrite Hlow; [done|lia].
  - intros j gj [[-> ->]|[Hne Hj]]%Hcase.
    + split_and!; [|done|rewrite Hfb''; apply Hh']. eapply file_rep_frame; [apply Hh'|]. intros b Hb. apply Hout.
      pose proof (holds_range _ _ _ _ _ Hh' Hb). lia.
    + destruct (i_file h G Hi j gj Hj) as (Hrep & Hsz & Hown1 & Hown2). split_and!; [|done|].
      * eapply file_rep_frame; [done|]. intros b Hb. by eapply Hframe.
      * split; [done|]. eapply Forall_impl; [exact Hown2|]. cbn. intros b. lia.
  - assert (Hsep : forall j gj b, j <> k -> G !! j = Some gj -> b ∈ owned (f_addrs gj) (f_blocks gj) ->
      b ∉ owned (f_addrs g') (f_blocks g')).
    { intros j gj b Hne Hj Hb [Hb'|Hb']%(g_owned _ _ _ _ _ _ Hgr).
      - by apply (i_disjoint h G Hi j k gj g b).
      - pose proof (holds_range _ _ _ _ _ (image_holds h G j gj Hi Hj) Hb). lia. }
    intros j j' gj gj' b [[-> ->]|[Hne Hj]]%Hcase [[-> ->]|[Hne' Hj']]%Hcase Hjj Hb Hb'; try done.
    + by apply (Hsep j' gj' b).
    + by apply (Hsep j gj b).
    + by apply (i_disjoint h G Hi j j' gj gj' b).
  - rewrite Hfb'', Hfb, (i_used h G Hi), (used_insert G k g g' Hg). lia.
Qed.

(** Appending to file [k] of the image, and to no other. *)
Lemma runs_iappend h G k g p (Q : unit -> host -> Prop) :
  image h G -> G !! k = Some g -> f_size g = Z.of_nat (length (f_data g)) ->
  (length (f_data g) + length p <= 140 * 512)%nat ->
  freeblock h + needed (length (f_data g) + length p) - needed (length (f_data g)) <= FSSIZE ->
  (forall h' a' L', image h' (<[k := mkFil (f_type g) (Z.of_nat (length (f_data g ++ p))) a' L' (f_data g ++ p)]> G) -> Q tt h') ->
  runs h (iappend (Z.of_nat k + 1) p) Q.
Proof.
  intros Hi Hg Hsz Hmax Hroom HQ. pose proof (i_count h G Hi) as Hcnt. pose proof (lookup_lt_Some _ _ _ Hg) as Hk.
  destruct (i_inode h G Hi k g Hg) as (E & Ht & Hz). destruct (i_file h G Hi k g Hg) as (Hrep & Hs & Hown).
  unfold iappend. apply runs_bind, runs_rinode; [apply Hi|lia|]. rewrite E. set (din := dinode _ _ _).
  change (isize din) with (f_size g). rewrite xint_u32, u32_id, Hsz by done. apply runs_bind.
  change (1 + rounds (Z.of_nat (length p)))%nat with (S (rounds (Z.of_nat (length p)))).
  apply (runs_iappend_loop _ h din (f_blocks g) (f_data g) p); try done.
  - by eapply image_holds.
  - right. unfold rounds, BSIZE. divisions.
  - intros h1 a1 L1 Hh1 Hs1 Hg1 Hfb1.
    assert (Hfits : u32_range (Z.of_nat (length (f_data g ++ p)))) by (rewrite length_app; unfold u32_range; lia).
    rewrite <- length_app. rewrite xint_u32, u32_id by done.
    apply runs_winode; [apply Hh1|lia| |].
    { apply (dinode_fits (f_type g) (Z.of_nat (length (f_data g ++ p))) a1); [done|done|apply Hh1|by eapply addrs_fit]. }
    intros h2 Hf2 Hfb2 Hfi2 Hout2 Hin2 Hoth2. apply (HQ h2 a1 L1).
    apply (image_insert h h1 G k g (mkFil (f_type g) (Z.of_nat (length (f_data g ++ p))) a1 L1 (f_data g ++ p))); try done; cbn.
    + apply Hh1.
    + apply Hg1.
    + by rewrite length_app.
Qed.

(** * Allocating inodes *)

Definition empty_file (type : Z) : fil := mkFil type 0 (replicate 13 0) [] [].

Lemma empty_addr k : addr (replicate 13 0) k = 0.
Proof. unfold addr. destruct (replicate 13 0 !! k) as [z|] eqn:E; [|done]. by apply lookup_replicate in E as [-> _]. Qed.
Lemma empty_owned : owned (replicate 13 0) [] = [].
Proof. unfold owned. by rewrite empty_addr. Qed.
Lemma empty_rep D : file_rep D (replicate 13 0) [] [].
Proof.
  split; cbn [length]; try (done || lia). intros k Hk. unfold entry. rewrite !empty_addr. by destruct (decide _).
Qed.

Lemma runs_ialloc h G type (Q : Z -> host -> Prop) :
  image h G -> (length G < 199)%nat -> 0 <= type < 2 ^ 15 ->
  (forall h', image h' (G ++ [empty_file type]) -> Q (Z.of_nat (length G) + 1) h') -> runs h (ialloc type) Q.
Proof.
  intros Hi Hlen Ht HQ. pose proof (i_formatted h G Hi) as Hf. pose proof (i_next h G Hi) as Hn.
  unfold ialloc. apply runs_bind, runs_gets, runs_bind, runs_modify.
  rewrite Hn, u32_id by (unfold u32_range; lia). apply runs_bind.
  rewrite !xshort_u16. change (xint 0) with 0. change (i16 (u16 1)) with 1.
  assert (Et : i16 (u16 type) = type) by (apply i16_u16; unfold i16_range; lia). rewrite Et.
  apply runs_winode.
  - destruct Hf. by split.
  - lia.
  - apply (dinode_fits type 0 (replicate 13 0)); [unfold i16_range; lia|unfold u32_range; lia|done|].
    repeat constructor; unfold u32_range; lia.
  - intros h' Hf' Hfb Hfi Hout Hin Hoth. apply runs_ret. replace (1 + Z.of_nat (length G)) with (Z.of_nat (length G) + 1) in * by lia.
    apply HQ. cbn in Hfb, Hfi, Hoth.
    assert (Hcase : forall j gj, (G ++ [empty_file type]) !! j = Some gj ->
      (j = length G /\ gj = empty_file type) \/ (j <> length G /\ G !! j = Some gj)).
    { intros j gj Hj. apply lookup_app_Some in Hj as [Hj|[Hge Hj]].
      - right. split; [|done]. apply lookup_lt_Some in Hj. lia.
      - apply list_lookup_singleton_Some in Hj as [? <-]. left. split; [lia|done]. }
    split; rewrite ?length_app; cbn [length]; try done.
    + rewrite Hfi. lia.
    + lia.
    + rewrite Hout by lia. apply Hi.
    + intros j gj [[-> ->]|[Hne Hj]]%Hcase; [split; [exact Hin|split; [unfold i16_range|unfold u32_range]; cbn; lia]|].
      pose proof (lookup_lt_Some _ _ _ Hj). destruct (i_inode h G Hi j gj Hj) as (E & Hr). split; [|done].
      rewrite Hoth by lia. exact E.
    + intros j gj [[-> ->]|[Hne Hj]]%Hcase.
      * split_and!; [apply empty_rep| |].
        -- split; [done|]. cbn [f_addrs empty_file]. rewrite empty_addr. cbn. unfold NDIRECT. split; lia.
        -- split; cbn [f_addrs f_blocks empty_file]; rewrite empty_owned; constructor.
      * destruct (i_file h G Hi j gj Hj) as (Hrep & Hs & Hown). rewrite Hfb. split_and!; [|done|done].
        eapply file_rep_frame; [done|]. intros b Hb. rewrite Hout; [done|].
        pose proof (holds_range _ _ _ _ _ (image_holds h G j gj Hi Hj) Hb). lia.
    + intros j j' gj gj' b [[-> ->]|[Hne Hj]]%Hcase [[-> ->]|[Hne' Hj']]%Hcase Hjj Hb Hb'; try done.
      * cbn [f_addrs f_blocks empty_file] in Hb. rewrite empty_owned in Hb. set_solver.
      * cbn [f_addrs f_blocks empty_file] in Hb'. rewrite empty_owned in Hb'. set_solver.
      * by apply (i_disjoint h G Hi j j' gj gj' b).
    + rewrite Hfb, (i_used h G Hi), used_app. change (used [empty_file type]) with 0. lia.
Qed.

(** * The files of the command line *)

(** The entries the files get in the root directory, from inode [n] on. *)
Fixpoint entries (n : Z) (args : list (list Z)) : list Z :=
  match args with
  | [] => []
  | arg :: args' => dirent n (file_name arg) ++ entries (n + 1) args'
  end.
Definition root_data (args : list (list Z)) : list Z :=
  dirent 1 [46] ++ dirent 1 [46; 46] ++ entries 2 args.

Lemma length_strncpy t n : length (strncpy t n) = n.
Proof.
  revert t. induction n as [|n IH]; intros t; cbn [strncpy]; [done|].
  destruct (hd0 t =? 0); cbn [length]; [by rewrite length_replicate|by rewrite IH].
Qed.
Lemma length_dirent n name : length (dirent n name) = 16%nat.
Proof. unfold dirent. by rewrite length_app, length_strncpy. Qed.
Lemma entries_app n l l' : entries n (l ++ l') = entries n l ++ entries (n + Z.of_nat (length l)) l'.
Proof.
  revert n. induction l as [|x l IH]; intros n; cbn [entries app length].
  - by rewrite Z.add_0_r.
  - rewrite IH, app_assoc. do 2 f_equal. lia.
Qed.
Lemma length_entries n l : length (entries n l) = (16 * length l)%nat.
Proof. revert n. induction l as [|x l IH]; intros n; cbn [entries length]; [done|]. rewrite length_app, length_dirent, IH. lia. Qed.
Lemma length_root_data args : length (root_data args) = (32 + 16 * length args)%nat.
Proof. unfold root_data. by rewrite !length_app, !length_dirent, length_entries. Qed.

Section Files.
Context (disk_files : list Z -> option (list (list Z))).

Definition contents (arg : list Z) : list Z := mjoin (default [] (disk_files arg)).

(** The blocks the files need. *)
Definition files_need (args : list (list Z)) : Z :=
  foldr (fun arg n => needed (length (contents arg)) + n) 0 args.

Definition is_file (arg : list Z) (g : fil) : Prop :=
  f_type g = T_FILE /\ f_data g = contents arg /\ f_size g = Z.of_nat (length (contents arg)).

(** The image with the root directory and the files [args]. *)
Definition listed (args : list (list Z)) (h : host) : Prop :=
  exists a L gs, image h (mkFil T_DIR (Z.of_nat (length (root_data args))) a L (root_data args) :: gs) /\
    Forall2 is_file args gs.

Lemma used_files args gs : Forall2 is_file args gs -> used gs = files_need args.
Proof.
  induction 1 as [|arg g args gs (_ & E & _) _ IH]; [done|]. by rewrite used_cons, IH, E.
Qed.
Lemma files_need_cons x l : files_need (x :: l) = needed (length (contents x)) + files_need l.
Proof. done. Qed.
Lemma files_need_app l l' : files_need (l ++ l') = files_need l + files_need l'.
Proof. induction l as [|x l IH]; [done|]. cbn [app]. rewrite !files_need_cons, IH. lia. Qed.
Lemma files_need_nonneg l : 0 <= files_need l.
Proof. induction l as [|x l IH]; [done|]. rewrite files_need_cons. pose proof (needed_nonneg (length (contents x))). lia. Qed.

(** The pieces of one file. *)
Lemma runs_append_chunks h G k g chunks (Q : unit -> host -> Prop) :
  image h G -> G !! k = Some g -> f_size g = Z.of_nat (length (f_data g)) ->
  (length (f_data g) + length (mjoin chunks) <= 140 * 512)%nat ->
  freeblock h + needed (length (f_data g) + length (mjoin chunks)) - needed (length (f_data g)) <= FSSIZE ->
  (forall h' a' L', image h' (<[k := mkFil (f_type g) (Z.of_nat (length (f_data g ++ mjoin chunks))) a' L'
     (f_data g ++ mjoin chunks)]> G) -> Q tt h') ->
  runs h (for_each chunks (iappend (Z.of_nat k + 1))) Q.
Proof.
  intros Hi Hg Hsz Hmax Hroom HQ.
  apply (runs_for_each (fun done h' => exists a L, image h' (<[k := mkFil (f_type g)
    (Z.of_nat (length (f_data g ++ mjoin done))) a L (f_data g ++ mjoin done)]> G))).
  - exists (f_addrs g), (f_blocks g). change (mjoin []) with (@nil Z). rewrite app_nil_r, <- Hsz.
    rewrite list_insert_id; [done|]. by destruct g.
  - intros done c rest h1 Hch (a1 & L1 & Hi1). set (g1 := mkFil _ _ _ _ _) in Hi1.
    assert (Hg1 : <[k := g1]> G !! k = Some g1) by (apply list_lookup_insert_eq; by apply lookup_lt_Some in Hg).
    pose proof (i_used _ _ Hi1) as Hu. rewrite (used_insert G k g g1 Hg), Z.add_sub_assoc, Z.add_assoc in Hu.
    rewrite <- (i_used _ _ Hi) in Hu.
    assert (Hlen : (length (f_data g1) + length c <= length (f_data g) + length (mjoin chunks))%nat).
    { rewrite Hch, join_app. change (mjoin (c :: rest)) with (c ++ mjoin rest). cbn [f_data g1]. rewrite !length_app. lia. }
    pose proof (needed_mono _ _ Hlen).
    eapply (runs_iappend h1 _ k g1 c); [done|done|done|lia|lia|].
    intros h2 a2 L2 Hi2. exists a2, L2. rewrite list_insert_insert_eq in Hi2. cbn [f_data f_type g1] in Hi2.
    rewrite join_app. change (mjoin [c]) with (c ++ []). by rewrite app_nil_r, app_assoc.
  - intros h1 (a1 & L1 & Hi1). by eapply HQ.
Qed.

(** What [main] needs of a file. *)
Definition file_ok (arg : list Z) : Prop :=
  forallb (fun c => negb (c =? slash)) arg = true /\ is_Some (disk_files arg) /\ (length (contents arg) <= 140 * 512)%nat.

Lemma runs_add_file h args arg (Q : unit -> host -> Prop) :
  listed args h -> (length args < 198)%nat -> file_ok arg ->
  nmeta + needed (length (root_data (args ++ [arg]))) + files_need (args ++ [arg]) <= FSSIZE ->
  (forall h', listed (args ++ [arg]) h' -> Q tt h') -> runs h (add_file disk_files 1 arg) Q.
Proof.
  intros (a & L & gs & Hi & Hgs) Hlen (Hslash & [chunks Hch] & Hmax) Hroom HQ.
  pose proof (Forall2_length _ _ _ Hgs) as Hl. unfold add_file. rewrite Hslash, Hch. cbn [negb].
  pose proof (used_files _ _ Hgs) as Hu. rewrite files_need_app, files_need_cons in Hroom. change (files_need []) with 0 in Hroom. pose proof (needed_nonneg (length (contents arg))) as Hn.
  assert (Hc : mjoin chunks = contents arg) by (unfold contents; by rewrite Hch).
  assert (Er : root_data (args ++ [arg]) = root_data args ++ dirent (Z.of_nat (length (mkFil T_DIR 0 a L [] :: gs)) + 1) (file_name arg)).
  { unfold root_data. rewrite entries_app, <- !app_assoc. cbn [entries length]. rewrite app_nil_r. do 4 f_equal. lia. }
  apply runs_bind. eapply runs_ialloc; [exact Hi|cbn; lia|unfold T_FILE; lia|]. intros h1 Hi1.
  set (n := Z.of_nat (length _) + 1). change (Z.of_nat (length (mkFil T_DIR 0 a L [] :: gs)) + 1) with n in Er.
  pose proof (i_used _ _ Hi1) as Hu1. rewrite used_app, used_cons, Hu in Hu1. change (used [empty_file T_FILE]) with 0 in Hu1.
  cbn [f_data] in Hu1. rewrite Er, length_app in Hroom.
  apply runs_bind. change 1 with (Z.of_nat 0 + 1) at 1.
  pose proof (length_root_data args) as Hlr.
  eapply (runs_iappend h1 _ 0); [exact Hi1|reflexivity|reflexivity|cbn [f_data]; rewrite length_dirent; lia|cbn [f_data]; lia|].
  intros h2 a2 L2 Hi2. cbn [f_data f_type] in Hi2. rewrite <- Er in Hi2. set (r := root_data (args ++ [arg])) in *.
  change (<[0%nat := ?x]> ((?y :: gs) ++ ?z)) with (x :: gs ++ z) in Hi2.
  pose proof (i_used _ _ Hi2) as Hu2. rewrite used_cons, used_app, Hu in Hu2. change (used [empty_file T_FILE]) with 0 in Hu2. cbn [f_data] in Hu2.
  replace n with (Z.of_nat (S (length gs)) + 1) by (unfold n; cbn [length]; lia).
  eapply (runs_append_chunks h2 _ (S (length gs)) (empty_file T_FILE)); [exact Hi2| |done|cbn [f_data empty_file]; rewrite Hc; cbn [length]; lia| |].
  - change ((gs ++ [empty_file T_FILE]) !! length gs = Some (empty_file T_FILE)).
    by rewrite lookup_app_r, Nat.sub_diag by lia.
  - cbn [f_data empty_file length]. rewrite Hc, Nat.add_0_l. change (needed 0) with 0. rewrite Er, length_app in Hu2. lia.
  - intros h3 a3 L3 Hi3. apply HQ. cbn [f_data f_type empty_file app] in Hi3. rewrite Hc in Hi3.
    set (g3 := mkFil _ _ a3 L3 _) in Hi3. exists a2, L2, (gs ++ [g3]). split.
    + change (<[S (length gs) := g3]> (?x :: ?l)) with (x :: <[length gs := g3]> l) in Hi3.
      by rewrite insert_app_r_alt, Nat.sub_diag in Hi3 by lia.
    + apply Forall2_app; [done|]. by repeat constructor.
Qed.
End Files.

(** * The whole run *)

Lemma bitmap_spec n j : (n <= 4096)%nat -> length (bitmap n) = 512%nat /\ bit_set (bitmap n) j = bool_decide (j < n)%nat.
Proof.
  intros Hn. revert j. induction n as [|n IH]; intros j.
  - split; [done|]. rewrite bit_set_testbit. change (bitmap 0) with zeroes.
    rewrite getb_zeroes, Z.testbit_0_l. by rewrite bool_decide_eq_false_2 by lia.
  - unfold bitmap in *. rewrite seq_S, foldl_app. cbn [foldl]. rewrite Nat.add_0_l. destruct (IH ltac:(lia) j) as [Hl Hb].
    split; [unfold mark_bit; by rewrite length_insert|].
    rewrite mark_bit_spec by (rewrite Hl; apply (Nat.Div0.div_lt_upper_bound n 8 512); lia). rewrite Hb.
    destruct (decide (j = n)) as [->|Hne]; [by rewrite bool_decide_eq_true_2 by lia|]. apply bool_decide_ext. lia.
Qed.

(** The bitmap's block belongs to no file. *)
Lemma image_bitmap h G d : image h G -> length d = 512%nat -> image (put 58 d h) G.
Proof.
  intros Hi Hd. pose proof (f_free h (i_formatted h G Hi)) as Hfr. pose proof (i_count h G Hi) as Hcnt.
  assert (Hne : forall b, b <> 58 -> img (put 58 d h) b = img h b) by (intros b Hb; by apply write_ne).
  split.
  - apply formatted_put; [apply Hi|blocks|done].
  - apply Hi.
  - apply Hi.
  - rewrite Hne by lia. apply Hi.
  - intros k g Hg. pose proof (lookup_lt_Some _ _ _ Hg). destruct (iblock_super (Z.of_nat k + 1) ltac:(lia)) as [Eb ?].
    unfold inode_at. rewrite Hne by lia. by apply Hi.
  - intros k g Hg. destruct (i_file h G Hi k g Hg) as (Hr & ? & ?). split_and!; [|done..].
    eapply file_rep_frame; [done|]. intros b Hb. apply Hne. pose proof (holds_range _ _ _ _ _ (image_holds h G k g Hi Hg) Hb). lia.
  - apply Hi.
  - apply Hi.
Qed.

Lemma runs_zero (Q : unit -> host -> Prop) s :
  nsect s = 0 -> (forall b, img s b = zeroes) ->
  (forall h, nsect h = FSSIZE -> (forall b, img h b = zeroes) -> hsb h = hsb s -> freeinode h = freeinode s ->
     freeblock h = freeblock s -> Q tt h) ->
  runs s (for_each (Z.of_nat <$> seq 0 (Z.to_nat FSSIZE)) (fun i => wsect i zeroes)) Q.
Proof.
  intros Hn Hz HQ.
  apply (runs_for_each (fun done h => nsect h = Z.of_nat (length done) /\ (forall b, img h b = zeroes) /\ hsb h = hsb s /\
    freeinode h = freeinode s /\ freeblock h = freeblock s)); [by split_and!| |].
  - intros done i rest h El (H1 & H2 & H3 & H4 & H5). apply runs_modify.
    assert (Ei : i = Z.of_nat (length done) /\ 0 <= i < FSSIZE).
    { assert (Hi : (Z.of_nat <$> seq 0 (Z.to_nat FSSIZE)) !! length done = Some i) by (rewrite El; by apply list_lookup_middle).
      apply list_lookup_fmap_Some in Hi as (k & -> & [-> Hk]%lookup_seq). blocks. }
    destruct Ei as [-> Hi]. rewrite sector_id by done. split_and!; try done.
    + cbn. rewrite H1, length_app. cbn. lia.
    + intros b. cbn. unfold write. by destruct (b =? _).
  - intros h (H1 & H2 & H3 & H4 & H5). by apply HQ.
Qed.

Lemma runs_format (Q : Z -> host -> Prop) disk_files :
  (forall h, listed disk_files [] h -> Q 1 h) -> runs start_state format Q.
Proof.
  intros HQ. apply runs_bind, runs_modify, runs_bind, runs_zero; [done..|].
  intros h1 Hn1 Hz1 Hsb1 Hfi1 Hfb1. cbn in Hsb1, Hfi1. change (freeblock h1 = nmeta) in Hfb1. apply runs_bind, runs_wsect; [blocks..|].
  assert (Hi0 : image (put 1 (splice zeroes 0 (sb_bytes super)) h1) []).
  { split; [|cbn; lia|cbn; lia| |done|done|done|].
    - split; try done.
      + intros b. cbn -[splice]. unfold write. destruct (b =? 1); [done|]. by rewrite Hz1.
      + change (freeblock (put _ _ h1)) with (freeblock h1). blocks.
      + change (freeblock (put _ _ h1)) with (freeblock h1). intros b Hb. cbn -[splice]. rewrite write_ne by blocks. by rewrite Hz1.
    - change (img (put 1 ?d h1)) with (write (img h1) 1 d). rewrite write_eq. vm_compute. reflexivity.
    - exact Hfb1. }
  apply runs_bind. eapply runs_ialloc; [exact Hi0|cbn; lia|unfold T_DIR; lia|]. intros h2 Hi2.
  change (Z.of_nat (length (@nil fil)) + 1) with 1. change (1 =? ROOTINO) with true. cbn [negb app] in *.
  pose proof (i_used _ _ Hi2) as Hu2. change (used [empty_file T_DIR]) with 0 in Hu2.
  apply runs_bind. change 1 with (Z.of_nat 0 + 1) at 1.
  eapply (runs_iappend h2 _ 0); [exact Hi2|reflexivity|reflexivity|cbn [f_data empty_file]; rewrite length_dirent; cbn [length]; lia| |].
  { cbn [f_data empty_file]. rewrite length_dirent. change (needed _) with 1 at 1. change (needed _) with 0. blocks. }
  intros h3 a3 L3 Hi3. cbn [f_data f_type empty_file app] in Hi3. change (<[0%nat := ?x]> [?y]) with [x] in Hi3.
  pose proof (i_used _ _ Hi3) as Hu3. rewrite used_cons in Hu3. cbn [f_data] in Hu3. rewrite length_dirent in Hu3.
  change (used []) with 0 in Hu3. change (needed 16) with 1 in Hu3.
  apply runs_bind. change 1 with (Z.of_nat 0 + 1) at 1.
  eapply (runs_iappend h3 _ 0); [exact Hi3|reflexivity|reflexivity|cbn [f_data]; rewrite !length_dirent; lia| |].
  { cbn [f_data]. rewrite !length_dirent. change (needed (16 + 16)) with 1. change (needed 16) with 1. blocks. }
  intros h4 a4 L4 Hi4. apply runs_ret, HQ. exists a4, L4, []. split; [|constructor]. exact Hi4.
Qed.

(** The root directory, its size rounded to the next block. *)
Definition root_size (args : list (list Z)) : Z := (Z.of_nat (length (root_data args)) / BSIZE + 1) * BSIZE.
(** What is on the image at the end. *)
Definition built (disk_files : list Z -> option (list (list Z))) (args : list (list Z)) (h : host) : Prop :=
  (exists a L gs, image h (mkFil T_DIR (root_size args) a L (root_data args) :: gs) /\
     Forall2 (is_file disk_files) args gs) /\
  (forall b, bit_set (img h (sb_bmapstart super)) b = bool_decide (Z.of_nat b < freeblock h)).

Lemma runs_finish disk_files args h (Q : unit -> host -> Prop) :
  (length args <= 198)%nat -> listed disk_files args h -> (forall h', built disk_files args h' -> Q tt h') ->
  runs h (finish 1) Q.
Proof.
  intros Hlen (a & L & gs & Hi & Hgs) HQ. pose proof (length_root_data args) as Hlr.
  assert (Hsz : u32_range (root_size args)) by (unfold root_size, u32_range, BSIZE; divisions).
  set (G := _ :: gs) in Hi. pose proof (i_formatted h G Hi) as Hf.
  destruct (i_inode h G Hi 0 _ eq_refl) as (E & Ht & Hz). destruct (i_file h G Hi 0 _ eq_refl) as (Hr & Hs & Hown). cbn [f_type f_size f_addrs f_blocks f_data] in *.
  unfold finish. apply runs_bind, runs_rinode; [done|lia|]. change (inode_at (img h) 1) with (inode_at (img h) (Z.of_nat 0 + 1)). rewrite E.
  set (din := dinode _ _ _). change (isize din) with (Z.of_nat (length (root_data args))).
  rewrite (xint_u32 (Z.of_nat _)), u32_id by done. fold (root_size args). rewrite xint_u32, u32_id by done.
  assert (Hh : holds h a L (root_data args)) by (split; done).
  apply runs_bind, runs_winode; [done|lia| |].
  { apply (dinode_fits T_DIR (root_size args) a); [done|done|apply Hr|by eapply addrs_fit]. }
  intros h1 Hf1 Hfb1 Hfi1 Hout1 Hin1 Hoth1.
  assert (Hi1 : image h1 (mkFil T_DIR (root_size args) a L (root_data args) :: gs)).
  { apply (image_insert h h G 0 (mkFil T_DIR (Z.of_nat (length (root_data args))) a L (root_data args))
      (mkFil T_DIR (root_size args) a L (root_data args))); try done; cbn; [apply grown_refl|lia]. }
  apply runs_bind, runs_gets. pose proof (f_free h1 Hf1) as Hfr. unfold balloc. rewrite i32_id by (unfold i32_range; blocks).
  change (BSIZE * 8) with 4096. destruct (Z.ltb_spec (freeblock h1) 4096) as [_|]; [|blocks]. cbn [negb].
  apply runs_bind, runs_gets. rewrite (f_sb h1 Hf1), super_words. cbn [sb_bmapstart].
  destruct (bitmap_spec (Z.to_nat (freeblock h1)) 0 ltac:(blocks)) as [Hbl _].
  apply runs_wsect; [rewrite (f_sects h1 Hf1); blocks..|]. apply HQ. split.
  - exists a, L, gs. split; [|done]. by apply image_bitmap.
  - intros b. rewrite super_words. cbn [sb_bmapstart]. change (img (put 58 ?d h1)) with (write (img h1) 58 d).
    rewrite write_eq. destruct (bitmap_spec (Z.to_nat (freeblock h1)) b ltac:(blocks)) as [_ ->].
    apply bool_decide_ext. change (freeblock (put 58 _ h1)) with (freeblock h1). lia.
Qed.

Lemma runs_main disk_files prog image_name args :
  (length args <= 198)%nat -> Forall (file_ok disk_files) args ->
  nmeta + needed (length (root_data args)) + files_need disk_files args <= FSSIZE ->
  runs start_state (main (prog :: image_name :: args) true disk_files) (fun _ => built disk_files args).
Proof.
  intros Hlen Hok Hroom. unfold main. rewrite bool_decide_eq_false_2 by (cbn; lia). cbn [negb]. change (drop 2 (prog :: image_name :: args)) with args. apply runs_bind, runs_format with (disk_files := disk_files).
  intros h1 H1. apply runs_bind. apply (runs_for_each (listed disk_files)); [done| |].
  - intros done arg rest h El Hd. rewrite El in Hlen, Hok, Hroom. apply Forall_app in Hok as [_ [Harg _]%Forall_cons].
    rewrite length_app in Hlen. cbn in Hlen. apply (runs_add_file disk_files h done arg); try done; [lia|].
    replace (done ++ arg :: rest) with ((done ++ [arg]) ++ rest) in Hroom by by rewrite <- app_assoc.
    rewrite (files_need_app disk_files (done ++ [arg])) in Hroom. pose proof (files_need_nonneg disk_files rest).
    pose proof (needed_mono (length (root_data (done ++ [arg]))) (length (root_data ((done ++ [arg]) ++ rest)))) as Hm.
    rewrite !length_root_data, (length_app (done ++ [arg])) in *. lia.
  - intros h2 H2. by apply runs_finish with (disk_files := disk_files) (args := args).
Qed.

(** C7: mkfs builds the file system it was asked for.  For every command
    line whose files exist, have no slash in their names and fit the image,
    the program ends without a failed assertion or a short read, and then the
    super block describes the layout, the root directory has the entries "."
    and ".." and one per file, every file's inode has its size and leads
    through the direct and indirect addresses to exactly its bytes, no block
    belongs to two files, and the bitmap marks exactly the blocks in use. *)
Theorem mkfs_builds disk_files prog image_name args :
  (length args <= 198)%nat -> Forall (file_ok disk_files) args ->
  nmeta + needed (length (root_data args)) + files_need disk_files args <= FSSIZE ->
  exists h, main (prog :: image_name :: args) true disk_files start_state [] = Ok tt h [] /\ built disk_files args h.
Proof.
  intros Hlen Hok Hroom. destruct (runs_main disk_files prog image_name args Hlen Hok Hroom []) as ([] & h & E & Hb). eauto.
Qed.
