(* ===== verification/Readback.v ===== *)
(** Reading files: [readi] returns the bytes a drive holds for an inode, and
    the kernel finds on a drive built by mkfs.c what was put there. *)

From Stdlib Require Import ZifyNat.
From S2P Require Import Prelude Control Memory KState Boot Spinlock Format Sched Kalloc Vm Sleeplock.
From S2P Require Import Disk Bio Log Inode Console Fs Pipe File Proc Trap Handoff Layout Cache Crash Mkfs Image Built.

(** * What the buffer cache leaves alone *)

Definition same_inodes (s s' : kstate) : Prop :=
  icache (fs s') = icache (fs s) /\ sb (fs s') = sb (fs s) /\
  forall j, sleeplocks (fs s') !! INODELK j = sleeplocks (fs s) !! INODELK j.
#[export] Instance same_inodes_refl : Reflexive same_inodes.
Proof. by intros s. Qed.
#[export] Instance same_inodes_trans : Transitive same_inodes.
Proof. intros a b c (H1 & H2 & H3) (H4 & H5 & H6). split_and!; [congruence..|]. intros j. by rewrite H6, H3. Qed.

Section Leaves.
Context (s0 : kstate).
#[local] Abbreviation I := (same_inodes s0).
#[export] Instance same_inodes_lock : LockInv I.
Proof. by intros s c l Hs _ _. Qed.
Hint Extern 1 (LockInv _) => typeclasses eauto : kernel.
(** A state change outside the inode layer. *)
Hint Extern 3 (preserves _ (modify _)) => apply preserves_modify; intros ? ?; assumption : kernel.

Lemma keeps_upd_sleeplock b f : preserves I (upd_sleeplock (BUFLK b) f).
Proof.
  apply preserves_modify. intros s (H1 & H2 & H3). split_and!; [done..|]. intros j. rewrite <- H3. cbn.
  by rewrite lookup_insert_ne.
Qed.
Hint Resolve keeps_upd_sleeplock : kernel.
Ltac leaves := intros; unfold upd_proc, upd_cpu, upd_buf, upd_fs, upd_data; preserves_tac.

Lemma keeps_sleep ch lk : preserves I (sleep ch lk).
Proof. unfold sleep, sched, set_state, wakeup1, myproc, get_proc, holding, readeflags_if. leaves. Qed.
Hint Resolve keeps_sleep : kernel.
Lemma keeps_wakeup ch : preserves I (wakeup ch).
Proof. unfold wakeup, wakeup1. leaves. Qed.
Hint Resolve keeps_wakeup : kernel.
Lemma keeps_acquiresleep b : preserves I (acquiresleep (BUFLK b)).
Proof. unfold acquiresleep, myproc, get_proc. leaves. Qed.
Lemma keeps_releasesleep b : preserves I (releasesleep (BUFLK b)).
Proof. unfold releasesleep. leaves. Qed.
Lemma keeps_holdingsleep b : preserves I (holdingsleep (BUFLK b)).
Proof. unfold holdingsleep. leaves. Qed.
Hint Resolve keeps_acquiresleep keeps_releasesleep keeps_holdingsleep : kernel.

Context (fault : bool).
#[local] Existing Instance the_driver.
Lemma keeps_iderw b : preserves I (@iderw (the_driver fault) b).
Proof. cbn. unfold Faulty.iderw, MemIde.iderw. leaves. Qed.
Hint Resolve keeps_iderw : kernel.
Lemma keeps_bread dev n : preserves I (@bread (the_driver fault) dev n).
Proof. unfold bread, bget. leaves. Qed.
Lemma keeps_brelse b : preserves I (brelse b).
Proof. unfold brelse. leaves. Qed.
End Leaves.

(** * Reading blocks of a file *)

Section Reading.
Context (fault : bool) (C : content -> Prop) (N : Z) (D : content) (HC : C D).
#[local] Instance drive : DiskDriver := the_driver fault.

Lemma survives_keeps {A} s (m : K A) (Q : A -> kstate -> Prop) :
  (forall s0, preserves (same_inodes s0) m) ->
  survives fault C s m (fun a s' => same_inodes s s' -> Q a s') -> survives fault C s m Q.
Proof.
  intros Hk Hm k. specialize (Hm k). specialize (Hk s s (replicate k id)).
  assert (Hw : env_ok (same_inodes s) (replicate k id)) by (apply Forall_replicate; auto).
  specialize (Hk ltac:(done) Hw). destruct (m s _) as [a s' w|? ?|s'|s']; try done.
  destruct Hk as [Hi _], Hm as (Hs & HQ & Hk'). auto.
Qed.

Definition resting (s : kstate) : Prop := exists l, at_rest N ∅ D ∅ l s.

(** Block [n] is read, looked at and given back. *)
Lemma survives_block {A} s n (k : nat -> K A) (Q : A -> kstate -> Prop) :
  resting s -> 0 <= n < N ->
  (forall b l s', at_rest N {[b := loaded D ∅ n]} D ∅ l s' -> same_inodes s s' -> same_rest s s' ->
     survives fault C s' (k b) Q) ->
  survives fault C s (bp ← bread 1 n; k bp) Q.
Proof.
  intros [l Hs] Hn Hk. apply survives_bind. apply survives_keeps; [intros; apply keeps_bread|].
  eapply survives_bread; [exact Hs|done|lia|left; rewrite !map_size_empty; unfold NBUF; lia|done|].
  intros b s' _ Hs' Hi Hr. rewrite insert_empty in Hs'. by eapply Hk.
Qed.

Lemma survives_give {A} s b n l (k : K A) (Q : A -> kstate -> Prop) :
  at_rest N {[b := loaded D ∅ n]} D ∅ l s ->
  (forall s', resting s' -> same_inodes s s' -> same_rest s s' -> survives fault C s' k Q) ->
  survives fault C s (brelse b ;; k) Q.
Proof.
  intros Hs Hk. apply survives_bind. apply survives_keeps; [intros; apply keeps_brelse|].
  eapply survives_brelse; [exact Hs|by simplify_map_eq|done|].
  intros s' Hs' Hi Hr. rewrite delete_singleton_eq in Hs'. apply Hk; [by exists l|done..].
Qed.

Lemma held_data s b n l : at_rest N {[b := loaded D ∅ n]} D ∅ l s -> bdata (get_buf b s) = D n.
Proof.
  intros (_ & HH & _). change (get_buf b s) with (buffer b (fs s)).
  destruct (c_held _ _ _ _ _ HH b (loaded D ∅ n) ltac:(by simplify_map_eq)) as (_ & -> & _). done.
Qed.

Lemma survives_buf_data {A} s b n l (k : list Z -> K A) (Q : A -> kstate -> Prop) :
  at_rest N {[b := loaded D ∅ n]} D ∅ l s -> survives fault C s (k (D n)) Q ->
  survives fault C s (d ← buf_data b; k d) Q.
Proof. intros Hs Hk. apply survives_gets. by rewrite (held_data _ _ _ _ Hs). Qed.

(** The drive holds [data] as the contents of inode [ip]: every byte is in
    the block the addresses lead to. *)
Record stored (ip : inode) (data : list Z) : Prop := {
  st_dev : idev ip = 1;
  st_size : Z.of_nat (length data) <= isize ip < 2 ^ 31;
  st_max : (length data <= 140 * 512)%nat;
  st_blocks b : length (D b) = 512%nat;
  st_entry j : (j < length data)%nat -> 0 < entry D (iaddrs ip) (j / 512) < N;
  st_indirect j : (j < length data)%nat -> (NDIRECT <= j / 512)%nat -> 0 < addr (iaddrs ip) NDIRECT < N;
  st_byte j : (j < length data)%nat -> getb data j = getb (D (entry D (iaddrs ip) (j / 512))) (j mod 512)
}.

Lemma inode_same s s' i : same_inodes s s' -> get_inode i s' = get_inode i s.
Proof. intros (E & _). unfold get_inode. by rewrite E. Qed.

Lemma survives_bmap s i data j (Q : Z -> kstate -> Prop) :
  resting s -> stored (get_inode i s) data -> (j < length data)%nat ->
  (forall s', resting s' -> same_inodes s s' -> Q (entry D (iaddrs (get_inode i s)) (j / 512)) s') ->
  survives fault C s (bmap i (Z.of_nat (j / 512))) Q.
Proof.
  intros Hs Hst Hj HQ. unfold bmap. apply survives_gets. set (ip := get_inode i s) in *.
  pose proof (st_entry _ _ Hst j Hj) as He. pose proof (st_indirect _ _ Hst j Hj) as Hi. pose proof (st_max _ _ Hst) as Hm.
  assert (Hk : (j / 512 < 140)%nat) by divisions.
  set (k := (j / 512)%nat) in *. change (Z.of_nat NDIRECT) with 12. change (Z.of_nat NINDIRECT) with 128.
  destruct (Z.ltb_spec (Z.of_nat k) 12) as [Hd|Hd].
  - rewrite Nat2Z.id. pose proof (entry_direct D (iaddrs ip) k ltac:(unfold NDIRECT; lia)) as Ee. rewrite Ee in He, HQ. change (addr_at ip k) with (addr (iaddrs ip) k).
    destruct (Z.eqb_spec (addr (iaddrs ip) k) 0); [lia|]. apply survives_ret. by apply HQ.
  - specialize (Hi ltac:(unfold NDIRECT; lia)). destruct (Z.ltb_spec (Z.of_nat k - 12) 128) as [_|]; [|lia].
    change (addr_at ip NDIRECT) with (addr (iaddrs ip) NDIRECT).
    destruct (Z.eqb_spec (addr (iaddrs ip) NDIRECT) 0); [lia|]. apply survives_bind, survives_ret. intros _.
    rewrite (st_dev _ _ Hst). replace (Z.to_nat (Z.of_nat k - 12)) with (k - NDIRECT)%nat by (unfold NDIRECT; lia).
    apply survives_block; [done|lia|]. intros b l s1 Hs1 H1 _. eapply survives_buf_data; [exact Hs1|].
    pose proof (entry_indirect D (iaddrs ip) k ltac:(unfold NDIRECT; lia) ltac:(lia)) as Ee. rewrite Ee in He, HQ.
    destruct (Z.eqb_spec (get32 (D (addr (iaddrs ip) NDIRECT)) (4 * (k - NDIRECT))) 0); [lia|].
    apply survives_bind, survives_ret. intros _. eapply survives_give; [exact Hs1|]. intros s2 Hs2 H2 _.
    apply survives_ret, HQ; [done|by etransitivity].
Qed.

(** Part of a block is that part of the file. *)
Lemma stored_slice ip data off m :
  stored ip data -> (off + m <= length data)%nat -> (off mod 512 + m <= 512)%nat ->
  take m (drop (off mod 512) (D (entry D (iaddrs ip) (off / 512)))) = take m (drop off data).
Proof.
  intros Hst Hlen Hm. apply list_eq. intros k. destruct (decide (k < m)%nat) as [Hk|Hk].
  2:{ rewrite !lookup_ge_None_2; [done|rewrite length_take; lia..]. }
  rewrite !lookup_take_lt, !lookup_drop by done.
  destruct (lookup_lt_is_Some_2 data (off + k) ltac:(lia)) as [x Hx].
  destruct (lookup_lt_is_Some_2 (D (entry D (iaddrs ip) (off / 512))) (off mod 512 + k)) as [y Hy];
    [rewrite (st_blocks _ _ Hst); lia|].
  rewrite Hx, Hy. f_equal. pose proof (st_byte _ _ Hst (off + k) ltac:(lia)) as E. unfold getb in E. rewrite Hx in E.
  replace ((off + k) / 512)%nat with (off / 512)%nat in E by divisions.
  replace ((off + k) mod 512)%nat with (off mod 512 + k)%nat in E by divisions.
  rewrite Hy in E. by symmetry.
Qed.

Lemma survives_readi_loop fuel : forall s i data off n tot got (Q : list Z -> kstate -> Prop),
  resting s -> stored (get_inode i s) data -> (off + n <= length data)%nat -> (n = 0 \/ off mod 512 + n <= 512 * fuel)%nat -> 0 <= tot ->
  (forall s', resting s' -> same_inodes s s' -> Q (got ++ take n (drop off data)) s') ->
  survives fault C s (readi_loop fuel i ToLocal (Z.of_nat off) (tot + Z.of_nat n) tot got) Q.
Proof.
  induction fuel as [|f IH]; intros s i data off n tot got Q Hs Hst Hlen Hfuel Htot HQ.
  - cbn [readi_loop]. assert (n = 0%nat) as -> by lia. apply survives_ret. rewrite app_nil_r in HQ. by apply HQ.
  - cbn [readi_loop]. destruct (Z.ltb_spec tot (tot + Z.of_nat n)) as [Hlt|Hge].
    2:{ assert (n = 0%nat) as -> by lia. apply survives_ret. rewrite app_nil_r in HQ. by apply HQ. }
    change BSIZE with 512. replace (Z.of_nat off / 512) with (Z.of_nat (off / 512)) by divisions.
    apply survives_bind. eapply survives_bmap; [done|exact Hst|lia|]. intros s1 Hs1 H1 _. apply survives_gets.
    rewrite (inode_same _ _ i H1). rewrite (st_dev _ _ Hst). pose proof (st_entry _ _ Hst off ltac:(lia)) as He.
    apply survives_block; [done|lia|]. intros b l s2 Hs2 H2 _. eapply survives_buf_data; [exact Hs2|]. cbn [deliver].
    set (m := Nat.min n (512 - off mod 512)).
    replace (Z.min (tot + Z.of_nat n - tot) (512 - Z.of_nat off mod 512)) with (Z.of_nat m) by (unfold m; divisions).
    replace (Z.to_nat (Z.of_nat off mod 512)) with (off mod 512)%nat by divisions.
    rewrite Nat2Z.id. rewrite (stored_slice _ data) by (done || unfold m; divisions).
    apply survives_bind, survives_ret. intros _. eapply survives_give; [exact Hs2|]. intros s3 Hs3 H3 _.
    assert (H13 : same_inodes s s3) by (etransitivity; [done|]; by etransitivity).
    replace (Z.of_nat off + Z.of_nat m) with (Z.of_nat (off + m)) by lia.
    replace (tot + Z.of_nat n) with (tot + Z.of_nat m + Z.of_nat (n - m)) by (unfold m; lia).
    apply (IH s3 i data (off + m)%nat (n - m)%nat).
    + done.
    + by rewrite (inode_same _ _ i H13).
    + unfold m. lia.
    + unfold m. divisions.
    + lia.
    + intros s4 Hs4 H4. rewrite <- app_assoc, <- drop_drop.
      assert (E : take m (drop off data) ++ take (n - m) (drop m (drop off data)) = take n (drop off data)).
      { replace n with (m + (n - m))%nat at 2 by (unfold m; lia). by rewrite take_take_drop. }
      rewrite E. apply HQ; [done|]. by etransitivity.
Qed.

(** [readi] of a file or directory: the bytes from [off] on, at most [n], cut
    at the end of the file; -1 past the end.  The file may be longer than the
    part [data] of it, if the bytes asked for are in that part. *)
Lemma survives_readi s i data off n (Q : Z * list Z -> kstate -> Prop) :
  resting s -> stored (get_inode i s) data -> itype (get_inode i s) <> T_DEV -> 0 <= off -> 0 <= n -> off + n < 2 ^ 31 ->
  (isize (get_inode i s) = Z.of_nat (length data) \/ off + n <= Z.of_nat (length data)) ->
  (forall s', resting s' -> same_inodes s s' ->
     let l := take (Z.to_nat n) (drop (Z.to_nat off) data) in
     Q (if Z.of_nat (length data) <? off then (-1, []) else (Z.of_nat (length l), l)) s') ->
  survives fault C s (readi i ToLocal off n) Q.
Proof.
  intros Hs Hst Ht Hoff Hn Hb Hin HQ. unfold readi. apply survives_gets. pose proof (st_size _ _ Hst) as Hsz.
  pose proof (st_max _ _ Hst) as Hm. destruct (Z.eqb_spec (itype (get_inode i s)) T_DEV); [done|].
  rewrite u32_id by (unfold u32_range; lia). destruct (Z.ltb_spec (off + n) off); [lia|].
  replace (isize (get_inode i s) <? off) with (Z.of_nat (length data) <? off)
    by (destruct (Z.ltb_spec (isize (get_inode i s)) off), (Z.ltb_spec (Z.of_nat (length data)) off); done || lia).
  destruct (Z.ltb_spec (Z.of_nat (length data)) off) as [Hlt|Hge]; cbn [orb]; [by apply survives_ret, HQ|].
  set (m := if _ <? _ then _ else _). cbv zeta in HQ. set (l := take (Z.to_nat n) (drop (Z.to_nat off) data)) in *.
  assert (Hml : m = Z.of_nat (length l)).
  { unfold m, l. rewrite length_take, length_drop. destruct (Z.ltb_spec (isize (get_inode i s)) (off + n)); lia. }
  assert (El : take (length l) (drop (Z.to_nat off) data) = l).
  { unfold l at 1. rewrite length_take, length_drop. unfold l. apply list_eq. intros k.
    destruct (decide (k < Z.to_nat n)%nat); [|by rewrite !lookup_take_ge by lia].
    destruct (decide (k < length data - Z.to_nat off)%nat); [by rewrite !lookup_take_lt by lia|].
    rewrite lookup_take_ge, lookup_take_lt, lookup_drop by lia. by rewrite lookup_ge_None_2 by lia. }
  assert (Hll : (Z.to_nat off + length l <= length data)%nat) by (unfold l; rewrite length_take, length_drop; lia).
  rewrite Hml. apply survives_bind.
  rewrite <- (Z2Nat.id off) by done. rewrite <- (Z.add_0_l (Z.of_nat (length l))) at 2.
  eapply survives_readi_loop; [done|exact Hst|exact Hll| |lia|].
  { right. unfold rounds, BSIZE. divisions. }
  intros s' Hs' Hi _. rewrite El. rewrite i32_id by (unfold i32_range; lia). apply survives_ret. cbn [app]. by apply HQ.
Qed.
End Reading.
