(* ===== verification/Namei.v ===== *)
(** Finding files: the in-memory inodes, directories and path names, on a
    drive that is only read. *)

From Stdlib Require Import ZifyNat.
From S2P Require Import Prelude Control Memory KState Boot Spinlock Format Sched Kalloc Vm Sleeplock.
From S2P Require Import Disk Bio Log Inode Console Fs Pipe File Proc Trap Handoff Layout Cache Crash Mkfs Image Built Readback.

(** * Names *)

Definition name_char (c : Z) : Prop := 0 < c < 256 /\ c <> slash.

(** Comparing the first [n] bytes of two names that end early with a NUL. *)
Lemma strncmp_names n : forall e m r1 r2,
  Forall name_char e -> Forall name_char m ->
  ((length e < n)%nat -> hd0 r1 = 0) -> ((length m < n)%nat -> hd0 r2 = 0) ->
  (strncmp (take n e ++ r1) (take n m ++ r2) n = 0 <-> take n e = take n m).
Proof.
  assert (Hu : forall c, name_char c -> u8 c = c /\ c <> 0) by (intros c [? _]; unfold u8; rewrite Z.mod_small; lia).
  induction n as [|n IH]; intros e m r1 r2 He Hm H1 H2; [by rewrite !take_0|].
  destruct e as [|c e], m as [|d m]; cbn [take app strncmp tail];
    repeat match goal with H : Forall name_char (_ :: _) |- _ => apply Forall_cons in H as [? ?] end.
  - rewrite H1, H2 by (cbn; lia). by rewrite Z.eqb_refl.
  - rewrite H1 by (cbn; lia). rewrite Z.eqb_refl. cbn [negb andb]. destruct (Hu d) as [E ?]; [done|].
    change (hd0 (d :: ?l)) with d. rewrite E. change (u8 0) with 0. split; [lia|done].
  - rewrite H2 by (cbn; lia). destruct (Hu c) as [E ?]; [done|]. change (hd0 (c :: ?l)) with c.
    destruct (Z.eqb_spec c 0); [done|]. cbn [negb andb]. rewrite E. change (u8 0) with 0. split; [lia|done].
  - change (hd0 (c :: ?l)) with c. change (hd0 (d :: ?l)) with d. destruct (Hu c) as [Ec ?], (Hu d) as [Ed ?]; try done.
    destruct (Z.eqb_spec c 0); [done|]. cbn [negb andb]. destruct (Z.eqb_spec c d) as [->|Hne].
    + rewrite IH; [|done..|cbn in *; auto with lia|cbn in *; auto with lia]. split; [by intros ->|by intros [= ->]].
    + rewrite Ec, Ed. split; [lia|]. by intros [= ->].
Qed.

Lemma strncpy_pad m n : Forall name_char m -> strncpy m n = take n m ++ replicate (n - length m) 0.
Proof.
  revert m. induction n as [|n IH]; intros m Hm; [by destruct m|]. cbn [strncpy]. destruct m as [|c m].
  - done.
  - apply Forall_cons in Hm as [[Hc _] Hm]. change (hd0 (c :: m)) with c. destruct (Z.eqb_spec c 0); [lia|].
    cbn [take app length Nat.sub tail]. by rewrite IH.
Qed.

(** [namecmp] of a path element and a directory entry. *)
Lemma namecmp_entry e m : Forall name_char e -> Forall name_char m ->
  namecmp (elem_name e) (strncpy m DIRSIZ) = 0 <-> take DIRSIZ e = take DIRSIZ m.
Proof.
  intros He Hm. unfold namecmp. rewrite strncpy_pad by done.
  assert (E : elem_name e = take DIRSIZ e ++ (if decide (DIRSIZ <= length e)%nat then [] else [0])).
  { unfold elem_name. case_bool_decide; [by rewrite decide_True, app_nil_r|]. rewrite decide_False, take_ge by lia. done. }
  rewrite E. apply strncmp_names; [done|done| |].
  - intros Hl. by rewrite decide_False by lia.
  - intros Hl. destruct (DIRSIZ - length m)%nat eqn:Ek; [lia|done].
Qed.

Lemma skipelem_root name : Forall name_char name -> name <> [] -> skipelem (slash :: name) = Some (elem_name name, []).
Proof.
  intros Hn Hne. destruct name as [|c name]; [done|]. assert (Hp : Forall plain (c :: name)).
  { eapply Forall_impl; [exact Hn|]. intros d [? ?]. split; [done|lia]. }
  pose proof (Forall_cons_1 _ _ _ Hp) as [[Hs H0] _]. unfold skipelem. cbn [skip_slashes]. rewrite Z.eqb_refl.
  change (skip_slashes (c :: name)) with (if c =? slash then skip_slashes name else c :: name).
  destruct (Z.eqb_spec c slash); [done|]. cbv zeta. change (hd0 (c :: name)) with c. destruct (Z.eqb_spec c 0); [done|].
  pose proof (take_elem_spec (c :: name) [] Hp (or_introl eq_refl)) as E. rewrite app_nil_r in E. by rewrite E.
Qed.

(** * Counting free slots *)

Definition spare (ic : list inode) : nat := length (filter (fun ip => iref ip = 0) ic).

Lemma spare_cons ip l : spare (ip :: l) = ((if decide (iref ip = 0%Z) then 1 else 0) + spare l)%nat.
Proof. unfold spare. rewrite filter_cons. by destruct (decide _). Qed.
Lemma spare_insert l i v : (spare l <= S (spare (<[i := v]> l)))%nat.
Proof.
  revert i. induction l as [|ip l IH]; intros [|i]; [cbn; lia..| |].
  - change (<[0%nat := v]> (ip :: l)) with (v :: l). rewrite !spare_cons. repeat case_decide; lia.
  - change (<[S i := v]> (ip :: l)) with (ip :: <[i := v]> l). rewrite !spare_cons. specialize (IH i). lia.
Qed.
Lemma spare_keep l i u v : l !! i = Some u -> (iref u = 0 -> iref v = 0) -> (spare l <= spare (<[i := v]> l))%nat.
Proof.
  intros Hu Huv. revert i Hu. induction l as [|ip l IH]; intros [|i] Hu; [done..| |].
  - injection Hu as ->. change (<[0%nat := v]> (u :: l)) with (v :: l). rewrite !spare_cons. repeat case_decide; lia || tauto.
  - change (<[S i := v]> (ip :: l)) with (ip :: <[i := v]> l). rewrite !spare_cons. specialize (IH i Hu). lia.
Qed.

Section Inodes.
Context (fault : bool) (C : content -> Prop) (N : Z) (D : content) (x : superblock) (HC : C D).
#[local] Instance the_drive : DiskDriver := the_driver fault.
#[local] Abbreviation ok := (survives fault C).

(** * The state of the inode cache *)

(** The on-disk inode [n]. *)
Definition on_disk (n : Z) (ip : inode) : inode := read_dinode (D (IBLOCK n x)) (dinode_off n) ip.

(** A cached inode in use agrees with the drive once it is valid; its count
    can be increased [room] times. *)
Definition cell_ok (room : Z) (ip : inode) : Prop :=
  0 <= iref ip /\ iref ip + room < 2 ^ 31 /\
  (0 < iref ip -> Z.land (iflags ip) I_VALID <> 0 -> idev ip = 1 -> on_disk (inum ip) ip = ip).

(** Nothing is locked but the inodes with a 1 in [lk]; the cached inodes are [ic]. *)
Record inodes (room : Z) (ic : list inode) (lk : nat -> Z) (s : kstate) : Prop := {
  in_rest : resting N D s;
  in_icache : lock_free ICACHE s;
  in_free i : (i < NINODE)%nat -> lock_free (SLEEPLK (INODELK i)) s;
  in_sb : sb (fs s) = x;
  in_cells : icache (fs s) = ic;
  in_length : length ic = NINODE;
  in_ok : Forall (cell_ok room) ic;
  in_locks i : (i < NINODE)%nat -> sleep_word (INODELK i) (fs s) = lk i
}.

Definition set_lk (lk : nat -> Z) (i : nat) (v : Z) : nat -> Z := fun j => if decide (j = i) then v else lk j.

Lemma inodes_calm room ic lk s : inodes room ic lk s -> calm s.
Proof. intros Hi. destruct (in_rest _ _ _ _ Hi) as (l & Hc & _). done. Qed.

(** Steps below the inode layer. *)
Lemma inodes_same room ic lk s s' :
  inodes room ic lk s -> same_rest s s' -> same_inodes s s' -> resting N D s' -> inodes room ic lk s'.
Proof.
  intros [H1 H2 H3 H4 H5 H6 H7 H8] (Hl & _) (E1 & E2 & E3) Hr.
  split; try done; unfold lock_free in *; rewrite ?Hl, ?E1, ?E2; try done. intros i Hi. unfold sleep_word. rewrite E3. by apply H8.
Qed.

Lemma at_rest_fs H l s s' f :
  at_rest N H D ∅ l s -> same_rest s s' -> fs s' = f (fs s) ->
  (forall y, disk (f y) = disk y /\ disksize (f y) = disksize y /\ bufs (f y) = bufs y /\ lru (f y) = lru y /\
     flog (f y) = flog y /\ forall b, lock_word b (f y) = lock_word b y) -> at_rest N H D ∅ l s'.
Proof.
  intros (Hc & HH & Hl) Hs Hfs Hf. destruct (Hf (fs s)) as (E1 & E2 & E3 & E4 & E5 & E6).
  split_and!; [by eapply calm_same| |by rewrite Hfs, E5]. rewrite Hfs.
  assert (Eb : forall b, buffer b (f (fs s)) = buffer b (fs s)) by (intros b; unfold buffer; by rewrite E3).
  destruct HH. split; intros; rewrite ?E1, ?E2, ?E3, ?E4, ?E6 in *; try setoid_rewrite Eb; try rewrite !Eb in *; eauto.
Qed.

(** A change of one cached inode. *)
Lemma inodes_change room room' ic lk s s' i v :
  inodes room ic lk s -> same_rest s s' -> resting N D s' -> icache (fs s') = <[i := v]> ic -> sb (fs s') = sb (fs s) ->
  (forall j, sleeplocks (fs s') !! INODELK j = sleeplocks (fs s) !! INODELK j) -> room' <= room ->
  cell_ok room' v -> inodes room' (<[i := v]> ic) lk s'.
Proof.
  intros [H1 H2 H3 H4 H5 H6 H7 H8] (Hl & _) Hr E1 E2 E3 Hroom Hv.
  split; try done; unfold lock_free in *; rewrite ?Hl, ?E2; try done.
  - by rewrite length_insert.
  - apply Forall_insert; [|done]. eapply Forall_impl; [exact H7|]. intros ip (? & ? & ?). split_and!; try done. lia.
  - intros j Hj. unfold sleep_word. rewrite E3. by apply H8.
Qed.

Lemma inodes_insert room room' ic lk s s' i v :
  inodes room ic lk s -> same_rest s s' -> fs s' = fs s <| icache := <[i := v]> ic |> -> room' <= room ->
  cell_ok room' v -> inodes room' (<[i := v]> ic) lk s'.
Proof.
  intros Hi Hs Hfs Hroom Hv. apply (inodes_change room room' ic lk s s'); try done; try by rewrite Hfs.
  destruct (in_rest _ _ _ _ Hi) as [l Hl]. exists l. by apply (at_rest_fs _ _ s s' (fun y => y <| icache := <[i := v]> ic |>)).
Qed.

(** A change of one lock. *)
Lemma inodes_lock room ic lk s s' i v :
  inodes room ic lk s -> same_rest s s' -> fs s' = set_sleep (INODELK i) v (fs s) ->
  inodes room ic (set_lk lk i (sl_locked v)) s'.
Proof.
  intros Hi Hs Hfs. assert (Hr : resting N D s').
  { destruct (in_rest _ _ _ _ Hi) as [l Hl]. exists l.
    apply (at_rest_fs _ _ s s' (set_sleep (INODELK i) v)); try done. intros y. split_and!; try done.
    intros b. unfold lock_word, sleep_word, set_sleep. cbn. by rewrite lookup_insert_ne. }
  destruct Hi as [H1 H2 H3 H4 H5 H6 H7 H8]. destruct Hs as (Hl & _).
  split; try done; unfold lock_free in *; rewrite ?Hl, ?Hfs; try done.
  intros j Hj. unfold sleep_word, set_sleep, set_lk. cbn. destruct (decide (j = i)) as [->|Hne].
  - by rewrite lookup_insert_eq.
  - rewrite lookup_insert_ne by congruence. by apply H8.
Qed.

Lemma get_inode_in room ic lk s i ip : inodes room ic lk s -> ic !! i = Some ip -> get_inode i s = ip.
Proof. intros Hi Hip. unfold get_inode. by rewrite (in_cells _ _ _ _ Hi), Hip. Qed.

(** * [iget] *)

Lemma iget_scan_spec dev n l i e :
  match iget_scan dev n l i e with
  | (Some j, _) => exists ip, (i <= j)%nat /\ l !! (j - i)%nat = Some ip /\ 0 < iref ip /\ idev ip = dev /\ inum ip = n
  | (None, r) => (forall j, r = Some j -> e = Some j \/ exists ip, (i <= j)%nat /\ l !! (j - i)%nat = Some ip /\ iref ip = 0) /\
      (r = None -> e = None /\ Forall (fun ip => iref ip <> 0) l)
  end.
Proof.
  revert i e. induction l as [|ip l IH]; intros i e; cbn [iget_scan].
  - split; [by left|done].
  - destruct ((0 <? iref ip) && (idev ip =? dev) && (inum ip =? n)) eqn:Ec.
    + apply andb_true_iff in Ec as [[Er Ed]%andb_true_iff En]. apply Z.ltb_lt in Er. apply Z.eqb_eq in Ed, En.
      exists ip. rewrite Nat.sub_diag. split_and!; try done.
    + specialize (IH (S i) (if bool_decide (e = None) && (iref ip =? 0) then Some i else e)).
      destruct (iget_scan _ _ _ _ _) as [[j|] r].
      * destruct IH as (ip' & Hij & Hl & H). exists ip'. split; [lia|]. split; [|done].
        replace (j - i)%nat with (S (j - S i)) by lia. done.
      * destruct IH as [IH1 IH2]. split.
        -- intros j Hj. destruct (IH1 j Hj) as [He|(ip' & Hij & Hl & H0)].
           ++ destruct (bool_decide (e = None) && (iref ip =? 0)) eqn:Eb; [|by left].
              injection He as ->. apply andb_true_iff in Eb as [_ E0%Z.eqb_eq]. right. exists ip. rewrite Nat.sub_diag. by split_and!.
           ++ right. exists ip'. split_and!; [lia| |done]. by replace (j - i)%nat with (S (j - S i)) by lia.
        -- intros Hr. destruct (IH2 Hr) as [He Hall]. destruct (bool_decide (e = None) && (iref ip =? 0)) eqn:Eb; [done|].
           split; [done|]. constructor; [|done]. subst e. rewrite bool_decide_eq_true_2 in Eb by done. by apply Z.eqb_neq in Eb.
Qed.

(** One locked change of the cache. *)
Lemma survives_upd_icache {A} room room' ic lk s i f (k : K A) (Q : A -> kstate -> Prop) ip :
  inodes room ic lk s -> ic !! i = Some ip -> room' <= room -> cell_ok room' (f ip) ->
  (forall s', inodes room' (<[i := f ip]> ic) lk s' -> ok s' k Q) ->
  ok s (acquire ICACHE ;; upd_inode i f ;; release ICACHE ;; k) Q.
Proof.
  intros Hi Hip Hroom Hv HQ. assert (Ea : alter f i ic = <[i := f ip]> ic) by by apply list_alter_insert.
  assert (Hu : returns s (acquire ICACHE ;; upd_inode i f ;; release ICACHE ;; mret tt)
    (fun _ s' => inodes room' (<[i := f ip]> ic) lk s')).
  { apply (returns_section ICACHE s (upd_inode i f) (fun _ => mret tt)
      (fun s => s <| fs ::= fun y => y <| icache ::= alter f i |> |>) tt).
    - by intros ???.
    - apply Hi.
    - by apply calm_cpu, (inodes_calm room ic lk).
    - done.
    - intros Hs. apply returns_ret. eapply inodes_insert; [exact Hi|done| |done|done]. cbn. rewrite <- Ea, <- (in_cells _ _ _ _ Hi).
      by destruct (fs s). }
  intros w. specialize (survives_returns fault C s _ _ Hu w). unfold mbind, M_bind.
  destruct (acquire ICACHE s _) as [[] s1 w1|? ?|s1|s1]; try done.
  destruct (upd_inode i f s1 _) as [[] s2 w2|? ?|s2|s2]; try done.
  destruct (release ICACHE s2 _) as [[] s3 w3|? ?|s3|s3]; try done. cbn.
  intros (Hs & Hi' & k' & ->). specialize (HQ s3 Hi' k'). destruct (k s3 _) as [a s4 w4|? ?|s4|s4]; try done.
  destruct HQ as (Hs' & HQ & ?). split_and!; [by etransitivity|done|done].
Qed.

Definition fresh (n : Z) (ip : inode) : inode := ip <| idev := 1 |> <| inum := n |> <| iref := 1 |> <| iflags := 0 |>.

Lemma survives_iget room ic lk s n (Q : nat -> kstate -> Prop) :
  inodes room ic lk s -> (0 < spare ic)%nat -> 0 < room ->
  (forall i v s', (i < NINODE)%nat -> inodes (room - 1) (<[i := v]> ic) lk s' -> idev v = 1 -> inum v = n -> 0 < iref v ->
     (forall ip, ic !! i = Some ip -> iref ip = 0 \/ inum ip = n) -> Q i s') ->
  ok s (iget 1 n) Q.
Proof.
  intros Hi Hsp Hroom HQ. pose proof (in_ok _ _ _ _ Hi) as Hok. pose proof (in_length _ _ _ _ Hi) as Hlen.
  assert (Hrun : forall i f, (ok s (acquire ICACHE ;; upd_inode i f ;; release ICACHE ;; mret i) Q) ->
    (forall w, (iget 1 n) s w = (acquire ICACHE ;; upd_inode i f ;; release ICACHE ;; mret i) s w) -> ok s (iget 1 n) Q).
  { intros i f Hr E k. specialize (Hr k). by rewrite E. }
  pose proof (iget_scan_spec 1 n ic 0 None) as Hscan.
  destruct (iget_scan 1 n ic 0 None) as [[i|] r] eqn:Es.
  - destruct Hscan as (ip & _ & Hip & Hr & Hd & Hn). rewrite Nat.sub_0_r in Hip.
    assert (Hi' : (i < NINODE)%nat) by (rewrite <- Hlen; by apply lookup_lt_Some in Hip).
    destruct (Forall_lookup_1 _ _ _ _ Hok Hip) as (H1 & H2 & H3).
    apply (Hrun i (fun ip => ip <| iref ::= fun r => i32 (r + 1) |>)).
    + eapply (survives_upd_icache room (room - 1)); [exact Hi|exact Hip|lia| |].
      { cbn. rewrite i32_id by (unfold i32_range; lia). split_and!; cbn; [lia|lia|]. intros _ Hf Hdv.
        assert (E := H3 Hr Hf Hdv). unfold on_disk in *. cbn. destruct ip; cbn in *. unfold read_dinode in *. cbn in *. congruence. }
      intros s' Hs'. apply survives_ret. eapply HQ; [done|exact Hs'|done|done|cbn; rewrite i32_id by (unfold i32_range; lia); lia|].
      intros ip' Hip'. simplify_eq. by right.
    + intros w. unfold iget. rewrite !acquire_then by (apply Hi). rewrite bind_gets.
      change (icache (fs (enter ICACHE s))) with (icache (fs s)). by rewrite (in_cells _ _ _ _ Hi), Es.
  - destruct Hscan as [H1 H2]. destruct r as [i|].
    2:{ destruct (H2 eq_refl) as [_ Hall]. exfalso. unfold spare in Hsp.
        destruct (filter (fun ip => iref ip = 0) ic) as [|ip l] eqn:Ef; [cbn in Hsp; lia|].
        assert (Hin : ip ∈ filter (fun ip => iref ip = 0) ic) by (rewrite Ef; set_solver).
        apply list_elem_of_filter in Hin as [H0 Hin]. rewrite Forall_forall in Hall. by apply (Hall ip Hin). }
    destruct (H1 i eq_refl) as [|(ip & _ & Hip & Hr)]; [done|]. rewrite Nat.sub_0_r in Hip.
    assert (Hi' : (i < NINODE)%nat) by (rewrite <- Hlen; by apply lookup_lt_Some in Hip).
    destruct (Forall_lookup_1 _ _ _ _ Hok Hip) as (H3 & H4 & H5).
    apply (Hrun i (fresh n)).
    + eapply (survives_upd_icache room (room - 1)); [exact Hi|exact Hip|lia| |].
      { split_and!; cbn; [lia|lia|done]. }
      intros s' Hs'. apply survives_ret. eapply HQ; [done|exact Hs'|done|done|cbn; lia|].
      intros ip' Hip'. simplify_eq. by left.
    + intros w. unfold iget. rewrite !acquire_then by (apply Hi). rewrite bind_gets.
      change (icache (fs (enter ICACHE s))) with (icache (fs s)). by rewrite (in_cells _ _ _ _ Hi), Es.
Qed.

(** * Locking an inode *)

(** The in-memory copy of inode [n] of the drive. *)
Record copy_of (n : Z) (v : inode) : Prop := {
  cp_dev : idev v = 1;
  cp_num : inum v = n;
  cp_ref : 0 < iref v;
  cp_valid : Z.land (iflags v) I_VALID <> 0;
  cp_disk : on_disk n v = v
}.

Lemma on_disk_again n v : on_disk n (on_disk n v) = on_disk n v.
Proof. unfold on_disk, read_dinode. by destruct v. Qed.

Lemma upd_inode_eq i f s ip w : icache (fs s) !! i = Some ip ->
  upd_inode i f s w = Ok tt (s <| fs ::= fun y => y <| icache := <[i := f ip]> (icache (fs s)) |> |>) w.
Proof.
  intros Hi. unfold upd_inode, upd_fs, modify. pose proof (list_alter_insert f _ _ _ Hi) as E.
  destruct s; cbn in *. by rewrite E.
Qed.

Lemma survives_ilock room ic lk s i ip (Q : unit -> kstate -> Prop) :
  inodes room ic lk s -> ic !! i = Some ip -> idev ip = 1 -> 0 < iref ip -> lk i = 0 ->
  0 <= IBLOCK (inum ip) x < N -> itype (on_disk (inum ip) ip) <> 0 ->
  (forall v s', inodes room (<[i := v]> ic) (set_lk lk i 1) s' -> copy_of (inum ip) v -> iref v = iref ip -> Q tt s') ->
  ok s (ilock (Some i)) Q.
Proof.
  intros Hi Hip Hd Hr Hlk Hb Hty HQ. pose proof (inodes_calm _ _ _ _ Hi) as Hc.
  assert (Hin : (i < NINODE)%nat) by (rewrite <- (in_length _ _ _ _ Hi); by apply lookup_lt_Some in Hip).
  destruct (Forall_lookup_1 _ _ _ _ (in_ok _ _ _ _ Hi) Hip) as (C1 & C2 & C3).
  unfold ilock. apply survives_gets. rewrite (get_inode_in _ _ _ _ i ip Hi Hip).
  destruct (Z.ltb_spec (iref ip) 1); [lia|].
  apply survives_bind, survives_returns, returns_acquire_sleep; [done|by apply Hi|by rewrite (in_locks _ _ _ _ Hi)|].
  intros s1 v1 Hv1 Hfs1 Hs1. pose proof (inodes_lock _ _ _ _ _ _ _ Hi Hs1 Hfs1) as Hi1. rewrite Hv1 in Hi1.
  apply survives_gets. rewrite (get_inode_in _ _ _ _ i ip Hi1 Hip).
  destruct (Z.eqb_spec (Z.land (iflags ip) I_VALID) 0) as [Hf|Hf]; cbn [when].
  2:{ apply survives_ret. apply (HQ ip); [|by split; auto|done]. by rewrite list_insert_id. }
  unfold the_sb. apply survives_gets. rewrite (in_sb _ _ _ _ Hi1), Hd.
  eapply survives_block; [done|apply Hi1|done|]. intros b l s2 Hs2 H2 Hr2.
  pose proof (proj1 H2) as E2. rewrite (in_cells _ _ _ _ Hi1) in E2.
  eapply survives_buf_data; [exact Hs2|].
  assert (Hip2 : icache (fs s2) !! i = Some ip) by by rewrite E2.
  set (v2 := read_dinode (D (IBLOCK (inum ip) x)) (dinode_off (inum ip)) ip).
  apply survives_bind, survives_returns. intros w. rewrite (upd_inode_eq _ _ _ ip) by done. fold v2. eexists tt, _.
  split; [reflexivity|]. split; [done|]. intros Hs3. set (s3 := s2 <| fs ::= _ |>) in *.
  eapply survives_give; [apply (at_rest_fs _ _ s2 s3 (fun y => y <| icache := <[i := v2]> (icache (fs s2)) |>)); [exact Hs2|done..]|].
  intros s4 Hs4 H4 Hr4. destruct (H4) as (E4 & E4' & E4''). change (icache (fs s3)) with (<[i := v2]> (icache (fs s2))) in E4. rewrite E2 in E4.
  assert (Hip4 : icache (fs s4) !! i = Some v2) by (rewrite E4; apply list_lookup_insert_eq; by apply lookup_lt_Some in Hip).
  apply survives_bind, survives_returns. clear w. intros w. rewrite (upd_inode_eq _ _ _ v2) by done. eexists tt, _.
  split; [reflexivity|]. split; [done|]. intros Hs5. set (s5 := s4 <| fs ::= _ |>) in *. set (v := v2 <| iflags ::= _ |>) in *.
  assert (Hcopy : copy_of (inum ip) v).
  { split; try done.
    unfold v, v2; cbn. rewrite Z.land_lor_distr_l. unfold I_VALID. change (Z.land 2 2) with 2.
      intros E. apply Z.lor_eq_0_iff in E. lia. }
  assert (Hi5 : inodes room (<[i := v]> ic) (set_lk lk i 1) s5).
  { apply (inodes_change room room ic (set_lk lk i 1) s1 s5); [done| | | | | |lia|].
    - do 3 (etransitivity; [eassumption|]). done.
    - destruct Hs4 as [l4 Hs4]. exists l4. by apply (at_rest_fs _ _ s4 s5 (fun y => y <| icache := <[i := v]> (icache (fs s4)) |>)).
    - change (icache (fs s5)) with (<[i := v]> (icache (fs s4))). by rewrite E4, list_insert_insert_eq.
    - change (sb (fs s5)) with (sb (fs s4)). rewrite E4'. by apply H2.
    - intros j. change (sleeplocks (fs s5)) with (sleeplocks (fs s4)). rewrite E4''. by apply H2.
    - split_and!; [done|done|]. intros _ _ _. apply Hcopy. }
  apply survives_gets. rewrite (get_inode_in _ _ _ _ i v Hi5) by (apply list_lookup_insert_eq; by rewrite (in_length _ _ _ _ Hi)).
  change (itype v) with (itype (on_disk (inum ip) ip)).
  destruct (Z.eqb_spec (itype (on_disk (inum ip) ip)) 0); [done|]. apply survives_ret. by apply (HQ v).
Qed.

Lemma inodes_lk_ext room ic lk lk' s : inodes room ic lk s -> (forall i, lk i = lk' i) -> inodes room ic lk' s.
Proof. intros [] Hlk. split; auto. intros i Hi. rewrite <- Hlk. auto. Qed.

Lemma survives_iunlock room ic lk s i ip (Q : unit -> kstate -> Prop) :
  inodes room ic lk s -> ic !! i = Some ip -> 0 < iref ip -> lk i = 1 ->
  (forall s', inodes room ic (set_lk lk i 0) s' -> Q tt s') -> ok s (iunlock (Some i)) Q.
Proof.
  intros Hi Hip Hr Hlk HQ. pose proof (inodes_calm _ _ _ _ Hi) as Hc.
  assert (Hin : (i < NINODE)%nat) by (rewrite <- (in_length _ _ _ _ Hi); by apply lookup_lt_Some in Hip).
  unfold iunlock. apply survives_bind, survives_returns, returns_holding_sleep; [done|by apply Hi|].
  intros s1 Hs1 Hfs1 _. rewrite (in_locks _ _ _ _ Hi), Hlk by done.
  assert (Hi1 : inodes room ic lk s1).
  { apply (inodes_same room ic lk s); [done|done| |].
    - unfold same_inodes. by rewrite Hfs1.
    - destruct (in_rest _ _ _ _ Hi) as [l Hl]. exists l. by apply (at_rest_fs _ _ s s1 id). }
  apply survives_gets. rewrite (get_inode_in _ _ _ _ i ip Hi1 Hip). destruct (Z.ltb_spec (iref ip) 1); [lia|]. cbn [orb Z.eqb].
  change (1 =? 0) with false. cbn iota.
  apply survives_same, survives_returns, returns_release_sleep; [by eapply inodes_calm|by apply Hi1|].
  intros s2 Hfs2 Hs2. apply HQ. by apply (inodes_lock _ _ _ s1 s2 i zero_sleeplock).
Qed.

Lemma survives_iput room ic lk s i ip (Q : unit -> kstate -> Prop) :
  inodes room ic lk s -> ic !! i = Some ip -> 0 < iref ip -> inlink ip <> 0 -> 0 <= room ->
  (forall s', inodes room (<[i := ip <| iref := iref ip - 1 |>]> ic) lk s' -> Q tt s') -> ok s (iput i) Q.
Proof.
  intros Hi Hip Hr Hl Hroom HQ. destruct (Forall_lookup_1 _ _ _ _ (in_ok _ _ _ _ Hi) Hip) as (C1 & C2 & C3).
  assert (Er : i32 (iref ip - 1) = iref ip - 1) by (apply i32_id; unfold i32_range; lia).
  assert (Hrun : ok s (acquire ICACHE ;; upd_inode i (fun ip => ip <| iref ::= fun r => i32 (r - 1) |>) ;; release ICACHE ;; mret tt) Q).
  { eapply (survives_upd_icache room room); [exact Hi|exact Hip|lia| |].
    - cbn. rewrite Er. split_and!; cbn; [lia|lia|]. intros _ Hf Hd. specialize (C3 Hr Hf Hd).
      unfold on_disk in *. destruct ip; cbn in *. unfold read_dinode in *. cbn in *. congruence.
    - intros s' Hs'. apply survives_ret, HQ. cbn in Hs'. rewrite Er in Hs'. exact Hs'. }
  intros k. specialize (Hrun k). unfold iput. rewrite acquire_then in * by (apply Hi). rewrite bind_gets.
  change (get_inode i (enter ICACHE s)) with (get_inode i s). rewrite (get_inode_in _ _ _ _ i ip Hi Hip).
  destruct (Z.eqb_spec (inlink ip) 0); [done|]. rewrite andb_false_r. cbn [when].
  rewrite bind_mret. revert Hrun. unfold mbind, M_bind.
  destruct (upd_inode _ _ _ _) as [[] s2 w2|? ?|s2|s2]; try done.
  destruct (release ICACHE s2 w2) as [[] s3 w3|? ?|s3|s3]; done.
Qed.

(** * Directories *)

(** Entry [j] of a directory, and the test of [dirlookup]. *)
Definition dir_entry (data : list Z) (j : nat) : list Z := take 16 (drop (16 * j) data).
Definition hit (name de : list Z) : Prop := de_inum de <> 0 /\ namecmp name (de_name de) = 0.

Lemma survives_read_dirent room ic lk s dp d data msg j (Q : list Z -> kstate -> Prop) :
  inodes room ic lk s -> ic !! dp = Some d -> itype d = T_DIR -> stored N D d data -> (16 * (j + 1) <= length data)%nat ->
  (forall s', inodes room ic lk s' -> Q (dir_entry data j) s') ->
  ok s (read_dirent dp (16 * Z.of_nat j) msg) Q.
Proof.
  intros Hi Hd Ht Hst Hj HQ. unfold read_dirent. apply survives_bind, survives_same. pose proof (st_max _ _ _ _ Hst).
  eapply (survives_readi fault C N D HC s dp data); rewrite ?(get_inode_in _ _ _ _ dp d Hi Hd); try done.
  - apply Hi.
  - by rewrite Ht.
  - lia.
  - unfold sizeof_dirent. lia.
  - right. unfold sizeof_dirent. lia.
  - intros s1 Hr1 H1 l Hs1 _. subst l. destruct (Z.ltb_spec (Z.of_nat (length data)) (16 * Z.of_nat j)); [lia|].
    change (Z.to_nat sizeof_dirent) with 16%nat. replace (Z.to_nat (16 * Z.of_nat j)) with (16 * j)%nat by lia.
    fold (dir_entry data j). assert (Hl : length (dir_entry data j) = 16%nat) by (unfold dir_entry; rewrite length_take, length_drop; lia).
    cbn [fst snd]. rewrite Hl. apply survives_ret, HQ. by apply (inodes_same room ic lk s).
Qed.

Lemma survives_dirlookup room ic lk s dp d data name k (Q : option (nat * Z) -> kstate -> Prop) :
  inodes room ic lk s -> ic !! dp = Some d -> itype d = T_DIR -> stored N D d data -> (16 * (k + 1) <= length data)%nat ->
  (forall j, (j < k)%nat -> ~ hit name (dir_entry data j)) -> hit name (dir_entry data k) -> (0 < spare ic)%nat -> 0 < room ->
  (forall i v s', (i < NINODE)%nat -> inodes (room - 1) (<[i := v]> ic) lk s' -> idev v = 1 ->
     inum v = de_inum (dir_entry data k) -> 0 < iref v ->
     (forall ip, ic !! i = Some ip -> iref ip = 0 \/ inum ip = de_inum (dir_entry data k)) ->
     Q (Some (i, 16 * Z.of_nat k)) s') ->
  ok s (dirlookup dp name) Q.
Proof.
  intros Hi Hd Ht Hst Hk Hno Hyes Hsp Hroom HQ. unfold dirlookup. apply survives_gets.
  rewrite (get_inode_in _ _ _ _ dp d Hi Hd), Ht. change (negb (T_DIR =? T_DIR)) with false. cbn iota.
  pose proof (st_size _ _ _ _ Hst) as Hsz. unfold dir_offsets. rewrite Z.sub_0_r.
  set (M := Z.to_nat ((isize d + 15) / 16)). assert (HM : (k < 0 + M)%nat) by (unfold M; divisions).
  assert (H0 : (0 <= k)%nat) by lia. revert HM H0 s Hi. generalize 0%nat as st. induction M as [|M IH]; intros st HM Hge s Hi; [lia|].
  cbn [seq fmap list_fmap for_find]. rewrite Z.add_0_l. apply survives_bind, survives_bind.
  eapply survives_read_dirent; [done|exact Hd|done|exact Hst|lia|]. intros s1 Hi1 Hs1.
  destruct (decide (st = k)) as [->|Hne].
  - destruct Hyes as [Hn Hc]. destruct (Z.eqb_spec (de_inum (dir_entry data k)) 0); [done|]. rewrite Hc. change (0 =? 0) with true. cbn iota.
    apply survives_gets. rewrite (get_inode_in _ _ _ _ dp d Hi1 Hd), (st_dev _ _ _ _ Hst).
    apply survives_bind. eapply survives_iget; [exact Hi1|done|done|]. intros i v s2 Hi' Hs2 Hv1 Hv2 Hv3 Hv4 _.
    apply survives_ret. intros _. apply survives_ret. by eapply HQ.
  - assert (Hskip : forall m : K (option (nat * Z)), ok s1 (if de_inum (dir_entry data st) =? 0 then mret None
      else if namecmp name (de_name (dir_entry data st)) =? 0 then m else mret None)
      (fun r s' => r = None /\ inodes room ic lk s')).
    { intros m. assert (Hnh := Hno st ltac:(lia)). unfold hit in Hnh.
      destruct (Z.eqb_spec (de_inum (dir_entry data st)) 0); [by apply survives_ret|].
      destruct (Z.eqb_spec (namecmp name (de_name (dir_entry data st))) 0); [|by apply survives_ret]. destruct Hnh. by split. }
    eapply survives_mono; [apply Hskip|done|]. cbn. intros r s2 Hs2 [-> Hi2] _. apply (IH (S st)); [lia|lia|done].
Qed.

(** * Path names *)

(** [namei] of a file in the root directory. *)
Lemma survives_namei room ic s data name k (Q : option nat -> kstate -> Prop) :
  inodes room ic (fun _ => 0) s -> 2 <= room -> (2 <= spare ic)%nat -> 0 <= IBLOCK 1 x < N ->
  (forall v, idev v = 1 -> on_disk 1 v = v -> itype v = T_DIR /\ inlink v <> 0 /\ stored N D v data) ->
  Forall name_char name -> name <> [] -> (16 * (k + 1) <= length data)%nat ->
  (forall j, (j < k)%nat -> ~ hit (elem_name name) (dir_entry data j)) -> hit (elem_name name) (dir_entry data k) ->
  de_inum (dir_entry data k) <> 1 ->
  (forall i v ic' s', inodes (room - 2) ic' (fun _ => 0) s' -> ic' !! i = Some v -> idev v = 1 ->
     inum v = de_inum (dir_entry data k) -> 0 < iref v -> Q (Some i) s') ->
  ok s (namei (slash :: name)) Q.
Proof.
  intros Hi Hroom Hsp Hb Hroot Hname Hne Hk Hno Hyes Hn1 HQ.
  assert (Hlen := in_length _ _ _ _ Hi). unfold namei, namex. change (hd0 (slash :: name) =? slash) with true. cbn iota.
  apply survives_bind, survives_bind. change ROOTDEV with 1. change ROOTINO with 1.
  eapply survives_iget; [exact Hi|lia|lia|]. intros r v1 s1 Hr Hi1 Hv1 Hv2 Hv3 _ _.
  change (1 + length (slash :: name))%nat with (S (S (length name))). cbn [namex_loop]. rewrite skipelem_root by done.
  set (ic1 := <[r := v1]> ic) in *. assert (Hip1 : ic1 !! r = Some v1) by (apply list_lookup_insert_eq; lia).
  destruct (Hroot (on_disk 1 v1)) as (Hty & _ & _); [done|apply on_disk_again|].
  apply survives_bind. eapply survives_ilock; [exact Hi1|exact Hip1|done|done|done|by rewrite Hv2|rewrite Hv2, Hty; done|].
  rewrite Hv2. intros v2 s2 Hi2 Hcp Href _. set (ic2 := <[r := v2]> ic1) in *.
  assert (Hip2 : ic2 !! r = Some v2) by (apply list_lookup_insert_eq; unfold ic1; rewrite length_insert; lia).
  destruct (Hroot v2 (cp_dev _ _ Hcp) (cp_disk _ _ Hcp)) as (Hty2 & Hnl2 & Hst2).
  apply survives_gets. rewrite (get_inode_in _ _ _ _ r v2 Hi2 Hip2), Hty2. change (negb (T_DIR =? T_DIR)) with false. cbn [andb]. cbn iota.
  apply survives_bind. eapply survives_dirlookup; [exact Hi2|exact Hip2|done|exact Hst2|exact Hk|exact Hno|exact Hyes| |lia|].
  { pose proof (spare_insert ic r v1) as H1. pose proof (spare_keep ic1 r v1 v2 Hip1 ltac:(lia)) as H2. fold ic1 in H1. fold ic2 in H2. lia. }
  intros n v3 s3 Hn Hi3 Hw1 Hw2 Hw3 Hw4 _. set (m := de_inum (dir_entry data k)) in *.
  assert (Hnr : n <> r).
  { intros ->. destruct (Hw4 v2 Hip2) as [H0|H0]; [pose proof (cp_ref _ _ Hcp); lia|]. rewrite (cp_num _ _ Hcp) in H0. done. }
  assert (Hip3 : <[n := v3]> ic2 !! r = Some v2) by by rewrite list_lookup_insert_ne.
  apply survives_bind. unfold iunlockput. apply survives_bind.
  eapply survives_iunlock; [exact Hi3|exact Hip3|apply Hcp|unfold set_lk; by rewrite decide_True|]. intros s4 Hi4 _.
  eapply survives_iput; [exact Hi4|exact Hip3|apply Hcp|done|lia|]. intros s5 Hi5 _.
  destruct name as [|c name]; [done|]. cbn [length namex_loop]. change (skipelem []) with (@None (list Z * list Z)). cbn iota.
  apply survives_ret. intros _. apply survives_ret. cbn [fmap option_fmap option_map fst].
  eapply (HQ n v3); [eapply inodes_lk_ext; [replace (room - 2) with (room - 1 - 1) by lia; exact Hi5|]| |done|done|done].
  - intros i. unfold set_lk. by repeat case_decide.
  - rewrite list_lookup_insert_ne by done. apply list_lookup_insert_eq.
    unfold ic2, ic1. rewrite !length_insert. lia.
Qed.
End Inodes.
