(* ===== verification/Mounted.v ===== *)
(** The kernel on a drive that mkfs.c built: looking up a file by name and
    reading it gives the bytes that were put into the image. *)

From Stdlib Require Import ZifyNat.
From S2P Require Import Prelude Control Memory KState Boot Spinlock Format Sched Kalloc Vm Sleeplock.
From S2P Require Import Disk Bio Log Inode Console Fs Pipe File Proc Trap Handoff Layout Cache Crash Mkfs Image Built Readback Namei.
Import Mkfs.

(** * Files of the image, as the kernel sees them *)

(** An inode of the image, once it is in memory. *)
Lemma on_disk_fields D n v type size a :
  inode_at D n = dinode type size a -> on_disk D super n v = v ->
  itype v = type /\ inlink v = 1 /\ isize v = size /\ iaddrs v = a.
Proof.
  unfold inode_at, on_disk, dinode. intros E Ev.
  assert (F : forall w, itype (read_dinode (D (IBLOCK n super)) (dinode_off n) w) = type /\
    inlink (read_dinode (D (IBLOCK n super)) (dinode_off n) w) = 1 /\
    isize (read_dinode (D (IBLOCK n super)) (dinode_off n) w) = size /\
    iaddrs (read_dinode (D (IBLOCK n super)) (dinode_off n) w) = a).
  { intros w. split_and!.
    - by apply (f_equal itype) in E.
    - by apply (f_equal inlink) in E.
    - by apply (f_equal isize) in E.
    - by apply (f_equal iaddrs) in E. }
  specialize (F v). by rewrite Ev in F.
Qed.

Lemma image_stored h G k g v :
  image h G -> G !! k = Some g -> idev v = 1 -> on_disk (img h) super (Z.of_nat k + 1) v = v ->
  Z.of_nat (length (f_data g)) <= f_size g < 2 ^ 31 ->
  stored FSSIZE (img h) v (f_data g) /\ itype v = f_type g /\ inlink v = 1 /\ isize v = f_size g.
Proof.
  intros Hi Hg Hd Hv Hsz. destruct (i_inode h G Hi k g Hg) as (E & _). destruct (on_disk_fields _ _ _ _ _ _ E Hv) as (H1 & H2 & H3 & H4).
  destruct (i_file h G Hi k g Hg) as (Hrep & [HL Hs] & Hown). pose proof (image_holds h G k g Hi Hg) as Hh.
  destruct Hrep as [R1 R2 R3 R4 R5 R6]. split_and!; try done.
  assert (Hin : forall j, (j < length (f_data g))%nat -> (j / 512 < 140)%nat /\
    entry (img h) (f_addrs g) (j / 512) ∈ owned (f_addrs g) (f_blocks g)).
  { intros j Hj. assert ((j / 512 < length (f_blocks g))%nat) by divisions. split; [lia|]. rewrite R3 by lia. apply owned_blocks, block_in. lia. }
  split; rewrite ?H4; try done.
  - by rewrite H3.
  - divisions.
  - intros b. apply (f_length h), Hi.
  - intros j Hj. destruct (Hin j Hj) as [_ Ho]. pose proof (holds_range _ _ _ _ _ Hh Ho). blocks.
  - intros j Hj Hge. assert (Ha : addr (f_addrs g) NDIRECT <> 0).
    { rewrite Hs. unfold NDIRECT in *. divisions. }
    pose proof (holds_range _ _ _ _ _ Hh (owned_indirect _ (f_blocks g) Ha)). blocks.
  - intros j Hj. rewrite R6 by lia. destruct (Hin j Hj) as [Hlt _]. by rewrite R3.
Qed.

(** * The root directory *)

Lemma dir_entry_first e r : length e = 16%nat -> dir_entry (e ++ r) 0 = e.
Proof. intros He. unfold dir_entry. rewrite Nat.mul_0_r, drop_0, take_app_le by lia. by rewrite take_ge by lia. Qed.
Lemma dir_entry_next e r j : length e = 16%nat -> dir_entry (e ++ r) (S j) = dir_entry r j.
Proof.
  intros He. unfold dir_entry. rewrite drop_app_ge by lia. by replace (16 * S j - length e)%nat with (16 * j)%nat by lia.
Qed.
Lemma dir_entry_entries n args k arg : args !! k = Some arg ->
  dir_entry (entries n args) k = dirent (n + Z.of_nat k) (file_name arg).
Proof.
  revert n k. induction args as [|a args IH]; intros n [|k] Hk; try done; cbn [entries].
  - injection Hk as ->. rewrite dir_entry_first by apply length_dirent. f_equal. lia.
  - rewrite dir_entry_next by apply length_dirent. change (args !! k = Some arg) in Hk. rewrite (IH _ _ Hk). f_equal. lia.
Qed.
Lemma root_entry args k arg : args !! k = Some arg ->
  dir_entry (root_data args) (S (S k)) = dirent (2 + Z.of_nat k) (file_name arg).
Proof. intros Hk. unfold root_data. rewrite !dir_entry_next by apply length_dirent. by apply dir_entry_entries. Qed.

Lemma dirent_inum n name : 0 <= n < 2 ^ 16 -> de_inum (dirent n name) = n.
Proof.
  intros Hn. unfold de_inum, dirent. rewrite get16_bytes, xshort_u16. unfold u16. rewrite Z.mod_mod by lia. by apply Z.mod_small.
Qed.
Lemma dirent_name n name : de_name (dirent n name) = strncpy name DIRSIZ.
Proof. done. Qed.

(** The names of the command line can be told apart in a directory, and are
    names that a path can have. *)
Definition names_ok (args : list (list Z)) : Prop :=
  Forall (fun arg => Forall name_char (file_name arg) /\ file_name arg <> []) args /\
  NoDup ([46] :: [46; 46] :: ((fun arg => take DIRSIZ (file_name arg)) <$> args)).

Lemma root_hit args k arg : names_ok args -> (length args <= 198)%nat -> args !! k = Some arg ->
  hit (elem_name (file_name arg)) (dir_entry (root_data args) (S (S k))) /\
  forall j, (j < S (S k))%nat -> ~ hit (elem_name (file_name arg)) (dir_entry (root_data args) j).
Proof.
  intros [Hch Hnd] Hlen Hk. pose proof (lookup_lt_Some _ _ _ Hk) as Hlt.
  destruct (Forall_lookup_1 _ _ _ _ Hch Hk) as [Hc _]. split.
  - rewrite (root_entry _ _ _ Hk). split; [rewrite dirent_inum; lia|]. rewrite dirent_name. by apply namecmp_entry.
  - set (names := _ :: _ :: _) in Hnd.
    assert (Hsel : forall i a, args !! i = Some a -> names !! S (S i) = Some (take DIRSIZ (file_name a))).
    { intros i a Ha. change (((fun arg => take DIRSIZ (file_name arg)) <$> args) !! i = Some (take DIRSIZ (file_name a))).
      by rewrite list_lookup_fmap, Ha. }
    pose proof (Hsel k arg Hk) as Hkn.
    assert (Hdiff : forall j m nm, names !! j = Some (take DIRSIZ nm) -> (j < S (S k))%nat -> Forall name_char nm ->
      ~ hit (elem_name (file_name arg)) (dirent m nm)).
    { intros j m nm Hj Hjk Hnm [_ Hcmp]. rewrite dirent_name in Hcmp. apply namecmp_entry in Hcmp; [|done..].
      rewrite Hcmp in Hkn. pose proof (NoDup_lookup _ _ _ _ Hnd Hj Hkn). lia. }
    assert (Hdots : Forall name_char [46] /\ Forall name_char [46; 46]) by (split; repeat constructor; unfold slash; lia).
    intros [|[|j]] Hj.
    + unfold root_data. rewrite dir_entry_first by apply length_dirent. apply (Hdiff 0%nat); [done|lia|tauto].
    + unfold root_data. rewrite dir_entry_next, dir_entry_first by apply length_dirent. apply (Hdiff 1%nat); [done|lia|tauto].
    + destruct (lookup_lt_is_Some_2 args j ltac:(lia)) as [a Ha]. rewrite (root_entry _ _ _ Ha).
      apply (Hdiff (S (S j))); [by apply Hsel|lia|]. by apply (Forall_lookup_1 _ _ _ _ Hch Ha).
Qed.

(** * Opening and reading *)

(** The file system side of opening [/name] and reading [n] bytes from [off]. *)
Definition open_read `{!DiskDriver} (name : list Z) (off n : Z) : K (option (Z * list Z)) :=
  r ← namei (slash :: name);
  match r with
  | None => mret None
  | Some i =>
      ilock (Some i) ;;
      x ← readi i ToLocal off n;
      mret (Some x)
  end.

(** C6: a kernel started on the image of mkfs finds every file that was
    put there.  On the drive that a successful run of mkfs leaves, with two
    free slots in the inode cache and whatever else is cached, looking up
    "/name" and reading [n] bytes from [off] returns exactly those bytes of
    the host file the name was made from, cut at its end, and -1 for an offset
    past the end. *)
Theorem mkfs_then_read disk_files prog image_name args h k arg room ic s off n :
  (length args <= 198)%nat -> Forall (file_ok disk_files) args ->
  nmeta + needed (length (root_data args)) + files_need disk_files args <= FSSIZE ->
  main (prog :: image_name :: args) true disk_files start_state [] = Ok tt h [] ->
  names_ok args -> args !! k = Some arg ->
  inodes FSSIZE (img h) super room ic (fun _ => 0) s -> 2 <= room -> (2 <= spare ic)%nat ->
  0 <= off -> 0 <= n -> off + n < 2 ^ 31 ->
  let data := contents disk_files arg in
  let l := take (Z.to_nat n) (drop (Z.to_nat off) data) in
  exists s' w, @open_read MemIde.driver (file_name arg) off n s [] =
    Ok (Some (if Z.of_nat (length data) <? off then (-1, []) else (Z.of_nat (length l), l))) s' w.
Proof.
  intros Hlen Hok Hroom Hmain Hnames Hk Hs Hr Hsp Hoff Hn Hsum data l.
  assert (Hb : built disk_files args h).
  { destruct (runs_main disk_files prog image_name args Hlen Hok Hroom []) as ([] & h' & E & Hb). rewrite Hmain in E. by injection E as <-. }
  clear Hmain Hroom. destruct Hb as [(a & L & gs & Hi & Hgs) _].
  pose proof (length_root_data args) as Hlr. pose proof (lookup_lt_Some _ _ _ Hk) as Hlt.
  destruct (Forall2_lookup_l _ _ _ _ _ Hgs Hk) as (g & Hg & Hty & Hdat & Hsz).
  destruct (Forall_lookup_1 _ _ _ _ Hok Hk) as (_ & _ & Hmax).
  set (root := mkFil T_DIR _ _ _ _) in Hi.
  assert (Hroot : forall v, idev v = 1 -> on_disk (img h) super 1 v = v ->
    itype v = T_DIR /\ inlink v <> 0 /\ stored FSSIZE (img h) v (root_data args)).
  { intros v Hv1 Hv2. destruct (image_stored h _ 0 root v Hi eq_refl Hv1 Hv2) as (H1 & H2 & H3 & H4).
    - cbn [f_data f_size root]. unfold root_size, BSIZE. divisions.
    - rewrite H3. split_and!; done. }
  destruct (root_hit args k arg Hnames Hlen Hk) as [Hyes Hno].
  assert (Hin : de_inum (dir_entry (root_data args) (S (S k))) = Z.of_nat (S k) + 1).
  { rewrite (root_entry _ _ _ Hk), dirent_inum by lia. lia. }
  destruct Hnames as [Hch _]. destruct (Forall_lookup_1 _ _ _ _ Hch Hk) as [Hc Hne].
  cut (survives false (fun _ => True) s (@open_read (the_driver false) (file_name arg) off n)
    (fun r _ => r = Some (if Z.of_nat (length data) <? off then (-1, []) else (Z.of_nat (length l), l)))).
  { intros Hrun. specialize (Hrun 0%nat). change (replicate 0 id) with (@nil (kstate -> kstate)) in Hrun.
    change (@open_read MemIde.driver) with (@open_read (the_driver false)).
    destruct (open_read _ _ _ _ _) as [r s' w|? ?|s'|s']; try done; [|by destruct Hrun].
    destruct Hrun as (_ & -> & _). eauto. }
  unfold open_read. apply survives_bind.
  eapply (survives_namei false (fun _ => True) FSSIZE (img h) super I room ic s (root_data args) (file_name arg) (S (S k))); try done.
  - lia.
  - rewrite Hin. lia.
  - intros i v ic' s1 Hs1 Hv Hd Hnum Href _. rewrite Hin in Hnum.
    assert (Hfile : forall v, idev v = 1 -> on_disk (img h) super (Z.of_nat (S k) + 1) v = v ->
      stored FSSIZE (img h) v data /\ itype v = T_FILE /\ inlink v = 1 /\ isize v = Z.of_nat (length data)).
    { intros u Hu1 Hu2. unfold data. rewrite <- Hdat at 1. rewrite <- Hty, <- Hsz. apply (image_stored h (root :: gs) (S k) g u); try done.
      rewrite Hdat, Hsz. lia. }
    destruct (iblock_super (Z.of_nat (S k) + 1) ltac:(lia)) as [Eb Hbb].
    apply survives_bind. eapply (survives_ilock false _ FSSIZE (img h) super I _ _ _ _ i v); [exact Hs1|exact Hv|done|done|done| | |].
    + rewrite Hnum. blocks.
    + rewrite Hnum. destruct (Hfile (on_disk (img h) super (Z.of_nat (S k) + 1) v)) as (_ & -> & _); [done|apply on_disk_again|done].
    + rewrite Hnum. intros u s2 Hs2 Hcp _ _. destruct (Hfile u (cp_dev _ _ _ _ Hcp) (cp_disk _ _ _ _ Hcp)) as (Hst & Hut & _ & Hus).
      assert (Hiu : (i < length ic')%nat) by by apply lookup_lt_Some in Hv.
      assert (Eu : get_inode i s2 = u) by (eapply get_inode_in; [exact Hs2|by apply list_lookup_insert_eq]).
      apply survives_bind. eapply (survives_readi false _ FSSIZE (img h) I s2 i data); rewrite ?Eu; try done.
      * apply Hs2.
      * by rewrite Hut.
      * by left.
      * intros s3 _ _ l' _. by apply survives_ret.
Qed.
