(* ===== verification/Sectors.v ===== *)
(** Memory safety of mkfs.c: whatever the command line and the files, and
    however the run ends, every sector of the image is 512 bytes.  A copy that
    ran past its buffer would break this. *)

From Stdlib Require Import ZifyNat.
From S2P Require Import Prelude Control Memory KState Boot Spinlock Format Sched Kalloc Vm Sleeplock.
From S2P Require Import Disk Bio Log Inode Console Fs Pipe File Proc Trap Handoff Layout Cache Crash Mkfs Image Built.
Import Mkfs.

Definition byte (z : Z) : Prop := 0 <= z < 256.
Definition is_block (d : list Z) : Prop := length d = 512%nat /\ Forall byte d.
Definition typed (h : host) : Prop := (forall b, is_block (img h b)) /\ 0 <= freeinode h /\ 0 <= freeblock h.

(** From a typed image [m] leaves a typed one, also when it fails, and a result in [Q]. *)
Definition safe {A} (m : H A) (Q : A -> Prop) : Prop :=
  spec typed typed m (fun a h => typed h /\ Q a) (fun _ => typed).

Lemma safe_ret {A} (a : A) (Q : A -> Prop) : Q a -> safe (mret a) Q.
Proof. intros HQ h w Hh Hw. by split. Qed.
Lemma safe_bind {A B} (m : H A) (f : A -> H B) (R : A -> Prop) Q :
  safe m R -> (forall a, R a -> safe (f a) Q) -> safe (m ≫= f) Q.
Proof.
  intros Hm Hf. eapply spec_bind; [exact Hm|]. intros a h w [Hh HR] Hw. by apply Hf.
Qed.
Lemma safe_panic {A} msg (Q : A -> Prop) : safe (panic msg) Q.
Proof. by intros h w Hh Hw. Qed.
Lemma safe_no_return {A} (Q : A -> Prop) : safe no_return Q.
Proof. by intros h w Hh Hw. Qed.
Lemma safe_gets {A} (f : host -> A) (Q : A -> Prop) : (forall h, typed h -> Q (f h)) -> safe (gets f) Q.
Proof. intros Hf h w Hh Hw. split; [|done]. split; [done|]. by apply Hf. Qed.
Lemma safe_modify f : (forall h, typed h -> typed (f h)) -> safe (modify f) (fun _ => True).
Proof. intros Hf h w Hh Hw. split; [|done]. split; [by apply Hf|done]. Qed.
Lemma safe_mono {A} (m : H A) (Q R : A -> Prop) : safe m R -> (forall a, R a -> Q a) -> safe m Q.
Proof. intros Hm HR. eapply spec_conseq; [exact Hm|done| |done]. cbn. intros a s [? ?]. auto. Qed.
Lemma safe_for_each {A} (l : list A) (f : A -> H unit) :
  Forall (fun a => safe (f a) (fun _ => True)) l -> safe (for_each l f) (fun _ => True).
Proof.
  induction 1 as [|a l Ha Hl IH]; cbn [for_each]; [by apply safe_ret|]. eapply safe_bind; [exact Ha|]. by intros.
Qed.

(** * Blocks *)

Lemma byte_of_byte v i : byte (byte_of v i).
Proof. pose proof (byte_of_range v i). unfold byte. lia. Qed.
Lemma bytes32_bytes v : Forall byte (bytes32 v).
Proof. repeat constructor; apply byte_of_byte. Qed.
Lemma zeroes_block : is_block zeroes.
Proof. split; [done|]. apply Forall_replicate. unfold byte. lia. Qed.
Lemma splice_block d off b : is_block d -> (off + length b <= 512)%nat -> Forall byte b -> is_block (splice d off b).
Proof.
  intros [Hl Hd] Hoff Hb. split; [by rewrite length_splice by lia|]. unfold splice.
  apply Forall_app. split; [by apply Forall_take|]. apply Forall_app. split; [done|by apply Forall_drop].
Qed.
Lemma dinode_bytes_byte ip : Forall byte (dinode_bytes ip).
Proof.
  unfold dinode_bytes. repeat (apply Forall_app; split); try (repeat constructor; apply byte_of_byte).
  induction (iaddrs ip) as [|a l IH]; [constructor|]. change (mjoin (bytes32 <$> (a :: l))) with (bytes32 a ++ mjoin (bytes32 <$> l)).
  apply Forall_app. split; [apply bytes32_bytes|done].
Qed.

Lemma mark_bit_block i d : is_block d -> is_block (mark_bit i d).
Proof.
  intros [Hl Hd]. unfold mark_bit. split; [by rewrite length_insert|]. apply Forall_insert; [done|].
  assert (Hb : byte (getb d (i / 8))).
  { unfold getb. destruct (d !! (i / 8)%nat) as [z|] eqn:E; [|unfold byte; cbn; lia]. by apply (Forall_lookup_1 _ _ _ _ Hd E). }
  pose proof (Z.mod_pos_bound (Z.of_nat i) 8 ltac:(lia)). unfold byte in *.
  assert (Hs : 0 <= Z.shiftl 1 (Z.of_nat i mod 8) < 2 ^ 8).
  { rewrite Z.shiftl_1_l. split; [lia|]. apply Z.pow_lt_mono_r; lia. }
  split; [apply Z.lor_nonneg; lia|].
  destruct (decide (Z.lor (getb d (i / 8)) (Z.shiftl 1 (Z.of_nat i mod 8)) = 0)) as [->|Hne]; [lia|].
  change 256 with (2 ^ 8). apply Z.log2_lt_pow2; [|rewrite Z.log2_lor by lia; apply Z.max_lub_lt].
  - assert (0 <= Z.lor (getb d (i / 8)) (Z.shiftl 1 (Z.of_nat i mod 8))) by (apply Z.lor_nonneg; lia). lia.
  - destruct (decide (getb d (i / 8) = 0)) as [->|]; [done|]. apply Z.log2_lt_pow2; lia.
  - destruct (decide (Z.shiftl 1 (Z.of_nat i mod 8) = 0)) as [->|]; [done|]. apply Z.log2_lt_pow2; lia.
Qed.
Lemma bitmap_block n : is_block (bitmap n).
Proof.
  unfold bitmap. assert (Hf : forall l d, is_block d -> is_block (foldl (fun buf i => mark_bit i buf) d l)).
  { induction l as [|i l IH]; intros d Hd; [done|]. by apply IH, mark_bit_block. }
  apply Hf, zeroes_block.
Qed.
Lemma strncpy_bytes t n : Forall byte t -> Forall byte (strncpy t n).
Proof.
  revert t. induction n as [|n IH]; intros t Ht; cbn [strncpy]; [constructor|].
  destruct (hd0 t =? 0); [apply Forall_replicate; unfold byte; lia|]. destruct t as [|c t].
  - constructor; [unfold byte; cbn; lia|]. by apply IH.
  - apply Forall_cons in Ht as [Hc Ht]. constructor; [done|]. by apply IH.
Qed.

(** * The operations *)

Lemma safe_wsect n d : is_block d -> safe (wsect n d) (fun _ => True).
Proof.
  intros Hd. apply safe_modify. intros h (H1 & H2 & H3). split; [|done]. intros b. cbn. unfold write. destruct (b =? _); [done|apply H1].
Qed.
Lemma safe_rsect n : safe (rsect n) is_block.
Proof.
  intros h w Hh Hw. unfold rsect, mbind, M_bind, get. destruct (sector n <? nsect h); [|exact Hh].
  split; [|done]. split; [done|]. apply Hh.
Qed.

Definition din_ok (ip : inode) : Prop := length (iaddrs ip) = 13%nat.
Lemma dinode_off_bound n : (dinode_off n + 64 <= 512)%nat.
Proof. unfold dinode_off. change IPB with 8. pose proof (Z.mod_pos_bound n 8 ltac:(lia)). lia. Qed.

Lemma safe_winode n ip : din_ok ip -> safe (winode n ip) (fun _ => True).
Proof.
  intros Hip. apply safe_bind with (R := fun _ => True); [by apply safe_gets|]. intros x _. cbv zeta.
  eapply safe_bind; [apply safe_rsect|]. intros buf Hb. apply safe_wsect, splice_block; [done| |apply dinode_bytes_byte].
  rewrite length_dinode_bytes by done. apply dinode_off_bound.
Qed.
Lemma getb_bounds d k : Forall byte d -> 0 <= getb d k.
Proof.
  intros Hd. unfold getb. destruct (d !! k) as [z|] eqn:E; [|cbn; lia]. destruct (Forall_lookup_1 _ _ _ _ Hd E). cbn. lia.
Qed.
Lemma safe_rinode n : safe (rinode n) (fun ip => din_ok ip).
Proof.
  apply safe_bind with (R := fun _ => True); [by apply safe_gets|]. intros x _.
  eapply safe_bind; [apply safe_rsect|]. intros buf Hb. by apply safe_ret.
Qed.
Lemma safe_next_block : safe next_block (fun _ => True).
Proof.
  apply safe_bind with (R := fun _ => True); [by apply safe_gets|]. intros b _.
  eapply safe_bind; [apply safe_modify|intros; by apply safe_ret].
  intros h (H1 & H2 & H3). split_and!; [done..|]. cbn. apply u32_bounds.
Qed.
Lemma safe_ialloc type : safe (ialloc type) (fun _ => True).
Proof.
  apply safe_bind with (R := fun _ => True); [by apply safe_gets|]. intros n _.
  eapply safe_bind; [apply safe_modify|intros [] _].
  - intros h (H1 & H2 & H3). split_and!; [done| |done]. cbn. apply u32_bounds.
  - eapply safe_bind; [by apply safe_winode|]. intros. by apply safe_ret.
Qed.

Lemma safe_map_block din k : din_ok din -> (k < 140)%nat -> safe (map_block din k) (fun r => din_ok (fst r)).
Proof.
  intros Hd Hk. assert (Hset : forall j, safe (if xint (addr_at din j) =? 0 then b ← next_block; mret (din <| iaddrs ::= <[j := xint b]> |>)
    else mret din) din_ok).
  { intros j. destruct (_ =? _); [|by apply safe_ret]. eapply safe_bind; [apply safe_next_block|]. intros b _. apply safe_ret.
    unfold din_ok. cbn. by rewrite length_insert. }
  unfold map_block. case_bool_decide as Hdir.
  - eapply safe_bind; [apply Hset|]. intros d Hd'. by apply safe_ret.
  - eapply safe_bind; [apply Hset|]. intros d Hd'. eapply safe_bind; [apply safe_rsect|]. intros ind Hind. cbv zeta.
    apply safe_bind with (R := fun _ => True); [|intros ind' _; by apply safe_ret].
    destruct (_ =? 0); [|by apply safe_ret]. eapply safe_bind; [apply safe_next_block|]. intros b _.
    eapply safe_bind; [apply safe_wsect, splice_block; [done| |apply bytes32_bytes]|intros; by apply safe_ret].
    rewrite length_bytes32. unfold NDIRECT in *. lia.
Qed.

Lemma safe_iappend_loop fuel : forall din off p, din_ok din -> 0 <= off -> Forall byte p ->
  safe (iappend_loop fuel din off p) (fun r => din_ok (fst r)).
Proof.
  induction fuel as [|f IH]; intros din off p Hd Ho Hp; cbn [iappend_loop]; [apply safe_no_return|].
  destruct (0 <? Z.of_nat (length p)); [|by apply safe_ret]. cbv zeta. change BSIZE with 512. change MAXFILE with 140.
  destruct (Z.ltb_spec (off / 512) 140) as [Hlt|]; cbn [negb]; [|apply safe_panic].
  eapply safe_bind; [apply safe_map_block; [done|divisions]|]. intros [din' x] Hd'. cbn in Hd'.
  set (n1 := Z.min _ _). assert (Hn1 : n1 <= (off / 512 + 1) * 512 - off) by (unfold n1; lia).
  eapply safe_bind; [apply safe_rsect|]. intros buf Hb. eapply safe_bind.
  - apply safe_wsect, splice_block; [done| |by apply Forall_take]. rewrite length_take. divisions.
  - intros _ _. apply IH; [done|unfold n1; divisions|by apply Forall_drop].
Qed.

Lemma safe_iappend n p : Forall byte p -> safe (iappend n p) (fun _ => True).
Proof.
  intros Hp. eapply safe_bind; [apply safe_rinode|]. intros din Hd.
  eapply safe_bind; [apply safe_iappend_loop; [done| |done]|].
  - rewrite xint_u32. apply u32_bounds.
  - intros [d off] Hd'. by apply safe_winode.
Qed.

Lemma dirent_bytes n name : Forall byte name -> Forall byte (dirent n name).
Proof. intros Hn. apply Forall_app. split; [repeat constructor; apply byte_of_byte|by apply strncpy_bytes]. Qed.

Lemma safe_format : safe format (fun _ => True).
Proof.
  assert (Hdots : Forall byte [46] /\ Forall byte [46; 46]) by (split; repeat constructor; unfold byte; lia).
  eapply safe_bind; [apply safe_modify|intros [] _].
  { intros h (H1 & H2 & H3). split_and!; try done. }
  eapply safe_bind; [apply safe_for_each, Forall_forall; intros; apply safe_wsect, zeroes_block|intros [] _].
  eapply safe_bind; [apply safe_wsect|intros [] _].
  { apply splice_block; [apply zeroes_block|vm_compute; lia|]. apply Forall_forall. intros z Hz.
    assert (Hall : Forall byte (sb_bytes super)) by (vm_compute; repeat constructor; congruence).
    by apply (proj1 (Forall_forall _ _) Hall). }
  eapply safe_bind; [apply safe_ialloc|intros r _]. destruct (negb _); [apply safe_panic|].
  eapply safe_bind; [apply safe_iappend, dirent_bytes, Hdots|intros [] _].
  eapply safe_bind; [apply safe_iappend, dirent_bytes, Hdots|intros [] _]. by apply safe_ret.
Qed.

Lemma safe_add_file disk_files r arg :
  Forall byte arg -> (forall chunks, disk_files arg = Some chunks -> Forall (Forall byte) chunks) ->
  safe (add_file disk_files r arg) (fun _ => True).
Proof.
  intros Ha Hc. unfold add_file. destruct (negb _); [apply safe_panic|].
  destruct (disk_files arg) as [chunks|]; [|apply safe_panic]. eapply safe_bind; [apply safe_ialloc|intros n _].
  eapply safe_bind; [apply safe_iappend, dirent_bytes|intros [] _].
  - unfold file_name. destruct (hd0 arg =? 95); [|done]. destruct arg as [|c arg]; [done|]. by apply Forall_cons in Ha as [_ ?].
  - apply safe_for_each. eapply Forall_impl; [by apply Hc|]. intros c Hb. by apply safe_iappend.
Qed.

Lemma safe_finish r : safe (finish r) (fun _ => True).
Proof.
  eapply safe_bind; [apply safe_rinode|]. intros din Hd. cbv zeta.
  eapply safe_bind; [by apply safe_winode|intros [] _].
  apply safe_bind with (R := fun _ => True); [by apply safe_gets|]. intros b _. unfold balloc.
  destruct (negb _); [apply safe_panic|]. apply safe_bind with (R := fun _ => True); [by apply safe_gets|]. intros x _.
  apply safe_wsect, bitmap_block.
Qed.

