(* ===== verification/Keyboard.v ===== *)
(** kbd.c and kbd.h: from scan codes to characters.

    [kbdgetc] is a state machine over the modifier bits kept in the static
    variable [shift].  Every call reads the status port and, if it says so,
    the data port: the reads are an argument, a list of (status, data). *)

From S2P Require Import Prelude Control Memory KState Spinlock Format Sched Kalloc Vm Sleeplock Disk Bio Log Inode Console.
From S2P Require Import Fs Pipe File Proc Trap.

Module Kbd.

Definition KBS_DIB : Z := 0x01.
Definition NO : Z := 0.
Definition SHIFT : Z := 1.
Definition CTL : Z := 2.
Definition ALT : Z := 4.
Definition CAPSLOCK : Z := 8.
Definition NUMLOCK : Z := 16.
Definition SCROLLLOCK : Z := 32.
Definition E0ESC : Z := 64.

Definition KEY_HOME : Z := 0xE0.
Definition KEY_END : Z := 0xE1.
Definition KEY_UP : Z := 0xE2.
Definition KEY_DN : Z := 0xE3.
Definition KEY_LF : Z := 0xE4.
Definition KEY_RT : Z := 0xE5.
Definition KEY_PGUP : Z := 0xE6.
Definition KEY_PGDN : Z := 0xE7.
Definition KEY_INS : Z := 0xE8.
Definition KEY_DEL : Z := 0xE9.

(** An initializer of a table of 256 bytes: the first entries in order, the
    others by index. *)
Definition table (first : list Z) (at_index : list (nat * Z)) : list Z :=
  foldl (fun t e => <[fst e := snd e]> t) (first ++ replicate (256 - length first) 0) at_index.
Definition chars (t : string) : list Z := (fun c => Z.of_nat (Ascii.nat_of_ascii c)) <$> String.list_ascii_of_string t.
(** [C('X')] for each letter. *)
Definition ctl (t : string) : list Z := (fun c => c - 64) <$> chars t.

Definition shiftcode : list Z :=
  table [] [(0x1D%nat, CTL); (0x2A%nat, SHIFT); (0x36%nat, SHIFT); (0x38%nat, ALT); (0x9D%nat, CTL); (0xB8%nat, ALT)].
Definition togglecode : list Z := table [] [(0x3A%nat, CAPSLOCK); (0x45%nat, NUMLOCK); (0x46%nat, SCROLLLOCK)].

Definition keypad : list (nat * Z) :=
  [(0xC8%nat, KEY_UP); (0xD0%nat, KEY_DN); (0xC9%nat, KEY_PGUP); (0xD1%nat, KEY_PGDN); (0xCB%nat, KEY_LF);
   (0xCD%nat, KEY_RT); (0x97%nat, KEY_HOME); (0xCF%nat, KEY_END); (0xD2%nat, KEY_INS); (0xD3%nat, KEY_DEL)].

Definition normalmap : list Z :=
  table ([NO; 0x1B] ++ chars "1234567890-=" ++ [8; 9] ++
         chars "qwertyuiop[]" ++ [10; NO] ++ chars "as" ++
         chars "dfghjkl;'`" ++ [NO; 92] ++ chars "zxcv" ++
         chars "bnm,./" ++ [NO; 42] ++
         [NO; 32; NO; NO; NO; NO; NO; NO] ++
         [NO; NO; NO; NO; NO; NO; NO] ++ chars "789-456+1" ++
         chars "230." ++ [NO; NO; NO; NO])
    ([(0x9C%nat, 10); (0xB5%nat, 47)] ++ keypad).

Definition shiftmap : list Z :=
  table ([NO; 0x1B] ++ chars "!@#$%^&*()_+" ++ [8; 9] ++
         chars "QWERTYUIOP{}" ++ [10; NO] ++ chars "AS" ++
         chars "DFGHJKL:" ++ [34; 126; NO; 124] ++ chars "ZXCV" ++
         chars "BNM<>?" ++ [NO; 42] ++
         [NO; 32; NO; NO; NO; NO; NO; NO] ++
         [NO; NO; NO; NO; NO; NO; NO] ++ chars "789-456+1" ++
         chars "230." ++ [NO; NO; NO; NO])
    ([(0x9C%nat, 10); (0xB5%nat, 47)] ++ keypad).

Definition ctlmap : list Z :=
  table (replicate 16 NO ++
         ctl "QWERTYUI" ++ ctl "OP" ++ [NO; NO; 13; NO] ++ ctl "AS" ++
         ctl "DFGHJKL" ++ [NO; NO; NO; NO; 92 - 64] ++ ctl "ZXCV" ++
         ctl "BNM" ++ [NO; NO; u8 (47 - 64); NO; NO])
    ([(0x9C%nat, 13); (0xB5%nat, u8 (47 - 64))] ++ keypad).

Definition charcode (i : Z) : list Z :=
  if i =? 0 then normalmap else if i =? 1 then shiftmap else ctlmap.

Definition bit (v m : Z) : bool := negb (Z.land v m =? 0).

(** The character and the new modifiers; [shift] is a [uint], so [~] is its
    complement in 32 bits. *)
Definition kbdgetc (st data shift : Z) : Z * Z :=
  if Z.land st KBS_DIB =? 0 then (-1, shift)
  else if data =? 0xE0 then (0, Z.lor shift E0ESC)
  else if bit data 0x80 then
    let data := if bit shift E0ESC then data else Z.land data 0x7F in
    (0, Z.ldiff shift (Z.lor (getb shiftcode (Z.to_nat data)) E0ESC))
  else
    let '(data, shift) := if bit shift E0ESC then (Z.lor data 0x80, Z.ldiff shift E0ESC) else (data, shift) in
    let shift := Z.lor shift (getb shiftcode (Z.to_nat data)) in
    let shift := Z.lxor shift (getb togglecode (Z.to_nat data)) in
    let c := getb (charcode (Z.land shift (Z.lor CTL SHIFT))) (Z.to_nat data) in
    let c := if bit shift CAPSLOCK then
               if (97 <=? c) && (c <=? 122) then c + (65 - 97)
               else if (65 <=? c) && (c <=? 90) then c + (97 - 65)
               else c
             else c in
    (c, shift).

(** The characters the calls of one interrupt return, up to the -1 that ends
    the loop of [consoleintr], and the modifiers after them. *)
Fixpoint kbd_chars (reads : list (Z * Z)) (shift : Z) : list Z * Z :=
  match reads with
  | [] => ([], shift)
  | (st, data) :: reads' =>
      let '(c, shift) := kbdgetc st data shift in
      if c <? 0 then ([c], shift)
      else let '(cs, shift) := kbd_chars reads' shift in (c :: cs, shift)
  end.

Definition kbdintr (pcs : proc -> list Z) (reads : list (Z * Z)) (shift : Z) : K Z :=
  let '(cs, shift') := kbd_chars reads shift in
  consoleintr pcs cs ;;
  mret shift'.

End Kbd.
Import Kbd.

(** * Every code, every state *)

Definition codes : list Z := Z.of_nat <$> seq 0 256.
Lemma codes_elem d : d ∈ codes <-> 0 <= d < 256.
Proof.
  unfold codes. rewrite list_elem_of_fmap. setoid_rewrite elem_of_seq. split; [intros (k & -> & ?); lia|].
  intros Hd. exists (Z.to_nat d). lia.
Qed.
Definition shifts : list Z := Z.of_nat <$> seq 0 128.
Lemma shifts_elem d : d ∈ shifts <-> 0 <= d < 128.
Proof.
  unfold shifts. rewrite list_elem_of_fmap. setoid_rewrite elem_of_seq. split; [intros (k & -> & ?); lia|].
  intros Hd. exists (Z.to_nat d). lia.
Qed.

(** A check for all 128 states and 256 codes, by evaluation. *)
Lemma all_codes (P : Z -> Z -> bool) :
  forallb (fun sh => forallb (P sh) codes) shifts = true ->
  forall sh d, 0 <= sh < 128 -> 0 <= d < 256 -> P sh d = true.
Proof.
  intros Hall sh d Hs Hd. rewrite forallb_forall in Hall. specialize (Hall sh).
  rewrite <- list_elem_of_In, shifts_elem in Hall. specialize (Hall Hs).
  rewrite forallb_forall in Hall. apply Hall. by rewrite <- list_elem_of_In, codes_elem.
Qed.

Lemma kbdgetc_range sh d :
  0 <= sh < 128 -> 0 <= d < 256 ->
  0 <= fst (kbdgetc 1 d sh) < 256 /\ 0 <= snd (kbdgetc 1 d sh) < 128.
Proof.
  intros Hs Hd.
  pose proof (all_codes (fun sh d => let '(c, s) := kbdgetc 1 d sh in
    (0 <=? c) && (c <? 256) && (0 <=? s) && (s <? 128)) ltac:(vm_compute; reflexivity) sh d Hs Hd) as H.
  cbv beta in H. destruct (kbdgetc 1 d sh) as [c s]. cbn. lia.
Qed.

(** * Typing *)

(** The key with character [c] in [map], among the keys without the E0 prefix. *)
Definition key_of (map : list Z) (c : Z) : option nat := head (filter (fun k => getb map k = c) (seq 0 0x54)).
(** What a typist does for a character: the key, or the key with shift held. *)
Definition strokes (c : Z) : list Z :=
  match key_of normalmap c with
  | Some k => [Z.of_nat k; Z.of_nat k + 0x80]
  | None =>
      match key_of shiftmap c with
      | Some k => [0x2A; Z.of_nat k; Z.of_nat k + 0x80; 0x2A + 0x80]
      | None => []
      end
  end.
Definition typeable (c : Z) : Prop := 32 <= c <= 126 \/ c = 10 \/ c = 9 \/ c = 8.
#[export] Instance typeable_dec c : Decision (typeable c).
Proof. unfold typeable. apply _. Defined.
Definition arrive (ds : list Z) : list (Z * Z) := (fun d => (1, d)) <$> ds.

Lemma strokes_decode c : typeable c ->
  exists cs, kbd_chars (arrive (strokes c)) 0 = (cs, 0) /\ filter (fun x => x <> 0) cs = [c] /\ Forall (fun x => 0 <= x) cs.
Proof.
  intros Hc. assert (Hr : c ∈ codes) by (apply codes_elem; unfold typeable in Hc; lia).
  assert (Hall : Forall (fun c => typeable c -> (let '(cs, s) := kbd_chars (arrive (strokes c)) 0 in
    s = 0 /\ filter (fun x => x <> 0) cs = [c] /\ Forall (fun x => 0 <= x) cs)) codes).
  { apply (bool_decide_unpack _). vm_compute. exact I. }
  specialize (proj1 (Forall_forall _ _) Hall c Hr Hc) as H. destruct (kbd_chars _ _) as [cs s]. destruct H as (-> & H). eauto.
Qed.

Lemma kbd_chars_app ds ds' sh cs sh' : kbd_chars (arrive ds) sh = (cs, sh') -> Forall (fun x => 0 <= x) cs ->
  kbd_chars (arrive (ds ++ ds')) sh = (cs ++ fst (kbd_chars (arrive ds') sh'), snd (kbd_chars (arrive ds') sh')).
Proof.
  revert sh cs. induction ds as [|d ds IH]; intros sh cs E Hcs.
  - injection E as <- <-. by destruct (kbd_chars _ _).
  - cbn [arrive fmap list_fmap app kbd_chars] in *. destruct (kbdgetc 1 d sh) as [c s1]. destruct (Z.ltb_spec c 0).
    + injection E as <- <-. apply Forall_cons in Hcs as [? _]. lia.
    + change ((fun d => (1, d)) <$> ds) with (arrive ds) in E. destruct (kbd_chars (arrive ds) s1) as [cs1 s2] eqn:E1. injection E as <- <-.
      apply Forall_cons in Hcs as [_ Hcs]. specialize (IH s1 cs1 E1 Hcs). unfold arrive in IH at 1. rewrite IH. done.
Qed.

(** Typing a text: the strokes of its characters decode to it, with
    characters 0 for the modifiers and releases, and leave no modifier set. *)
Lemma typed_text t : Forall typeable t ->
  exists cs, kbd_chars (arrive (mjoin (strokes <$> t))) 0 = (cs, 0) /\ filter (fun x => x <> 0) cs = t /\ Forall (fun x => 0 <= x) cs.
Proof.
  induction 1 as [|c t Hc Ht IH]; [by exists []|]. destruct IH as (cs2 & E2 & F2 & P2).
  destruct (strokes_decode c Hc) as (cs1 & E1 & F1 & P1). exists (cs1 ++ cs2).
  change (mjoin (strokes <$> (c :: t))) with (strokes c ++ mjoin (strokes <$> t)). rewrite (kbd_chars_app _ _ _ _ _ E1 P1), E2. cbn.
  split_and!; [done| |by apply Forall_app]. by rewrite filter_app, F1, F2.
Qed.

(** Caps lock: a press and a release of its key exchange the case of the
    letters typed after it, and a second one restores it. *)
Definition swap_case (c : Z) : Z :=
  if (97 <=? c) && (c <=? 122) then c - 32 else if (65 <=? c) && (c <=? 90) then c + 32 else c.
Lemma caps_strokes c : typeable c ->
  filter (fun x => x <> 0) (fst (kbd_chars (arrive ([0x3A; 0xBA] ++ strokes c ++ [0x3A; 0xBA])) 0)) = [swap_case c] /\
  snd (kbd_chars (arrive ([0x3A; 0xBA] ++ strokes c ++ [0x3A; 0xBA])) 0) = 0.
Proof.
  intros Hc. assert (Hr : c ∈ codes) by (apply codes_elem; unfold typeable in Hc; lia).
  assert (Hall : Forall (fun c => typeable c ->
    filter (fun x => x <> 0) (fst (kbd_chars (arrive ([0x3A; 0xBA] ++ strokes c ++ [0x3A; 0xBA])) 0)) = [swap_case c] /\
    snd (kbd_chars (arrive ([0x3A; 0xBA] ++ strokes c ++ [0x3A; 0xBA])) 0) = 0) codes).
  { apply (bool_decide_unpack _). vm_compute. exact I. }
  exact (proj1 (Forall_forall _ _) Hall c Hr Hc).
Qed.
