(* ===== verification/Terminal.v ===== *)
(** The console as a line-oriented terminal: the keyboard interrupt edits a
    line in the ring buffer of console.c and commits it on newline, control-D
    or a full buffer; [consoleread] takes committed characters.  Together with
    Keyboard.v: what is typed is what a program reads. *)

From Stdlib Require Import ZifyNat.
From S2P Require Import Prelude Control Memory KState Boot Spinlock Format Sched Kalloc Vm.
From S2P Require Import Sleeplock Disk Bio Log Inode Console Fs Pipe File Proc Trap Handoff Keyboard.
Import Kbd.

(** * The abstract terminal: committed characters and the line being edited *)

Definition line_step (st : list Z * list Z) (c : Z) : list Z * list Z :=
  let '(cm, ln) := st in
  if c =? C "U" then (cm, [])
  else if (c =? C "H") || (c =? 127) then (cm, removelast ln)
  else if negb (c =? 0) && bool_decide (length cm + length ln < 128)%nat then
    let c := if c =? 13 then 10 else c in
    if (c =? 10) || (c =? C "D") || bool_decide (length cm + length ln + 1 = 128)%nat
    then (cm ++ ln ++ [c], [])
    else (cm, ln ++ [c])
  else (cm, ln).

(** Characters that edit: all but reboot, process listing and interrupt. *)
Definition editing (c : Z) : Prop := 0 <= c < 256 /\ c <> C "Z" /\ c <> C "P" /\ c <> C "C".

(** What a read of [n] characters returns and leaves; [None] when it would
    have to wait for more. *)
Fixpoint read_line (target : Z) (n : nat) (cm got : list Z) : option (list Z * list Z) :=
  match n, cm with
  | O, _ => Some (got, cm)
  | S _, [] => None
  | S n', c :: cm' =>
      if c =? C "D" then Some (got, if Z.of_nat n <? target then cm else cm')
      else if c =? 10 then Some (got ++ [c], cm')
      else read_line target n' cm' (got ++ [c])
  end.

(** * The ring buffer *)

Record tty (cm ln : list Z) (x : input_t) : Prop := {
  t_length : length (in_buf x) = 128%nat;
  t_r : 0 <= in_r x < 2 ^ 32;
  t_w : in_w x = u32 (in_r x + Z.of_nat (length cm));
  t_e : in_e x = u32 (in_r x + Z.of_nat (length cm + length ln));
  t_room : (length cm + length ln <= 128)%nat;
  t_at i : (i < length cm + length ln)%nat -> in_at x (in_r x + Z.of_nat i) = getb (cm ++ ln) i
}.

Lemma u32_mod_128 a : u32 a mod 128 = a mod 128.
Proof. unfold u32. apply Z.mod_mod_divide. by exists (2 ^ 25). Qed.
Lemma in_at_eq x k : in_at x k = getb (in_buf x) (Z.to_nat (k mod 128)).
Proof. unfold in_at, INPUT_BUF. by rewrite u32_mod_128. Qed.
Lemma u32_add_l a b : u32 (u32 a + b) = u32 (a + b).
Proof. unfold u32. by rewrite Zplus_mod_idemp_l. Qed.
(** Counters that differ by less than the wrap are equal only if the same. *)
Lemma u32_inj r a b : 0 <= a < 2 ^ 32 -> 0 <= b < 2 ^ 32 -> u32 (r + a) = u32 (r + b) -> a = b.
Proof. unfold u32. intros Ha Hb E. Z.div_mod_to_equations. lia. Qed.

Lemma tty_erase cm ln c x : tty cm (ln ++ [c]) x -> tty cm ln (x <| in_e ::= fun e => u32 (e - 1) |>).
Proof.
  intros [H1 H2 H3 H4 H5 H6]. rewrite length_app in *. cbn [length] in *. split; cbn; try done; [|lia|].
  - rewrite H4. unfold Z.sub. rewrite u32_add_l. f_equal. lia.
  - intros i Hi. change (in_at _ (in_r x + Z.of_nat i)) with (in_at x (in_r x + Z.of_nat i)). rewrite H6 by lia.
    unfold getb. rewrite app_assoc. by rewrite lookup_app_l by (rewrite length_app; lia).
Qed.

Lemma tty_commit cm ln x : tty cm ln x -> tty (cm ++ ln) [] (x <| in_w := in_e x |>).
Proof.
  intros [H1 H2 H3 H4 H5 H6]. split; cbn; rewrite ?length_app, ?app_nil_r; cbn [length]; rewrite ?Nat.add_0_r; done.
Qed.

Lemma tty_put cm ln c x : tty cm ln x -> (length cm + length ln < 128)%nat -> 0 <= c < 256 ->
  tty cm (ln ++ [c]) (x <| in_buf ::= <[Z.to_nat (in_e x mod INPUT_BUF) := u8 c]> |> <| in_e ::= fun e => u32 (e + 1) |>).
Proof.
  intros [H1 H2 H3 H4 H5 H6] Hroom Hc. set (n := (length cm + length ln)%nat) in *.
  assert (Hl : length (ln ++ [c]) = (length ln + 1)%nat) by by rewrite length_app.
  split; cbn -[u8 u32 Z.modulo INPUT_BUF]; rewrite ?Hl, ?length_insert; try done.
  - rewrite H4, u32_add_l. f_equal. lia.
  - lia.
  - intros i Hi. rewrite in_at_eq. cbn -[u8 u32 Z.modulo INPUT_BUF]. change INPUT_BUF with 128. rewrite H4, u32_mod_128.
    assert (Eu : u8 c = c) by (apply Z.mod_small; lia). rewrite Eu, app_assoc.
    pose proof (Z.mod_pos_bound (in_r x + Z.of_nat n) 128 ltac:(lia)).
    destruct (decide (i = n)) as [->|Hne].
    + unfold getb. rewrite list_lookup_insert_eq by lia. rewrite lookup_app_r by (rewrite length_app; lia).
      rewrite length_app. fold n. by rewrite Nat.sub_diag.
    + assert (Hm : (in_r x + Z.of_nat i) mod 128 <> (in_r x + Z.of_nat n) mod 128).
      { intros E. assert (in_r x + Z.of_nat i = in_r x + Z.of_nat n); [|lia]. Z.div_mod_to_equations. lia. }
      pose proof (Z.mod_pos_bound (in_r x + Z.of_nat i) 128 ltac:(lia)).
      specialize (H6 i ltac:(lia)). rewrite in_at_eq in H6. unfold getb in *. rewrite list_lookup_insert_ne by lia.
      rewrite (lookup_app_l (cm ++ ln)) by (rewrite length_app; lia). exact H6.
Qed.

Lemma tty_take cm c ln x : tty (c :: cm) ln x ->
  in_r x <> in_w x /\ in_at x (in_r x) = c /\ tty cm ln (x <| in_r ::= fun r => u32 (r + 1) |>).
Proof.
  intros [H1 H2 H3 H4 H5 H6]. cbn [length] in *. split_and!.
  - intros E. rewrite <- (u32_id (in_r x)) in E at 1 by done. rewrite H3 in E. rewrite <- (Z.add_0_r (in_r x)) in E at 1.
    apply u32_inj in E; lia.
  - specialize (H6 0%nat ltac:(lia)). rewrite Z.add_0_r in H6. exact H6.
  - split; cbn -[u32]; try done.
    + apply u32_bounds.
    + rewrite H3, u32_add_l. f_equal. lia.
    + rewrite H4, u32_add_l. f_equal. lia.
    + lia.
    + intros i Hi. specialize (H6 (S i) ltac:(lia)). change (getb ((c :: cm) ++ ln) (S i)) with (getb (cm ++ ln) i) in H6. rewrite <- H6.
      rewrite !in_at_eq. cbn [in_buf in_r setter]. rewrite <- (u32_mod_128 (u32 _ + _)), u32_add_l, u32_mod_128.
      do 3 f_equal. lia.
Qed.

Lemma tty_back cm c ln x : tty (c :: cm) ln x ->
  tty (c :: cm) ln (x <| in_r ::= fun r => u32 (r + 1) |> <| in_r ::= fun r => u32 (r - 1) |>).
Proof.
  intros Ht. assert (E : x <| in_r ::= fun r => u32 (r + 1) |> <| in_r ::= fun r => u32 (r - 1) |> = x); [|by rewrite E].
  pose proof (t_r _ _ _ Ht) as Hr. destruct x as [b r w e]. cbn -[u32] in *. f_equal.
  unfold Z.sub. rewrite u32_add_l. rewrite <- (u32_id r) at 2 by done. f_equal. lia.
Qed.

(** * The interrupt *)

Section Machine.

(** Inside the critical section that was entered from [s0]. *)
Definition within (s0 s : kstate) : Prop := kcpu s = kcpu (enter INPUT s0) /\ locks s = locks (enter INPUT s0).
Record console_free (s : kstate) : Prop := {
  cf_input : lock_free INPUT s;
  cf_ptable : lock_free PTABLE s;
  cf_cpu : cpu_ready s
}.

Lemma runs_upd_input s f (Q : unit -> kstate -> Prop) : Q tt (s <| input ::= f |>) -> runs s (upd_input f) Q.
Proof. apply runs_modify. Qed.

Lemma runs_consputc s c (Q : unit -> kstate -> Prop) :
  (forall s', kcpu s' = kcpu s -> locks s' = locks s -> input s' = input s -> Q tt s') -> runs s (consputc c) Q.
Proof. intros HQ. apply runs_modify. by apply HQ. Qed.

Lemma runs_erase s0 s cm ln c (Q : unit -> kstate -> Prop) :
  within s0 s -> tty cm (ln ++ [c]) (input s) ->
  (forall s', within s0 s' -> tty cm ln (input s') -> Q tt s') -> runs s erase Q.
Proof.
  intros [Hk Hl] Ht HQ. apply runs_bind, runs_upd_input, runs_consputc. intros s' E1 E2 E3. apply HQ.
  - split; [by rewrite E1|by rewrite E2].
  - rewrite E3. by apply tty_erase with (c := c).
Qed.

Lemma tty_pending cm ln x : tty cm ln x -> u32 (in_e x - in_w x) = Z.of_nat (length ln) /\ (in_e x = in_w x <-> ln = []).
Proof.
  intros [H1 H2 H3 H4 H5 H6]. rewrite H3, H4. split.
  - unfold u32. rewrite <- Zminus_mod. rewrite Z.mod_small; lia.
  - split.
    + intros E. apply u32_inj in E; [|lia..]. apply nil_length_inv. lia.
    + intros ->. cbn [length]. f_equal. lia.
Qed.

Lemma tty_last cm ln c x : tty cm (ln ++ [c]) x -> in_at x (in_e x - 1) = c.
Proof.
  intros [H1 H2 H3 H4 H5 H6]. rewrite length_app in *. cbn [length] in *.
  specialize (H6 (length cm + length ln)%nat ltac:(lia)). rewrite H4, in_at_eq.
  rewrite <- (u32_mod_128 (u32 _ - 1)). unfold Z.sub. rewrite u32_add_l, u32_mod_128. rewrite in_at_eq in H6.
  replace (in_r x + Z.of_nat (length cm + (length ln + 1)) + - (1)) with (in_r x + Z.of_nat (length cm + length ln)) by lia.
  rewrite H6. unfold getb. rewrite app_assoc, lookup_app_r by (rewrite length_app; lia). rewrite length_app, Nat.sub_diag. done.
Qed.

Lemma runs_kill_line s0 ln : forall s cm (Q : unit -> kstate -> Prop),
  within s0 s -> tty cm ln (input s) -> 10 ∉ ln ->
  (forall s', within s0 s' -> tty cm [] (input s') -> Q tt s') -> runs s (kill_line (length ln)) Q.
Proof.
  induction ln as [|c ln IH] using rev_ind; intros s cm Q Hw Ht Hn HQ; [by apply runs_ret, HQ|].
  rewrite length_app, Nat.add_1_r. cbn [kill_line]. apply runs_bind, runs_gets.
  destruct (tty_pending _ _ _ Ht) as [_ He]. unfold kill_line_more. rewrite (tty_last _ _ _ _ Ht).
  destruct (Z.eqb_spec (in_e (input s)) (in_w (input s))) as [E|_]; [apply He in E; by destruct ln|].
  destruct (Z.eqb_spec c 10) as [->|_]; [destruct Hn; set_solver|]. cbn [negb andb].
  apply runs_bind. eapply runs_erase; [done|exact Ht|]. intros s' Hw' Ht'. apply IH with (cm := cm); [done|done|set_solver|done].
Qed.

Lemma runs_wakeup_input s0 s (Q : unit -> kstate -> Prop) :
  console_free s0 -> within s0 s -> (forall s', within s0 s' -> input s' = input s -> Q tt s') -> runs s (wakeup CH_INPUT) Q.
Proof.
  intros [H1 H2 H3] [Hk Hl] HQ w. rewrite (wakeup_in_section INPUT CH_INPUT s0 s w); [|done..].
  eexists tt, _. split; [done|]. by apply HQ.
Qed.

Lemma removelast_snoc (l : list Z) c : removelast (l ++ [c]) = l.
Proof. rewrite removelast_app by done. by rewrite app_nil_r. Qed.

(** One character refines one step of the terminal. *)
Lemma runs_console_char pcs s0 s c cm ln (Q : unit -> kstate -> Prop) :
  console_free s0 -> within s0 s -> tty cm ln (input s) -> 10 ∉ ln -> editing c ->
  (forall s', within s0 s' -> tty (line_step (cm, ln) c).1 (line_step (cm, ln) c).2 (input s') ->
     10 ∉ (line_step (cm, ln) c).2 -> Q tt s') ->
  runs s (console_char pcs c) Q.
Proof.
  intros Hf Hw Ht Hn (Hc & Hz & Hp & Hcc) HQ. destruct (tty_pending _ _ _ Ht) as [Hpend Hempty]. unfold console_char, line_step in *.
  destruct (Z.eqb_spec c (C "Z")), (Z.eqb_spec c (C "P")), (Z.eqb_spec c (C "C")); try done.
  destruct (c =? C "U").
  { apply runs_bind, runs_gets. rewrite Hpend, Nat2Z.id. eapply runs_kill_line; [done..|]. intros s' Hw' Ht'. apply HQ; [done|done|set_solver]. }
  destruct ((c =? C "H") || (c =? 127)).
  { apply runs_bind, runs_gets. destruct (Z.eqb_spec (in_e (input s)) (in_w (input s))) as [E|E]; cbn [negb when].
    - apply Hempty in E as ->. by apply runs_ret, HQ.
    - destruct ln as [|d ln _] using rev_ind; [by destruct E; apply Hempty|]. rewrite removelast_snoc in HQ. eapply runs_erase; [done|exact Ht|].
      intros s' Hw' Ht'. apply HQ; [done|done|]. cbn. set_solver. }
  unfold input_char. apply runs_bind, runs_gets.
  assert (Hcnt : u32 (in_e (input s) - in_r (input s)) = Z.of_nat (length cm + length ln)).
  { destruct Ht as [T1 T2 T3 T4 T5 T6]. rewrite T4. rewrite <- (u32_id (in_r (input s))) at 2 by done. unfold u32. rewrite <- Zminus_mod.
    rewrite Z.mod_small; lia. }
  rewrite Hcnt. change INPUT_BUF with 128 at 1.
  replace (Z.of_nat (length cm + length ln) <? 128) with (bool_decide (length cm + length ln < 128)%nat)
    by (destruct (Z.ltb_spec (Z.of_nat (length cm + length ln)) 128); [apply bool_decide_eq_true_2|apply bool_decide_eq_false_2]; lia).
  destruct (negb (c =? 0) && bool_decide (length cm + length ln < 128)%nat) eqn:Eb; cbn [when].
  2:{ apply runs_ret, HQ; [done|exact Ht|done]. }
  apply andb_true_iff in Eb as [_ Hroom%bool_decide_eq_true_1]. cbv zeta. set (c' := if c =? 13 then 10 else c) in *.
  assert (Hc' : 0 <= c' < 256) by (unfold c'; destruct (c =? 13); lia).
  apply runs_bind, runs_upd_input. pose proof (tty_put cm ln c' (input s) Ht Hroom Hc') as Ht1. set (x1 := setter in_e _ _) in Ht1.
  apply runs_bind, runs_consputc. intros s1 E1 E2 E3. change (input s1 = x1) in E3.
  assert (Hw1 : within s0 s1) by (split; [rewrite E1|rewrite E2]; apply Hw).
  apply runs_bind, runs_gets. rewrite E3.
  assert (Hfull : (in_e x1 =? u32 (in_r x1 + INPUT_BUF)) = bool_decide (length cm + length ln + 1 = 128)%nat).
  { destruct Ht1 as [T1 T2 T3 T4 T5 T6]. rewrite T4, length_app. cbn [length]. change INPUT_BUF with 128. case_bool_decide as Eq.
    - apply Z.eqb_eq. f_equal. lia.
    - apply Z.eqb_neq. intros E. apply u32_inj in E; lia. }
  rewrite Hfull. destruct ((c' =? 10) || (c' =? C "D") || bool_decide (length cm + length ln + 1 = 128)%nat) eqn:Ecm; cbn [when].
  - apply runs_bind, runs_upd_input. eapply runs_wakeup_input; [done|exact Hw1|]. intros s2 Hw2 E4. apply HQ; [done| |set_solver].
    rewrite E4. change (input (setter input _ s1)) with (input s1 <| in_w := in_e (input s1) |>). rewrite E3. exact (tty_commit _ _ _ Ht1).
  - apply runs_ret, HQ; [done|by rewrite E3|]. cbn. apply orb_false_iff in Ecm as [[E10 _]%orb_false_iff _]. apply Z.eqb_neq in E10. set_solver.
Qed.

Lemma runs_consoleintr_loop pcs s0 chars : forall s cm ln (Q : unit -> kstate -> Prop),
  console_free s0 -> within s0 s -> tty cm ln (input s) -> 10 ∉ ln -> Forall editing chars ->
  (forall s', within s0 s' -> tty (foldl line_step (cm, ln) chars).1 (foldl line_step (cm, ln) chars).2 (input s') ->
     10 ∉ (foldl line_step (cm, ln) chars).2 -> Q tt s') ->
  runs s (consoleintr_loop pcs chars) Q.
Proof.
  induction chars as [|c chars IH]; intros s cm ln Q Hf Hw Ht Hn Hed HQ; cbn [consoleintr_loop]; [by apply runs_ret, HQ|].
  apply Forall_cons in Hed as [Hc Hed]. destruct (Z.ltb_spec c 0); [destruct Hc; lia|]. apply runs_bind.
  eapply runs_console_char; [done..|]. intros s' Hw' Ht' Hn'. cbn [foldl] in HQ. destruct (line_step (cm, ln) c) as [cm' ln'].
  by eapply IH.
Qed.

(** Leaving the critical section. *)
Lemma runs_leave_input s0 s (Q : unit -> kstate -> Prop) :
  console_free s0 -> within s0 s -> (forall s', input s' = input s -> console_free s' -> Q tt s') -> runs s (release INPUT) Q.
Proof.
  intros [H1 H2 [Hc Hn]] [Hk Hl] HQ w. destruct (enter_ncli INPUT s0 Hc ltac:(lia)) as [Hn' Hif]. pose proof Hc as [? ?].
  rewrite release_held; [|unfold lock_held; rewrite Hk, Hl; cbn; by rewrite lookup_insert_eq|by rewrite Hk|rewrite Hk; lia].
  eexists tt, _. split; [done|]. apply HQ; [done|].
  assert (Ek : kcpu (leave INPUT s) = settle_cpu (kcpu s0)) by (cbn; rewrite Hk; apply pop_push_cpu; [done|lia]).
  assert (El : locks (leave INPUT s) = locks s0) by (cbn; rewrite Hl; cbn; by rewrite insert_insert_eq, insert_id).
  split; unfold lock_free; rewrite ?El; try done. unfold cpu_ready, cpu_ok. rewrite Ek. done.
Qed.

Lemma runs_consoleintr pcs s chars cm ln (Q : unit -> kstate -> Prop) :
  console_free s -> tty cm ln (input s) -> 10 ∉ ln -> Forall editing chars ->
  (forall s', console_free s' -> tty (foldl line_step (cm, ln) chars).1 (foldl line_step (cm, ln) chars).2 (input s') ->
     10 ∉ (foldl line_step (cm, ln) chars).2 -> Q tt s') ->
  runs s (consoleintr pcs chars) Q.
Proof.
  intros Hf Ht Hn Hed HQ w. unfold consoleintr. rewrite acquire_then by apply Hf. revert w.
  change (runs (enter INPUT s) (consoleintr_loop pcs chars ;; release INPUT) Q). apply runs_bind.
  eapply runs_consoleintr_loop; [exact Hf|done|exact Ht|done|done|]. intros s1 Hw1 Ht1 Hn1.
  eapply runs_leave_input; [exact Hf|done|]. intros s2 E2 Hf2. apply HQ; [done|by rewrite E2|done].
Qed.

(** C21: the keyboard interrupt is a line editor.  For every sequence of
    characters (other than the three that reboot, list processes or signal),
    [consoleintr] leaves the ring buffer, across every wrap of the buffer and
    of its 32-bit counters, in the state of an abstract terminal: characters
    are appended to the line, backspace removes the last one, control-U the
    whole line and nothing before it, carriage return counts as newline, and a
    newline, a control-D or the 128th pending character commits the line. *)
Theorem console_line_discipline pcs s chars cm ln :
  console_free s -> tty cm ln (input s) -> 10 ∉ ln -> Forall editing chars ->
  exists s', consoleintr pcs chars s [] = Ok tt s' [] /\ console_free s' /\
    tty (foldl line_step (cm, ln) chars).1 (foldl line_step (cm, ln) chars).2 (input s').
Proof.
  intros Hf Ht Hn Hed. eapply (runs_consoleintr pcs s chars cm ln (fun _ s' => console_free s' /\
    tty (foldl line_step (cm, ln) chars).1 (foldl line_step (cm, ln) chars).2 (input s'))) in Hf as Hr; [|done..|by split].
  destruct (Hr []) as ([] & s' & E & H1 & H2). eauto.
Qed.

(** * The reader *)

Lemma runs_consoleread_loop s0 target n : forall s cm ln got res cm' (Q : option (list Z) -> kstate -> Prop),
  within s0 s -> tty cm ln (input s) -> read_line target n cm got = Some (res, cm') ->
  (forall s', within s0 s' -> tty cm' ln (input s') -> Q (Some res) s') ->
  runs s (consoleread_loop ToLocal target n got) Q.
Proof.
  induction n as [|n IH]; intros s cm ln got res cm' Q Hw Ht Hrd HQ; cbn [consoleread_loop read_line] in *.
  { injection Hrd as <- <-. by apply runs_ret, HQ. }
  destruct cm as [|c cm]; [done|]. destruct (tty_take _ _ _ _ Ht) as (Hne & Hat & Ht1).
  apply runs_bind. intros w. eexists true, s. split.
  { apply loop_now. rewrite bind_gets. destruct (Z.eqb_spec (in_r (input s)) (in_w (input s))); done. }
  clear w. cbn [negb].
  apply runs_bind, runs_gets. cbv zeta. rewrite Hat. apply runs_bind, runs_upd_input.
  destruct (c =? C "D").
  - injection Hrd as <- Hcm. destruct (Z.of_nat (S n) <? target); cbn [when]; subst cm'.
    + apply runs_bind, runs_upd_input, runs_ret, HQ; [done|]. exact (tty_back _ _ _ _ Ht).
    + apply runs_bind, runs_ret, runs_ret, HQ; done.
  - cbn [deliver]. apply runs_bind, runs_ret. destruct (c =? 10).
    + injection Hrd as <- <-. by apply runs_ret, HQ.
    + by eapply IH.
Qed.

(** The part of [consoleread] that takes characters, between the unlocking
    and the locking of the inode. *)
Definition read_section (n : Z) : K (option (list Z)) :=
  acquire INPUT ;;
  r ← consoleread_loop ToLocal (u32 n) (Z.to_nat n) [];
  release INPUT ;;
  mret r.

Lemma runs_read_section s n cm ln res cm' (Q : option (list Z) -> kstate -> Prop) :
  console_free s -> tty cm ln (input s) -> read_line (u32 n) (Z.to_nat n) cm [] = Some (res, cm') ->
  (forall s', console_free s' -> tty cm' ln (input s') -> Q (Some res) s') -> runs s (read_section n) Q.
Proof.
  intros Hf Ht Hrd HQ w. unfold read_section. rewrite acquire_then by apply Hf. revert w.
  change (runs (enter INPUT s) (r ← consoleread_loop ToLocal (u32 n) (Z.to_nat n) []; release INPUT ;; mret r) Q).
  apply runs_bind. eapply runs_consoleread_loop; [by split|exact Ht|exact Hrd|]. intros s1 Hw1 Ht1.
  apply runs_bind. eapply runs_leave_input; [exact Hf|done|]. intros s2 E2 Hf2. apply runs_ret, HQ; [done|by rewrite E2].
Qed.
End Machine.

(** * From the keyboard to the reader *)

(** Characters 0, of modifiers and releases, do nothing. *)
Lemma line_step_zeros st cs : foldl line_step st cs = foldl line_step st (filter (fun x => x <> 0) cs).
Proof.
  revert st. induction cs as [|c cs IH]; intros st; [done|]. rewrite filter_cons. case_decide as Hc; cbn [foldl]; [apply IH|].
  assert (c = 0) as -> by (destruct (decide (c = 0)); tauto). rewrite <- IH. f_equal. by destruct st.
Qed.

Definition printable (c : Z) : Prop := 32 <= c <= 126.

Lemma line_step_text t : forall ln, Forall printable t -> (length ln + length t < 128)%nat ->
  foldl line_step ([], ln) t = ([], ln ++ t).
Proof.
  induction t as [|c t IH]; intros ln Ht Hl; cbn [foldl length] in *; [by rewrite app_nil_r|].
  apply Forall_cons in Ht as [Hc Ht]. unfold printable in Hc.
  assert (E : line_step ([], ln) c = ([], ln ++ [c])).
  { unfold line_step. change (C "U") with 21. change (C "H") with 8. change (C "D") with 4.
    destruct (Z.eqb_spec c 21), (Z.eqb_spec c 8), (Z.eqb_spec c 127), (Z.eqb_spec c 0), (Z.eqb_spec c 13); try lia.
    cbn [orb negb andb length Nat.add]. rewrite bool_decide_eq_true_2 by lia. rewrite bool_decide_eq_false_2 by lia.
    destruct (Z.eqb_spec c 10), (Z.eqb_spec c 4); done || lia. }
  rewrite E, IH by (rewrite ?length_app; cbn; lia || done). by rewrite <- app_assoc.
Qed.

Lemma read_line_text t : forall target n got, Forall printable t -> (length t < n)%nat ->
  read_line target n (t ++ [10]) got = Some (got ++ t ++ [10], []).
Proof.
  induction t as [|c t IH]; intros target n got Ht Hn; (destruct n as [|n]; [cbn in *; lia|]); cbn [read_line app].
  - change (10 =? C "D") with false. done.
  - apply Forall_cons in Ht as [Hc Ht]. unfold printable in Hc. change (C "D") with 4.
    destruct (Z.eqb_spec c 4), (Z.eqb_spec c 10); try lia. rewrite IH by (done || cbn in *; lia). by rewrite <- app_assoc.
Qed.

