(* ===== verification/Bootload.v ===== *)
(** bootmain.c: the boot loader.

    Memory is the machine's physical memory, addresses and lengths are 32-bit.
    The drive is its sectors; a read command transfers the sector whose number
    is in the port registers, 28 bits of it. *)

From Stdlib Require Import ZifyNat.
From S2P Require Import Prelude Memory.

Module Bootload.

Section Loader.
Context (drive : Z -> list Z).

Definition SECTSIZE : Z := 512.

Definition readsect (m : memory) (dst offset : Z) : memory :=
  write_bytes m dst (take 512 (drive (Z.land offset (2 ^ 28 - 1)))).

(** [for(; pa < epa; pa += SECTSIZE, offset++)]: a round per sector, so that
    the sectors between [pa] and [epa] are enough fuel while [pa + SECTSIZE]
    stays below [2 ^ 32]. *)
Fixpoint readseg_loop (fuel : nat) (m : memory) (pa epa offset : Z) : memory :=
  match fuel with
  | O => m
  | S f =>
      if pa <? epa then readseg_loop f (readsect m pa offset) (u32 (pa + SECTSIZE)) epa (u32 (offset + 1))
      else m
  end.

Definition readseg (m : memory) (pa count offset : Z) : memory :=
  let epa := u32 (pa + count) in
  let pa := u32 (pa - offset mod SECTSIZE) in
  readseg_loop (Z.to_nat ((epa - pa) / SECTSIZE + 1)) m pa epa (u32 (offset / SECTSIZE + 1)).

(** The words of the multiboot header. *)
Record mbheader := mkMb {
  magic : Z; flags : Z; checksum : Z; header_addr : Z; load_addr : Z; load_end_addr : Z;
  bss_end_addr : Z; entry_addr : Z
}.
Definition header_at (m : memory) (a : Z) : mbheader :=
  mkMb (load32 m a) (load32 m (a + 4)) (load32 m (a + 8)) (load32 m (a + 12)) (load32 m (a + 16))
    (load32 m (a + 20)) (load32 m (a + 24)) (load32 m (a + 28)).

Definition scratch : Z := 0x10000.
(** [for (n = 0; n < 8192/4; n++)]: the first word that starts a header. *)
Definition is_header (m : memory) (n : nat) : bool :=
  let x k := load32 m (scratch + 4 * (Z.of_nat n + k)) in
  (x 0 =? 0x1BADB002) && (u32 (x 0 + x 1 + x 2) =? 0).
Definition find_header (m : memory) : option nat := List.find (is_header m) (seq 0 2048).

(** The address jumped to and the memory then, or [None] where it returns. *)
Definition bootmain (m : memory) : option (Z * memory) :=
  let m := readseg m scratch 8192 0 in
  match find_header m with
  | None => None
  | Some n =>
      let a := scratch + 4 * Z.of_nat n in
      let hdr := header_at m a in
      if Z.land (flags hdr) 0x10000 =? 0 then None
      else if header_addr hdr <? load_addr hdr then None
      else if load_end_addr hdr <? load_addr hdr then None
      else
        let m := readseg m (load_addr hdr) (u32 (load_end_addr hdr - load_addr hdr))
                   (u32 (Z.of_nat n * 4 - u32 (header_addr hdr - load_addr hdr))) in
        let hdr := header_at m a in
        let m := if load_end_addr hdr <? bss_end_addr hdr
                 then stosb m (load_end_addr hdr) 0 (Z.to_nat (u32 (bss_end_addr hdr - load_end_addr hdr)))
                 else m in
        let hdr := header_at m a in
        Some (entry_addr hdr, m)
  end.
End Loader.
End Bootload.
Import Bootload.

Section Correct.
Context (drive : Z -> list Z) (Hdrive : forall n, length (drive n) = 512%nat).

(** Byte [k] of the kernel file, which starts at sector 1. *)
Definition file_byte (k : Z) : Z := getb (drive (k / 512 + 1)) (Z.to_nat (k mod 512)).

Lemma readsect_at m dst k x : 0 <= k < 2 ^ 28 ->
  readsect drive m dst k x = if decide (dst <= x < dst + 512) then getb (drive k) (Z.to_nat (x - dst)) else m x.
Proof.
  intros Hk. unfold readsect. change (2 ^ 28 - 1) with (Z.ones 28). rewrite Z.land_ones, Z.mod_small by lia.
  rewrite write_bytes_at, length_take, Hdrive. change (Z.of_nat (512 `min` 512)) with 512.
  case_decide; [|done]. unfold getb. by rewrite lookup_take_lt by lia.
Qed.

(** The loop, from a sector boundary of the file. *)
Lemma readseg_loop_at fuel : forall m pa epa k x,
  0 <= pa -> epa + 512 < 2 ^ 32 -> 0 <= k -> (epa - pa) / 512 + 1 + k < 2 ^ 28 -> epa - pa <= 512 * Z.of_nat fuel ->
  readseg_loop drive fuel m pa epa (k + 1) x =
    if decide (pa <= x < pa + (epa - pa + 511) / 512 * 512) then file_byte (512 * k + (x - pa)) else m x.
Proof.
  induction fuel as [|f IH]; intros m pa epa k x Hpa Hepa Hk Hbig Hfuel; cbn [readseg_loop].
  - rewrite decide_False; [done|]. divisions.
  - destruct (Z.ltb_spec pa epa) as [Hlt|Hge]; [|rewrite decide_False; [done|divisions]].
    unfold SECTSIZE. rewrite !u32_id by (unfold u32_range; divisions).
    rewrite IH; [|divisions..]. rewrite readsect_at by divisions.
    repeat case_decide; try divisions.
    + f_equal. lia.
    + unfold file_byte. replace ((512 * k + (x - pa)) / 512) with k by divisions.
      do 2 f_equal. divisions.
Qed.

(** [readseg] without wrap: the bytes asked for, and whole sectors around them. *)
Lemma readseg_at m pa count off x :
  0 <= off -> off mod 512 <= pa -> 0 <= count -> pa + count + 512 < 2 ^ 32 -> (off + count) / 512 + 3 < 2 ^ 28 -> off < 2 ^ 32 ->
  (pa <= x < pa + count -> readseg drive m pa count off x = file_byte (off + (x - pa))) /\
  (x < pa - off mod 512 \/ pa + count + 512 <= x -> readseg drive m pa count off x = m x).
Proof.
  intros Hoff Hpa Hc Hw Hs Ho. unfold readseg, SECTSIZE. rewrite !u32_id by (unfold u32_range; divisions).
  rewrite readseg_loop_at; [|divisions..]. split; intros Hx.
  - rewrite decide_True by divisions. f_equal. divisions.
  - rewrite decide_False by divisions. done.
Qed.

Lemma load_bytes_shift m m' a b n :
  (forall i, 0 <= i < Z.of_nat n -> m (a + i) = m' (b + i)) -> load_bytes m a n = load_bytes m' b n.
Proof.
  revert a b. induction n as [|n IH]; intros a b Hm; cbn [load_bytes]; [done|].
  pose proof (Hm 0 ltac:(lia)) as H0. rewrite !Z.add_0_r in H0. rewrite H0. rewrite (IH (a + 1) (b + 1)); [done|].
  intros i Hi. specialize (Hm (i + 1) ltac:(lia)). by replace (a + 1 + i) with (a + (i + 1)) by lia; replace (b + 1 + i) with (b + (i + 1)) by lia.
Qed.

(** A memory whose scratch area holds the start of the file. *)
Definition holds_start (m : memory) : Prop := forall i, 0 <= i < 8192 -> m (scratch + i) = file_byte i.

Lemma header_start m n : holds_start m -> (n <= 2040)%nat ->
  header_at m (scratch + 4 * Z.of_nat n) = header_at file_byte (4 * Z.of_nat n).
Proof.
  intros Hm Hn. unfold header_at, load32.
  assert (E : forall k, 0 <= k <= 28 -> load_bytes m (scratch + 4 * Z.of_nat n + k) 4 = load_bytes file_byte (4 * Z.of_nat n + k) 4).
  { intros k Hk. apply load_bytes_shift. intros i Hi. rewrite <- !Z.add_assoc. rewrite Hm by lia. done. }
  rewrite <- (Z.add_0_r (scratch + 4 * Z.of_nat n)) at 1. rewrite !E by lia. by rewrite Z.add_0_r.
Qed.

(** A header of the file at word [n]. *)
Definition file_header (n : nat) : bool :=
  let x k := load32 file_byte (4 * (Z.of_nat n + k)) in
  (x 0 =? 0x1BADB002) && (u32 (x 0 + x 1 + x 2) =? 0).

Lemma is_header_start m n : holds_start m -> (n <= 2040)%nat -> is_header m n = file_header n.
Proof.
  intros Hm Hn. unfold is_header, file_header, load32.
  assert (E : forall k, 0 <= k <= 2 -> load_bytes m (scratch + 4 * (Z.of_nat n + k)) 4 = load_bytes file_byte (4 * (Z.of_nat n + k)) 4).
  { intros k Hk. apply load_bytes_shift. intros i Hi. rewrite <- !Z.add_assoc. rewrite Hm by lia. done. }
  by rewrite !E by lia.
Qed.

Lemma find_header_start m n : holds_start m -> (n <= 2040)%nat -> file_header n = true ->
  (forall j, (j < n)%nat -> file_header j = false) -> find_header m = Some n.
Proof.
  intros Hm Hn Hyes Hno. unfold find_header.
  cut (forall k st, (st <= n < st + k)%nat -> List.find (is_header m) (seq st k) = Some n); [intros Hc; apply Hc; lia|].
  induction k as [|k IH]; intros st Hst; [lia|]. cbn [seq List.find]. destruct (decide (st = n)) as [->|Hne].
  - by rewrite is_header_start, Hyes.
  - rewrite is_header_start, Hno by (done || lia). apply IH. lia.
Qed.

(** C34: the boot loader loads the kernel.  If the first multiboot header of
    the kernel file, within its first 8192 bytes, asks for a region that does
    not wrap and lies above the loader's scratch memory, [bootmain] jumps to the
    header's entry address with every byte of [load_addr, load_end_addr) equal
    to the byte of the file at the offset the header implies, and the rest up
    to [bss_end_addr] zero. *)
Theorem bootmain_loads m n :
  let hdr := header_at file_byte (4 * Z.of_nat n) in
  let off := 4 * Z.of_nat n - (header_addr hdr - load_addr hdr) in
  (n <= 2040)%nat -> file_header n = true -> (forall j, (j < n)%nat -> file_header j = false) ->
  Z.land (flags hdr) 0x10000 <> 0 -> load_addr hdr <= header_addr hdr -> load_addr hdr <= load_end_addr hdr ->
  0 <= off -> scratch + 8192 <= load_addr hdr - off mod 512 -> load_end_addr hdr + 512 < 2 ^ 32 ->
  header_addr hdr < 2 ^ 32 -> bss_end_addr hdr < 2 ^ 32 ->
  exists m', bootmain drive m = Some (entry_addr hdr, m') /\
    (forall x, load_addr hdr <= x < load_end_addr hdr -> m' x = file_byte (off + (x - load_addr hdr))) /\
    (forall x, load_end_addr hdr <= x < bss_end_addr hdr -> m' x = 0).
Proof.
  intros hdr off Hn Hyes Hno Hfl Hla Hle Hoff Hscr Hend Hha Hbss. unfold bootmain.
  set (m1 := readseg drive m scratch 8192 0).
  assert (Hm1 : holds_start m1).
  { intros i Hi. destruct (readseg_at m scratch 8192 0 (scratch + i)) as [E _]; try (unfold scratch; lia).
    unfold m1. rewrite E by lia. f_equal. lia. }
  rewrite (find_header_start m1 n Hm1 Hn Hyes Hno), (header_start m1 n Hm1 Hn). cbv zeta. fold hdr.
  destruct (Z.eqb_spec (Z.land (flags hdr) 0x10000) 0); [done|].
  destruct (Z.ltb_spec (header_addr hdr) (load_addr hdr)); [lia|]. destruct (Z.ltb_spec (load_end_addr hdr) (load_addr hdr)); [lia|].
  assert (Hlo : 0 <= load_addr hdr) by (unfold scratch in Hscr; pose proof (Z.mod_pos_bound off 512); lia).
  rewrite (u32_id (header_addr hdr - load_addr hdr)) by (unfold u32_range; lia).
  replace (Z.of_nat n * 4 - (header_addr hdr - load_addr hdr)) with off by (unfold off; lia).
  rewrite (u32_id off), (u32_id (load_end_addr hdr - load_addr hdr)) by (unfold u32_range; lia).
  set (m2 := readseg drive m1 _ _ off).
  pose proof (Z.mod_pos_bound off 512 ltac:(lia)) as Hmod. unfold scratch in Hscr.
  assert (Hm2 : forall x, (load_addr hdr <= x < load_end_addr hdr -> m2 x = file_byte (off + (x - load_addr hdr))) /\
    (x < load_addr hdr - off mod 512 -> m2 x = m1 x)).
  { intros x. destruct (readseg_at m1 (load_addr hdr) (load_end_addr hdr - load_addr hdr) off x) as [E1 E2]; [lia|lia|lia|lia|divisions|lia|].
    split; intros Hx; [apply E1; lia|apply E2; lia]. }
  assert (Hs2 : holds_start m2).
  { intros i Hi. destruct (Hm2 (scratch + i)) as [_ E]. rewrite E by (unfold scratch; lia). by apply Hm1. }
  rewrite (header_start m2 n Hs2 Hn). fold hdr.
  set (m3 := if _ <? _ then _ else _).
  assert (Hm3 : forall x, m3 x = if decide (load_end_addr hdr <= x < bss_end_addr hdr) then 0 else m2 x).
  { intros x. unfold m3. destruct (Z.ltb_spec (load_end_addr hdr) (bss_end_addr hdr)).
    - rewrite stosb_fill, Z2Nat.id, u32_id by (apply u32_bounds || (unfold u32_range; lia)). unfold fill. change (u8 0) with 0.
      case_decide; ranges.
    - rewrite decide_False by lia. done. }
  assert (Hs3 : holds_start m3).
  { intros i Hi. rewrite Hm3, decide_False by (unfold scratch; lia). by apply Hs2. }
  rewrite (header_start m3 n Hs3 Hn). fold hdr. exists m3. split_and!; [done| |].
  - intros x Hx. rewrite Hm3, decide_False by lia. by apply Hm2.
  - intros x Hx. rewrite Hm3, decide_True by lia. done.
Qed.
End Correct.
