(* ===== verification/Mp.v ===== *)
(** mp.c: finding the processors.

    Memory is physical memory ([P2V] is the kernel's view of it).  The
    multiprocessor tables that the firmware left there are searched and
    decoded field by field. *)

From Stdlib Require Import ZifyNat.
From S2P Require Import Prelude Memory KState.

Module Mp.

Section Tables.
Context (m : memory).

Definition getw (a : Z) : Z := load_bytes m a 2.
Definition getl (a : Z) : Z := load_bytes m a 4.
Definition sizeof_mp : Z := 16.
Definition sizeof_mpconf : Z := 44.

(** [sum]: an [int] returned as a [uchar]. *)
Fixpoint sum_loop (a : Z) (len : nat) (acc : Z) : Z :=
  match len with
  | O => acc
  | S n => sum_loop (a + 1) n (i32 (acc + m a))
  end.
Definition sum (a : Z) (len : nat) : Z := u8 (sum_loop a len 0).

Definition signature (a : Z) (s : list Z) : bool := bool_decide (read_bytes m a 4 = s).
Definition MP_SIG : list Z := [95; 77; 80; 95].
Definition PCMP : list Z := [80; 67; 77; 80].

(** [for(p = addr; p < e; p += sizeof(struct mp))] *)
Definition mpsearch1 (a len : Z) : option Z :=
  List.find (fun p => signature p MP_SIG && (sum p 16 =? 0))
    ((fun k => a + sizeof_mp * Z.of_nat k) <$> seq 0 (Z.to_nat ((len + 15) / 16))).

Definition mpsearch : option Z :=
  let bda := 0x400 in
  let p := Z.shiftl (Z.lor (Z.shiftl (m (bda + 0x0F)) 8) (m (bda + 0x0E))) 4 in
  let first :=
    if negb (p =? 0) then mpsearch1 p 1024
    else mpsearch1 (u32 (Z.lor (Z.shiftl (m (bda + 0x14)) 8) (m (bda + 0x13)) * 1024 - 1024)) 1024 in
  match first with
  | Some mp => Some mp
  | None => mpsearch1 0xF0000 0x10000
  end.

Definition physaddr (mp : Z) : Z := getl (mp + 4).
Definition imcrp (mp : Z) : Z := m (mp + 12).
Definition conf_length (conf : Z) : Z := getw (conf + 4).
Definition version (conf : Z) : Z := m (conf + 6).
Definition lapicaddr (conf : Z) : Z := getl (conf + 36).

Definition mpconfig : option (Z * Z) :=
  match mpsearch with
  | None => None
  | Some mp =>
      if physaddr mp =? 0 then None else
      let conf := physaddr mp in
      if negb (signature conf PCMP) then None
      else if negb (version conf =? 1) && negb (version conf =? 4) then None
      else if negb (sum conf (Z.to_nat (conf_length conf)) =? 0) then None
      else Some (mp, conf)
  end.

Definition MPPROC : Z := 0.
Definition MPBUS : Z := 1.
Definition MPIOAPIC : Z := 2.
Definition MPIOINTR : Z := 3.
Definition MPLINTR : Z := 4.

(** The processors found (their APIC ids; [ncpu] is their number) and the id
    of the I/O APIC. *)
Record found := mkFound { apicids : list Z; ioapicid : Z }.
#[export] Instance found_eta : Eta found := fun f => mkFound (apicids f) (ioapicid f).

(** The walk from [conf + 1] to the end of the table; [None] is the panic. *)
Fixpoint mp_entries (fuel : nat) (p e : Z) (f : found) : option found :=
  match fuel with
  | O => Some f
  | S n =>
      if p <? e then
        if m p =? MPPROC then
          mp_entries n (p + 20) e
            (if Z.of_nat (length (apicids f)) <? NCPU then f <| apicids ::= fun l => l ++ [m (p + 1)] |> else f)
        else if m p =? MPIOAPIC then mp_entries n (p + 8) e (f <| ioapicid := m (p + 1) |>)
        else if (m p =? MPBUS) || (m p =? MPIOINTR) || (m p =? MPLINTR) then mp_entries n (p + 8) e f
        else None
      else Some f
  end.

(** [if(mp->imcrp)]: the port writes that switch the interrupts over to the
    APICs; [imcr] is what port 0x23 reads. *)
Definition imcr_writes (imcr mp : Z) : list (Z * Z) :=
  if imcrp mp =? 0 then [] else [(0x22, 0x70); (0x23, Z.lor imcr 1)].

(** What was found, the address of the local APIC and the port writes; the
    fuel is enough because an entry takes at least 8 bytes. *)
Definition mpinit (imcr : Z) (f : found) : option (found * option Z * list (Z * Z)) :=
  match mpconfig with
  | None => Some (f, None, [])
  | Some (mp, conf) =>
      let e := conf + conf_length conf in
      r ← mp_entries (Z.to_nat ((conf_length conf - sizeof_mpconf + 7) / 8)) (conf + sizeof_mpconf) e f;
      Some (r, Some (lapicaddr conf), imcr_writes imcr mp)
  end.
End Tables.
End Mp.
Import Mp.

(** * What the tables say *)

(** An entry of the configuration table. *)
Inductive mp_entry := Proc (apicid : Z) (rest : list Z) | Ioapic (apicno : Z) (rest : list Z) | Other (type : Z) (rest : list Z).
Definition entry_bytes (e : mp_entry) : list Z :=
  match e with
  | Proc a rest => MPPROC :: a :: rest
  | Ioapic a rest => MPIOAPIC :: a :: rest
  | Other t rest => t :: rest
  end.
Definition entry_ok (e : mp_entry) : Prop :=
  match e with
  | Proc _ rest => length rest = 18%nat
  | Ioapic _ rest => length rest = 6%nat
  | Other t rest => (t = MPBUS \/ t = MPIOINTR \/ t = MPLINTR) /\ length rest = 7%nat
  end.
Definition cpu_of (e : mp_entry) : list Z := match e with Proc a _ => [a] | _ => [] end.
Definition io_of (d : Z) (e : mp_entry) : Z := match e with Ioapic a _ => a | _ => d end.

(** Memory from [a] on holds the bytes [l]. *)
Definition bytes_at (m : memory) (a : Z) (l : list Z) : Prop :=
  forall i b, l !! i = Some b -> m (a + Z.of_nat i) = b.

Lemma bytes_at_app m a l l' : bytes_at m a (l ++ l') -> bytes_at m a l /\ bytes_at m (a + Z.of_nat (length l)) l'.
Proof.
  intros H. split; intros i b Hi.
  - apply H. by apply lookup_app_l_Some.
  - rewrite <- Z.add_assoc, <- Nat2Z.inj_add. apply H. rewrite lookup_app_r by lia. by replace (length l + i - length l)%nat with i by lia.
Qed.

Lemma mp_entries_table m es : forall fuel p f,
  Forall entry_ok es -> bytes_at m p (mjoin (entry_bytes <$> es)) ->
  (length (mjoin (entry_bytes <$> es)) <= 8 * fuel)%nat -> Z.of_nat (length (apicids f)) <= NCPU ->
  mp_entries m fuel p (p + Z.of_nat (length (mjoin (entry_bytes <$> es)))) f =
    Some (mkFound (take (Z.to_nat NCPU) (apicids f ++ mjoin (cpu_of <$> es))) (foldl io_of (ioapicid f) es)).
Proof.
  induction es as [|e es IH]; intros fuel p f Hok Hm Hfuel Hn.
  - cbn [fmap list_fmap]. change (mjoin []) with (@nil Z). rewrite app_nil_r, take_ge by lia. cbn [length foldl].
    rewrite Z.add_0_r. destruct fuel; cbn [mp_entries]; [by destruct f|]. rewrite Z.ltb_irrefl. by destruct f.
  - apply Forall_cons in Hok as [He Hok].
    change (mjoin (entry_bytes <$> (e :: es))) with (entry_bytes e ++ mjoin (entry_bytes <$> es)) in *.
    change (mjoin (cpu_of <$> (e :: es))) with (cpu_of e ++ mjoin (cpu_of <$> es)). rewrite length_app in *.
    apply bytes_at_app in Hm as [Hm Hm']. destruct fuel as [|fuel]; [destruct e; cbn in *; lia|].
    cbn [mp_entries]. set (rest := mjoin (entry_bytes <$> es)) in *.
    assert (H0 : forall b, entry_bytes e !! 0%nat = Some b -> m p = b) by (intros b Hb; specialize (Hm 0%nat b Hb); by rewrite Z.add_0_r in Hm).
    assert (H1 : forall b, entry_bytes e !! 1%nat = Some b -> m (p + 1) = b) by (intros b Hb; exact (Hm 1%nat b Hb)).
    destruct (Z.ltb_spec p (p + Z.of_nat (length (entry_bytes e) + length rest))) as [_|]; [|destruct e; cbn in *; lia].
    destruct e as [a r|a r|t r]; cbn [entry_ok] in He; cbn [entry_bytes length] in *.
    + rewrite (H0 MPPROC eq_refl), (H1 a eq_refl). change (MPPROC =? MPPROC) with true. cbn iota.
      replace (p + Z.of_nat (S (S (length r)) + length rest)) with (p + 20 + Z.of_nat (length rest)) by lia.
      replace (p + Z.of_nat (S (S (length r)))) with (p + 20) in Hm' by lia. cbn [cpu_of app foldl io_of].
      destruct (Z.ltb_spec (Z.of_nat (length (apicids f))) NCPU) as [Hlt|Hge].
      * rewrite IH; [|done|done|lia|cbn [apicids setter]; rewrite length_app; cbn; lia]. cbn [apicids ioapicid setter]. by rewrite <- app_assoc.
      * rewrite IH; [|done|done|lia|done]. f_equal. f_equal.
        assert (E : length (apicids f) = Z.to_nat NCPU) by lia. rewrite !take_app_le by lia. done.
    + rewrite (H0 MPIOAPIC eq_refl), (H1 a eq_refl). change (MPIOAPIC =? MPPROC) with false. change (MPIOAPIC =? MPIOAPIC) with true. cbn iota.
      replace (p + Z.of_nat (S (S (length r)) + length rest)) with (p + 8 + Z.of_nat (length rest)) by lia.
      replace (p + Z.of_nat (S (S (length r)))) with (p + 8) in Hm' by lia. cbn [cpu_of app foldl io_of].
      rewrite IH; [done|done|done|lia|done].
    + rewrite (H0 t eq_refl). destruct He as [Ht Hr].
      replace (p + Z.of_nat (S (length r) + length rest)) with (p + 8 + Z.of_nat (length rest)) by lia.
      replace (p + Z.of_nat (S (length r))) with (p + 8) in Hm' by lia. cbn [cpu_of app foldl io_of].
      assert (Hsel : (t =? MPPROC) = false /\ (t =? MPIOAPIC) = false /\ (t =? MPBUS) || (t =? MPIOINTR) || (t =? MPLINTR) = true)
        by by destruct Ht as [->|[-> | ->]].
      destruct Hsel as (-> & -> & ->). rewrite IH; [done|done|done|lia|done].
Qed.

(** The search finds the first structure in its range. *)
Lemma find_first_spec (P : Z -> bool) l p : List.find P l = Some p -> P p = true /\ p ∈ l.
Proof. intros E. apply List.find_some in E as [H1 H2]. split; [done|]. by apply list_elem_of_In. Qed.

(** C35: the processors are found.  If the firmware's floating pointer leads
    to a configuration table that passes the checks, with any sequence of
    well-formed entries after its header, [mpinit] walks exactly those entries
    without panicking: it takes the APIC ids of the first NCPU processors in
    table order, the id of the last I/O APIC and the address of the local APIC,
    and the pointer it used carries the signature and a zero checksum. *)
Theorem mpinit_reads_table m mp conf es f imcr :
  mpconfig m = Some (mp, conf) -> Forall entry_ok es ->
  bytes_at m (conf + sizeof_mpconf) (mjoin (entry_bytes <$> es)) ->
  conf_length m conf = sizeof_mpconf + Z.of_nat (length (mjoin (entry_bytes <$> es))) -> Z.of_nat (length (apicids f)) <= NCPU ->
  mpinit m imcr f = Some (mkFound (take (Z.to_nat NCPU) (apicids f ++ mjoin (cpu_of <$> es))) (foldl io_of (ioapicid f) es),
                     Some (lapicaddr m conf), imcr_writes m imcr mp) /\
  read_bytes m mp 4 = MP_SIG /\ sum m mp 16 = 0 /\ physaddr m mp = conf /\ sum m conf (Z.to_nat (conf_length m conf)) = 0.
Proof.
  intros Hc Hok Hm Hlen Hn. split.
  - unfold mpinit. rewrite Hc. rewrite Hlen. rewrite Z.add_assoc.
    rewrite mp_entries_table; [done|done|done| |done]. divisions.
  - unfold mpconfig in Hc. destruct (mpsearch m) as [mp'|] eqn:Es; [|done].
    destruct (physaddr m mp' =? 0); [done|]. destruct (negb (signature m _ PCMP)); [done|].
    destruct (negb _ && negb _); [done|]. destruct (negb (sum m (physaddr m mp') _ =? 0)) eqn:Esum; [done|]. injection Hc as <- <-.
    apply negb_false_iff, Z.eqb_eq in Esum.
    assert (Hfound : signature m mp' MP_SIG && (sum m mp' 16 =? 0) = true).
    { unfold mpsearch in Es. revert Es. match goal with |- context [match ?x with Some _ => _ | None => _ end] => destruct x as [q|] eqn:Eq end.
      - intros [= ->]. destruct (negb _); unfold mpsearch1 in Eq; by apply find_first_spec in Eq as [? _].
      - intros Es. unfold mpsearch1 in Es. by apply find_first_spec in Es as [? _]. }
    apply andb_true_iff in Hfound as [Hs1 Hs2]. unfold signature in Hs1. apply bool_decide_eq_true_1 in Hs1. apply Z.eqb_eq in Hs2. by split_and!.
Qed.
