(* ===== verification/Device.v ===== *)
(** The machine the device drivers program.

    Port I/O and memory-mapped registers belong to hardware, so they are the
    operations of a class [Machine]; what a driver relies on about its device is
    a class of laws over it ([Serial], [Crt]).  The drivers' own variables
    ([uart], [panicked], [lapic]) stand beside the machine in [drivers], and the
    drivers run in the monad of Control.v over that state.  At the end a simple
    personal computer satisfies all the laws. *)

From S2P Require Import Prelude Control Memory.

Class Machine (S : Type) := {
  port_in : Z -> S -> Z * S;
  port_out : Z -> Z -> S -> S;
  reg_in : Z -> S -> Z * S;
  reg_out : Z -> Z -> S -> S;
  ram : S -> memory;
  set_ram : (memory -> memory) -> S -> S;
}.

Record drivers (S : Type) := mkDrivers {
  hw : S;
  uart : bool;
  panicked : bool;
  lapic : Z
}.
#[global] Arguments mkDrivers {S} _ _ _ _.
#[global] Arguments hw {S} _.
#[global] Arguments uart {S} _.
#[global] Arguments panicked {S} _.
#[global] Arguments lapic {S} _.
#[export] Instance drivers_eta {S} : Eta (drivers S) := fun d => mkDrivers (hw d) (uart d) (panicked d) (lapic d).

Section Access.
Context {S : Type} `{!Machine S}.
Abbreviation D := (M (drivers S)).

Definition inb (p : Z) : D Z := fun d w => let '(v, h) := port_in p (hw d) in Ok v (d <| hw := h |>) w.
Definition outb (p v : Z) : D unit := modify (fun d => d <| hw ::= port_out p (u8 v) |>).
Definition readl (a : Z) : D Z := fun d w => let '(v, h) := reg_in a (hw d) in Ok v (d <| hw := h |>) w.
Definition writel (a v : Z) : D unit := modify (fun d => d <| hw ::= reg_out a (u32 v) |>).
Definition upd_ram (f : memory -> memory) : D unit := modify (fun d => d <| hw ::= set_ram f |>).

Lemma runs_inb d p Q : Q (port_in p (hw d)).1 (d <| hw := (port_in p (hw d)).2 |>) -> runs d (inb p) Q.
Proof. intros H w. unfold inb. destruct (port_in p (hw d)) as [v h]. eauto. Qed.
Lemma runs_readl d a Q : Q (reg_in a (hw d)).1 (d <| hw := (reg_in a (hw d)).2 |>) -> runs d (readl a) Q.
Proof. intros H w. unfold readl. destruct (reg_in a (hw d)) as [v h]. eauto. Qed.
Lemma runs_outb d p v Q : Q tt (d <| hw ::= port_out p (u8 v) |>) -> runs d (outb p v) Q.
Proof. apply runs_modify. Qed.
Lemma runs_writel d a v Q : Q tt (d <| hw ::= reg_out a (u32 v) |>) -> runs d (writel a v) Q.
Proof. apply runs_modify. Qed.
Lemma runs_upd_ram d f Q : Q tt (d <| hw ::= set_ram f |>) -> runs d (upd_ram f) Q.
Proof. apply runs_modify. Qed.
End Access.

Ltac dev_step :=
  first [ apply runs_bind | apply runs_ret | apply runs_inb | apply runs_outb | apply runs_readl | apply runs_writel
        | apply runs_upd_ram | apply runs_gets | apply runs_modify ].

(** * What the drivers rely on *)

(** The serial port at 0x3f8: with the divisor latch closed a write to its
    first register transmits, with the latch open it sets the low byte of the
    baud rate divisor. *)
Definition COM1 : Z := 0x3f8.
Class Serial (S : Type) `{!Machine S} := {
  sent : S -> list Z;
  latch : S -> bool;
  divisor : S -> Z;
  serial_data v s : 0 <= v < 256 ->
    sent (port_out COM1 v s) = (if latch s then sent s else sent s ++ [v]) /\
    divisor (port_out COM1 v s) = (if latch s then divisor s / 256 * 256 + v else divisor s);
  serial_high v s : 0 <= v < 256 ->
    divisor (port_out (COM1 + 1) v s) = (if latch s then v * 256 + divisor s mod 256 else divisor s);
  serial_control v s : latch (port_out (COM1 + 3) v s) = Z.testbit v 7;
  serial_sent p v s : p <> COM1 -> sent (port_out p v s) = sent s;
  serial_latch p v s : p <> COM1 + 3 -> latch (port_out p v s) = latch s;
  serial_divisor p v s : p <> COM1 -> p <> COM1 + 1 -> divisor (port_out p v s) = divisor s;
  serial_in p s : let s' := (port_in p s).2 in sent s' = sent s /\ latch s' = latch s /\ divisor s' = divisor s;
  serial_ram f s : sent (set_ram f s) = sent s /\ latch (set_ram f s) = latch s /\ divisor (set_ram f s) = divisor s;
}.

(** The video controller: port 0x3d4 selects a register, port 0x3d5 reads and
    writes it; registers 14 and 15 are the bytes of the cursor's position. *)
Definition CRTPORT : Z := 0x3d4.
Class Crt (S : Type) `{!Machine S} := {
  selected : S -> Z;
  cursor : S -> Z;
  cursor_range s : 0 <= cursor s < 65536;
  crt_select v s : selected (port_out CRTPORT v s) = v /\ cursor (port_out CRTPORT v s) = cursor s;
  crt_read s : selected (port_in (CRTPORT + 1) s).2 = selected s /\ cursor (port_in (CRTPORT + 1) s).2 = cursor s /\
    (selected s = 14 -> (port_in (CRTPORT + 1) s).1 = cursor s / 256) /\
    (selected s = 15 -> (port_in (CRTPORT + 1) s).1 = cursor s mod 256);
  crt_write v s : 0 <= v < 256 -> selected (port_out (CRTPORT + 1) v s) = selected s /\
    (selected s = 14 -> cursor (port_out (CRTPORT + 1) v s) = v * 256 + cursor s mod 256) /\
    (selected s = 15 -> cursor (port_out (CRTPORT + 1) v s) = cursor s / 256 * 256 + v);
  crt_out p v s : p <> CRTPORT -> p <> CRTPORT + 1 -> cursor (port_out p v s) = cursor s;
  crt_in p s : cursor (port_in p s).2 = cursor s;
  crt_ram f s : cursor (set_ram f s) = cursor s;
}.

(** Memory is changed by [set_ram] only. *)
Class Ram (S : Type) `{!Machine S} := {
  ram_set f s : ram (set_ram f s) = f (ram s);
  ram_in p s : ram (port_in p s).2 = ram s;
  ram_out p v s : ram (port_out p v s) = ram s;
}.
