(* ===== verification/Apic.v ===== *)
(** ioapic.c and lapic.c: the interrupt controllers and the clock.

    The registers are those of the machine of Device.v; the laws of the I/O APIC
    ([IoapicDevice]) and the real-time clock ([Rtc]) are what the drivers rely
    on. *)

From Stdlib Require Import ZifyNat.
From Stdlib Require Zbitwise.
From S2P Require Import Prelude Control Memory KState Format Trap Mp Device.

Definition IRQ_ERROR : Z := 19.

Module Ioapic.
Section Driver.
Context {S : Type} `{!Machine S}.
Abbreviation D := (M (drivers S)).

Definition IOAPIC : Z := 0xFEC00000.
Definition IODATA : Z := IOAPIC + 16.
Definition REG_ID : Z := 0x00.
Definition REG_VER : Z := 0x01.
Definition REG_TABLE : Z := 0x10.
Definition INT_DISABLED : Z := 0x00010000.

Definition ioapicread (reg : Z) : D Z := writel IOAPIC reg ;; readl IODATA.
Definition ioapicwrite (reg data : Z) : D unit := writel IOAPIC reg ;; writel IODATA data.

(** The result is what it prints. *)
Definition ioapicinit (ioapicid : Z) : D (list Z) :=
  v ← ioapicread REG_VER;
  let maxintr := Z.land (Z.shiftr v 16) 0xFF in
  r ← ioapicread REG_ID;
  let id := Z.shiftr r 24 in
  for_each (Z.of_nat <$> seq 0 (Z.to_nat (maxintr + 1))) (fun i =>
    ioapicwrite (REG_TABLE + 2 * i) (Z.lor INT_DISABLED (T_IRQ0 + i)) ;;
    ioapicwrite (REG_TABLE + 2 * i + 1) 0) ;;
  mret (if id =? ioapicid then []
        else bytes_of "ioapicinit: id isn't equal to ioapicid; not a MP" ++ [10]).

Definition ioapicenable (irq cpunum : Z) : D unit :=
  ioapicwrite (REG_TABLE + 2 * irq) (T_IRQ0 + irq) ;;
  ioapicwrite (REG_TABLE + 2 * irq + 1) (Z.shiftl cpunum 24).
End Driver.
End Ioapic.

Module Lapic.
Section Driver.
Context {S : Type} `{!Machine S}.
Abbreviation D := (M (drivers S)).

Definition ID : Z := 0x0020 / 4.
Definition VER : Z := 0x0030 / 4.
Definition TPR : Z := 0x0080 / 4.
Definition EOI : Z := 0x00B0 / 4.
Definition SVR : Z := 0x00F0 / 4.
Definition ENABLE : Z := 0x00000100.
Definition ESR : Z := 0x0280 / 4.
Definition ICRLO : Z := 0x0300 / 4.
Definition INIT : Z := 0x00000500.
Definition STARTUP : Z := 0x00000600.
Definition DELIVS : Z := 0x00001000.
Definition ASSERT : Z := 0x00004000.
Definition LEVEL : Z := 0x00008000.
Definition BCAST : Z := 0x00080000.
Definition ICRHI : Z := 0x0310 / 4.
Definition TIMER : Z := 0x0320 / 4.
Definition X1 : Z := 0x0000000B.
Definition PERIODIC : Z := 0x00020000.
Definition PCINT : Z := 0x0340 / 4.
Definition LINT0 : Z := 0x0350 / 4.
Definition LINT1 : Z := 0x0360 / 4.
Definition ERROR : Z := 0x0370 / 4.
Definition MASKED : Z := 0x00010000.
Definition TICR : Z := 0x0380 / 4.
Definition TDCR : Z := 0x03E0 / 4.

Definition lapicr (index : Z) : D Z := a ← gets lapic; readl (a + 4 * index).
Definition lapicw (index value : Z) : D unit :=
  a ← gets lapic;
  writel (a + 4 * index) value ;;
  _ ← lapicr ID;
  mret tt.

(** [while(lapic[ICRLO] & DELIVS)]: [fuel] polls; a controller that never
    delivers keeps the processor here. *)
Fixpoint wait_delivered (fuel : nat) : D unit :=
  match fuel with
  | O => no_return
  | Datatypes.S n =>
      v ← lapicr ICRLO;
      if Z.land v DELIVS =? 0 then mret tt else wait_delivered n
  end.

Definition lapicinit (fuel : nat) : D unit :=
  a ← gets lapic;
  if a =? 0 then mret tt else
  lapicw SVR (Z.lor ENABLE (T_IRQ0 + IRQ_SPURIOUS)) ;;
  lapicw TDCR X1 ;;
  lapicw TIMER (Z.lor PERIODIC (T_IRQ0 + IRQ_TIMER)) ;;
  lapicw TICR 10000000 ;;
  lapicw LINT0 MASKED ;;
  lapicw LINT1 MASKED ;;
  v ← lapicr VER;
  when (4 <=? Z.land (Z.shiftr v 16) 0xFF) (lapicw PCINT MASKED) ;;
  lapicw ERROR (T_IRQ0 + IRQ_ERROR) ;;
  lapicw ESR 0 ;;
  lapicw ESR 0 ;;
  lapicw EOI 0 ;;
  lapicw ICRHI 0 ;;
  lapicw ICRLO (Z.lor (Z.lor BCAST INIT) LEVEL) ;;
  wait_delivered fuel ;;
  lapicw TPR 0.

(** [for (i = 0; i < ncpu; ++i)] *)
Fixpoint find_cpu (apicids : list Z) (apicid i : Z) : option Z :=
  match apicids with
  | [] => None
  | x :: l => if x =? apicid then Some i else find_cpu l apicid (i + 1)
  end.
(** [apicids] are the processors that mp.c found.  The warning printed when
    interrupts are on is left out: every caller has them off. *)
Definition cpunum (apicids : list Z) : D Z :=
  a ← gets lapic;
  if a =? 0 then mret 0 else
  v ← lapicr ID;
  match find_cpu apicids (Z.shiftr v 24) 0 with
  | Some i => mret i
  | None => panic "unknown apicid"
  end.

Definition lapiceoi : D unit :=
  a ← gets lapic;
  if a =? 0 then mret tt else lapicw EOI 0.

(** [microdelay] does nothing. *)
Definition microdelay (us : Z) : D unit := mret tt.

Definition CMOS_PORT : Z := 0x70.
Definition CMOS_RETURN : Z := 0x71.

Definition store16 (m : memory) (a v : Z) : memory := write_bytes m a [u8 v; u8 (Z.shiftr v 8)].

Definition lapicstartap (apicid addr : Z) : D unit :=
  outb CMOS_PORT 0xF ;;
  outb (CMOS_PORT + 1) 0x0A ;;
  let wrv := Z.lor (Z.shiftl 0x40 4) 0x67 in
  upd_ram (fun m => store16 m wrv 0) ;;
  upd_ram (fun m => store16 m (wrv + 2) (Z.shiftr addr 4)) ;;
  lapicw ICRHI (Z.shiftl apicid 24) ;;
  lapicw ICRLO (Z.lor (Z.lor INIT LEVEL) ASSERT) ;;
  microdelay 200 ;;
  lapicw ICRLO (Z.lor INIT LEVEL) ;;
  microdelay 100 ;;
  for_each [0; 1] (fun i =>
    lapicw ICRHI (Z.shiftl apicid 24) ;;
    lapicw ICRLO (Z.lor STARTUP (Z.shiftr addr 12)) ;;
    microdelay 200).

Definition CMOS_STATA : Z := 0x0a.
Definition CMOS_STATB : Z := 0x0b.
Definition CMOS_UIP : Z := 128.
Definition SECS : Z := 0x00.
Definition MINS : Z := 0x02.
Definition HOURS : Z := 0x04.
Definition DAY : Z := 0x07.
Definition MONTH : Z := 0x08.
Definition YEAR : Z := 0x09.

Record rtcdate := mkDate { second : Z; minute : Z; hour : Z; day : Z; month : Z; year : Z }.
#[export] Instance rtcdate_eta : Eta rtcdate := fun d => mkDate (second d) (minute d) (hour d) (day d) (month d) (year d).
#[export] Instance rtcdate_eq_dec : EqDecision rtcdate.
Proof. solve_decision. Defined.

Definition cmos_read (reg : Z) : D Z :=
  outb CMOS_PORT reg ;;
  microdelay 200 ;;
  inb CMOS_RETURN.

Definition fill_rtcdate : D rtcdate :=
  s ← cmos_read SECS;
  m ← cmos_read MINS;
  h ← cmos_read HOURS;
  d ← cmos_read DAY;
  mo ← cmos_read MONTH;
  y ← cmos_read YEAR;
  mret (mkDate s m h d mo y).

(** [for(;;)]: [fuel] readings of the clock. *)
Fixpoint stable_date (fuel : nat) : D rtcdate :=
  match fuel with
  | O => no_return
  | Datatypes.S n =>
      t1 ← fill_rtcdate;
      a ← cmos_read CMOS_STATA;
      if negb (Z.land a CMOS_UIP =? 0) then stable_date n else
      t2 ← fill_rtcdate;
      if bool_decide (t1 = t2) then mret t1 else stable_date n
  end.

Definition CONV (x : Z) : Z := u32 (Z.shiftr x 4 * 10 + Z.land x 0xf).

Definition cmostime (fuel : nat) : D rtcdate :=
  sb ← cmos_read CMOS_STATB;
  let bcd := Z.land sb (Z.shiftl 1 2) =? 0 in
  t1 ← stable_date fuel;
  let t1 := if bcd then mkDate (CONV (second t1)) (CONV (minute t1)) (CONV (hour t1)) (CONV (day t1))
                              (CONV (month t1)) (CONV (year t1)) else t1 in
  mret (t1 <| year ::= fun y => u32 (y + 2000) |>).

(** trap.c: [print_rtc_time], the text it prints. *)
Definition rtc_field (reg : Z) : D Z :=
  outb 0x70 reg ;;
  v ← inb 0x71;
  mret (from_bcd v).
Definition print_rtc_time : D (list Z) :=
  secs ← rtc_field 0x00;
  mins ← rtc_field 0x02;
  hours ← rtc_field 0x04;
  mret (cprintf_out (bytes_of "%d:%d:%d" ++ [10]) [AInt hours; AInt mins; AInt secs]).
End Driver.
End Lapic.
Import Ioapic Lapic.

(** * The I/O APIC *)

(** Writing [IOAPIC] selects a register and [IODATA] accesses it.  The
    redirection table has two registers per pin: of the low one the vector, the
    mode and the mask can be written, of the high one the destination. *)
Class IoapicDevice (S : Type) `{!Machine S} := {
  ioselected : S -> Z;
  ioregs : S -> Z -> Z;
  pins s : Z := Z.land (Z.shiftr (ioregs s REG_VER) 16) 0xFF;
  io_select v s : ioselected (reg_out IOAPIC v s) = v /\ forall r, ioregs (reg_out IOAPIC v s) r = ioregs s r;
  io_read s : (reg_in IODATA s).1 = ioregs s (ioselected s) /\ forall r, ioregs (reg_in IODATA s).2 r = ioregs s r;
  io_write v s pin high : 0 <= pin <= pins s -> ioselected s = REG_TABLE + 2 * pin + Z.b2z high ->
    (if high then 0 <= v < 2 ^ 32 /\ v mod 2 ^ 24 = 0 else 0 <= v < 2 ^ 17) ->
    forall r, ioregs (reg_out IODATA v s) r = if r =? ioselected s then v else ioregs s r;
}.

Section Routing.
Context {S : Type} `{!Machine S} `{!IoapicDevice S}.

Lemma pins_eq s s' : (forall r, ioregs s' r = ioregs s r) -> pins s' = pins s.
Proof. intros H. unfold pins. by rewrite H. Qed.

Lemma pins_max s : pins s <= 255.
Proof. unfold pins. rewrite (Z.land_ones _ 8) by lia. pose proof (Z.mod_pos_bound (Z.shiftr (ioregs s REG_VER) 16) (2 ^ 8)). lia. Qed.

Lemma runs_ioapicread d reg (Q : Z -> drivers S -> Prop) : 0 <= reg < 2 ^ 32 ->
  (forall d', (forall r, ioregs (hw d') r = ioregs (hw d) r) -> Q (ioregs (hw d) reg) d') -> runs d (ioapicread reg) Q.
Proof.
  intros Hreg HQ. unfold ioapicread. do 3 dev_step. cbn [hw setter]. rewrite (u32_id reg) by done. destruct (io_select reg (hw d)) as [Es Er].
  destruct (io_read (reg_out IOAPIC reg (hw d))) as [Ev Er']. rewrite Ev, Es, Er. apply HQ. cbn. intros r. by rewrite Er', Er.
Qed.

Lemma runs_ioapicwrite d pin (high : bool) v (Q : unit -> drivers S -> Prop) : 0 <= pin <= pins (hw d) ->
  (if high then 0 <= v < 2 ^ 32 /\ v mod 2 ^ 24 = 0 else 0 <= v < 2 ^ 17) ->
  (forall d', (forall r, ioregs (hw d') r = if r =? REG_TABLE + 2 * pin + Z.b2z high then v else ioregs (hw d) r) -> Q tt d') ->
  runs d (ioapicwrite (REG_TABLE + 2 * pin + Z.b2z high) v) Q.
Proof.
  intros Hpin Hv HQ. pose proof (pins_max (hw d)) as Hp.
  assert (Hreg : 0 <= REG_TABLE + 2 * pin + Z.b2z high < 2 ^ 32) by (unfold REG_TABLE; destruct high; cbn; lia).
  unfold ioapicwrite. do 3 dev_step. cbn [hw setter]. rewrite (u32_id (REG_TABLE + _ + _)) by done.
  assert (Ev : u32 v = v) by (apply u32_id; unfold u32_range; destruct high; lia). rewrite Ev.
  set (reg := REG_TABLE + 2 * pin + Z.b2z high) in *. destruct (io_select reg (hw d)) as [Es Er].
  apply HQ. cbn. intros r. rewrite (io_write _ _ pin high), Es, Er; [done| |exact Es|done]. by rewrite (pins_eq _ _ Er).
Qed.

(** The processor a pin's interrupts go to after some calls of
    [ioapicenable]. *)
Definition route (calls : list (Z * Z)) (pin : Z) : option Z :=
  foldl (fun r c => if c.1 =? pin then Some c.2 else r) None calls.
Definition low_word (r : option Z) (pin : Z) : Z :=
  match r with Some _ => T_IRQ0 + pin | None => Z.lor INT_DISABLED (T_IRQ0 + pin) end.
Definition high_word (r : option Z) : Z := match r with Some cpu => Z.shiftl cpu 24 | None => 0 end.
Definition routed (calls : list (Z * Z)) (s : S) : Prop := forall pin, 0 <= pin <= pins s ->
  ioregs s (REG_TABLE + 2 * pin) = low_word (route calls pin) pin /\
  ioregs s (REG_TABLE + 2 * pin + 1) = high_word (route calls pin).

Lemma table_pair d pin lo hi (Q : unit -> drivers S -> Prop) : 0 <= pin <= pins (hw d) -> 0 <= lo < 2 ^ 17 ->
  0 <= hi < 2 ^ 32 -> hi mod 2 ^ 24 = 0 ->
  (forall d', (forall r, ioregs (hw d') r = if r =? REG_TABLE + 2 * pin then lo else
     if r =? REG_TABLE + 2 * pin + 1 then hi else ioregs (hw d) r) -> Q tt d') ->
  runs d (ioapicwrite (REG_TABLE + 2 * pin) lo ;; ioapicwrite (REG_TABLE + 2 * pin + 1) hi) Q.
Proof.
  intros Hpin Hlo Hhi Hm HQ. apply runs_bind. pose proof (runs_ioapicwrite d pin false lo) as H1. cbn [Z.b2z] in H1.
  rewrite Z.add_0_r in H1. apply H1; [done|done|]. intros d1 E1.
  assert (Ep : pins (hw d1) = pins (hw d)). { unfold pins. rewrite E1. destruct (Z.eqb_spec REG_VER (REG_TABLE + 2 * pin)); [unfold REG_VER, REG_TABLE in *; lia|done]. }
  apply (runs_ioapicwrite d1 pin true hi); [lia|done|]. intros d2 E2. apply HQ. intros r. rewrite E2, E1. cbn [Z.b2z].
  destruct (Z.eqb_spec r (REG_TABLE + 2 * pin + 1)), (Z.eqb_spec r (REG_TABLE + 2 * pin)); try done; lia.
Qed.

Lemma pair_pins (s s' : S) pin lo hi : 0 <= pin ->
  (forall r, ioregs s' r = if r =? REG_TABLE + 2 * pin then lo else if r =? REG_TABLE + 2 * pin + 1 then hi else ioregs s r) ->
  pins s' = pins s.
Proof.
  intros Hpin H. unfold pins. rewrite H. unfold REG_VER, REG_TABLE. by rewrite !(proj2 (Z.eqb_neq _ _)) by lia.
Qed.

Lemma masked_word i : 0 <= i <= 255 -> 0 <= Z.lor INT_DISABLED (T_IRQ0 + i) < 2 ^ 17.
Proof.
  intros Hi. pose proof (Zbitwise.Z.add_lor_land INT_DISABLED (T_IRQ0 + i)) as E. unfold INT_DISABLED, T_IRQ0 in *.
  pose proof (proj2 (Z.land_nonneg 65536 (32 + i))). pose proof (proj2 (Z.lor_nonneg 65536 (32 + i))). lia.
Qed.

(** A pair of registers is as it should be once the loop has passed it. *)
Definition masked_upto (s0 : S) (n : Z) (s : S) : Prop := pins s = pins s0 /\
  forall pin, 0 <= pin < n -> ioregs s (REG_TABLE + 2 * pin) = low_word None pin /\ ioregs s (REG_TABLE + 2 * pin + 1) = 0.

Lemma runs_mask_all d (Q : unit -> drivers S -> Prop) :
  (forall d', routed [] (hw d') -> pins (hw d') = pins (hw d) -> Q tt d') ->
  runs d (for_each (Z.of_nat <$> seq 0 (Z.to_nat (pins (hw d) + 1))) (fun i =>
    ioapicwrite (REG_TABLE + 2 * i) (Z.lor INT_DISABLED (T_IRQ0 + i)) ;;
    ioapicwrite (REG_TABLE + 2 * i + 1) 0)) Q.
Proof.
  intros HQ. pose proof (pins_max (hw d)) as Hmax.
  apply (runs_for_each (fun l d' => masked_upto (hw d) (Z.of_nat (length l)) (hw d'))).
  - split; [done|]. cbn. lia.
  - intros l i rest d1 El [Ep Hl]. pose proof (f_equal (fun x => x !! length l) El) as Ei. cbn in Ei.
    rewrite list_lookup_middle in Ei by done. apply list_lookup_fmap_Some in Ei as (k & -> & Ek). apply lookup_seq in Ek as [-> Hk].
    rewrite Nat.add_0_l in *. apply table_pair; [lia|apply masked_word; lia|lia|done|]. intros d2 E2.
    split; [rewrite <- Ep; eapply pair_pins; [|exact E2]; lia|].
    intros pin Hpin. rewrite length_app in Hpin. cbn [length] in Hpin. rewrite !E2.
    destruct (decide (pin = Z.of_nat (length l))) as [->|Hne].
    + by rewrite !Z.eqb_refl, (proj2 (Z.eqb_neq _ _)) by lia.
    + rewrite !(proj2 (Z.eqb_neq _ _)) by lia. apply Hl. lia.
  - intros d' [Ep Hall]. rewrite length_fmap, length_seq in Hall. apply HQ; [|done]. intros pin Hpin.
    rewrite Ep in Hpin. apply (Hall pin). lia.
Qed.

Lemma routed_snoc calls irq cpu s s' : 0 <= irq <= pins s -> routed calls s ->
  (forall r, ioregs s' r = if r =? REG_TABLE + 2 * irq then T_IRQ0 + irq else
     if r =? REG_TABLE + 2 * irq + 1 then Z.shiftl cpu 24 else ioregs s r) -> routed (calls ++ [(irq, cpu)]) s'.
Proof.
  intros Hirq Hr H pin Hpin. rewrite (pair_pins s s' irq _ _ (proj1 Hirq) H) in Hpin. unfold route. rewrite foldl_app. cbn [foldl fst snd].
  fold (route calls pin). rewrite !H. destruct (Z.eqb_spec irq pin) as [->|Hne].
  - by rewrite !Z.eqb_refl, (proj2 (Z.eqb_neq _ _)) by lia.
  - rewrite !(proj2 (Z.eqb_neq _ _)) by lia. by apply Hr.
Qed.

(** C36: The I/O APIC driver routes interrupts as asked: after [ioapicinit] and
    any sequence of [ioapicenable] calls for pins the controller has, every pin
    that was never enabled is masked, and every other delivers vector
    [T_IRQ0 + pin], unmasked, to the processor of the last call for it. *)
Theorem ioapic_routes (d : drivers S) id calls :
  Forall (fun c => 0 <= c.1 <= pins (hw d) /\ 0 <= c.2 < 256) calls ->
  exists d', (ioapicinit id ;; for_each calls (fun c => ioapicenable c.1 c.2)) d [] = Ok tt d' [] /\
    pins (hw d') = pins (hw d) /\
    forall pin, 0 <= pin <= pins (hw d) ->
      ioregs (hw d') (REG_TABLE + 2 * pin) =
        match route calls pin with Some _ => T_IRQ0 + pin | None => Z.lor INT_DISABLED (T_IRQ0 + pin) end /\
      ioregs (hw d') (REG_TABLE + 2 * pin + 1) = match route calls pin with Some cpu => Z.shiftl cpu 24 | None => 0 end.
Proof.
  intros Hcalls. pose proof (pins_max (hw d)) as Hmax.
  cut (runs d (ioapicinit id ;; for_each calls (fun c => ioapicenable c.1 c.2))
    (fun _ d' => pins (hw d') = pins (hw d) /\ routed calls (hw d'))).
  { intros H. destruct (H []) as ([] & d' & E & Ep & Hr). exists d'. split; [done|]. split; [done|]. rewrite <- Ep. exact Hr. }
  apply runs_bind. unfold ioapicinit. apply runs_bind, runs_ioapicread; [done|]. intros d1 E1. apply runs_bind, runs_ioapicread; [done|].
  intros d2 E2. assert (Ep : pins (hw d2) = pins (hw d)) by (apply pins_eq; intros r; by rewrite E2, E1).
  change (Z.land (Z.shiftr (ioregs (hw d) REG_VER) 16) 255) with (pins (hw d)). rewrite <- Ep.
  apply runs_bind, runs_mask_all. intros d3 H3 Ep3. apply runs_ret.
  apply (runs_for_each (fun l d' => pins (hw d') = pins (hw d2) /\ routed l (hw d'))); [done| |done].
  intros l [irq cpu] rest d4 El [Ep4 H4]. rewrite El in Hcalls. apply Forall_app in Hcalls as [_ Hcalls]. apply Forall_cons in Hcalls as [[Hi Hc] _].
  cbn [fst snd] in *. rewrite <- Ep, <- Ep4 in Hi. unfold ioapicenable. apply table_pair; [done|unfold T_IRQ0; lia| | |].
  - rewrite Z.shiftl_mul_pow2 by lia. lia.
  - rewrite Z.shiftl_mul_pow2 by lia. apply Z.mod_mul. done.
  - intros d5 E5. split; [rewrite <- Ep4; eapply pair_pins; [|exact E5]; lia|]. by eapply routed_snoc.
Qed.
End Routing.

(** * The real-time clock *)

(** Port 0x70 selects one of its registers and port 0x71 reads it.  The clock
    ticks on its own: [quiet] is a number of accesses that will be over before
    its registers change again. *)
Class Rtc (S : Type) `{!Machine S} := {
  rtc_selected : S -> Z;
  rtc : S -> Z -> Z;
  quiet : S -> nat;
  rtc_select v s : 0 <= v < 128 -> rtc_selected (port_out CMOS_PORT v s) = v;
  rtc_read s : (port_in CMOS_RETURN s).1 = rtc s (rtc_selected s);
  rtc_out v s n : (n < quiet s)%nat ->
    (n <= quiet (port_out CMOS_PORT v s))%nat /\ forall r, rtc (port_out CMOS_PORT v s) r = rtc s r;
  rtc_in s n : (n < quiet s)%nat ->
    (n <= quiet (port_in CMOS_RETURN s).2)%nat /\ forall r, rtc (port_in CMOS_RETURN s).2 r = rtc s r;
}.

(** The date a clock shows, its fields of two digits. *)
Definition encode (bcd : bool) (x : Z) : Z := if bcd then x / 10 * 16 + x mod 10 else x.
Definition two_digits (t : rtcdate) : Prop :=
  Forall (fun x => 0 <= x < 100) [second t; minute t; hour t; day t; month t; year t].
Definition shows_date (reg : Z -> Z) (bcd : bool) (t : rtcdate) : Prop :=
  reg SECS = encode bcd (second t) /\ reg MINS = encode bcd (minute t) /\ reg HOURS = encode bcd (hour t) /\
  reg DAY = encode bcd (day t) /\ reg MONTH = encode bcd (month t) /\ reg YEAR = encode bcd (year t).

Lemma CONV_encode x : 0 <= x < 100 -> CONV (encode true x) = x.
Proof.
  intros Hx. unfold CONV, encode. change 0xf with (Z.ones 4). rewrite Z.land_ones, Z.shiftr_div_pow2 by lia.
  change (2 ^ 4) with 16. pose proof (Z.mod_pos_bound x 10). pose proof (Z.div_mod x 10).
  rewrite Z.div_add_l, (Z.div_small (x mod 10) 16) by lia.
  rewrite (Z.add_comm (x / 10 * 16)), Z.mod_add, (Z.mod_small (x mod 10) 16) by lia. rewrite u32_id; unfold u32_range; lia.
Qed.

Section Clock.
Context {S : Type} `{!Machine S} `{!Rtc S}.

(** Reading a register while the clock is quiet. *)
Definition still (reg : Z -> Z) (n : nat) (d : drivers S) : Prop := (n <= quiet (hw d))%nat /\ forall r, rtc (hw d) r = reg r.

Lemma runs_cmos_read reg n d r (Q : Z -> drivers S -> Prop) :
  still reg (2 + n) d -> 0 <= r < 128 -> (forall d', still reg n d' -> Q (reg r) d') -> runs d (cmos_read r) Q.
Proof.
  intros [Hq Hr] Hrange HQ. unfold cmos_read, microdelay. do 5 dev_step. cbn [hw setter].
  assert (Eu : u8 r = r) by (unfold u8; apply Z.mod_small; lia). rewrite Eu. set (s1 := port_out CMOS_PORT r (hw d)).
  destruct (rtc_out r (hw d) (1 + n) Hq) as [Hq1 Hr1]. fold s1 in Hq1, Hr1. destruct (rtc_in s1 n Hq1) as [Hq2 Hr2].
  rewrite rtc_read. unfold s1 at 1 2. rewrite rtc_select by done. fold s1. rewrite Hr1, Hr. apply HQ. split; [done|].
  cbn. intros r'. by rewrite Hr2, Hr1.
Qed.

Definition regs_date (reg : Z -> Z) : rtcdate := mkDate (reg SECS) (reg MINS) (reg HOURS) (reg DAY) (reg MONTH) (reg YEAR).

Lemma runs_fill_rtcdate reg n d (Q : rtcdate -> drivers S -> Prop) :
  still reg (12 + n) d -> (forall d', still reg n d' -> Q (regs_date reg) d') -> runs d fill_rtcdate Q.
Proof.
  intros Hs HQ. unfold fill_rtcdate.
  do 6 (apply runs_bind; eapply runs_cmos_read; [exact Hs|done|]; clear Hs; intros ? Hs). by apply runs_ret, HQ.
Qed.


Lemma from_bcd_encode x : 0 <= x < 100 -> from_bcd (encode true x) = x.
Proof.
  intros Hx. rewrite <- (CONV_encode x Hx) at 2. unfold CONV. symmetry. apply u32_id. unfold u32_range.
  change (0 <= from_bcd (encode true x) < 2 ^ 32). unfold from_bcd, encode. change 0xf with (Z.ones 4). rewrite Z.land_ones, Z.shiftr_div_pow2 by lia.
  pose proof (Z.mod_pos_bound (x / 10 * 16 + x mod 10) (2 ^ 4)). Z.div_mod_to_equations. lia.
Qed.

Lemma runs_rtc_field reg n d r (Q : Z -> drivers S -> Prop) :
  still reg (2 + n) d -> 0 <= r < 128 -> (forall d', still reg n d' -> Q (from_bcd (reg r)) d') -> runs d (rtc_field r) Q.
Proof.
  intros [Hq Hr] Hrange HQ. unfold rtc_field. change 0x70 with CMOS_PORT. change 0x71 with CMOS_RETURN. do 5 dev_step. cbn [hw setter].
  assert (Eu : u8 r = r) by (unfold u8; apply Z.mod_small; lia). rewrite Eu. set (s1 := port_out CMOS_PORT r (hw d)).
  destruct (rtc_out r (hw d) (1 + n) Hq) as [Hq1 Hr1]. fold s1 in Hq1, Hr1. destruct (rtc_in s1 n Hq1) as [Hq2 Hr2].
  rewrite rtc_read. unfold s1 at 1 2. rewrite rtc_select by done. fold s1. rewrite Hr1, Hr. apply HQ. split; [done|].
  cbn. intros r'. by rewrite Hr2, Hr1.
Qed.

(** A clock that keeps its registers in BCD and holds them for the six accesses:
    its time is printed. *)
Theorem rtc_time_printed (d : drivers S) t :
  (6 <= quiet (hw d))%nat -> two_digits t -> shows_date (rtc (hw d)) true t ->
  exists d', print_rtc_time d [] = Ok (cprintf_out (bytes_of "%d:%d:%d" ++ [10]) [AInt (hour t); AInt (minute t); AInt (second t)]) d' [].
Proof.
  intros Hq Hdig Hshow.
  cut (runs d print_rtc_time (fun r _ => r = cprintf_out (bytes_of "%d:%d:%d" ++ [10]) [AInt (hour t); AInt (minute t); AInt (second t)])).
  { intros H. destruct (H []) as (r & d' & E & ->). eauto. }
  assert (Hs : still (rtc (hw d)) 6 d) by done. set (reg := rtc (hw d)) in *. clearbody reg. clear Hq. unfold print_rtc_time.
  do 3 (apply runs_bind; eapply runs_rtc_field; [exact Hs|done|]; clear Hs; intros ? Hs). apply runs_ret.
  destruct Hshow as (E1 & E2 & E3 & _). unfold two_digits in Hdig. repeat (apply Forall_cons in Hdig as [? Hdig]).
  change 0x00 with SECS. change 0x02 with MINS. change 0x04 with HOURS. by rewrite E1, E2, E3, !from_bcd_encode.
Qed.
End Clock.

(** * Which processor this is *)

Lemma find_cpu_lookup apicids : forall apicid i k, NoDup apicids -> apicids !! k = Some apicid ->
  find_cpu apicids apicid i = Some (i + Z.of_nat k).
Proof.
  induction apicids as [|x l IH]; intros apicid i k Hnd Hk; [done|]. apply NoDup_cons in Hnd as [Hx Hnd]. cbn [find_cpu].
  destruct k as [|k]; [injection Hk as ->; by rewrite Z.eqb_refl, Z.add_0_r|]. cbn in Hk.
  rewrite (proj2 (Z.eqb_neq x apicid)); [rewrite (IH _ _ _ Hnd Hk); f_equal; lia|].
  intros ->. by apply Hx, list_elem_of_lookup_2 with k.
Qed.

(** On the [k]th processor of the table [cpunum] is [k]. *)
Lemma cpunum_finds {S} `{!Machine S} (d : drivers S) apicids apicid k w :
  lapic d <> 0 -> NoDup apicids -> apicids !! k = Some apicid ->
  Z.shiftr (reg_in (lapic d + 4 * ID) (hw d)).1 24 = apicid ->
  exists d', cpunum apicids d w = Ok (Z.of_nat k) d' w.
Proof.
  intros Hl Hnd Hk Hid. unfold cpunum, lapicr, gets, readl, mbind, M_bind. rewrite (proj2 (Z.eqb_neq _ _) Hl).
  destruct (reg_in (lapic d + 4 * ID) (hw d)) as [v h] eqn:E. cbn [fst] in Hid. rewrite Hid, (find_cpu_lookup _ _ _ _ Hnd Hk). cbn. eauto.
Qed.
