(* ===== verification/Screen.v ===== *)
(** uart.c and the output half of console.c: the serial port and the screen.

    [consputc] sends every character to the serial port and to the text screen.
    The screen is a window of 24 rows of 80 cells in video memory and the cursor
    of the video controller; what it shows is specified by a list of characters
    ([put]), and the driver is proved to implement it. *)

From Stdlib Require Import ZifyNat.
From S2P Require Import Prelude Control Memory KState Format Trap Device Apic Console.

Module Uart.
Section Driver.
Context {S : Type} `{!Machine S}.
Abbreviation D := (M (drivers S)).

(** [for(i = 0; i < 128 && !(inb(COM1+5) & 0x20); i++)] *)
Fixpoint uart_wait (n : nat) : D unit :=
  match n with
  | O => mret tt
  | Datatypes.S n' =>
      v ← inb (COM1 + 5);
      if Z.land v 0x20 =? 0 then Lapic.microdelay 10 ;; uart_wait n' else mret tt
  end.

Definition uartputc (c : Z) : D unit :=
  u ← gets uart;
  if negb u then mret tt else
  uart_wait 128 ;;
  outb COM1 c.

Definition uartearlyinit : D unit :=
  outb (COM1 + 2) 0 ;;
  outb (COM1 + 3) 0x80 ;;
  outb COM1 (115200 / 9600) ;;
  outb (COM1 + 1) 0 ;;
  outb (COM1 + 3) 0x03 ;;
  outb (COM1 + 4) 0 ;;
  outb (COM1 + 1) 0x01 ;;
  v ← inb (COM1 + 5);
  if v =? 0xFF then mret tt else
  modify (fun d => d <| uart := true |>) ;;
  for_each (bytes_of "xv6..." ++ [10]) uartputc.

Definition uartinit : D unit :=
  u ← gets uart;
  if negb u then mret tt else
  _ ← inb (COM1 + 2);
  _ ← inb COM1;
  Ioapic.ioapicenable IRQ_COM1 0.

Definition uartgetc : D Z :=
  u ← gets uart;
  if negb u then mret (-1) else
  v ← inb (COM1 + 5);
  if Z.land v 0x01 =? 0 then mret (-1) else
  inb COM1.

(** The calls of [uartgetc] in [consoleintr]: the characters up to the -1, in
    [fuel] calls. *)
Fixpoint uart_chars (fuel : nat) : D (list Z) :=
  match fuel with
  | O => no_return
  | Datatypes.S n =>
      c ← uartgetc;
      if c <? 0 then mret [] else
      l ← uart_chars n;
      mret (c :: l)
  end.
End Driver.

(** The interrupt handler, on the characters [uartgetc] returns. *)
Definition uartintr (pcs : proc -> list Z) (cs : list Z) : K unit := consoleintr pcs cs.
End Uart.

Module Screen.
Section Driver.
Context {S : Type} `{!Machine S}.
Abbreviation D := (M (drivers S)).

(** Video memory, two bytes a cell. *)
Definition crt : Z := 0xb8000.
Definition set_cell (m : memory) (pos v : Z) : memory := Lapic.store16 m (crt + 2 * pos) v.

(** Scrolling: rows 1 to 23 move up, and the rest is cleared. *)
Definition scroll_up (m : memory) : memory := memmove m crt (crt + 2 * 80) (2 * 23 * 80).
Definition clear_from (pos : Z) (m : memory) : memory := memset m (crt + 2 * pos) 0 (2 * (24 * 80 - pos)).

Definition get_pos : D Z :=
  outb CRTPORT 14 ;;
  h ← inb (CRTPORT + 1);
  outb CRTPORT 15 ;;
  l ← inb (CRTPORT + 1);
  mret (Z.lor (Z.shiftl h 8) l).
Definition set_pos (pos : Z) : D unit :=
  outb CRTPORT 14 ;;
  outb (CRTPORT + 1) (Z.shiftr pos 8) ;;
  outb CRTPORT 15 ;;
  outb (CRTPORT + 1) pos.

Definition cgaputc (c : Z) : D unit :=
  pos ← get_pos;
  pos ← (if c =? 10 then mret (pos + (80 - pos mod 80))
         else if c =? BACKSPACE then mret (if 0 <? pos then pos - 1 else pos)
         else upd_ram (fun m => set_cell m pos (Z.lor (Z.land c 0xff) 0x0700)) ;; mret (pos + 1));
  pos ← (if 24 <=? pos / 80 then upd_ram scroll_up ;; upd_ram (clear_from (pos - 80)) ;; mret (pos - 80)
         else mret pos);
  set_pos pos ;;
  upd_ram (fun m => set_cell m pos (Z.lor 32 0x0700)).

Definition consputc (c : Z) : D unit :=
  p ← gets panicked;
  if (p : bool) then no_return else
  (if c =? BACKSPACE then Uart.uartputc 8 ;; Uart.uartputc 32 ;; Uart.uartputc 8
   else Uart.uartputc c) ;;
  cgaputc c.
End Driver.
End Screen.
Import Screen Uart.

(** * What the drivers do to the machine *)

(** The part of the machine the console shows through. *)
Record view := mkView { v_ram : memory; v_pos : Z; v_sent : list Z; v_latch : bool; v_uart : bool; v_panicked : bool }.
#[export] Instance view_eta : Eta view := fun v =>
  mkView (v_ram v) (v_pos v) (v_sent v) (v_latch v) (v_uart v) (v_panicked v).

Section Effects.
Context {S : Type} `{!Machine S} `{!Ram S} `{!Serial S} `{!Crt S}.

Definition view_of (d : drivers S) : view :=
  mkView (ram (hw d)) (cursor (hw d)) (sent (hw d)) (latch (hw d)) (uart d) (panicked d).

Lemma view_inb d p : view_of (d <| hw := (port_in p (hw d)).2 |>) = view_of d.
Proof. unfold view_of. cbn. destruct (serial_in p (hw d)) as (-> & -> & _). by rewrite ram_in, crt_in. Qed.
Lemma view_ram d f : view_of (d <| hw ::= set_ram f |>) = view_of d <| v_ram ::= f |>.
Proof. unfold view_of. cbn. destruct (serial_ram f (hw d)) as (-> & -> & _). by rewrite ram_set, crt_ram. Qed.
Lemma view_ram_at d f : view_of (d <| hw ::= set_ram f |>) = view_of d <| v_ram := f (ram (hw d)) |>.
Proof. by rewrite view_ram. Qed.
Lemma view_ram_twice d f g : view_of (d <| hw ::= set_ram f |> <| hw ::= set_ram g |>) = view_of d <| v_ram := g (f (ram (hw d))) |>.
Proof. by rewrite !view_ram. Qed.
Lemma view_crt d v : view_of (d <| hw ::= port_out CRTPORT v |>) = view_of d.
Proof. unfold view_of. cbn. destruct (crt_select v (hw d)) as [_ ->]. by rewrite ram_out, serial_sent, serial_latch. Qed.

Lemma u8_byte v : 0 <= u8 v < 256.
Proof. unfold u8. apply Z.mod_pos_bound. lia. Qed.

Lemma runs_get_pos d (Q : Z -> drivers S -> Prop) :
  (forall d', view_of d' = view_of d -> Q (cursor (hw d)) d') -> runs d get_pos Q.
Proof.
  intros HQ. unfold get_pos. do 8 dev_step. cbn [hw setter]. change (u8 14) with 14. change (u8 15) with 15.
  set (s1 := port_out CRTPORT 14 (hw d)). destruct (crt_select 14 (hw d)) as [Es1 Ec1]. fold s1 in Es1, Ec1.
  destruct (crt_read s1) as (_ & Ec2 & Eh & _). set (s2 := (port_in (CRTPORT + 1) s1).2) in *.
  destruct (crt_select 15 s2) as [Es3 Ec3]. set (s3 := port_out CRTPORT 15 s2) in *.
  destruct (crt_read s3) as (_ & _ & _ & El). apply runs_ret. rewrite Eh, El, Ec3, Ec2, Ec1 by done.
  pose proof (cursor_range (hw d)) as Hr. rewrite Z.shiftl_mul_pow2 by lia.
  assert (E : Z.lor (cursor (hw d) / 256 * 2 ^ 8) (cursor (hw d) mod 256) = cursor (hw d)).
  { rewrite <- (Z.shiftl_mul_pow2 _ 8) by lia. change 256 with (2 ^ 8) at 2. rewrite <- Z.land_ones by lia.
    change 256 with (2 ^ 8). rewrite <- Z.shiftr_div_pow2 by lia. apply Z.bits_inj'. intros n Hn.
    rewrite Z.lor_spec, Z.land_spec, Z.testbit_ones_nonneg by lia. destruct (Z.ltb_spec n 8).
    - by rewrite Z.shiftl_spec_low, andb_true_r by lia.
    - rewrite Z.shiftl_spec, Z.shiftr_spec, andb_false_r, orb_false_r by lia. f_equal. lia. }
  rewrite E. apply HQ. pose proof (view_inb (d <| hw := s3 |>) (CRTPORT + 1)) as V3. cbn [hw setter] in V3.
  etransitivity; [exact V3|]. pose proof (view_crt (d <| hw := s2 |>) 15) as V2. cbn [hw setter] in V2. fold s3 in V2. etransitivity; [exact V2|].
  pose proof (view_inb (d <| hw := s1 |>) (CRTPORT + 1)) as V1. etransitivity; [exact V1|]. exact (view_crt d 14).
Qed.

Lemma runs_set_pos d pos (Q : unit -> drivers S -> Prop) : 0 <= pos < 65536 ->
  (forall d', view_of d' = view_of d <| v_pos := pos |> -> Q tt d') -> runs d (set_pos pos) Q.
Proof.
  intros Hpos HQ. unfold set_pos. do 7 dev_step. change (u8 14) with 14. change (u8 15) with 15. apply HQ.
  unfold view_of. cbn [hw setter uart panicked].
  assert (Eh : u8 (Z.shiftr pos 8) = pos / 256) by (unfold u8; rewrite Z.shiftr_div_pow2 by lia; apply Z.mod_small; change (2 ^ 8) with 256; lia).
  assert (El : u8 pos = pos mod 256) by done. rewrite Eh, El.
  destruct (crt_select 14 (hw d)) as [Es1 _]. set (s1 := port_out CRTPORT 14 (hw d)) in *.
  destruct (crt_write (pos / 256) s1) as (_ & Ec2 & _); [lia|]. specialize (Ec2 Es1). set (s2 := port_out (CRTPORT + 1) (pos / 256) s1) in *.
  destruct (crt_select 15 s2) as [Es3 Ec3]. set (s3 := port_out CRTPORT 15 s2) in *.
  destruct (crt_write (pos mod 256) s3) as (_ & _ & Ec4); [lia|]. specialize (Ec4 Es3). rewrite Ec4, Ec3, Ec2.
  unfold s3, s2, s1. rewrite !ram_out, !serial_sent, !serial_latch by done. cbn. f_equal. lia.
Qed.

Lemma runs_uart_wait n : forall d (Q : unit -> drivers S -> Prop),
  (forall d', view_of d' = view_of d -> Q tt d') -> runs d (uart_wait n) Q.
Proof.
  induction n as [|n IH]; intros d Q HQ; cbn [uart_wait]; [by apply runs_ret, HQ|]. do 2 dev_step.
  destruct (Z.land _ _ =? 0); [|apply runs_ret, HQ, view_inb].
  apply runs_bind, runs_ret, IH. intros d' E. apply HQ. rewrite E. apply view_inb.
Qed.

(** What the serial port is sent for a character. *)
Definition serial_out (d : drivers S) (l : list Z) : list Z := if uart d then l else [].

Lemma runs_uartputc d c (Q : unit -> drivers S -> Prop) : latch (hw d) = false ->
  (forall d', view_of d' = view_of d <| v_sent ::= fun l => l ++ serial_out d [u8 c] |> -> Q tt d') -> runs d (uartputc c) Q.
Proof.
  intros Hl HQ. unfold uartputc, serial_out in *. do 2 dev_step. destruct (uart d) eqn:Eu; cbn [negb].
  - apply runs_bind, runs_uart_wait. intros d' E. dev_step. apply HQ. cbn [setter v_sent] in *.
    assert (El : latch (hw d') = false) by (rewrite <- Hl; exact (f_equal v_latch E)).
    destruct (serial_data (u8 c) (hw d') (u8_byte c)) as [Es _]. rewrite El in Es. rewrite <- E. unfold view_of.
    cbn [hw setter uart panicked]. by rewrite Es, ram_out, serial_latch, crt_out.
  - apply runs_ret, HQ. unfold view_of. cbn. by rewrite app_nil_r.
Qed.

(** [cgaputc] as a function of the memory and the position. *)
Definition cga_put (c : Z) (x : memory * Z) : memory * Z :=
  let '(m, pos) := x in
  if c =? 10 then (m, pos + (80 - pos mod 80))
  else if c =? BACKSPACE then (m, if 0 <? pos then pos - 1 else pos)
  else (set_cell m pos (Z.lor (Z.land c 0xff) 0x0700), pos + 1).
Definition cga_scroll (x : memory * Z) : memory * Z :=
  let '(m, pos) := x in
  if 24 <=? pos / 80 then (clear_from (pos - 80) (scroll_up m), pos - 80) else (m, pos).
Definition cga (m : memory) (pos c : Z) : memory * Z :=
  let '(m, pos) := cga_scroll (cga_put c (m, pos)) in (set_cell m pos (Z.lor 32 0x0700), pos).

Lemma runs_place d c pos (Q : Z -> drivers S -> Prop) : pos = v_pos (view_of d) ->
  (forall d', view_of d' = view_of d <| v_ram := (cga_put c (ram (hw d), pos)).1 |> -> Q (cga_put c (ram (hw d), pos)).2 d') ->
  runs d (if c =? 10 then mret (pos + (80 - pos mod 80))
          else if c =? BACKSPACE then mret (if 0 <? pos then pos - 1 else pos)
          else upd_ram (fun m => set_cell m pos (Z.lor (Z.land c 0xff) 0x0700)) ;; mret (pos + 1)) Q.
Proof.
  intros -> HQ. unfold cga_put in HQ. destruct (c =? 10); [|destruct (c =? BACKSPACE)]; cbn [fst snd] in HQ.
  - by apply runs_ret, HQ.
  - by apply runs_ret, HQ.
  - apply runs_bind, runs_upd_ram, runs_ret, HQ. exact (view_ram_at _ _).
Qed.
Lemma runs_scroll d pos (Q : Z -> drivers S -> Prop) :
  (forall d', view_of d' = view_of d <| v_ram := (cga_scroll (ram (hw d), pos)).1 |> -> Q (cga_scroll (ram (hw d), pos)).2 d') ->
  runs d (if 24 <=? pos / 80 then upd_ram scroll_up ;; upd_ram (clear_from (pos - 80)) ;; mret (pos - 80) else mret pos) Q.
Proof.
  intros HQ. unfold cga_scroll in HQ. destruct (24 <=? pos / 80); cbn [fst snd] in HQ.
  - apply runs_bind, runs_upd_ram, runs_bind, runs_upd_ram, runs_ret, HQ. exact (view_ram_twice _ _ _).
  - by apply runs_ret, HQ.
Qed.

Lemma runs_cgaputc d c (Q : unit -> drivers S -> Prop) :
  let r := cga (ram (hw d)) (cursor (hw d)) c in 0 <= r.2 < 65536 ->
  (forall d', view_of d' = view_of d <| v_ram := r.1 |> <| v_pos := r.2 |> -> Q tt d') -> runs d (cgaputc c) Q.
Proof.
  intros r Hr HQ. unfold cgaputc. apply runs_bind, runs_get_pos. intros d1 E1.
  assert (Em : ram (hw d1) = ram (hw d)) by exact (f_equal v_ram E1).
  apply runs_bind, runs_place; [symmetry; exact (f_equal v_pos E1)|]. intros d2 E2. rewrite Em in *.
  unfold cga in r. destruct (cga_put c (ram (hw d), cursor (hw d))) as [m2 pos2]. cbn [fst snd] in *.
  assert (Em2 : ram (hw d2) = m2) by exact (f_equal v_ram E2).
  apply runs_bind, runs_scroll. intros d3 E3. rewrite Em2 in *. destruct (cga_scroll (m2, pos2)) as [m3 pos3]. cbn [fst snd] in *.
  apply runs_bind, runs_set_pos; [exact Hr|]. intros d4 E4. apply runs_upd_ram, HQ. rewrite view_ram, E4, E3, E2, E1. reflexivity.
Qed.
End Effects.

(** The serial port after [uartearlyinit]: 9600 baud, the latch closed, and a
    greeting if there is a port. *)
Section Greeting.
Context {S : Type} `{!Machine S} `{!Ram S} `{!Serial S} `{!Crt S}.

Lemma view_uart (d : drivers S) p v : p <> CRTPORT -> p <> CRTPORT + 1 -> p <> COM1 -> p <> COM1 + 3 ->
  view_of (d <| hw ::= port_out p v |>) = view_of d.
Proof. intros. unfold view_of. cbn. by rewrite ram_out, crt_out, serial_sent, serial_latch. Qed.

Lemma runs_greet l : forall (d : drivers S) (Q : unit -> drivers S -> Prop), uart d = true -> latch (hw d) = false ->
  (forall d', view_of d' = view_of d <| v_sent ::= fun x => x ++ (u8 <$> l) |> -> Q tt d') -> runs d (for_each l uartputc) Q.
Proof.
  induction l as [|c l IH]; intros d Q Hu Hl HQ; cbn [for_each].
  - apply runs_ret, HQ. unfold view_of. cbn. by rewrite app_nil_r.
  - apply runs_bind, runs_uartputc; [done|]. intros d1 E1. unfold serial_out in E1. rewrite Hu in E1.
    apply IH; [exact (eq_trans (f_equal v_uart E1) Hu)|exact (eq_trans (f_equal v_latch E1) Hl)|].
    intros d2 E2. apply HQ. rewrite E2, E1. cbn. by rewrite <- app_assoc.
Qed.

Lemma runs_uartearlyinit (d : drivers S) (Q : unit -> drivers S -> Prop) : uart d = false ->
  (forall d', latch (hw d') = false -> ram (hw d') = ram (hw d) -> cursor (hw d') = cursor (hw d) -> panicked d' = panicked d ->
    sent (hw d') = sent (hw d) ++ (if uart d' then bytes_of "xv6..." ++ [10] else []) -> Q tt d') -> runs d uartearlyinit Q.
Proof.
  intros Hu HQ. unfold uartearlyinit. do 16 dev_step.
  match goal with |- runs ?x _ _ => set (d1 := x) end.
  assert (V : view_of d1 = view_of d <| v_latch := false |>).
  { unfold d1. rewrite view_inb. unfold view_of. cbn [hw setter uart panicked]. rewrite !ram_out, !crt_out by done.
    rewrite !(serial_sent (COM1 + _)), (serial_latch (COM1 + 1)), (serial_latch (COM1 + 4)), serial_control by done.
    assert (Es : sent (port_out COM1 (u8 (115200 / 9600)) (port_out (COM1 + 3) (u8 128) (port_out (COM1 + 2) (u8 0) (hw d)))) = sent (hw d)).
    { rewrite (proj1 (serial_data _ _ (u8_byte _))), serial_control. change (Z.testbit (u8 128) 7) with true. by rewrite !serial_sent. }
    by rewrite Es. }
  assert (Hs : sent (hw d1) = sent (hw d)) by exact (f_equal v_sent V). assert (Hl : latch (hw d1) = false) by exact (f_equal v_latch V).
  assert (Hr : ram (hw d1) = ram (hw d)) by exact (f_equal v_ram V). assert (Hc : cursor (hw d1) = cursor (hw d)) by exact (f_equal v_pos V).
  assert (Hp : panicked d1 = panicked d) by exact (f_equal v_panicked V). assert (Hu1 : uart d1 = false) by exact (eq_trans (f_equal v_uart V) Hu).
  clearbody d1. destruct (_ =? 0xFF).
  - apply runs_ret, HQ; try done. by rewrite Hu1, Hs, app_nil_r.
  - apply runs_bind, runs_modify, runs_greet; [done|exact Hl|]. intros d2 E2.
    apply HQ; [exact (eq_trans (f_equal v_latch E2) Hl)|exact (eq_trans (f_equal v_ram E2) Hr)|exact (eq_trans (f_equal v_pos E2) Hc)|
      exact (eq_trans (f_equal v_panicked E2) Hp)|].
    assert (Eu : uart d2 = true) by exact (f_equal v_uart E2). rewrite Eu. etransitivity; [exact (f_equal v_sent E2)|]. cbn -[bytes_of]. by rewrite Hs.
Qed.
End Greeting.

(** * What the screen shows *)

(** A cleared cell and a space look the same. *)
Definition glyph (b : Z) : Z := if b =? 0 then 32 else b.

(** The text on the screen, row after row, up to the cursor: a newline fills
    the row, a backspace takes the last character away, and a full screen loses
    its first row. *)
Definition moved (t : list Z) (c : Z) : list Z :=
  if c =? 10 then t ++ replicate (80 - length t mod 80) 32
  else if c =? BACKSPACE then take (length t - 1) t else t ++ [glyph (u8 c)].
Definition put (t : list Z) (c : Z) : list Z :=
  let t := moved t c in if decide (24 * 80 <= length t)%nat then drop 80 t else t.

Definition cells (m : memory) (t : list Z) (but : option nat) : Prop :=
  forall i, (i < 24 * 80)%nat -> Some i <> but -> glyph (m (crt + 2 * Z.of_nat i)) = default 32 (t !! i).
Definition off_screen (x : Z) : Prop := x < crt \/ crt + 2 * (24 * 80) <= x.

Lemma set_cell_at m pos v x :
  set_cell m pos v x = if x =? crt + 2 * pos then u8 v else if x =? crt + 2 * pos + 1 then u8 (Z.shiftr v 8) else m x.
Proof.
  unfold set_cell, Lapic.store16. cbn [write_bytes]. unfold mset.
  destruct (Z.eqb_spec x (crt + 2 * pos + 1)), (Z.eqb_spec x (crt + 2 * pos)); try done; lia.
Qed.

Lemma cell_byte c : u8 (Z.lor (Z.land c 0xff) 0x0700) = u8 c.
Proof.
  unfold u8. rewrite <- !Z.land_ones by lia. change 255 with (Z.ones 8). apply Z.bits_inj'. intros n Hn.
  rewrite !Z.land_spec, Z.lor_spec, Z.land_spec, Z.testbit_ones_nonneg by lia. destruct (Z.ltb_spec n 8); [|by rewrite !andb_false_r].
  rewrite !andb_true_r. assert (E : Z.testbit 0x0700 n = false); [|by rewrite E, orb_false_r].
  assert (Hn' : n ∈ Z.of_nat <$> seq 0 8) by (apply list_elem_of_fmap; exists (Z.to_nat n); split; [lia|apply elem_of_seq; lia]).
  cbn in Hn'. repeat (apply elem_of_cons in Hn' as [->|Hn']; [reflexivity|]). by apply elem_of_nil in Hn'.
Qed.

Lemma cga_put_moved m t c : (length t < 24 * 80)%nat -> cells m t None ->
  let x := cga_put c (m, Z.of_nat (length t)) in
  x.2 = Z.of_nat (length (moved t c)) /\ (length (moved t c) <= 24 * 80)%nat /\
  cells x.1 (moved t c) (Some (length (moved t c))) /\ forall a, off_screen a -> x.1 a = m a.
Proof.
  intros Hlen Hc. unfold cga_put, moved. destruct (c =? 10); [|destruct (c =? BACKSPACE)]; cbn [fst snd].
  - rewrite length_app, length_replicate. split; [lia|]. split; [|split; [|done]].
    + pose proof (Nat.mod_upper_bound (length t) 80). pose proof (Nat.div_mod_eq (length t) 80). lia.
    + intros i Hi _. rewrite Hc by done. destruct (decide (i < length t)%nat); [by rewrite lookup_app_l|].
      rewrite lookup_app_r, (lookup_ge_None_2 t) by lia. cbn. destruct (replicate _ 32 !! _) as [y|] eqn:E; [|done].
      by apply lookup_replicate in E as [-> _].
  - rewrite length_take. split; [destruct (Z.ltb_spec 0 (Z.of_nat (length t))); lia|]. split; [lia|]. split; [|done].
    intros i Hi Hne. rewrite Hc by done. destruct (decide (i < length t - 1)%nat); [by rewrite lookup_take_lt by lia|].
    rewrite !lookup_ge_None_2; [done|rewrite length_take; lia|].
    assert (i <> min (length t - 1) (length t)) by congruence. lia.
  - rewrite length_app. cbn [length]. split; [lia|]. split; [lia|]. split.
    + intros i Hi Hne. rewrite set_cell_at, cell_byte. destruct (Z.eqb_spec (crt + 2 * Z.of_nat i) (crt + 2 * Z.of_nat (length t))).
      * assert (i = length t) as -> by lia. by rewrite list_lookup_middle.
      * rewrite (proj2 (Z.eqb_neq _ _)) by lia. rewrite Hc by done. destruct (decide (i < length t)%nat); [by rewrite lookup_app_l|].
        rewrite !lookup_ge_None_2; [done|rewrite length_app; cbn; lia|lia].
    + intros a Ha. rewrite set_cell_at, !(proj2 (Z.eqb_neq _ _)); [done|..]; destruct Ha; lia.
Qed.

Lemma scroll_up_at m x : scroll_up m x = if (crt <=? x) && (x <? crt + 3680) then m (x + 160) else m x.
Proof. unfold scroll_up. rewrite memmove_blit by lia. unfold blit. destruct ((crt <=? x) && _); [f_equal; lia|done]. Qed.
Lemma clear_from_at pos m x : pos <= 24 * 80 ->
  clear_from pos m x = if (crt + 2 * pos <=? x) && (x <? crt + 3840) then 0 else m x.
Proof.
  intros Hpos. unfold clear_from. rewrite memset_fill by lia. unfold fill.
  by replace (crt + 2 * pos + 2 * (24 * 80 - pos)) with (crt + 3840) by lia.
Qed.

Lemma cga_scroll_cells m t : (length t <= 24 * 80)%nat -> cells m t (Some (length t)) ->
  let t' := if decide (24 * 80 <= length t)%nat then drop 80 t else t in
  let x := cga_scroll (m, Z.of_nat (length t)) in
  x.2 = Z.of_nat (length t') /\ (length t' < 24 * 80)%nat /\ cells x.1 t' (Some (length t')) /\ forall a, off_screen a -> x.1 a = m a.
Proof.
  intros Hlen Hc. unfold cga_scroll. destruct (decide (24 * 80 <= length t)%nat) as [Hge|Hlt]; cbv zeta.
  - assert (El : length t = 1920%nat) by lia. rewrite El. change (24 <=? Z.of_nat 1920 / 80) with true. cbn [fst snd].
    rewrite length_drop, El. change (1920 - 80)%nat with 1840%nat. split; [done|]. split; [lia|]. split.
    + intros i Hi _. rewrite clear_from_at, scroll_up_at by lia. rewrite lookup_drop.
      destruct (decide (i < 1840)%nat) as [Hlt|Hnlt].
      * rewrite (proj2 (Z.leb_gt _ _)) by lia. cbn [andb]. rewrite (proj2 (Z.leb_le _ _)), (proj2 (Z.ltb_lt _ _)) by lia. cbn [andb].
        replace (crt + 2 * Z.of_nat i + 160) with (crt + 2 * Z.of_nat (80 + i)) by lia. apply Hc; [lia|]. intros [= E]. lia.
      * rewrite (proj2 (Z.leb_le _ _)), (proj2 (Z.ltb_lt _ _)) by lia. by rewrite lookup_ge_None_2 by lia.
    + intros a Ha. rewrite clear_from_at, scroll_up_at by lia.
      destruct Ha; [rewrite !(proj2 (Z.leb_gt _ _)) by lia; done|rewrite !(proj2 (Z.ltb_ge _ _)), !andb_false_r by lia; done].
  - rewrite (proj2 (Z.leb_gt _ _)) by (apply Z.div_lt_upper_bound; lia). cbn [fst snd]. split; [done|]. split; [lia|]. done.
Qed.

Lemma cga_shows m t c : (length t < 24 * 80)%nat -> cells m t None ->
  let r := cga m (Z.of_nat (length t)) c in
  r.2 = Z.of_nat (length (put t c)) /\ (length (put t c) < 24 * 80)%nat /\ cells r.1 (put t c) None /\
  forall a, off_screen a -> r.1 a = m a.
Proof.
  intros Hlen Hc. unfold cga, put. destruct (cga_put_moved m t c Hlen Hc) as (E1 & Hle & Hc1 & Hoff1).
  destruct (cga_put c (m, Z.of_nat (length t))) as [m1 pos1]. cbn [fst snd] in *. subst pos1.
  destruct (cga_scroll_cells m1 (moved t c) Hle Hc1) as (E2 & Hlt & Hc2 & Hoff2). cbv zeta in *.
  set (t' := if decide (24 * 80 <= length (moved t c))%nat then drop 80 (moved t c) else moved t c) in *.
  destruct (cga_scroll (m1, Z.of_nat (length (moved t c)))) as [m2 pos2]. cbn [fst snd] in *. subst pos2. split; [done|]. split; [done|]. split.
  - intros i Hi _. rewrite set_cell_at. destruct (Z.eqb_spec (crt + 2 * Z.of_nat i) (crt + 2 * Z.of_nat (length t'))).
    + assert (i = length t') as -> by lia. by rewrite lookup_ge_None_2.
    + rewrite (proj2 (Z.eqb_neq _ _)) by lia. apply Hc2; [done|]. intros [= E]. lia.
  - intros a Ha. rewrite set_cell_at, !(proj2 (Z.eqb_neq _ _)) by (destruct Ha; lia). by rewrite Hoff2, Hoff1.
Qed.

(** * The console *)

Section Output.
Context {S : Type} `{!Machine S} `{!Ram S} `{!Serial S} `{!Crt S}.

Record shows (t : list Z) (s : S) : Prop := {
  sh_length : (length t < 24 * 80)%nat;
  sh_cursor : cursor s = Z.of_nat (length t);
  sh_cells : cells (ram s) t None
}.
(** The bytes a character is on the serial line. *)
Definition wire (c : Z) : list Z := if c =? BACKSPACE then [8; 32; 8] else [u8 c].

Lemma runs_wire d c (Q : unit -> drivers S -> Prop) : latch (hw d) = false ->
  (forall d', view_of d' = view_of d <| v_sent ::= fun l => l ++ serial_out d (wire c) |> -> Q tt d') ->
  runs d (if c =? BACKSPACE then uartputc 8 ;; uartputc 32 ;; uartputc 8 else uartputc c) Q.
Proof.
  intros Hl HQ. unfold wire in HQ. destruct (c =? BACKSPACE); [|by apply runs_uartputc].
  apply runs_bind, runs_uartputc; [done|]. intros d1 E1.
  assert (Hl1 : latch (hw d1) = false) by (rewrite <- Hl; exact (f_equal v_latch E1)).
  apply runs_bind, runs_uartputc; [done|]. intros d2 E2.
  assert (Hl2 : latch (hw d2) = false) by (rewrite <- Hl1; exact (f_equal v_latch E2)).
  apply runs_uartputc; [done|]. intros d3 E3. apply HQ. rewrite E3, E2, E1.
  assert (Eu1 : uart d1 = uart d) by exact (f_equal v_uart E1). assert (Eu2 : uart d2 = uart d1) by exact (f_equal v_uart E2).
  unfold serial_out. rewrite Eu2, Eu1. destruct (uart d); cbn; by rewrite <- ?app_assoc, ?app_nil_r.
Qed.

Lemma runs_consputc_screen d t c (Q : unit -> drivers S -> Prop) :
  panicked d = false -> latch (hw d) = false -> shows t (hw d) ->
  (forall d', panicked d' = false -> latch (hw d') = false -> uart d' = uart d -> shows (put t c) (hw d') ->
    sent (hw d') = sent (hw d) ++ serial_out d (wire c) -> (forall a, off_screen a -> ram (hw d') a = ram (hw d) a) -> Q tt d') ->
  runs d (consputc c) Q.
Proof.
  intros Hp Hl [Hlen Hcur Hc] HQ. unfold consputc. apply runs_bind, runs_gets. rewrite Hp. apply runs_bind, runs_wire; [done|].
  intros d1 E1. assert (Em : ram (hw d1) = ram (hw d)) by exact (f_equal v_ram E1).
  assert (Ec : cursor (hw d1) = Z.of_nat (length t)) by (rewrite <- Hcur; exact (f_equal v_pos E1)).
  destruct (cga_shows (ram (hw d)) t c Hlen Hc) as (Epos & Hlen' & Hc' & Hoff).
  apply runs_cgaputc; rewrite Em, Ec; [lia|]. intros d2 E2. rewrite E1 in E2.
  apply HQ.
  - rewrite <- Hp. exact (f_equal v_panicked E2).
  - rewrite <- Hl. exact (f_equal v_latch E2).
  - exact (f_equal v_uart E2).
  - split; [done|rewrite <- Epos; exact (f_equal v_pos E2)|].
    assert (Em2 : ram (hw d2) = (cga (ram (hw d)) (Z.of_nat (length t)) c).1) by exact (f_equal v_ram E2). by rewrite Em2.
  - exact (f_equal v_sent E2).
  - assert (Em2 : ram (hw d2) = (cga (ram (hw d)) (Z.of_nat (length t)) c).1) by exact (f_equal v_ram E2). by rewrite Em2.
Qed.

(** C23: Console output goes where it should: for any characters printed by
    [consputc], newlines and backspaces included, the screen shows the text the
    specification [put] gives, with the cursor at its end, scrolled by a row
    whenever 24 are full; no byte outside those rows of video memory is written;
    and the serial port, if there is one, is sent the same characters. *)
Theorem consputc_shows (d : drivers S) t cs :
  panicked d = false -> latch (hw d) = false -> shows t (hw d) ->
  exists d', for_each cs consputc d [] = Ok tt d' [] /\ shows (foldl put t cs) (hw d') /\
    (forall a, off_screen a -> ram (hw d') a = ram (hw d) a) /\
    sent (hw d') = sent (hw d) ++ if uart d then mjoin (wire <$> cs) else [].
Proof.
  intros Hp Hl Hs.
  pose (P l (d' : drivers S) := panicked d' = false /\ latch (hw d') = false /\ uart d' = uart d /\ shows (foldl put t l) (hw d') /\
    (forall a, off_screen a -> ram (hw d') a = ram (hw d) a) /\ sent (hw d') = sent (hw d) ++ serial_out d (mjoin (wire <$> l))).
  cut (runs d (for_each cs consputc) (fun _ => P cs)).
  { intros H. destruct (H []) as ([] & d' & E & _ & _ & _ & H4 & H5 & H6). eauto. }
  apply (runs_for_each P); [| |done].
  - split_and!; [done..|]. unfold serial_out. destruct (uart d); by rewrite app_nil_r.
  - intros l c rest d1 _ (Hp1 & Hl1 & Hu1 & Hs1 & Hoff1 & Hsent1). eapply runs_consputc_screen; [done..|]. intros d2 Hp2 Hl2 Hu2 Hs2 Hsent2 Hoff2.
    unfold P. rewrite foldl_app. split_and!; [done|done|congruence|done|..].
    + intros a Ha. rewrite Hoff2 by done. auto.
    + rewrite Hsent2, Hsent1. unfold serial_out. rewrite Hu1, fmap_app, join_app. destruct (uart d); cbn; by rewrite ?app_nil_r, ?app_assoc.
Qed.
End Output.
