(* ===== verification/Grep.v ===== *)
(** grep.c: Kernighan and Pike's matcher and the line loop around it.

    A C string is the list of its characters, the terminating NUL not
    included; reading the character after the last one gives 0. *)

From S2P Require Import Prelude Memory.

(** * The matcher *)

Definition CARET : Z := 94.
Definition DOT : Z := 46.
Definition STAR : Z := 42.
Definition DOLLAR : Z := 36.

(** The loop of [matchstar], given what follows the starred character. *)
Fixpoint star_loop (here : list Z -> bool) (c : Z) (text : list Z) : bool :=
  here text ||
  match text with
  | t :: text' => ((t =? c) || (c =? DOT)) && star_loop here c text'
  | [] => false
  end.

Fixpoint matchhere (re text : list Z) : bool :=
  match re with
  | [] => true
  | c :: re' =>
      match re' with
      | s :: re'' =>
          if s =? STAR then star_loop (matchhere re'') c text
          else
            match text with
            | t :: text' => ((c =? DOT) || (c =? t)) && matchhere re' text'
            | [] => false
            end
      | [] =>
          if c =? DOLLAR then hd0 text =? 0
          else
            match text with
            | t :: text' => ((c =? DOT) || (c =? t)) && matchhere re' text'
            | [] => false
            end
      end
  end.

Definition matchstar (c : Z) (re text : list Z) : bool := star_loop (matchhere re) c text.

(** [do if(matchhere(re, text)) return 1; while( *text++ != 0)] *)
Fixpoint match_from (re text : list Z) : bool :=
  matchhere re text ||
  match text with
  | _ :: text' => match_from re text'
  | [] => false
  end.

Definition match_ (re text : list Z) : bool :=
  match re with
  | c :: re' => if c =? CARET then matchhere re' text else match_from re text
  | [] => match_from re text
  end.

(** * The line loop *)

Definition NEWLINE : Z := 10.

(** [strchr(buf + p, c)] of ulib.c, as an index. *)
Fixpoint strchr_in (l : list Z) (c : Z) (i : nat) : option nat :=
  match l with
  | [] => None
  | x :: l' => if x =? 0 then None else if x =? c then Some i else strchr_in l' c (S i)
  end.
Definition strchr (buf : list Z) (p : nat) (c : Z) : option nat := strchr_in (drop p buf) c p.

(** [while((q = strchr(p, '\n')) != 0)]: the buffer, [p] and what was written. *)
Fixpoint grep_lines (fuel : nat) (pattern buf : list Z) (p : nat) (out : list Z)
  : list Z * nat * list Z :=
  match fuel with
  | O => (buf, p, out)
  | S f =>
      match strchr buf p NEWLINE with
      | None => (buf, p, out)
      | Some q =>
          let buf := <[q := 0]> buf in
          if match_ pattern (string_at buf p) then
            let buf := <[q := NEWLINE]> buf in
            grep_lines f pattern buf (S q) (out ++ take (q + 1 - p) (drop p buf))
          else grep_lines f pattern buf (S q) out
      end
  end.

(** One round of the outer loop, [chunk] being what [read] stored at
    [buf + m]: the buffer, [m] and the output so far. *)
Definition BUFSIZE : nat := 1024.
#[global] Arguments BUFSIZE : simpl never.
Definition grep_round (pattern chunk : list Z) (st : list Z * nat * list Z)
  : list Z * nat * list Z :=
  let '(buf, m, out) := st in
  let buf := take m buf ++ chunk ++ drop (m + length chunk) buf in
  let m := (m + length chunk)%nat in
  let buf := <[m := 0]> buf in
  let '(buf, p, out) := grep_lines BUFSIZE pattern buf 0 out in
  let m := if (p =? 0)%nat then 0%nat else m in
  if (0 <? m)%nat then
    let m := (m - p)%nat in
    (take m (drop p buf) ++ drop m buf, m, out)
  else (buf, m, out).

(** The loop over the results of successive [read]s, each asking for
    [BUFSIZE - m - 1] bytes; an empty result is the end of the file. *)
Fixpoint grep_loop (pattern : list Z) (chunks : list (list Z)) (st : list Z * nat * list Z)
  : list Z * nat * list Z :=
  match chunks with
  | [] => st
  | chunk :: chunks' =>
      if bool_decide (chunk = []) then st
      else grep_loop pattern chunks' (grep_round pattern chunk st)
  end.
Definition grep (pattern : list Z) (chunks : list (list Z)) : list Z :=
  (grep_loop pattern chunks (replicate BUFSIZE 0, 0%nat, [])).2.

(** * What a pattern means *)

Inductive atom := Char (c : Z) | Any.
Inductive item := One (a : atom) | Many (a : atom) | End.

Definition atom_of (c : Z) : atom := if c =? DOT then Any else Char c.
Definition fits (a : atom) (t : Z) : Prop :=
  match a with Char c => c = t | Any => True end.

(** Reading a pattern: a star binds the character before it, a dollar at the
    very end is the end of the line. *)
Fixpoint items (re : list Z) : list item :=
  match re with
  | [] => []
  | c :: re' =>
      match re' with
      | s :: re'' => if s =? STAR then Many (atom_of c) :: items re'' else One (atom_of c) :: items re'
      | [] => if c =? DOLLAR then [End] else [One (atom_of c)]
      end
  end.

(** [denotes l u rest]: the items match [u] where [rest] follows. *)
Fixpoint denotes (l : list item) (u rest : list Z) : Prop :=
  match l with
  | [] => u = []
  | One a :: l' => exists t u', u = t :: u' /\ fits a t /\ denotes l' u' rest
  | Many a :: l' => exists u1 u2, u = u1 ++ u2 /\ Forall (fits a) u1 /\ denotes l' u2 rest
  | End :: l' => u = [] /\ rest = [] /\ denotes l' u rest
  end.

(** Some prefix of [text] is matched. *)
Definition prefix_matched (l : list item) (text : list Z) : Prop :=
  exists u rest, text = u ++ rest /\ denotes l u rest.

Definition text_ok (text : list Z) : Prop := Forall (fun t => t <> 0) text.

Lemma atom_of_fits c t : ((c =? DOT) || (c =? t)) = true <-> fits (atom_of c) t.
Proof. unfold atom_of. destruct (Z.eqb_spec c DOT); cbn; [done|]. apply Z.eqb_eq. Qed.

Lemma prefix_one a l text :
  prefix_matched (One a :: l) text <->
  exists t text', text = t :: text' /\ fits a t /\ prefix_matched l text'.
Proof.
  unfold prefix_matched; cbn. split.
  - intros (? & rest & -> & t & u & -> & Hf & Hd). exists t, (u ++ rest). eauto 6.
  - intros (t & ? & -> & Hf & u & rest & -> & Hd). exists (t :: u), rest. eauto 6.
Qed.

Lemma star_loop_spec here c l text :
  (forall text', text_ok text' -> here text' = true <-> prefix_matched l text') -> text_ok text ->
  star_loop here c text = true <-> prefix_matched (Many (atom_of c) :: l) text.
Proof.
  intros Hh Ht. induction Ht as [|t text H0 Ht IH]; cbn [star_loop].
  - rewrite orb_false_r, Hh by by constructor. unfold prefix_matched; cbn. split.
    + intros (u & rest & E & Hd). exists u, rest. split; [done|]. by exists [], u.
    + intros (u & rest & E & u1 & u2 & -> & _ & Hd). destruct u1; [|done]. by exists u2, rest.
  - rewrite orb_true_iff, andb_true_iff, IH, Hh, (Z.eqb_sym t), orb_comm, atom_of_fits by by constructor.
    unfold prefix_matched; cbn. split.
    + intros [(u & rest & E & Hd)|(Hf & u & rest & -> & u1 & u2 & -> & H1 & Hd)].
      * exists u, rest. split; [done|]. by exists [], u.
      * exists (t :: u1 ++ u2), rest. split; [done|]. exists (t :: u1), u2. eauto.
    + intros (u & rest & E & [|t' u1] & u2 & -> & H1 & Hd); [left; by exists u2, rest|].
      right. cbn in E. injection E as <- ->. apply Forall_cons in H1 as [Hf H1]. split; [done|].
      exists (u1 ++ u2), rest. split; [done|]. by exists u1, u2.
Qed.

Lemma matchhere_spec re text :
  text_ok text -> matchhere re text = true <-> prefix_matched (items re) text.
Proof.
  revert text. induction re as [re IH] using (induction_ltof1 _ length); unfold ltof in IH.
  intros text Ht. destruct re as [|c re]; cbn [matchhere items].
  { split; [|done]. intros _. by exists [], text. }
  assert (Hone : forall text, text_ok text ->
    match text with t :: text' => ((c =? DOT) || (c =? t)) && matchhere re text' | [] => false end = true
      <-> prefix_matched (One (atom_of c) :: items re) text).
  { intros [|t text0] H0; rewrite prefix_one; [naive_solver|]. apply Forall_cons in H0 as [_ H0].
    rewrite andb_true_iff, atom_of_fits, IH by (cbn; (done || lia)). naive_solver. }
  destruct re as [|s re]; cbn [items].
  - destruct (Z.eqb_spec c DOLLAR); [|by apply Hone]. unfold prefix_matched; cbn. split.
    + intros Hz. exists [], text. destruct text; [done|]. apply Forall_cons in Ht as [Hn _].
      apply Z.eqb_eq in Hz. done.
    + intros (? & ? & -> & -> & -> & _). done.
  - destruct (Z.eqb_spec s STAR); [|by apply Hone]. subst s.
    apply star_loop_spec; [|done]. intros text'. apply IH. cbn. lia.
Qed.

Lemma match_from_spec re text :
  text_ok text -> match_from re text = true <->
  exists pre suf, text = pre ++ suf /\ prefix_matched (items re) suf.
Proof.
  intros Ht. induction Ht as [|t text H0 Ht IH]; cbn [match_from];
    rewrite orb_true_iff, matchhere_spec by by constructor.
  - split; [intros [Hm|]; [by exists [], []|done]|].
    intros ([|] & suf & E & Hm); [left; by rewrite E|done].
  - rewrite IH. split.
    + intros [Hm|(pre & suf & -> & Hm)]; [by exists [], (t :: text)|by exists (t :: pre), suf].
    + intros ([|] & suf & E & Hm); cbn in E; [left; by rewrite E|]. injection E as <- ->. eauto.
Qed.

(** C26: the backtracking matcher decides the pattern language.  A text
    without NULs matches a pattern exactly when some part of it, the beginning
    if the pattern starts with a caret, is in the language the pattern
    denotes: literal characters, dots for any character, stars for any number
    of repetitions of the character before, a final dollar for the end. *)
Theorem match_correct re text :
  text_ok text ->
  match_ re text = true <->
  if bool_decide (head re = Some CARET) then prefix_matched (items (tail re)) text
  else exists pre suf, text = pre ++ suf /\ prefix_matched (items re) suf.
Proof.
  intros Ht. unfold match_. destruct re as [|c re]; cbn [head tail]; [by apply match_from_spec|].
  destruct (Z.eqb_spec c CARET) as [->|Hc].
  - rewrite bool_decide_eq_true_2 by done. by apply matchhere_spec.
  - rewrite bool_decide_eq_false_2 by congruence. by apply match_from_spec.
Qed.

(** * What the line loop prints *)

(** The complete lines of a text and what follows the last one. *)
Fixpoint lines_of (l : list Z) : list (list Z) * list Z :=
  match l with
  | [] => ([], [])
  | c :: l' =>
      let '(ls, r) := lines_of l' in
      if c =? NEWLINE then ([] :: ls, r)
      else match ls with
           | [] => ([], c :: r)
           | x :: ls' => ((c :: x) :: ls', r)
           end
  end.
Definition selected (pattern : list Z) (ls : list (list Z)) : list Z :=
  mjoin ((fun x => if match_ pattern x then x ++ [NEWLINE] else []) <$> ls).

Lemma lines_of_none l : NEWLINE ∉ l -> lines_of l = ([], l).
Proof.
  induction l as [|c l IH]; intros Hn; [done|]. cbn. rewrite IH by set_solver.
  destruct (Z.eqb_spec c NEWLINE); [set_solver|done].
Qed.

Lemma lines_of_line x l :
  NEWLINE ∉ x -> lines_of (x ++ NEWLINE :: l) = (x :: (lines_of l).1, (lines_of l).2).
Proof.
  induction x as [|c x IH]; intros Hn.
  - cbn. by destruct (lines_of l).
  - cbn. rewrite IH by set_solver. destruct (Z.eqb_spec c NEWLINE); [set_solver|done].
Qed.

(** Either there is no newline or the text starts with a line. *)
Lemma first_line l : NEWLINE ∉ l \/ exists x l', l = x ++ NEWLINE :: l' /\ NEWLINE ∉ x.
Proof.
  destruct (decide (NEWLINE ∈ l)) as [H|]; [right|by left].
  apply list_elem_of_split_l in H as (x & l' & -> & Hn). eauto.
Qed.

Lemma lines_of_app a b :
  lines_of (a ++ b) =
    ((lines_of a).1 ++ (lines_of ((lines_of a).2 ++ b)).1, (lines_of ((lines_of a).2 ++ b)).2).
Proof.
  induction a as [a IH] using (induction_ltof1 _ length); unfold ltof in IH.
  destruct (first_line a) as [Hn|(x & l & -> & Hn)].
  - rewrite (lines_of_none a) by done. cbn. by destruct (lines_of (a ++ b)).
  - rewrite <- app_assoc; cbn. rewrite !lines_of_line by done. cbn.
    rewrite IH by (rewrite length_app; cbn; lia). done.
Qed.

Lemma lines_of_length l : (length (lines_of l).2 <= length l)%nat.
Proof.
  induction l as [l IH] using (induction_ltof1 _ length); unfold ltof in IH.
  destruct (first_line l) as [Hn|(x & l' & -> & Hn)].
  - by rewrite lines_of_none.
  - rewrite lines_of_line by done. cbn. rewrite length_app; cbn.
    pose proof (IH l' ltac:(rewrite length_app; cbn; lia)). lia.
Qed.

Lemma until_nul_app x l : text_ok x -> until_nul (x ++ 0 :: l) = x.
Proof. induction 1 as [|c x Hc Hx IH]; [done|]. cbn. destruct (Z.eqb_spec c 0); [done|]. by rewrite IH. Qed.

Lemma strchr_in_app x c l i :
  text_ok x -> c ∉ x -> strchr_in (x ++ l) c i = strchr_in l c (i + length x).
Proof.
  intros Hx. revert i. induction Hx as [|y x Hy Hx IH]; intros i Hn; cbn.
  - by rewrite Nat.add_0_r.
  - destruct (Z.eqb_spec y 0); [done|]. destruct (Z.eqb_spec y c); [set_solver|].
    rewrite IH by set_solver. f_equal. lia.
Qed.

(** The inner loop prints the selected lines and stops after the last one;
    every round consumes a line, so the size of the buffer is fuel enough. *)
Lemma grep_lines_spec fuel pattern pre data junk out :
  text_ok data -> (length data < fuel)%nat ->
  exists pre',
    grep_lines fuel pattern (pre ++ data ++ 0 :: junk) (length pre) out =
      (pre' ++ (lines_of data).2 ++ 0 :: junk, length pre',
       out ++ selected pattern (lines_of data).1) /\
    length pre' = (length pre + (length data - length (lines_of data).2))%nat.
Proof.
  revert fuel pre out. induction data as [data IH] using (induction_ltof1 _ length); unfold ltof in IH.
  intros fuel pre out Hd Hf. destruct fuel as [|f]; [lia|]. cbn [grep_lines].
  unfold strchr. rewrite drop_app_length.
  destruct (first_line data) as [Hn|(x & l & -> & Hn)].
  - rewrite strchr_in_app by done. cbn. rewrite lines_of_none by done. cbn. exists pre.
    rewrite app_nil_r. split; [done|lia].
  - apply Forall_app in Hd as [Hx Hl]. apply Forall_cons in Hl as [_ Hl].
    rewrite <- app_assoc, strchr_in_app by done. cbn [strchr_in app].
    change (NEWLINE =? 0) with false. change (NEWLINE =? NEWLINE) with true. cbn iota.
    rewrite insert_app_r_alt by lia. replace (length pre + length x - length pre)%nat with (length x + 0)%nat by lia.
    rewrite insert_app_r. cbn [insert list_insert]. unfold string_at. rewrite drop_app_length, until_nul_app by done.
    rewrite lines_of_line by done. cbn [fst snd]. unfold selected; cbn [fmap list_fmap mjoin list_join].
    assert (Hlen : forall y : Z, length (pre ++ x ++ [y]) = S (length pre + length x))
      by (intros y; rewrite !length_app; cbn; lia).
    assert (Happ : forall y : Z, pre ++ x ++ y :: l ++ 0 :: junk = (pre ++ x ++ [y]) ++ l ++ 0 :: junk)
      by (intros y; by rewrite <- !app_assoc).
    rewrite length_app in Hf. cbn in Hf.
    assert (Hll := lines_of_length l).
    destruct (match_ pattern x).
    + rewrite insert_app_r_alt by lia. replace (length pre + length x - length pre)%nat with (length x + 0)%nat by lia.
      rewrite insert_app_r. cbn [insert list_insert]. rewrite drop_app_length.
      replace (length pre + length x + 1 - length pre)%nat with (length (x ++ [NEWLINE])) by (rewrite length_app; cbn; lia).
      rewrite (cons_middle NEWLINE x), (app_assoc x), take_app_length, <- app_assoc.
      rewrite <- (Hlen NEWLINE). change (x ++ [NEWLINE] ++ ?r) with (x ++ NEWLINE :: r). rewrite Happ.
      destruct (IH l ltac:(rewrite length_app; cbn; lia) f (pre ++ x ++ [NEWLINE]) (out ++ x ++ [NEWLINE]) Hl ltac:(lia))
        as (pre' & -> & Hp). exists pre'. split; [by rewrite <- !app_assoc|].
      rewrite Hp, Hlen, length_app; cbn. lia.
    + rewrite <- (Hlen 0), Happ.
      destruct (IH l ltac:(rewrite length_app; cbn; lia) f (pre ++ x ++ [0]) out Hl ltac:(lia)) as (pre' & -> & Hp).
      exists pre'. split; [done|]. rewrite Hp, Hlen, length_app; cbn. lia.
Qed.

(** What a round keeps: the incomplete line, but nothing if there was no
    complete line before it. *)
Definition kept (data : list Z) : list Z :=
  match (lines_of data).1 with [] => [] | _ => (lines_of data).2 end.

Lemma no_lines data : (lines_of data).1 = [] -> (lines_of data).2 = data.
Proof.
  destruct (first_line data) as [Hn|(x & l & -> & Hn)]; [by rewrite lines_of_none|].
  by rewrite lines_of_line.
Qed.

Lemma rest_shorter data : (lines_of data).1 <> [] -> (length (lines_of data).2 < length data)%nat.
Proof.
  destruct (first_line data) as [Hn|(x & l & -> & Hn)]; [by rewrite lines_of_none|].
  rewrite lines_of_line by done. intros _. cbn. pose proof (lines_of_length l).
  rewrite length_app; cbn. lia.
Qed.

Lemma grep_round_spec pattern chunk data junk out :
  text_ok (data ++ chunk) -> chunk <> [] -> length (data ++ junk) = BUFSIZE ->
  (length data + length chunk < BUFSIZE)%nat ->
  exists junk',
    grep_round pattern chunk (data ++ junk, length data, out) =
      (kept (data ++ chunk) ++ junk', length (kept (data ++ chunk)),
       out ++ selected pattern (lines_of (data ++ chunk)).1) /\
    length (kept (data ++ chunk) ++ junk') = BUFSIZE.
Proof.
  intros Ht Hc Hb Hroom. set (all := data ++ chunk) in *. unfold grep_round.
  assert (Hall : length all = (length data + length chunk)%nat) by apply length_app.
  rewrite take_app_length, (app_assoc data), <- Hall. fold all.
  rewrite insert_app_r_alt, Nat.sub_diag by done.
  assert (Hj : exists y junk1, drop (length all) (data ++ junk) = y :: junk1).
  { destruct (drop (length all) (data ++ junk)) eqn:E; [|eauto].
    apply (f_equal length) in E. rewrite length_drop, Hb, Hall in E. cbn in E. lia. }
  destruct Hj as (y & junk1 & Hj). rewrite Hj. cbn [insert list_insert].
  destruct (grep_lines_spec BUFSIZE pattern [] all junk1 out Ht ltac:(lia)) as (pre' & Hg & Hp).
  change ([] ++ ?l) with l in Hg. change (length []) with 0%nat in Hg, Hp. rewrite Hg. cbn [Nat.add] in Hp.
  assert (Hj1 : length junk1 = (BUFSIZE - length all - 1)%nat).
  { apply (f_equal length) in Hj. rewrite length_drop, Hb in Hj. cbn in Hj. lia. }
  assert (Hne : (0 < length chunk)%nat) by (destruct chunk; [done|cbn; lia]).
  unfold kept. destruct ((lines_of all).1) as [|x ls] eqn:El.
  - pose proof (no_lines _ El) as Er. rewrite Er in *. assert (pre' = []) as ->.
    { destruct pre'; [done|]. cbn in Hp. lia. }
    cbn. exists (all ++ 0 :: junk1). split; [done|]. rewrite length_app; cbn. lia.
  - pose proof (rest_shorter all ltac:(by rewrite El)) as Hs.
    destruct (Nat.eqb_spec (length pre') 0); [lia|]. destruct (Nat.ltb_spec 0 (length all)); [|lia].
    replace (length all - length pre')%nat with (length (lines_of all).2) by lia.
    rewrite drop_app_length, take_app_length. eexists. split; [done|].
    rewrite length_app, length_drop, !length_app. cbn. lia.
Qed.

(** The rounds seen from outside: the incomplete line carried over, and the
    room [read] leaves for it. *)
Fixpoint grep_spec (pattern r : list Z) (chunks : list (list Z)) : list Z :=
  match chunks with
  | [] => []
  | chunk :: chunks' =>
      selected pattern (lines_of (r ++ chunk)).1 ++ grep_spec pattern (kept (r ++ chunk)) chunks'
  end.
Fixpoint readable (r : list Z) (chunks : list (list Z)) : Prop :=
  match chunks with
  | [] => True
  | chunk :: chunks' =>
      chunk <> [] /\ text_ok chunk /\ (length r + length chunk < BUFSIZE)%nat /\
      readable (kept (r ++ chunk)) chunks'
  end.

Lemma text_ok_rest data : text_ok data -> text_ok (kept data).
Proof.
  unfold kept. intros Ht. destruct (lines_of data).1; [constructor|].
  cut ((lines_of data).2 `suffix_of` data).
  { intros [k Hk]. rewrite Hk in Ht. by apply Forall_app in Ht as [_ ?]. }
  clear Ht. induction data as [data IH] using (induction_ltof1 _ length); unfold ltof in IH.
  destruct (first_line data) as [Hn|(x & l' & -> & Hn)]; [by rewrite lines_of_none|].
  rewrite lines_of_line by done. cbn. apply suffix_app_r, suffix_cons_r, IH. rewrite length_app; cbn; lia.
Qed.

Lemma grep_loop_spec pattern chunks r junk out :
  text_ok r -> length (r ++ junk) = BUFSIZE -> readable r chunks ->
  (grep_loop pattern chunks (r ++ junk, length r, out)).2 = out ++ grep_spec pattern r chunks.
Proof.
  revert r junk out. induction chunks as [|chunk chunks IH]; intros r junk out Hr Hb Hok;
    cbn [grep_loop grep_spec].
  { by rewrite app_nil_r. }
  destruct Hok as (Hc & Ht & Hroom & Hok). rewrite bool_decide_eq_false_2 by done.
  assert (Hall : text_ok (r ++ chunk)) by by apply Forall_app.
  destruct (grep_round_spec pattern chunk r junk out Hall Hc Hb Hroom) as (junk' & -> & Hb').
  rewrite IH by (done || by apply text_ok_rest). by rewrite <- app_assoc.
Qed.

Lemma rest_no_newline data : NEWLINE ∉ (lines_of data).2.
Proof.
  induction data as [data IH] using (induction_ltof1 _ length); unfold ltof in IH.
  destruct (first_line data) as [Hn|(x & l & -> & Hn)]; [by rewrite lines_of_none|].
  rewrite lines_of_line by done. apply IH. rewrite length_app; cbn; lia.
Qed.

Lemma kept_newline data : NEWLINE ∈ data -> kept data = (lines_of data).2.
Proof.
  intros Hn. unfold kept. destruct ((lines_of data).1) eqn:E; [|done].
  pose proof (rest_no_newline data) as Hr. by rewrite (no_lines _ E) in Hr.
Qed.

Lemma selected_app pattern l1 l2 : selected pattern (l1 ++ l2) = selected pattern l1 ++ selected pattern l2.
Proof. unfold selected. by rewrite fmap_app, join_app. Qed.

(** C27: grep prints the matching lines.  However [read] cuts a file
    without NULs into pieces, the output is that of the line-by-line
    specification, in which a piece without a newline, together with what was
    carried over to it, is dropped; when every piece contains a newline, the
    output is exactly the complete lines of the file that match the pattern,
    in order. *)
Theorem grep_prints_matches pattern chunks :
  readable [] chunks ->
  grep pattern chunks = grep_spec pattern [] chunks /\
  (Forall (fun chunk => NEWLINE ∈ chunk) chunks ->
     grep pattern chunks = selected pattern (lines_of (mjoin chunks)).1).
Proof.
  intros Hok. assert (E : grep pattern chunks = grep_spec pattern [] chunks).
  { apply (grep_loop_spec pattern chunks [] (replicate BUFSIZE 0) []); [constructor| |done].
    by rewrite length_app, length_replicate. }
  split; [done|]. intros Hn. rewrite E. clear E Hok.
  assert (G : forall r, NEWLINE ∉ r -> grep_spec pattern r chunks = selected pattern (lines_of (r ++ mjoin chunks)).1);
    [|apply G; set_solver].
  induction Hn as [|chunk chunks Hn Hall IH]; intros r Hr; cbn [grep_spec mjoin list_join].
  - rewrite app_nil_r, lines_of_none by done. done.
  - rewrite app_assoc, (lines_of_app (r ++ chunk)). cbn [fst]. rewrite selected_app. f_equal.
    rewrite kept_newline by set_solver. apply IH, rest_no_newline.
Qed.
