(* ===== verification/Shell.v ===== *)
(** sh.c: the shell's parser.

    The line is a buffer of characters without NULs, followed by a NUL; a
    [char*] into it is an index.  The parser's state is the index [*ps]; its
    functions panic with the shell's messages.  The parse tree keeps the start
    and end of every word, as the code does until [nulterminate]. *)

From S2P Require Import Prelude Control Memory Format SysFile.

Abbreviation P := (M nat).

Inductive cmd :=
| EXEC (argv : list (nat * nat))                       (* argv[i], eargv[i] *)
| REDIR (c : cmd) (file efile : nat) (mode fd : Z)
| PIPE (left right : cmd)
| LIST (left right : cmd)
| BACK (c : cmd).

Definition MAXARGS : nat := 10.

Definition whitespace : list Z := [32; 9; 13; 10; 11].
Definition symbols : list Z := bytes_of "<|>&;()".
Definition TOK_A : Z := 97.
Definition TOK_PLUS : Z := 43.

(** [strchr(l, c) != 0] for a character that is not NUL. *)
Definition in_set (l : list Z) (c : Z) : bool := existsb (Z.eqb c) l.

Section Parser.
Variable buf : list Z.

Definition es : nat := length buf.
(** [*s]: the NUL at the end and beyond. *)
Definition char_at (s : nat) : Z := default 0 (buf !! s).

(** [while(s < es && f( *s)) s++] *)
Fixpoint skip (n : nat) (f : Z -> bool) (s : nat) : nat :=
  match n with
  | O => s
  | S n' => if f (char_at s) then skip n' f (S s) else s
  end.
Definition skip_while (f : Z -> bool) (s : nat) : nat := skip (es - s) f s.
Definition skip_white : nat -> nat := skip_while (in_set whitespace).
Definition word_char (c : Z) : bool := negb (in_set whitespace c) && negb (in_set symbols c).

(** The token, where it starts and where it ends. *)
Definition gettoken : P (Z * nat * nat) :=
  s ← get;
  let q := skip_white s in
  let c := char_at q in
  let '(ret, s) :=
    if c =? 0 then (0, q)
    else if in_set (bytes_of "|();&<") c then (c, S q)
    else if c =? 62 then
      if char_at (S q) =? 62 then (TOK_PLUS, S (S q)) else (c, S q)
    else (TOK_A, skip_while word_char q) in
  modify (fun _ => skip_white s) ;;
  mret (ret, q, s).

Definition peek (toks : list Z) : P bool :=
  modify skip_white ;;
  c ← gets char_at;
  mret (negb (c =? 0) && in_set toks c).

(** The loops take fuel; [parsecmd] gives them enough ([parsecmd_returns]). *)
Fixpoint parseredirs (fuel : nat) (c : cmd) : P cmd :=
  match fuel with
  | O => no_return
  | S f =>
      more ← peek (bytes_of "<>");
      if more : bool then
        '(tok, _, _) ← gettoken;
        '(t, q, eq) ← gettoken;
        if negb (t =? TOK_A) then panic "missing file for redirection" else
        parseredirs f
          (if tok =? 60 then REDIR c q eq O_RDONLY 0
           else REDIR c q eq (Z.lor O_WRONLY O_CREATE) 1)
      else mret c
  end.

(** [cmd->argv[argc] = q] on the [execcmd] at the bottom of the redirections
    that [ret] points to. *)
Fixpoint add_arg (a : nat * nat) (c : cmd) : cmd :=
  match c with
  | EXEC argv => EXEC (argv ++ [a])
  | REDIR c' file efile mode fd => REDIR (add_arg a c') file efile mode fd
  | _ => c
  end.

Fixpoint parseargs (fuel : nat) (argc : nat) (ret : cmd) : P cmd :=
  match fuel with
  | O => no_return
  | S f =>
      stop ← peek (bytes_of "|)&;");
      if stop : bool then mret ret else
      '(tok, q, eq) ← gettoken;
      if tok =? 0 then mret ret else
      if negb (tok =? TOK_A) then panic "syntax" else
      let ret := add_arg (q, eq) ret in
      let argc := S argc in
      if (MAXARGS <=? argc)%nat then panic "too many args" else
      ret ← parseredirs f ret;
      parseargs f argc ret
  end.

Fixpoint parse_backs (fuel : nat) (c : cmd) : P cmd :=
  match fuel with
  | O => no_return
  | S f =>
      more ← peek (bytes_of "&");
      if more : bool then gettoken ;; parse_backs f (BACK c) else mret c
  end.

Fixpoint parseline (fuel : nat) : P cmd :=
  match fuel with
  | O => no_return
  | S f =>
      c ← parsepipe f;
      c ← parse_backs f c;
      more ← peek (bytes_of ";");
      if more : bool then
        gettoken ;;
        r ← parseline f;
        mret (LIST c r)
      else mret c
  end
with parsepipe (fuel : nat) : P cmd :=
  match fuel with
  | O => no_return
  | S f =>
      c ← parseexec f;
      more ← peek (bytes_of "|");
      if more : bool then
        gettoken ;;
        r ← parsepipe f;
        mret (PIPE c r)
      else mret c
  end
with parseexec (fuel : nat) : P cmd :=
  match fuel with
  | O => no_return
  | S f =>
      block ← peek (bytes_of "(");
      if block : bool then parseblock f else
      ret ← parseredirs f (EXEC []);
      parseargs f 0 ret
  end
with parseblock (fuel : nat) : P cmd :=
  match fuel with
  | O => no_return
  | S f =>
      open ← peek (bytes_of "(");
      if negb open then panic "parseblock" else
      gettoken ;;
      c ← parseline f;
      close ← peek (bytes_of ")");
      if negb close then panic "syntax - missing )" else
      gettoken ;;
      parseredirs f c
  end.

(** The indices at which [nulterminate] stores a NUL. *)
Fixpoint ends (c : cmd) : list nat :=
  match c with
  | EXEC argv => argv.*2
  | REDIR c' _ efile _ _ => ends c' ++ [efile]
  | PIPE l r => ends l ++ ends r
  | LIST l r => ends l ++ ends r
  | BACK c' => ends c'
  end.

Definition parse_fuel : nat := (4 * es + 8)%nat.
(** [parsecmd] without [nulterminate]: the tree or the shell's message. *)
Definition parse_tree : P cmd :=
  c ← parseline parse_fuel;
  peek [] ;;
  s ← get;
  if (s =? es)%nat then mret c else panic "syntax".

End Parser.

(** The buffer after [nulterminate] and the tree. *)
Definition nulterminate (buf : list Z) (c : cmd) : list Z :=
  foldl (fun b i => <[i := 0]> b) (buf ++ [0]) (ends c).
Definition parsecmd (buf : list Z) : outcome nat (cmd * list Z) :=
  (c ← parse_tree buf; mret (c, nulterminate buf c)) 0%nat [].

(** * Termination *)

(** The words of a command, as start and end. *)
Fixpoint spans (c : cmd) : list (nat * nat) :=
  match c with
  | EXEC argv => argv
  | REDIR c' file efile _ _ => spans c' ++ [(file, efile)]
  | PIPE l r => spans l ++ spans r
  | LIST l r => spans l ++ spans r
  | BACK c' => spans c'
  end.

Section Termination.
Variable buf : list Z.
Hypothesis no_nul : Forall (fun c => c <> 0) buf.
#[local] Abbreviation es := (es buf).
#[local] Abbreviation char_at := (char_at buf).

(** A maximal run of word characters from [q] on. *)
Definition span_ok (p : nat * nat) : Prop :=
  let '(q, e) := p in
  (q < e <= es)%nat /\ (forall i, (q <= i < e)%nat -> word_char (char_at i) = true) /\
  ((e < es)%nat -> word_char (char_at e) = false).

(** [m] returns or panics from [s], and a result satisfies [Q]. *)
Definition ends_in {A} (m : P A) (s : nat) (Q : A -> nat -> Prop) : Prop :=
  match m s [] with
  | Ok a s' w => w = [] /\ Q a s'
  | Panic _ _ => True
  | _ => False
  end.

Lemma ends_bind {A B} (m : P A) (f : A -> P B) s Q R :
  ends_in m s R -> (forall a s', R a s' -> ends_in (f a) s' Q) -> ends_in (m ≫= f) s Q.
Proof.
  unfold ends_in, mbind, M_bind. intros Hm Hf. destruct (m s []) as [a s' w| | |]; try done.
  destruct Hm as [-> Hr]. by apply Hf.
Qed.

Lemma ends_mono {A} (m : P A) s (Q R : A -> nat -> Prop) :
  ends_in m s R -> (forall a s', R a s' -> Q a s') -> ends_in m s Q.
Proof. unfold ends_in. destruct (m s []); naive_solver. Qed.

Lemma ends_ret {A} (a : A) s (Q : A -> nat -> Prop) : Q a s -> ends_in (mret a) s Q.
Proof. by split. Qed.

Lemma char_at_end s : (es <= s)%nat -> char_at s = 0.
Proof. intros Hs. unfold char_at. by rewrite lookup_ge_None_2. Qed.

Lemma char_at_inside s : (s < es)%nat <-> char_at s <> 0.
Proof.
  split; [|intros Hc; destruct (decide (s < es)%nat); [done|]; by rewrite char_at_end in Hc by lia].
  intros Hs. unfold char_at. destruct (lookup_lt_is_Some_2 buf s Hs) as [c Hc]. rewrite Hc.
  by apply (Forall_lookup_1 _ _ _ _ no_nul Hc).
Qed.

Lemma skip_bounds n f s : (s <= skip buf n f s <= s + n)%nat.
Proof.
  revert s. induction n as [|n IH]; intros s; cbn; [lia|].
  destruct (f (char_at s)); [|lia]. specialize (IH (S s)). lia.
Qed.

Lemma skip_while_bounds f s : (s <= es)%nat -> (s <= skip_while buf f s <= es)%nat.
Proof. intros Hs. unfold skip_while. pose proof (skip_bounds (es - s) f s). lia. Qed.

Lemma peek_ends toks s : (s <= es)%nat ->
  ends_in (peek buf toks) s (fun b s' => (s <= s' <= es)%nat /\ s' = skip_white buf s /\
    (b = true -> (s' < es)%nat /\ in_set toks (char_at s') = true)).
Proof.
  intros Hs. split; [done|]. pose proof (skip_while_bounds (in_set whitespace) s Hs) as Hb.
  fold (skip_white buf s) in Hb. split_and!; [lia..|]. rewrite andb_true_iff, negb_true_iff, Z.eqb_neq.
  intros [Hn Ht]. split; [by apply char_at_inside|done].
Qed.

Lemma skip_while_step f s : (s < es)%nat -> f (char_at s) = true -> (s < skip_while buf f s)%nat.
Proof.
  intros Hs Hf. unfold skip_while. replace (es - s)%nat with (S (es - S s)) by lia. cbn. rewrite Hf.
  pose proof (skip_bounds (es - S s) f (S s)). lia.
Qed.

(** The first character of a word. *)
Lemma token_start c :
  c <> 0 -> in_set (bytes_of "|();&<") c = false -> c <> 62 -> in_set whitespace c = false -> word_char c = true.
Proof.
  intros H0 Hs Hg Hw. unfold word_char. rewrite Hw.
  change (bytes_of "|();&<") with [124; 40; 41; 59; 38; 60] in Hs.
  change symbols with [60; 124; 62; 38; 59; 40; 41]. unfold in_set in *. cbn [existsb] in *.
  repeat (apply orb_false_iff in Hs as [? Hs]). destruct (Z.eqb_spec c 62); [done|].
  repeat match goal with H : (_ =? _) = false |- _ => rewrite H; clear H end. done.
Qed.

Lemma skip_stops n f s : (skip buf n f s < s + n)%nat -> f (char_at (skip buf n f s)) = false.
Proof.
  revert s. induction n as [|n IH]; intros s; cbn; [lia|].
  destruct (f (char_at s)) eqn:E; [|done]. intros Hl. apply IH. lia.
Qed.
Lemma skip_while_stops f s :
  (s <= es)%nat -> (skip_while buf f s < es)%nat -> f (char_at (skip_while buf f s)) = false.
Proof. intros Hs Hl. apply skip_stops. unfold skip_while in Hl. lia. Qed.

Lemma skip_all n f s i : (s <= i < skip buf n f s)%nat -> f (char_at i) = true.
Proof.
  revert s. induction n as [|n IH]; intros s Hi; cbn in Hi; [lia|].
  destruct (f (char_at s)) eqn:E; [|lia]. destruct (decide (i = s)) as [->|]; [done|]. apply (IH (S s)). lia.
Qed.

Lemma word_span q : (q < es)%nat -> word_char (char_at q) = true -> span_ok (q, skip_while buf word_char q).
Proof.
  intros Hq Hw. pose proof (skip_while_bounds word_char q ltac:(lia)).
  pose proof (skip_while_step word_char q Hq Hw). split_and!; [lia..| |].
  - intros i. apply skip_all.
  - apply skip_while_stops. lia.
Qed.

Lemma gettoken_ends s : (s <= es)%nat ->
  ends_in (gettoken buf) s (fun t s' =>
    let '(tok, q, e) := t in
    q = skip_white buf s /\ (s <= q <= e)%nat /\ (e <= s' <= es)%nat /\
    (char_at q <> 0 -> (q < e)%nat) /\ (tok <> 0 -> (q < e)%nat) /\ (tok = TOK_A -> span_ok (q, e))).
Proof.
  intros Hs. pose proof (skip_while_bounds (in_set whitespace) s Hs) as Hq. fold (skip_white buf s) in Hq.
  unfold ends_in, gettoken, get. unfold mbind, M_bind. cbn [modify mret M_ret].
  set (q := skip_white buf s) in *. set (c := char_at q).
  assert (Hc : c <> 0 -> (q < es)%nat) by apply char_at_inside.
  destruct (Z.eqb_spec c 0) as [E|Hn]; cbn iota beta zeta.
  { split; [done|]. pose proof (skip_while_bounds (in_set whitespace) q ltac:(lia)). unfold skip_white.
    split_and!; (done || lia). }
  specialize (Hc Hn).
  assert (Hfin : forall e (tok : Z), (q < e <= es)%nat -> (tok = TOK_A -> span_ok (q, e)) ->
    (q = q /\ (s <= q <= e)%nat /\ (e <= skip_white buf e <= es)%nat /\ (c <> 0 -> (q < e)%nat) /\
     (tok <> 0 -> (q < e)%nat) /\ (tok = TOK_A -> span_ok (q, e)))).
  { intros e tok He Hsp. pose proof (skip_while_bounds (in_set whitespace) e ltac:(lia)). unfold skip_white. split_and!; (done || lia). }
  destruct (in_set (bytes_of "|();&<") c) eqn:Es; [split; [done|]; apply Hfin; [lia|intros E; by rewrite E in Es]|].
  destruct (Z.eqb_spec c 62) as [E|Hg].
  - destruct (Z.eqb_spec (char_at (S q)) 62) as [E2|];
      (split; [done|]); apply Hfin; try done; [|lia|by rewrite E].
    assert (S q < es)%nat by (apply char_at_inside; rewrite E2; done). lia.
  - assert (Hw : word_char c = true).
    { apply token_start; [done..|]. apply skip_while_stops; [done|exact Hc]. }
    split; [done|]. apply Hfin; [|intros _; by apply word_span].
    split; [by apply skip_while_step|apply skip_while_bounds; lia].
Qed.

(** Tokens that are present consume input. *)
Lemma gettoken_consumes s : (s < es)%nat -> s = skip_white buf s ->
  ends_in (gettoken buf) s (fun t s' => (s < s' <= es)%nat).
Proof.
  intros Hs Hw. eapply ends_mono; [apply gettoken_ends; lia|]. intros [[tok q] e] s' (-> & Hq & He & Hc & _).
  rewrite <- Hw in *. assert (char_at s <> 0) by by apply char_at_inside. specialize (Hc H). lia.
Qed.

Lemma skip_white_idem s : (s <= es)%nat -> skip_white buf (skip_white buf s) = skip_white buf s.
Proof.
  intros Hs. pose proof (skip_while_bounds (in_set whitespace) s Hs) as Hb. unfold skip_white at 1.
  unfold skip_while at 1. fold (skip_white buf s) in Hb |- *.
  destruct (decide (skip_white buf s < es)%nat) as [Hl|]; [|by replace (es - skip_white buf s)%nat with 0%nat by lia].
  replace (es - skip_white buf s)%nat with (S (es - S (skip_white buf s))) by lia. cbn [skip].
  pose proof (skip_while_stops (in_set whitespace) s Hs Hl) as E. unfold skip_white. by rewrite E.
Qed.

(** A test for a token followed by the branch taken when it is there. *)
Lemma peek_then {A} toks (yes no : P A) s Q :
  (s <= es)%nat ->
  (forall s', (s <= s' < es)%nat -> s' = skip_white buf s' -> in_set toks (char_at s') = true -> ends_in yes s' Q) ->
  (forall s', (s <= s' <= es)%nat -> ends_in no s' Q) ->
  ends_in (more ← peek buf toks; if more : bool then yes else no) s Q.
Proof.
  intros Hs Hy Hn. eapply ends_bind; [by apply peek_ends|]. intros b s' (Hb & -> & Ht). cbn beta.
  destruct b; [|by apply Hn]. destruct (Ht eq_refl). apply Hy; [lia|by rewrite skip_white_idem|done].
Qed.

(** The result of a parser: how far it got, and that the words of the tree
    are words of the line. *)
Definition reached (s : nat) (c : cmd) (s' : nat) : Prop :=
  (s <= s' <= es)%nat /\ Forall span_ok (spans c).

Lemma reached_from s0 s c s' : (s0 <= s)%nat -> reached s c s' -> reached s0 c s'.
Proof. unfold reached. intros ? [? ?]. split; [lia|done]. Qed.

Lemma add_arg_spans a c : span_ok a -> Forall span_ok (spans c) -> Forall span_ok (spans (add_arg a c)).
Proof.
  intros Ha. induction c; cbn; try done.
  - intros Hc. apply Forall_app; auto.
  - rewrite !Forall_app. naive_solver.
Qed.

Lemma parseredirs_ends fuel c s : (s <= es)%nat -> (es - s < fuel)%nat -> Forall span_ok (spans c) ->
  ends_in (parseredirs buf fuel c) s (reached s).
Proof.
  revert c s. induction fuel as [|f IH]; intros c s Hs Hf Hc; [lia|]. cbn [parseredirs].
  apply peek_then; [done| |intros; by apply ends_ret].
  intros s1 H1 Hw Ht. eapply ends_bind; [by apply gettoken_consumes; [lia|]|]. intros [[tok ?] ?] s2 H2; cbn beta iota.
  eapply ends_bind; [apply gettoken_ends; lia|]. intros [[t q] e] s3 (_ & Hq & He & _ & _ & Hsp); cbn beta iota.
  destruct (Z.eqb_spec t TOK_A) as [E|]; cbn [negb]; [|done].
  eapply ends_mono; [apply IH; [lia..|]|intros; by apply (reached_from s s3); [lia|]].
  destruct (tok =? 60); apply Forall_app; auto.
Qed.

Lemma parseargs_ends fuel argc c s : (s <= es)%nat -> (es - s + 1 < fuel)%nat -> Forall span_ok (spans c) ->
  ends_in (parseargs buf fuel argc c) s (reached s).
Proof.
  revert argc c s. induction fuel as [|f IH]; intros argc c s Hs Hf Hc; [lia|]. cbn [parseargs].
  apply peek_then; [done|intros; apply ends_ret; split; [lia|done]|].
  intros s1 H1. eapply ends_bind; [apply gettoken_ends; lia|].
  intros [[tok q] e] s2 (_ & Hq & He & _ & Ht & Hsp); cbn beta iota.
  destruct (Z.eqb_spec tok 0) as [|Hn]; [apply ends_ret; split; [lia|done]|]. specialize (Ht Hn).
  destruct (Z.eqb_spec tok TOK_A) as [E|]; cbn [negb]; [|done]. destruct (MAXARGS <=? S argc)%nat; [done|].
  eapply ends_bind; [apply parseredirs_ends; [lia..|by apply add_arg_spans; [apply Hsp|]]|].
  intros c' s3 [H3 Hc']. eapply ends_mono; [by apply IH; [lia..|]|]. intros; by apply (reached_from s s3); [lia|].
Qed.

Lemma parse_backs_ends fuel c s : (s <= es)%nat -> (es - s < fuel)%nat -> Forall span_ok (spans c) ->
  ends_in (parse_backs buf fuel c) s (reached s).
Proof.
  revert c s. induction fuel as [|f IH]; intros c s Hs Hf Hc; [lia|]. cbn [parse_backs].
  apply peek_then; [done| |intros; by apply ends_ret].
  intros s1 H1 Hw Ht. eapply ends_bind; [by apply gettoken_consumes; [lia|]|]. intros ? s2 H2; cbn beta in *.
  eapply ends_mono; [by apply IH; [lia..|]|]. intros; by apply (reached_from s s2); [lia|].
Qed.

Definition level_ends (f : nat) (d : nat) (m : P cmd) : Prop :=
  forall s, (s <= es)%nat -> (4 * (es - s) + d <= f)%nat -> ends_in m s (reached s).

Lemma levels_end f :
  level_ends f 6 (parseline buf f) /\ level_ends f 5 (parsepipe buf f) /\
  level_ends f 4 (parseexec buf f) /\
  (forall s, (s < es)%nat -> (4 * (es - s) + 3 <= f)%nat -> ends_in (parseblock buf f) s (reached s)).
Proof.
  unfold level_ends. induction f as [|f (IHl & IHp & IHe & IHb)]; [split_and!; intros; lia|].
  cbn [parseline parsepipe parseexec parseblock]. split_and!; intros s Hs Hf.
  - eapply ends_bind; [apply IHp; lia|]. intros c s1 [H1 Hc].
    eapply ends_bind; [by apply parse_backs_ends; [lia..|]|]. intros c' s2 [H2 Hc'].
    apply peek_then; [lia| |intros; apply ends_ret; split; [lia|done]]. intros s3 H3 Hw _.
    eapply ends_bind; [by apply gettoken_consumes; [lia|]|]. intros ? s4 H4; cbn beta in *.
    eapply ends_bind; [apply IHl; lia|]. intros r s5 [H5 Hr]. apply ends_ret. split; [lia|by apply Forall_app].
  - eapply ends_bind; [apply IHe; lia|]. intros c s1 [H1 Hc].
    apply peek_then; [lia| |intros; apply ends_ret; split; [lia|done]]. intros s3 H3 Hw _.
    eapply ends_bind; [by apply gettoken_consumes; [lia|]|]. intros ? s4 H4; cbn beta in *.
    eapply ends_bind; [apply IHp; lia|]. intros r s5 [H5 Hr]. apply ends_ret. split; [lia|by apply Forall_app].
  - apply peek_then; [done| |].
    + intros s1 H1 Hw Ht. eapply ends_mono; [apply IHb; lia|]. intros; by apply (reached_from s s1); [lia|].
    + intros s1 H1. eapply ends_bind; [by apply parseredirs_ends; [lia..|]|]. intros c s2 [H2 Hc].
      eapply ends_mono; [by apply parseargs_ends; [lia..|]|]. intros; by apply (reached_from s s2); [lia|].
  - eapply ends_bind; [apply peek_ends; lia|]. intros b s1 (H1 & -> & Ht). destruct b; cbn [negb]; [|done].
    destruct (Ht eq_refl) as [Hlt _].
    eapply ends_bind; [apply gettoken_consumes; [done|by rewrite skip_white_idem by lia]|]. intros ? s2 H2; cbn beta in *.
    eapply ends_bind; [apply IHl; lia|]. intros c s3 [H3 Hc].
    eapply ends_bind; [apply peek_ends; lia|]. intros b' s4 (H4 & _ & Ht'). destruct b'; cbn [negb]; [|done].
    eapply ends_bind; [apply gettoken_ends; lia|]. intros [[? q] e] s5 (_ & Hq & He & _); cbn beta iota.
    eapply ends_mono; [by apply parseredirs_ends; [lia..|]|]. intros; by apply (reached_from s s5); [lia|].
Qed.

Lemma parse_tree_ends : ends_in (parse_tree buf) 0 (fun c s => s = es /\ Forall span_ok (spans c)).
Proof.
  unfold parse_tree. eapply ends_bind; [apply levels_end; unfold parse_fuel; lia|].
  intros c s [Hs Hc]. eapply ends_bind; [apply peek_ends; lia|].
  intros b s' (Hs' & _). unfold get. unfold ends_in, mbind, M_bind. cbn beta iota.
  by destruct (Nat.eqb_spec s' es).
Qed.

(** The NULs go where no word is. *)
Lemma ends_spans c : ends c = (spans c).*2.
Proof. induction c; cbn; rewrite ?fmap_app; cbn; congruence. Qed.

Definition word_at (b : list Z) (p : nat * nat) : list Z := take (p.2 - p.1) (drop p.1 b).

Lemma fold_nul_lookup (l : list nat) (b : list Z) (i : nat) :
  foldl (fun b i => <[i := 0]> b) b l !! i = if decide (i ∈ l) then (fun _ => 0) <$> b !! i else b !! i.
Proof.
  revert b. induction l as [|j l IH]; intros b; cbn; [by rewrite decide_False by set_solver|].
  rewrite IH. destruct (decide (i = j)) as [->|Hne].
  - destruct (decide (j ∈ j :: l)); [|set_solver]. destruct (b !! j) eqn:E.
    + rewrite list_lookup_insert_eq by by eapply lookup_lt_Some. by destruct (decide (j ∈ l)).
    + rewrite list_insert_ge by by apply lookup_ge_None_1. rewrite E. by destruct (decide (j ∈ l)).
  - rewrite list_lookup_insert_ne by done. destruct (decide (i ∈ l)), (decide (i ∈ j :: l)); set_solver.
Qed.

Lemma nul_free_prefix (l : list Z) n :
  (forall i, (i < n)%nat -> exists x, l !! i = Some x /\ x <> 0) -> l !! n = Some 0 -> until_nul l = take n l.
Proof.
  revert l. induction n as [|n IH]; intros l Hp Hn.
  - destruct l as [|x l]; [done|]. cbn in Hn. injection Hn as ->. done.
  - destruct l as [|x l]; [done|]. destruct (Hp 0%nat ltac:(lia)) as (y & [= <-] & Hy). cbn.
    destruct (Z.eqb_spec x 0); [done|]. f_equal. apply IH; [|done]. intros i Hi. apply (Hp (S i)). lia.
Qed.

Lemma nulterminate_lookup c q e i :
  Forall span_ok (spans c) -> (q, e) ∈ spans c -> (q <= i <= e)%nat ->
  nulterminate buf c !! i = if decide (i = e) then Some 0 else buf !! i.
Proof.
  intros Hc Hin Hi. pose proof (proj1 (Forall_forall _ _) Hc _ Hin) as ((Hq & He) & Hw & _).
  unfold nulterminate. rewrite fold_nul_lookup, ends_spans. destruct (decide (i = e)) as [->|].
  - rewrite decide_True by (apply (list_elem_of_fmap_2 snd) in Hin; done).
    destruct (lookup_lt_is_Some_2 (buf ++ [0]) e) as [x Hx]; [rewrite length_app; cbn; unfold es in *; lia|].
    by rewrite Hx.
  - rewrite lookup_app_l by (unfold es in *; lia). apply decide_False. intros ([q' e'] & -> & Hin')%list_elem_of_fmap. cbn in *.
    pose proof (proj1 (Forall_forall _ _) Hc _ Hin') as (_ & _ & Hstop).
    rewrite (Hw e') in Hstop by lia. assert (e' < es)%nat by lia. by specialize (Hstop H).
Qed.
End Termination.

(** C16: the shell's parser always comes back: on every line it returns
    a command with the whole line consumed, or exits with one of its error
    messages; the fuel of the recursive descent is never exhausted. *)
Theorem parsecmd_returns buf :
  Forall (fun c => c <> 0) buf ->
  (exists c b, parsecmd buf = Ok (c, b) (length buf) []) \/
  (exists msg s, parsecmd buf = Panic msg s).
Proof.
  intros Hb. pose proof (parse_tree_ends buf Hb) as He. unfold parsecmd, ends_in, mbind, M_bind in *.
  destruct (parse_tree buf 0%nat []) as [c s w|msg s| |]; [|by right; eauto|done|done].
  destruct He as (-> & -> & _). left. by eexists _, _.
Qed.

(** [nulterminate] cuts the line into exactly the words the parser
    found.  In the buffer it leaves, the string at the start of every word of
    the command, program, argument or file name, is the non-empty run of word
    characters the word covered in the line, nothing more or less, whatever
    NULs were stored for the other words. *)
Theorem nulterminate_words buf c b s w :
  Forall (fun c => c <> 0) buf -> parsecmd buf = Ok (c, b) s w ->
  forall p, p ∈ spans c ->
    string_at b p.1 = word_at buf p /\ word_at buf p <> [] /\
    Forall (fun x => word_char x = true) (word_at buf p).
Proof.
  intros Hb E [q e] Hin. pose proof (parse_tree_ends buf Hb) as He.
  unfold parsecmd, ends_in, mbind, M_bind in *.
  destruct (parse_tree buf 0%nat []) as [c' s' w'| | |]; [|done..]. injection E as -> <- _ _.
  destruct He as (_ & _ & Hc). pose proof (proj1 (Forall_forall _ _) Hc _ Hin) as ((Hq & Hl) & Hw & _).
  assert (Hlook : forall i, (q <= i < e)%nat -> exists x, buf !! i = Some x /\ x <> 0 /\ word_char x = true).
  { intros i Hi. destruct (lookup_lt_is_Some_2 buf i) as [x Hx]; [unfold es in *; lia|].
    exists x. split_and!; [done|by apply (Forall_lookup_1 _ _ _ _ Hb Hx)|].
    specialize (Hw i Hi). unfold char_at in Hw. by rewrite Hx in Hw. }
  unfold word_at, string_at; cbn [fst snd]. split_and!.
  - rewrite (nul_free_prefix _ (e - q)).
    + apply list_eq. intros i. destruct (decide (i < e - q)%nat); [|by rewrite !lookup_take_ge by lia].
      rewrite !lookup_take_lt, !lookup_drop by lia. rewrite (nulterminate_lookup buf Hb c q e) by (done || lia).
      by rewrite decide_False by lia.
    + intros i Hi. rewrite lookup_drop, (nulterminate_lookup buf Hb c q e), decide_False by (done || lia).
      destruct (Hlook (q + i)%nat) as (x & Hx & Hn & _); [lia|]. eauto.
    + rewrite lookup_drop, (nulterminate_lookup buf Hb c q e), decide_True by (done || lia). done.
  - intros E%(f_equal length). rewrite length_take, length_drop in E. unfold es in *. cbn in E. lia.
  - apply Forall_lookup_2. intros i x [Hx Hi]%lookup_take_Some. rewrite lookup_drop in Hx.
    destruct (Hlook (q + i)%nat) as (y & Hy & _ & Hyw); [lia|]. congruence.
Qed.
