(* ===== verification/ShellPrint.v ===== *)
(** The shell's parser against a printer: what a command line means.

    Commands with their words as strings, a printer that puts parentheses
    where the grammar needs them, and the proof that the parser reads back
    every command the printer writes. *)

From S2P Require Import Prelude Control Memory Format SysFile Shell.

Inductive scmd :=
| SExec (argv : list (list Z))
| SRedir (c : scmd) (file : list Z) (mode fd : Z)
| SPipe (left right : scmd)
| SList (left right : scmd)
| SBack (c : scmd).

(** A parse tree with its words read from the line. *)
Fixpoint decode (buf : list Z) (c : cmd) : scmd :=
  match c with
  | EXEC argv => SExec (word_at buf <$> argv)
  | REDIR c' q e mode fd => SRedir (decode buf c') (word_at buf (q, e)) mode fd
  | PIPE l r => SPipe (decode buf l) (decode buf r)
  | LIST l r => SList (decode buf l) (decode buf r)
  | BACK c' => SBack (decode buf c')
  end.

Definition SPACE : Z := 32.
Definition word (w : list Z) : list Z := w ++ [SPACE].
Definition sym (c : Z) : list Z := [c; SPACE].
Definition paren (b : bool) (l : list Z) : list Z := if b then sym 40 ++ l ++ sym 41 else l.

(** Level 0 is a simple command or a block, 1 a pipeline, 2 a pipeline with
    ampersands, 3 a list. *)
Fixpoint show (lvl : nat) (c : scmd) : list Z :=
  match c with
  | SExec argv => mjoin (word <$> argv)
  | SRedir c' file mode fd => show 0 c' ++ sym (if fd =? 0 then 60 else 62) ++ word file
  | SPipe l r => paren (lvl <? 1)%nat (show 0 l ++ sym 124 ++ show 1 r)
  | SBack c' => paren (lvl <? 2)%nat (show 2 c' ++ sym 38)
  | SList l r => paren (lvl <? 3)%nat (show 2 l ++ sym 59 ++ show 3 r)
  end.

Definition word_ok (w : list Z) : Prop := w <> [] /\ Forall (fun c => word_char c = true /\ c <> 0) w.
Definition redir_ok (mode fd : Z) : Prop :=
  (mode = O_RDONLY /\ fd = 0) \/ (mode = Z.lor O_WRONLY O_CREATE /\ fd = 1).

(** What the grammar can express: words, at most nine of them to a command,
    and the two kinds of redirection. *)
Fixpoint printable (c : scmd) : Prop :=
  match c with
  | SExec argv => Forall word_ok argv /\ (length argv < MAXARGS)%nat
  | SRedir c' file mode fd => printable c' /\ word_ok file /\ redir_ok mode fd
  | SPipe l r => printable l /\ printable r
  | SList l r => printable l /\ printable r
  | SBack c' => printable c'
  end.

Section RoundTrip.
Variable buf : list Z.

(** A position is given by the text from there on. *)
Definition suf (l : list Z) : Prop := exists k, buf = k ++ l.
Definition pos (l : list Z) : nat := (length buf - length l)%nat.

Lemma suf_length l : suf l -> (length l <= length buf)%nat.
Proof. intros [k ->]. rewrite length_app. lia. Qed.

Lemma suf_app l1 l2 : suf (l1 ++ l2) -> suf l2.
Proof. intros [k ->]. exists (k ++ l1). by rewrite <- app_assoc. Qed.
Lemma suf_cons c l : suf (c :: l) -> suf l.
Proof. apply (suf_app [c]). Qed.

Lemma pos_lookup l i : suf l -> buf !! (pos l + i)%nat = l !! i.
Proof.
  intros [k Hk]. unfold pos. assert (E : (length buf - length l)%nat = length k) by (rewrite Hk, length_app; lia).
  rewrite E, Hk, lookup_app_r by lia. f_equal. lia.
Qed.

Lemma char_at_pos l : suf l -> char_at buf (pos l) = hd0 l.
Proof.
  intros Hl. unfold char_at, hd0. rewrite <- (Nat.add_0_r (pos l)), pos_lookup by done. by destruct l.
Qed.

Lemma pos_cons c l : suf (c :: l) -> S (pos (c :: l)) = pos l.
Proof. intros Hl. apply suf_length in Hl. unfold pos. cbn in *. lia. Qed.

Lemma remaining l : suf l -> (es buf - pos l)%nat = length l.
Proof. intros Hl. apply suf_length in Hl. unfold es, pos. lia. Qed.

(** Scanning over characters that satisfy [f]. *)
Lemma skip_pos f l1 l2 :
  suf (l1 ++ l2) -> Forall (fun c => f c = true) l1 -> (l2 = [] \/ f (hd0 l2) = false) ->
  skip_while buf f (pos (l1 ++ l2)) = pos l2.
Proof.
  intros Hs Hf Hstop. unfold skip_while. rewrite remaining by done.
  induction Hf as [|c l1 Hc Hf IH]; cbn [app length skip].
  - destruct l2 as [|c l2]; [done|]. cbn [length skip]. rewrite char_at_pos by done.
    destruct Hstop as [|E]; [done|]. by rewrite E.
  - cbn [app] in Hs. rewrite char_at_pos by done. change (hd0 (c :: l1 ++ l2)) with c. rewrite Hc, pos_cons by done.
    apply IH. by apply suf_cons in Hs.
Qed.

(** A text that does not start with white space. *)
Definition tight (l : list Z) : Prop := l = [] \/ in_set whitespace (hd0 l) = false.

Lemma skip_white_tight l : suf l -> tight l -> skip_white buf (pos l) = pos l.
Proof. intros Hl Ht. by apply (skip_pos (in_set whitespace) []). Qed.
Lemma skip_white_space l : suf (SPACE :: l) -> tight l -> skip_white buf (pos (SPACE :: l)) = pos l.
Proof. intros Hl Ht. apply (skip_pos (in_set whitespace) [SPACE]); [done|by repeat constructor|done]. Qed.

Lemma peek_pos toks l : suf l -> tight l ->
  peek buf toks (pos l) [] = Ok (negb (hd0 l =? 0) && in_set toks (hd0 l)) (pos l) [].
Proof.
  intros Hl Ht. unfold peek. rewrite bind_modify, bind_gets, skip_white_tight, char_at_pos by done. done.
Qed.

Lemma gettoken_sym c l :
  suf (c :: SPACE :: l) -> tight l -> In c (bytes_of "|();&<>") ->
  gettoken buf (pos (c :: SPACE :: l)) [] = Ok (c, pos (c :: SPACE :: l), pos (SPACE :: l)) (pos l) [].
Proof.
  intros Hs Ht Hc. unfold gettoken, get. unfold mbind at 1, M_bind at 1. cbv zeta.
  assert (Hs1 : suf (SPACE :: l)) by by apply suf_cons in Hs.
  assert (Hw : in_set whitespace c = false /\ c <> 0) by (cbn in Hc; by destruct_or? Hc; subst).
  rewrite skip_white_tight, char_at_pos by (done || right; apply Hw). change (hd0 (c :: _)) with c.
  rewrite (proj2 (Z.eqb_neq c 0)) by apply Hw. rewrite pos_cons, char_at_pos by done.
  change (hd0 (SPACE :: l) =? 62) with false.
  destruct (in_set (bytes_of "|();&<") c) eqn:E; [by rewrite bind_modify, skip_white_space by done|].
  destruct (Z.eqb_spec c 62) as [->|Hn]; [by rewrite bind_modify, skip_white_space by done|].
  cbn in Hc. by destruct_or? Hc; subst.
Qed.

Lemma word_not_sym c : word_char c = true ->
  in_set (bytes_of "|();&<") c = false /\ (c =? 62) = false /\ in_set whitespace c = false.
Proof.
  unfold word_char. rewrite andb_true_iff, !negb_true_iff. intros [Hw Hs].
  change symbols with [60; 124; 62; 38; 59; 40; 41] in Hs.
  change (bytes_of "|();&<") with [124; 40; 41; 59; 38; 60]. unfold in_set in *. cbn [existsb] in *.
  repeat (apply orb_false_iff in Hs as [? Hs]).
  repeat match goal with H : (c =? _) = false |- _ => rewrite H; clear H end. done.
Qed.

Lemma gettoken_word w l :
  word_ok w -> suf (w ++ SPACE :: l) -> tight l ->
  gettoken buf (pos (w ++ SPACE :: l)) [] = Ok (TOK_A, pos (w ++ SPACE :: l), pos (SPACE :: l)) (pos l) [] /\
  word_at buf (pos (w ++ SPACE :: l), pos (SPACE :: l)) = w.
Proof.
  intros [Hne Hw] Hs Ht. assert (Hs1 : suf (SPACE :: l)) by by apply suf_app in Hs. split.
  - unfold gettoken, get. unfold mbind at 1, M_bind at 1. cbv zeta.
    destruct w as [|c w]; [done|]. pose proof (Forall_inv Hw) as [Hc H0]. destruct (word_not_sym c Hc) as (E1 & E2 & E3).
    rewrite skip_white_tight, char_at_pos by (done || by right). change (hd0 ((c :: w) ++ _)) with c.
    rewrite (proj2 (Z.eqb_neq c 0)) by done. rewrite E1, E2.
    rewrite (skip_pos word_char (c :: w)); [|done|eapply Forall_impl; [exact Hw|]; naive_solver|by right].
    by rewrite bind_modify, skip_white_space by done.
  - unfold word_at; cbn [fst snd]. pose proof (suf_length _ Hs) as Hl. destruct Hs as [k Hk].
    assert (Hp : pos (w ++ SPACE :: l) = length k).
    { unfold pos. rewrite Hk at 1. rewrite !length_app. lia. }
    assert (El : (pos (SPACE :: l) - length k)%nat = length w).
    { unfold pos. rewrite Hk at 1. rewrite !length_app. cbn. lia. }
    rewrite Hp, El, Hk, drop_app_length. apply take_app_length.
Qed.

(** What can follow a command: the end of the line or a delimiter. *)
Definition follow (set l : list Z) : Prop := l = [] \/ In (hd0 l) set.
Definition after_exec : list Z := [124; 41; 38; 59].
Definition after_pipe : list Z := [41; 38; 59].
Definition after_line : list Z := [41].

Lemma follow_mono set set' l : incl set set' -> follow set l -> follow set' l.
Proof. intros Hi [->|Hl]; [by left|right; by apply Hi]. Qed.
Lemma follow_tight l : follow after_exec l -> tight l.
Proof. intros [->|Hl]; [by left|right]. cbn in Hl. destruct_or? Hl; by rewrite <- Hl. Qed.
Lemma follow_sym c l : In c after_exec -> follow after_exec (sym c ++ l).
Proof. by right. Qed.

(** Trailing redirections. *)
Abbreviation redir := (list Z * Z * Z)%type.
Definition redir_text (r : redir) : list Z := sym (if r.2 =? 0 then 60 else 62) ++ word r.1.1.
Definition redirs_text (rs : list redir) : list Z := mjoin (redir_text <$> rs).
Definition wrap (c : scmd) (rs : list redir) : scmd := foldl (fun c r => SRedir c r.1.1 r.1.2 r.2) c rs.
Definition redirs_ok (rs : list redir) : Prop := Forall (fun r => word_ok r.1.1 /\ redir_ok r.1.2 r.2) rs.

Lemma redirs_text_cons r rs : redirs_text (r :: rs) = redir_text r ++ redirs_text rs.
Proof. done. Qed.

Lemma redir_tight rs l : tight l -> tight (redirs_text rs ++ l).
Proof. intros Hl. destruct rs as [|r rs]; [done|]. right. cbn. by destruct (_ =? 0). Qed.

Lemma word_at_hd w l : word_ok w -> word_char (hd0 (word w ++ l)) = true /\ hd0 (word w ++ l) <> 0.
Proof. intros [Hne Hw]. destruct w as [|c w]; [done|]. by apply Forall_inv in Hw. Qed.

Lemma word_tight w l : word_ok w -> tight (word w ++ l).
Proof. intros Hw. right. by apply word_not_sym, word_at_hd. Qed.

(** A word character is in none of the sets the parser looks for. *)
Lemma word_not_in c set : word_char c = true -> incl set symbols -> in_set set c = false.
Proof.
  unfold word_char. rewrite andb_true_iff, !negb_true_iff. intros [_ Hs] Hi.
  apply not_true_iff_false. intros (x & Hx & E%Z.eqb_eq)%existsb_exists. subst x.
  assert (in_set symbols c = true); [|congruence]. apply existsb_exists. exists c. split; [by apply Hi|]. apply Z.eqb_refl.
Qed.

Lemma parseredirs_none f c l : suf l -> tight l -> in_set (bytes_of "<>") (hd0 l) = false ->
  parseredirs buf (S f) c (pos l) [] = Ok c (pos l) [].
Proof.
  intros Hl Ht Hn. cbn [parseredirs]. rewrite (bind_ok _ _ _ _ _ _ _ (peek_pos _ l Hl Ht)).
  rewrite Hn, andb_false_r. done.
Qed.

Lemma parseredirs_some f c r l :
  suf (redir_text r ++ l) -> tight l -> word_ok r.1.1 -> redir_ok r.1.2 r.2 ->
  exists c', decode buf c' = SRedir (decode buf c) r.1.1 r.1.2 r.2 /\
    parseredirs buf (S f) c (pos (redir_text r ++ l)) [] = parseredirs buf f c' (pos l) [].
Proof.
  destruct r as [[file mode] fd]. unfold redir_text, word. cbn [fst snd]. intros Hs Ht Hf Hr.
  cbn [parseredirs]. set (t := if fd =? 0 then 60 else 62) in *.
  rewrite <- app_assoc in Hs |- *. cbn [app sym] in Hs |- *.
  assert (Hs1 : suf ((file ++ [SPACE]) ++ l)) by by do 2 apply suf_cons in Hs.
  pose proof (word_tight file l Hf) as Ht1. unfold word in Ht1.
  assert (Htok : In t (bytes_of "|();&<>")) by (unfold t; destruct (fd =? 0); cbn; auto 10).
  rewrite (bind_ok _ _ _ _ _ _ _ (peek_pos _ _ Hs ltac:(right; unfold t; by destruct (fd =? 0)))).
  change (hd0 (t :: _)) with t.
  assert (negb (t =? 0) && in_set (bytes_of "<>") t = true) as -> by (unfold t; by destruct (fd =? 0)).
  rewrite (bind_ok _ _ _ _ _ _ _ (gettoken_sym _ _ Hs Ht1 Htok)). cbn beta iota.
  rewrite <- app_assoc in Hs1 |- *. cbn [app] in Hs1 |- *. destruct (gettoken_word file l Hf Hs1 Ht) as [Hg Hw].
  rewrite (bind_ok _ _ _ _ _ _ _ Hg). cbn beta iota. rewrite Z.eqb_refl. cbn [negb].
  eexists. split; [|done]. unfold t. destruct Hr as [[-> ->]|[-> ->]]; cbn [Z.eqb Pos.eqb decode]; rewrite Hw; done.
Qed.

Lemma parseredirs_all f c rs l :
  suf (redirs_text rs ++ l) -> tight l -> in_set (bytes_of "<>") (hd0 l) = false -> redirs_ok rs ->
  (length (redirs_text rs ++ l) < f)%nat ->
  exists c', decode buf c' = wrap (decode buf c) rs /\
    parseredirs buf f c (pos (redirs_text rs ++ l)) [] = Ok c' (pos l) [].
Proof.
  intros Hs Ht Hn Hrs. revert f c Hs. induction Hrs as [|r rs [Hf Hr] Hrs IH]; intros f c Hs Hlen.
  - destruct f as [|f]; [cbn in Hlen; lia|]. exists c. split; [done|]. by apply parseredirs_none.
  - destruct f as [|f]; [lia|]. rewrite redirs_text_cons in Hs, Hlen |- *.
    rewrite <- app_assoc in Hs, Hlen |- *. rewrite length_app in Hlen.
    destruct (parseredirs_some f c r _ Hs (redir_tight rs l Ht) Hf Hr) as (c1 & Hd1 & ->).
    assert (0 < length (redir_text r))%nat by (cbn; lia).
    destruct (IH f c1 (suf_app _ _ Hs)) as (c' & Hd & E); [lia|].
    exists c'. split; [|done]. by rewrite Hd, Hd1.
Qed.

Lemma gettoken_end : suf [] -> gettoken buf (pos []) [] = Ok (0, pos [], pos []) (pos []) [].
Proof.
  intros Hl. unfold gettoken, get. unfold mbind at 1, M_bind at 1. cbv zeta.
  rewrite skip_white_tight, char_at_pos by (done || by left). change (hd0 [] =? 0) with true. cbn beta iota.
  by rewrite bind_modify, skip_white_tight by (done || by left).
Qed.

(** Reaching the end of a simple command. *)
Lemma parseargs_stop f argc c l :
  suf l -> follow after_exec l -> parseargs buf (S f) argc c (pos l) [] = Ok c (pos l) [].
Proof.
  intros Hl Hf. pose proof (follow_tight l Hf) as Ht. cbn [parseargs].
  rewrite (bind_ok _ _ _ _ _ _ _ (peek_pos _ l Hl Ht)). destruct Hf as [->|Hf].
  - change (negb (hd0 [] =? 0) && _) with false. cbn beta iota.
    by rewrite (bind_ok _ _ _ _ _ _ _ (gettoken_end Hl)).
  - assert (negb (hd0 l =? 0) && in_set (bytes_of "|)&;") (hd0 l) = true) as ->; [|done].
    cbn in Hf. by destruct_or? Hf; rewrite <- Hf.
Qed.

Lemma args_text_cons w args l :
  mjoin (word <$> w :: args) ++ l = w ++ SPACE :: (mjoin (word <$> args) ++ l).
Proof. cbn. unfold word. by rewrite <- !app_assoc. Qed.

Lemma args_hd (args : list (list Z)) rs l :
  Forall word_ok args -> (args <> [] \/ rs = []) -> follow after_exec l ->
  tight (mjoin (word <$> args) ++ redirs_text rs ++ l) /\
  in_set (bytes_of "<>(") (hd0 (mjoin (word <$> args) ++ redirs_text rs ++ l)) = false.
Proof.
  intros Ha Hor Hf. destruct Ha as [|w args Hw Ha].
  - destruct Hor as [| ->]; [done|]. split; [by apply follow_tight|]. destruct Hf as [->|Hf]; [done|].
    cbn in Hf |- *. by destruct_or? Hf; rewrite <- Hf.
  - cbn [fmap list_fmap mjoin list_join]. rewrite <- app_assoc. split; [by apply word_tight|].
    apply word_not_in; [by apply word_at_hd|]. intros c. cbn. tauto.
Qed.

Lemma in_set_sub c (a b : list Z) : incl a b -> in_set b c = false -> in_set a c = false.
Proof.
  intros Hi Hb. apply not_true_iff_false. intros (x & Hx & E)%existsb_exists.
  rewrite <- not_true_iff_false in Hb. apply Hb, existsb_exists. exists x. auto.
Qed.

Lemma parseargs_all f args rs l argv0 :
  suf (mjoin (word <$> args) ++ redirs_text rs ++ l) -> Forall word_ok args -> redirs_ok rs ->
  (args <> [] \/ rs = []) -> follow after_exec l -> (length argv0 + length args < MAXARGS)%nat ->
  (length (mjoin (word <$> args) ++ redirs_text rs ++ l) + 1 < f)%nat ->
  exists c, decode buf c = wrap (SExec ((word_at buf <$> argv0) ++ args)) rs /\
    parseargs buf f (length argv0) (EXEC argv0) (pos (mjoin (word <$> args) ++ redirs_text rs ++ l)) [] =
      Ok c (pos l) [].
Proof.
  intros Hs Ha Hrs Hor Hf. revert f argv0 Hs Hor. induction Ha as [|w args Hw Ha IH]; intros f argv0 Hs Hor Hn Hlen.
  - destruct Hor as [| ->]; [done|]. destruct f as [|f]; [lia|]. exists (EXEC argv0).
    split; [cbn; by rewrite app_nil_r|]. by apply parseargs_stop.
  - destruct f as [|f]; [lia|]. rewrite args_text_cons in Hs, Hlen |- *.
    set (rest := mjoin (word <$> args) ++ redirs_text rs ++ l) in *.
    assert (Ht : tight rest).
    { unfold rest. destruct args; [by apply redir_tight, follow_tight|].
      apply args_hd; [done|by left|done]. }
    assert (Hsr : suf rest) by by apply suf_app, suf_cons in Hs.
    destruct (gettoken_word w rest Hw Hs Ht) as [Hg Hwa].
    destruct (word_at_hd w rest Hw) as [Hwc Hw0]. unfold word in Hwc, Hw0. rewrite <- app_assoc in Hwc, Hw0. cbn [app] in Hwc, Hw0.
    cbn [parseargs].
    rewrite (bind_ok _ _ _ _ _ _ _ (peek_pos _ _ Hs ltac:(right; by apply word_not_sym))).
    rewrite (word_not_in _ (bytes_of "|)&;") Hwc) by (intros x; cbn; tauto). rewrite andb_false_r. cbn beta iota.
    rewrite (bind_ok _ _ _ _ _ _ _ Hg). cbn beta iota. change (TOK_A =? 0) with false. rewrite Z.eqb_refl. cbn [negb add_arg].
    rewrite !length_app in Hlen. cbn [length] in Hn, Hlen.
    destruct (Nat.leb_spec MAXARGS (S (length argv0))); [lia|].
    set (argv1 := argv0 ++ [(pos (w ++ SPACE :: rest), pos (SPACE :: rest))]).
    assert (Hl1 : S (length argv0) = length argv1) by (unfold argv1; rewrite length_app; cbn; lia).
    assert (Hd1 : word_at buf <$> argv1 = (word_at buf <$> argv0) ++ [w]) 
      by (unfold argv1; rewrite fmap_app; f_equal; exact (f_equal (fun x => [x]) Hwa)).
    destruct args as [|w' args].
    + unfold rest in *. cbn [fmap list_fmap mjoin list_join app] in *.
      destruct (parseredirs_all f (EXEC argv1) rs l Hsr) as (c' & Hd & E); [by apply follow_tight| |done|lia|].
      { destruct Hf as [->|Hf]; [done|]. cbn in Hf. by destruct_or? Hf; rewrite <- Hf. }
      rewrite (bind_ok _ _ _ _ _ _ _ E). destruct f as [|f]; [lia|]. exists c'.
      rewrite parseargs_stop by (done || by apply suf_app in Hsr). split; [|done]. rewrite Hd. cbn [decode]. by rewrite Hd1.
    + destruct f as [|f]; [lia|].
      rewrite (bind_ok _ _ _ _ _ _ _ (parseredirs_none f (EXEC argv1) rest Hsr Ht
        ltac:(eapply in_set_sub; [|apply (args_hd (w' :: args) rs l); [done|by left|done]]; intros x; cbn; tauto))).
      rewrite Hl1. destruct (IH (S f) argv1 Hsr ltac:(by left)) as (c & Hd & E); [rewrite <- Hl1; cbn in *; lia|unfold rest in *; lia|].
      exists c. split; [|exact E]. by rewrite Hd, Hd1, <- app_assoc.
Qed.

Lemma show_tight c lvl l : printable c -> tight l -> tight (show lvl c ++ l).
Proof.
  revert lvl l. induction c as [argv|c IH file mode fd|a IHa b IHb|a IHa b IHb|c IH]; intros lvl l Hp Ht; cbn [show].
  - destruct Hp as [Ha _]. destruct Ha as [|w argv Hw Ha]; [done|]. cbn. rewrite <- app_assoc. by apply word_tight.
  - rewrite <- app_assoc. apply IH; [apply Hp|]. right. by destruct (fd =? 0).
  - destruct Hp. destruct (lvl <? 1)%nat; cbn [paren]; [by right|]. rewrite <- app_assoc. apply IHa; [done|by right].
  - destruct Hp. destruct (lvl <? 3)%nat; cbn [paren]; [by right|]. rewrite <- app_assoc. apply IHa; [done|by right].
  - destruct (lvl <? 2)%nat; cbn [paren]; [by right|]. rewrite <- app_assoc. apply IH; [done|by right].
Qed.

Definition fuel_ok (f d : nat) (text : list Z) : Prop := (4 * length text + d <= f)%nat.
Definition exec_ok (c : scmd) : Prop := forall f l,
  suf (show 0 c ++ l) -> follow after_exec l -> fuel_ok f 4 (show 0 c ++ l) ->
  exists x, decode buf x = c /\ parseexec buf f (pos (show 0 c ++ l)) [] = Ok x (pos l) [].
Definition pipe_ok (c : scmd) : Prop := forall f l,
  suf (show 1 c ++ l) -> follow after_pipe l -> fuel_ok f 5 (show 1 c ++ l) ->
  exists x, decode buf x = c /\ parsepipe buf f (pos (show 1 c ++ l)) [] = Ok x (pos l) [].
(** Up to some of the ampersands that follow. *)
Definition back_ok (c : scmd) : Prop := forall f l,
  suf (show 2 c ++ l) -> follow after_pipe l -> fuel_ok f 5 (show 2 c ++ l) ->
  exists x f', decode buf x = c /\ (length l < f')%nat /\
    (x ← parsepipe buf f; parse_backs buf f x) (pos (show 2 c ++ l)) [] = parse_backs buf f' x (pos l) [].
Definition line_ok (c : scmd) : Prop := forall f l,
  suf (show 3 c ++ l) -> follow after_line l -> fuel_ok f 6 (show 3 c ++ l) ->
  exists x, decode buf x = c /\ parseline buf f (pos (show 3 c ++ l)) [] = Ok x (pos l) [].

(** [peek] at the start of a delimiter or at the end. *)
Lemma peek_follow toks set l : suf l -> follow set l -> incl set after_exec ->
  peek buf toks (pos l) [] = Ok (match l with [] => false | _ => in_set toks (hd0 l) end) (pos l) [].
Proof.
  intros Hl Hf Hi. rewrite peek_pos by (done || by eapply follow_tight, follow_mono). f_equal.
  destruct l as [|c l]; [done|]. destruct Hf as [|Hf]; [done|]. apply Hi in Hf. cbn in Hf.
  by destruct_or? Hf; rewrite <- Hf.
Qed.
Lemma peek_absent toks set l : suf l -> follow set l -> incl set after_exec ->
  forallb (fun c => negb (in_set toks c)) set = true -> peek buf toks (pos l) [] = Ok false (pos l) [].
Proof.
  intros Hl Hf Hi Hn. rewrite (peek_follow toks set) by done. f_equal. destruct l as [|c l]; [done|].
  destruct Hf as [|Hf]; [done|]. rewrite forallb_forall in Hn. by apply negb_true_iff, Hn.
Qed.

Ltac incl_tac := intros ?; cbn; tauto.

Lemma wrap_app c rs r : wrap c (rs ++ [r]) = SRedir (wrap c rs) r.1.1 r.1.2 r.2.
Proof. unfold wrap. by rewrite foldl_app. Qed.

Lemma show_wrap c rs : show 0 (wrap c rs) = show 0 c ++ redirs_text rs.
Proof.
  induction rs as [|r rs IH] using rev_ind; [by rewrite app_nil_r|]. rewrite wrap_app. cbn [show].
  rewrite IH. unfold redirs_text. rewrite fmap_app, join_app. cbn. by rewrite app_nil_r, <- app_assoc.
Qed.

Lemma unwrap c : printable c -> exists core rs,
  c = wrap core rs /\ printable core /\ redirs_ok rs /\ (rs = [] -> core = c) /\
  match core with SRedir _ _ _ _ => False | _ => True end.
Proof.
  induction c as [argv|c IH file mode fd|a IHa b IHb|a IHa b IHb|c IH]; intros Hp;
    [eexists _, []; split_and!; try done; constructor| |eexists _, []; split_and!; try done; constructor..].
  destruct Hp as (Hp & Hf & Hr). destruct (IH Hp) as (core & rs & -> & Hc & Hrs & _ & Hm).
  exists core, (rs ++ [(file, mode, fd)]). split_and!; [by rewrite wrap_app|done| | |done].
  - apply Forall_app. split; [done|]. by constructor.
  - intros E. by apply app_eq_nil in E as [_ ?].
Qed.

Lemma exec_simple args rs :
  Forall word_ok args -> (length args < MAXARGS)%nat -> redirs_ok rs -> exec_ok (wrap (SExec args) rs).
Proof.
  intros Ha Hn Hrs f l Hs Hf Hfuel. rewrite show_wrap in *. cbn [show] in *. rewrite <- app_assoc in *.
  unfold fuel_ok in Hfuel. destruct f as [|f]; [lia|]. cbn [parseexec].
  destruct (decide (args = [] /\ rs <> [])) as [[-> Hne]|Hor].
  - cbn [fmap list_fmap mjoin list_join app] in *.
    rewrite (bind_ok _ _ _ _ _ _ _ (peek_pos _ _ Hs (redir_tight rs l (follow_tight _ Hf)))).
    destruct rs as [|r rs]; [done|].
    assert (in_set (bytes_of "(") (hd0 (redirs_text (r :: rs) ++ l)) = false) as -> by (cbn; by destruct (r.2 =? 0)).
    rewrite andb_false_r. cbn beta iota.
    destruct (parseredirs_all f (EXEC []) (r :: rs) l Hs) as (c' & Hd & E); [by apply follow_tight| |done|lia|].
    { destruct Hf as [->|Hf]; [done|]. cbn in Hf. by destruct_or? Hf; rewrite <- Hf. }
    rewrite (bind_ok _ _ _ _ _ _ _ E). destruct f as [|f]; [lia|]. exists c'. split; [exact Hd|].
    apply parseargs_stop; [by apply suf_app in Hs|done].
  - assert (Hor' : args <> [] \/ rs = []) by (destruct args, rs; naive_solver).
    destruct (args_hd args rs l Ha Hor' Hf) as [Ht Hh].
    rewrite (bind_ok _ _ _ _ _ _ _ (peek_pos _ _ Hs Ht)).
    rewrite (in_set_sub _ (bytes_of "(") (bytes_of "<>(")) by (done || incl_tac). rewrite andb_false_r. cbn beta iota.
    destruct f as [|f]; [lia|].
    rewrite (bind_ok _ _ _ _ _ _ _ (parseredirs_none f (EXEC []) _ Hs Ht ltac:(eapply in_set_sub; [|exact Hh]; incl_tac))).
    destruct (parseargs_all (S f) args rs l [] Hs Ha Hrs Hor' Hf) as (c & Hd & E); [cbn; lia|lia|].
    exists c. split; [exact Hd|exact E].
Qed.

(** Passing a delimiter. *)
Lemma pass_sym {A} c l (k : _ -> P A) : suf (sym c ++ l) -> tight l -> In c (bytes_of "|();&<>") ->
  (gettoken buf ≫= k) (pos (sym c ++ l)) [] = k (c, pos (sym c ++ l), pos (SPACE :: l)) (pos l) [].
Proof. intros Hs Ht Hc. by rewrite (bind_ok _ _ _ _ _ _ _ (gettoken_sym c l Hs Ht Hc)). Qed.

Lemma exec_block core rs :
  line_ok core -> printable core -> show 0 core = sym 40 ++ show 3 core ++ sym 41 -> redirs_ok rs ->
  exec_ok (wrap core rs).
Proof.
  intros Hline Hp Hshow Hrs f l Hs Hf Hfuel. rewrite show_wrap, Hshow in *.
  rewrite <- !app_assoc in *. unfold fuel_ok in Hfuel. rewrite length_app in Hfuel. cbn [length sym] in Hfuel.
  destruct f as [|[|f]]; [lia..|]. cbn [parseexec].
  set (body := show 3 core ++ sym 41 ++ redirs_text rs ++ l) in *.
  assert (Hb : suf body) by by apply suf_app in Hs.
  assert (Ht : tight body) by (apply show_tight; [done|by right]).
  assert (Hp40 : peek buf (bytes_of "(") (pos (sym 40 ++ body)) [] = Ok true (pos (sym 40 ++ body)) []).
  { by rewrite peek_pos by (done || by right). }
  rewrite (bind_ok _ _ _ _ _ _ _ Hp40). cbn beta iota. cbn [parseblock].
  rewrite (bind_ok _ _ _ _ _ _ _ Hp40). cbn [negb]. rewrite pass_sym by (done || cbn; auto).
  destruct (Hline f (sym 41 ++ redirs_text rs ++ l) Hb) as (x & Hx & E); [by right; left|unfold fuel_ok, body in *; lia|].
  rewrite (bind_ok _ _ _ _ _ _ _ E).
  assert (H41 : suf (sym 41 ++ redirs_text rs ++ l)) by by apply suf_app in Hb.
  assert (Hp41 : peek buf (bytes_of ")") (pos (sym 41 ++ redirs_text rs ++ l)) [] = Ok true (pos (sym 41 ++ redirs_text rs ++ l)) []).
  { by rewrite peek_pos by (done || by right). }
  rewrite (bind_ok _ _ _ _ _ _ _ Hp41). cbn [negb].
  rewrite pass_sym by (done || (by apply redir_tight, follow_tight) || cbn; auto).
  destruct (parseredirs_all f x rs l) as (c' & Hd & E'); [by apply suf_app in H41|by apply follow_tight| |done| |].
  { destruct Hf as [->|Hf]; [done|]. cbn in Hf. by destruct_or? Hf; rewrite <- Hf. }
  { unfold body in Hfuel. rewrite length_app in Hfuel. cbn [length sym app] in Hfuel. lia. }
  exists c'. split; [by rewrite Hd, Hx|exact E'].
Qed.

Lemma pipe_of_exec c : exec_ok c -> show 1 c = show 0 c -> pipe_ok c.
Proof.
  intros He Hshow f l Hs Hf Hfuel. rewrite Hshow in *. unfold fuel_ok in Hfuel. destruct f as [|f]; [lia|].
  cbn [parsepipe]. destruct (He f l Hs) as (x & Hx & E); [by eapply follow_mono; [|exact Hf]; incl_tac|unfold fuel_ok; lia|].
  rewrite (bind_ok _ _ _ _ _ _ _ E). apply suf_app in Hs.
  rewrite (bind_ok _ _ _ _ _ _ _ (peek_absent (bytes_of "|") after_pipe l Hs Hf ltac:(incl_tac) eq_refl)).
  by exists x.
Qed.

Lemma pipe_pipe a b : exec_ok a -> pipe_ok b -> printable b -> pipe_ok (SPipe a b).
Proof.
  intros Ha Hb Hpb f l Hs Hf Hfuel. cbn [show paren Nat.ltb Nat.leb] in *. rewrite <- !app_assoc in *.
  unfold fuel_ok in Hfuel. destruct f as [|f]; [lia|]. cbn [parsepipe].
  destruct (Ha f _ Hs) as (x & Hx & E); [by right; left|unfold fuel_ok; lia|].
  rewrite (bind_ok _ _ _ _ _ _ _ E). apply suf_app in Hs. rewrite length_app in Hfuel. cbn [length sym app] in Hfuel.
  rewrite (bind_ok _ _ _ _ _ _ _ (peek_pos (bytes_of "|") _ Hs ltac:(by right))).
  change (negb (hd0 (sym 124 ++ _) =? 0) && in_set (bytes_of "|") (hd0 (sym 124 ++ _))) with true. cbn beta iota.
  rewrite pass_sym; [|done| |cbn; auto].
  2:{ apply show_tight; [done|]. by eapply follow_tight, follow_mono; [|exact Hf]; incl_tac. }
  apply suf_app in Hs. destruct (Hb f l Hs Hf) as (y & Hy & E'); [unfold fuel_ok; lia|].
  rewrite (bind_ok _ _ _ _ _ _ _ E'). exists (PIPE x y). split; [cbn; by rewrite Hx, Hy|done].
Qed.

Lemma back_of_pipe c : pipe_ok c -> show 2 c = show 1 c -> back_ok c.
Proof.
  intros Hp Hshow f l Hs Hf Hfuel. rewrite Hshow in *. destruct (Hp f l Hs Hf Hfuel) as (x & Hx & E).
  exists x, f. split_and!; [done| |by rewrite (bind_ok _ _ _ _ _ _ _ E)].
  unfold fuel_ok in Hfuel. rewrite length_app in Hfuel. lia.
Qed.

Lemma back_back c : back_ok c -> back_ok (SBack c).
Proof.
  intros Hb f l Hs Hf Hfuel. cbn [show paren Nat.ltb Nat.leb] in *. rewrite <- !app_assoc in *.
  destruct (Hb f _ Hs) as (x & f' & Hx & Hlen & ->); [by right; right; left|done|].
  cbn [length sym app] in Hlen. destruct f' as [|f']; [lia|]. cbn [parse_backs]. apply suf_app in Hs.
  rewrite (bind_ok _ _ _ _ _ _ _ (peek_pos (bytes_of "&") _ Hs ltac:(by right))).
  change (negb (hd0 (sym 38 ++ _) =? 0) && in_set (bytes_of "&") (hd0 (sym 38 ++ _))) with true. cbn beta iota.
  rewrite pass_sym; [|done| |cbn; auto 10].
  2:{ by eapply follow_tight, follow_mono; [|exact Hf]; incl_tac. }
  exists (BACK x), f'. split_and!; [cbn; by rewrite Hx|lia|done].
Qed.

(** The end of the ampersands. *)
Lemma parse_backs_none f c l : suf l -> follow after_exec l -> hd0 l <> 38 ->
  parse_backs buf (S f) c (pos l) [] = Ok c (pos l) [].
Proof.
  intros Hl Hf Hn. cbn [parse_backs]. rewrite (bind_ok _ _ _ _ _ _ _ (peek_pos _ l Hl (follow_tight _ Hf))).
  assert (in_set (bytes_of "&") (hd0 l) = false) as ->; [|by rewrite andb_false_r].
  change (bytes_of "&") with [38]. cbn [in_set existsb]. by rewrite (proj2 (Z.eqb_neq _ _)).
Qed.

(** The first half of [parseline]. *)
Lemma line_front c f l k : back_ok c -> suf (show 2 c ++ l) -> follow after_pipe l -> hd0 l <> 38 ->
  fuel_ok f 5 (show 2 c ++ l) ->
  exists x, decode buf x = c /\
    (x ← parsepipe buf f; x ← parse_backs buf f x; k x) (pos (show 2 c ++ l)) [] = (k x : P cmd) (pos l) [].
Proof.
  intros Hb Hs Hf Hn Hfuel. destruct (Hb f l Hs Hf Hfuel) as (x & f' & Hx & Hlen & E). exists x. split; [done|].
  destruct f' as [|f']; [lia|].
  rewrite (parse_backs_none f' x l) in E
    by (done || (by apply suf_app in Hs) || (by eapply follow_mono; [|exact Hf]; incl_tac)).
  rewrite <- bind_assoc. by rewrite (bind_ok _ _ _ _ _ _ _ E).
Qed.

Lemma line_of_back c : back_ok c -> show 3 c = show 2 c -> line_ok c.
Proof.
  intros Hb Hshow f l Hs Hf Hfuel. rewrite Hshow in *. unfold fuel_ok in Hfuel. destruct f as [|f]; [lia|].
  cbn [parseline].
  destruct (line_front c f l (fun c => more ← peek buf (bytes_of ";");
    if more : bool then gettoken buf ;; r ← parseline buf f; mret (LIST c r) else mret c) Hb Hs)
    as (x & Hx & E); [by eapply follow_mono; [|exact Hf]; incl_tac| |unfold fuel_ok; lia|].
  { destruct Hf as [->|Hf]; [done|]. cbn in Hf. by destruct_or? Hf; rewrite <- Hf. }
  exists x. split; [done|]. rewrite E. apply suf_app in Hs.
  by rewrite (bind_ok _ _ _ _ _ _ _ (peek_absent (bytes_of ";") after_line l Hs Hf ltac:(incl_tac) eq_refl)).
Qed.

Lemma line_list a b : back_ok a -> line_ok b -> printable b -> line_ok (SList a b).
Proof.
  intros Ha Hb Hpb f l Hs Hf Hfuel. cbn [show paren Nat.ltb Nat.leb] in *. rewrite <- !app_assoc in *.
  unfold fuel_ok in Hfuel. destruct f as [|f]; [lia|]. cbn [parseline].
  destruct (line_front a f (sym 59 ++ show 3 b ++ l) (fun c => more ← peek buf (bytes_of ";");
    if more : bool then gettoken buf ;; r ← parseline buf f; mret (LIST c r) else mret c) Ha Hs)
    as (x & Hx & E); [by right; right; right; left|done|unfold fuel_ok; lia|].
  rewrite E. apply suf_app in Hs. rewrite length_app in Hfuel. cbn [length sym app] in Hfuel.
  rewrite (bind_ok _ _ _ _ _ _ _ (peek_pos (bytes_of ";") _ Hs ltac:(by right))).
  change (negb (hd0 (sym 59 ++ _) =? 0) && in_set (bytes_of ";") (hd0 (sym 59 ++ _))) with true. cbn beta iota.
  rewrite pass_sym; [|done| |cbn; auto 10].
  2:{ apply show_tight; [done|]. by eapply follow_tight, follow_mono; [|exact Hf]; incl_tac. }
  apply suf_app in Hs. destruct (Hb f l Hs Hf) as (y & Hy & E'); [unfold fuel_ok; lia|].
  rewrite (bind_ok _ _ _ _ _ _ _ E'). exists (LIST x y). split; [cbn; by rewrite Hx, Hy|done].
Qed.

Fixpoint ssize (c : scmd) : nat :=
  match c with
  | SExec _ => 1
  | SRedir c' _ _ _ => S (ssize c')
  | SPipe a b => S (ssize a + ssize b)
  | SList a b => S (ssize a + ssize b)
  | SBack c' => S (ssize c')
  end.
Lemma ssize_wrap c rs : ssize (wrap c rs) = (ssize c + length rs)%nat.
Proof.
  induction rs as [|r rs IH] using rev_ind; [cbn; lia|]. rewrite wrap_app, length_app. cbn. lia.
Qed.

Lemma levels_ok c : printable c -> exec_ok c /\ pipe_ok c /\ back_ok c /\ line_ok c.
Proof.
  induction c as [c IH] using (induction_ltof1 _ ssize); unfold ltof in IH. intros Hp.
  assert (Hup : show 1 c = show 0 c -> show 2 c = show 1 c -> show 3 c = show 2 c -> exec_ok c ->
    exec_ok c /\ pipe_ok c /\ back_ok c /\ line_ok c).
  { intros E1 E2 E3 He. split; [done|]. assert (pipe_ok c) by by apply pipe_of_exec.
    split; [done|]. assert (back_ok c) by by apply back_of_pipe. split; [done|]. by apply line_of_back. }
  destruct c as [argv|c file mode fd|a b|a b|c].
  - destruct Hp as [Ha Hn]. apply Hup; [done..|]. by apply (exec_simple argv []); [| |constructor].
  - apply Hup; [done..|]. destruct (unwrap _ Hp) as (core & rs & E & Hc & Hrs & Hnil & Hm).
    assert (Hsz : (ssize core < ssize (SRedir c file mode fd))%nat).
    { rewrite E, ssize_wrap. destruct rs; [|cbn; lia]. rewrite Hnil in Hm by done. done. }
    rewrite E. destruct core; [destruct Hc; by apply exec_simple|done|..];
      (apply exec_block; [by apply IH|done|done|done]).
  - destruct Hp as [Ha Hb]. assert (Hpp : pipe_ok (SPipe a b)) by (apply pipe_pipe; [apply IH|apply IH|]; cbn; (done || lia)).
    assert (Hbk : back_ok (SPipe a b)) by by apply back_of_pipe. assert (Hl : line_ok (SPipe a b)) by by apply line_of_back.
    split_and!; [by apply (exec_block _ []); [..|constructor]|done..].
  - destruct Hp as [Ha Hb]. assert (Hl : line_ok (SList a b)) by (apply line_list; [apply IH|apply IH|]; cbn; (done || lia)).
    assert (He : exec_ok (SList a b)) by by apply (exec_block _ []); [..|constructor].
    assert (Hpp : pipe_ok (SList a b)) by by apply pipe_of_exec. split_and!; [done|done|by apply back_of_pipe|done].
  - assert (Hbk : back_ok (SBack c)) by (apply back_back, IH; cbn; (done || lia)).
    assert (Hl : line_ok (SBack c)) by by apply line_of_back.
    assert (He : exec_ok (SBack c)) by by apply (exec_block _ []); [..|constructor].
    split_and!; [done|by apply pipe_of_exec|done|done].
Qed.
End RoundTrip.

(** C15: the shell reads back every command line that is written with
    the parentheses the grammar needs.  For every command built from words,
    redirections, pipes, lists and background commands, at most nine words to
    a simple command, parsing its text succeeds, consumes the whole line and
    yields that command: precedence and associativity of [|], [&] and [;],
    nesting in parentheses and the order of redirections are as printed. *)
Theorem parsecmd_show c :
  printable c ->
  exists x b, parsecmd (show 3 c) = Ok (x, b) (length (show 3 c)) [] /\ decode (show 3 c) x = c.
Proof.
  intros Hp. set (buf := show 3 c). destruct (levels_ok buf c Hp) as (_ & _ & _ & Hl).
  assert (Hs : suf buf (show 3 c ++ [])) by (exists []; by rewrite app_nil_r).
  destruct (Hl (parse_fuel buf) [] Hs) as (x & Hx & E); [by left| |].
  { unfold fuel_ok, parse_fuel, es. rewrite app_nil_r. fold buf. lia. }
  assert (Hend : suf buf []) by (by apply suf_app in Hs).
  assert (H0 : pos buf (show 3 c ++ []) = 0%nat) by (unfold pos; rewrite app_nil_r; fold buf; lia).
  assert (H1 : pos buf [] = length buf) by (unfold pos; cbn; lia).
  exists x, (nulterminate buf x). split; [|done]. unfold parsecmd, parse_tree. rewrite H0 in E.
  rewrite !bind_assoc, (bind_ok _ _ _ _ _ _ _ E).
  rewrite !bind_assoc, (bind_ok _ _ _ _ _ _ _ (peek_pos buf [] [] Hend ltac:(by left))).
  unfold get. rewrite !bind_assoc. unfold mbind at 1, M_bind at 1. rewrite H1. unfold es. by rewrite Nat.eqb_refl.
Qed.
