(* ===== verification/ShellRun.v ===== *)
(** sh.c: running commands, and the command loop.

    A process is the tree of the system calls it makes ([sys]): each node
    carries what the process does with the result.  [fork] gives the child 0
    and the parent the child's pid.  [run] executes such trees on file
    descriptor tables the way sysfile.c manages them, the lowest free
    descriptor first. *)

From S2P Require Import Prelude Control Memory KState Format SysFile Shell.

Inductive sys :=
| Exit
| Exec (path : list Z) (argv : list (list Z)) (failed : sys)
| Print (fd : Z) (msg : list Z) (k : sys)
| Close (fd : Z) (k : sys)
| Dup (fd : Z) (k : Z -> sys)
| Open (file : list Z) (mode : Z) (k : Z -> sys)
| Pipe (k : option (Z * Z) -> sys)
| Fork (k : Z -> sys)
| Wait (k : sys)
| Chdir (path : list Z) (k : Z -> sys)
| Fgproc (k : sys).

Definition sh_panic (s : list Z) : sys := Print 2 (s ++ [10]) Exit.
Definition fork1 (k : Z -> sys) : sys := Fork (fun pid => if pid =? -1 then sh_panic (bytes_of "fork") else k pid).

(** [runcmd] never returns; [b] is the line after [nulterminate]. *)
Fixpoint runcmd (b : list Z) (c : cmd) : sys :=
  match c with
  | EXEC argv =>
      match argv with
      | [] => Exit
      | (q, _) :: _ =>
          Exec (string_at b q) ((fun a => string_at b a.1) <$> argv)
            (Print 2 (bytes_of "exec " ++ string_at b q ++ bytes_of " failed" ++ [10]) Exit)
      end
  | REDIR c' file _ mode fd =>
      Close fd (Open (string_at b file) mode (fun r =>
        if r <? 0 then Print 2 (bytes_of "open " ++ string_at b file ++ bytes_of " failed" ++ [10]) Exit
        else runcmd b c'))
  | LIST l r => fork1 (fun pid => if pid =? 0 then runcmd b l else Wait (runcmd b r))
  | PIPE l r =>
      Pipe (fun res =>
        match res with
        | None => sh_panic (bytes_of "pipe")
        | Some (p0, p1) =>
            fork1 (fun pid =>
              if pid =? 0 then Close 1 (Dup p1 (fun _ => Close p0 (Close p1 (runcmd b l))))
              else fork1 (fun pid =>
                if pid =? 0 then Close 0 (Dup p0 (fun _ => Close p0 (Close p1 (runcmd b r))))
                else Close p0 (Close p1 (Wait (Wait Exit)))))
        end)
  | BACK c' => fork1 (fun pid => if pid =? 0 then runcmd b c' else Exit)
  end.

(** * The command loop *)

(** ulib.c: gets, on the characters [read] will deliver one by one. *)
Fixpoint gets_loop (room : nat) (input : list Z) : list Z * list Z :=
  match room with
  | O => ([], input)
  | S n =>
      match input with
      | [] => ([], [])
      | c :: input' =>
          if (c =? 10) || (c =? 13) then ([c], input')
          else let '(l, rest) := gets_loop n input' in (c :: l, rest)
      end
  end.
(** [for(i = 0; i+1 < max; )]: the buffer up to its NUL, and the input left. *)
Definition gets (max : Z) (input : list Z) : list Z * list Z := gets_loop (Z.to_nat (max - 1)) input.

(** [buf[0] == 0] is the end of the input. *)
Definition getcmd (nbuf : Z) (input : list Z) : option (list Z * list Z) :=
  let '(l, rest) := gets nbuf input in
  if hd0 l =? 0 then None else Some (until_nul l, rest).

(** [if(buf[0] == 'c' && buf[1] == 'd' && buf[2] == ' ')] *)
Definition is_cd (buf : list Z) : bool := bool_decide (take 3 buf = bytes_of "cd ").
(** [buf[strlen(buf)-1] = 0], then [buf+3]. *)
Definition cd_path (buf : list Z) : list Z := drop 3 (take (length buf - 1) buf).

(** [runcmd(parsecmd(buf))]; the line "leftovers: ..." that precedes one of
    the two [panic("syntax")] is left out. *)
Definition run_line (buf : list Z) : sys :=
  match parsecmd buf with
  | Ok (c, b) _ _ => runcmd b c
  | Panic msg _ => sh_panic (bytes_of msg)
  | _ => Exit
  end.

Fixpoint main_loop (fuel : nat) (input : list Z) : sys :=
  match fuel with
  | O => Exit
  | S f =>
      Print 2 (bytes_of "$ ") (
        match getcmd 100 input with
        | None => Exit
        | Some (buf, rest) =>
            if is_cd buf then
              Chdir (cd_path buf) (fun r =>
                if r <? 0 then Print 2 (bytes_of "cannot cd " ++ cd_path buf ++ [10]) (main_loop f rest)
                else main_loop f rest)
            else
              fork1 (fun pid =>
                if pid =? 0 then Fgproc (run_line buf) else Wait (main_loop f rest))
        end)
  end.

(** [while((fd = open("console", O_RDWR)) >= 0)]: one round per descriptor. *)
Fixpoint open_console (fuel : nat) (k : sys) : sys :=
  match fuel with
  | O => k
  | S f => Open (bytes_of "console") O_RDWR (fun fd =>
      if 0 <=? fd then if 3 <=? fd then Close fd k else open_console f k else k)
  end.

Definition main (input : list Z) : sys :=
  open_console (S NOFILE) (main_loop (S (length input)) input).

(** * Execution *)

(** What a descriptor refers to: a file of the caller, an opened file, or an
    end of the [n]th pipe. *)
Inductive fileobj := Inherited (n : Z) | Opened (file : list Z) (mode : Z) | ReadEnd (n : Z) | WriteEnd (n : Z).
Abbreviation fdtab := (gmap Z fileobj).
(** A program that has been started and the descriptors it has. *)
Abbreviation started := (list (list Z) * fdtab)%type.

Record world := mkWorld {
  pipes_made : Z;
  pids_made : Z;
  programs : list started
}.
#[export] Instance world_eta : Eta world := fun w => mkWorld (pipes_made w) (pids_made w) (programs w).

(** sysfile.c: fdalloc. *)
Definition lowest (t : fdtab) : option Z :=
  head (filter (fun fd => t !! fd = None) (Z.of_nat <$> seq 0 NOFILE)).

Section Run.
(** Which files can be opened and which programs executed. *)
Context (can_open : list Z -> Z -> bool) (can_exec : list Z -> bool).

Fixpoint run (p : sys) (t : fdtab) (w : world) : world :=
  match p with
  | Exit => w
  | Exec path argv failed =>
      if can_exec path then w <| programs ::= fun l => l ++ [(argv, t)] |> else run failed t w
  | Print _ _ k => run k t w
  | Close fd k => run k (delete fd t) w
  | Dup fd k =>
      match t !! fd, lowest t with
      | Some f, Some fd' => run (k fd') (<[fd' := f]> t) w
      | _, _ => run (k (-1)) t w
      end
  | Open file mode k =>
      if can_open file mode then
        match lowest t with
        | Some fd => run (k fd) (<[fd := Opened file mode]> t) w
        | None => run (k (-1)) t w
        end
      else run (k (-1)) t w
  | Pipe k =>
      match lowest t with
      | Some p0 =>
          let t1 := <[p0 := ReadEnd (pipes_made w)]> t in
          match lowest t1 with
          | Some p1 =>
              run (k (Some (p0, p1))) (<[p1 := WriteEnd (pipes_made w)]> t1) (w <| pipes_made ::= Z.succ |>)
          | None => run (k None) t w
          end
      | None => run (k None) t w
      end
  | Fork k =>
      let w1 := run (k 0) t (w <| pids_made ::= Z.succ |>) in
      run (k (pids_made w + 1)) t w1
  | Wait k => run k t w
  | Chdir _ k => run (k 0) t w
  | Fgproc k => run k t w
  end.

(** What a command means: the programs it starts, with their descriptors, and
    the number of pipes it makes. *)
Fixpoint meaning (b : list Z) (c : cmd) (t : fdtab) (n : Z) : list started * Z :=
  match c with
  | EXEC argv =>
      match argv with
      | [] => ([], n)
      | (q, _) :: _ => (if can_exec (string_at b q) then [((fun a => string_at b a.1) <$> argv, t)] else [], n)
      end
  | REDIR c' file _ mode fd =>
      if can_open (string_at b file) mode then meaning b c' (<[fd := Opened (string_at b file) mode]> t) n else ([], n)
  | LIST l r =>
      let '(x, n1) := meaning b l t n in let '(y, n2) := meaning b r t n1 in (x ++ y, n2)
  | PIPE l r =>
      let '(x, n1) := meaning b l (<[1 := WriteEnd n]> t) (n + 1) in
      let '(y, n2) := meaning b r (<[0 := ReadEnd n]> t) n1 in (x ++ y, n2)
  | BACK c' => meaning b c' t n
  end.
End Run.

(** * The plumbing *)

Lemma lowest_free t fd : lowest t = Some fd -> t !! fd = None.
Proof.
  unfold lowest. intros H. assert (Hin : fd ∈ filter (fun fd => t !! fd = None) (Z.of_nat <$> seq 0 NOFILE)).
  { destruct (filter _ _); [done|]. injection H as ->. by left. }
  by apply list_elem_of_filter in Hin as [? _].
Qed.
Lemma lowest_exists t a : 0 <= a < Z.of_nat NOFILE -> t !! a = None -> exists fd, lowest t = Some fd.
Proof.
  intros Ha Hf. unfold lowest. assert (Hin : a ∈ filter (fun fd => t !! fd = None) (Z.of_nat <$> seq 0 NOFILE)).
  { apply list_elem_of_filter. split; [done|]. apply list_elem_of_fmap. exists (Z.to_nat a). rewrite elem_of_seq. lia. }
  destruct (filter _ _); [set_solver|eauto].
Qed.
Lemma lowest_0 t : t !! 0 = None -> lowest t = Some 0.
Proof. intros H. unfold lowest. cbn [seq NOFILE fmap list_fmap]. by rewrite filter_cons_True. Qed.
Lemma lowest_1 t : is_Some (t !! 0) -> t !! 1 = None -> lowest t = Some 1.
Proof.
  intros [f Hf] H. unfold lowest. cbn [seq NOFILE fmap list_fmap].
  rewrite filter_cons_False by (change (Z.of_nat 0) with 0; by rewrite Hf). by rewrite filter_cons_True.
Qed.

(** Standard input and output are open, and two descriptors are free. *)
Definition usable (t : fdtab) : Prop :=
  is_Some (t !! 0) /\ is_Some (t !! 1) /\
  exists a b, a <> b /\ 0 <= a < Z.of_nat NOFILE /\ 0 <= b < Z.of_nat NOFILE /\ t !! a = None /\ t !! b = None.

Lemma usable_insert t fd f : (fd = 0 \/ fd = 1) -> usable t -> usable (<[fd := f]> t).
Proof.
  intros Hfd ([f0 H0] & [f1 H1] & a & b & Hne & Ha & Hb & Ea & Eb).
  assert (Hn : forall c, t !! c = None -> c <> fd) by (intros c Hc ->; destruct Hfd as [->| ->]; congruence).
  split_and!; [apply lookup_insert_is_Some; destruct (decide (fd = 0)); [by left|right; eauto]|
    apply lookup_insert_is_Some; destruct (decide (fd = 1)); [by left|right; eauto]|].
  exists a, b. split_and!; try lia; (rewrite lookup_insert_ne; [done|]; by apply not_eq_sym, Hn).
Qed.

(** Redirections are of standard input or output, as the parser makes them. *)
Fixpoint std_redirs (c : cmd) : Prop :=
  match c with
  | EXEC _ => True
  | REDIR c' _ _ _ fd => (fd = 0 \/ fd = 1) /\ std_redirs c'
  | PIPE l r => std_redirs l /\ std_redirs r
  | LIST l r => std_redirs l /\ std_redirs r
  | BACK c' => std_redirs c'
  end.

Section Plumbing.
Context (can_open : list Z -> Z -> bool) (can_exec : list Z -> bool).
#[local] Abbreviation run := (run can_open can_exec).
#[local] Abbreviation meaning := (meaning can_open can_exec).

(** [w'] is [w] after the command that means [m]. *)
Definition after (w : world) (m : list started * Z) (w' : world) : Prop :=
  programs w' = programs w ++ m.1 /\ pipes_made w' = m.2 /\ pids_made w <= pids_made w'.

Lemma run_fork1 k t w : 0 <= pids_made w ->
  run (fork1 k) t w = run (k (pids_made w + 1)) t (run (k 0) t (w <| pids_made ::= Z.succ |>)).
Proof. intros Hp. cbn. by rewrite (proj2 (Z.eqb_neq (pids_made w + 1) (-1))) by lia. Qed.

(** The two children of a pipe. *)
Lemma pipe_child t p0 p1 fd e f0 f1 :
  (fd = 0 \/ fd = 1) -> usable t -> t !! p0 = None -> t !! p1 = None -> p0 <> p1 ->
  <[p1 := f1]> (<[p0 := f0]> t) !! e = Some (if decide (e = p1) then f1 else f0) -> e = p0 \/ e = p1 ->
  forall k w, run (Close fd (Dup e (fun _ => Close p0 (Close p1 k)))) (<[p1 := f1]> (<[p0 := f0]> t)) w =
    run k (<[fd := if decide (e = p1) then f1 else f0]> t) w.
Proof.
  intros Hfd ([g0 H0] & [g1 H1] & _) E0 E1 Hne He Hep k w.
  assert (Hn : forall c, t !! c = None -> c <> 0 /\ c <> 1) by (intros c Hc; split; intros ->; congruence).
  destruct (Hn p0 E0) as [N00 N01], (Hn p1 E1) as [N10 N11].
  cbn [ShellRun.run]. rewrite lookup_delete_ne, He by (destruct Hep as [->| ->], Hfd as [->| ->]; congruence).
  assert (Hlow : lowest (delete fd (<[p1 := f1]> (<[p0 := f0]> t))) = Some fd).
  { destruct Hfd as [->| ->]; [apply lowest_0, lookup_delete_eq|]. apply lowest_1; [|apply lookup_delete_eq].
    rewrite lookup_delete_ne, !lookup_insert_ne by congruence. eauto. }
  rewrite Hlow. f_equal. apply map_eq. intros c.
  destruct (decide (c = p1)) as [->|]; [rewrite lookup_delete_eq, lookup_insert_ne, E1; [done|destruct Hfd; congruence]|].
  rewrite lookup_delete_ne by done.
  destruct (decide (c = p0)) as [->|]; [rewrite lookup_delete_eq, lookup_insert_ne, E0; [done|destruct Hfd; congruence]|].
  rewrite lookup_delete_ne by done. destruct (decide (c = fd)) as [->|]; [by rewrite !lookup_insert_eq|].
  by rewrite lookup_insert_ne, lookup_delete_ne, !lookup_insert_ne by done.
Qed.

Lemma pids_succ w : 0 <= pids_made w -> 0 <= pids_made (w <| pids_made ::= Z.succ |>).
Proof. cbn. lia. Qed.
Lemma after_exit w n : pipes_made w = n -> after w ([], n) w.
Proof. intros <-. split_and!; cbn; [by rewrite app_nil_r|done|lia]. Qed.

(** Two commands one after the other. *)
Lemma after_seq w m1 w1 (m2 : list started * Z) w2 :
  after w m1 w1 -> after w1 m2 w2 -> after w (m1.1 ++ m2.1, m2.2) w2.
Proof. intros (H1 & H2 & H3) (H4 & H5 & H6). split_and!; cbn; [by rewrite H4, H1, app_assoc|done|lia]. Qed.
Lemma after_pids w m w1 : after (w <| pids_made ::= Z.succ |>) m w1 -> after w m w1 /\ pids_made w + 1 <= pids_made w1.
Proof. intros (H1 & H2 & H3). cbn in *. split; [split_and!; [done|done|lia]|lia]. Qed.

Lemma pipe_slots t : usable t -> exists p0 p1, lowest t = Some p0 /\ t !! p0 = None /\ t !! p1 = None /\ p0 <> p1 /\
  forall f, lowest (<[p0 := f]> t) = Some p1.
Proof.
  intros (_ & _ & a & b & Hne & Ha & Hb & Ea & Eb). destruct (lowest_exists t a Ha Ea) as [p0 H0]. pose proof (lowest_free _ _ H0) as E0.
  assert (Hp1 : exists p1, lowest (<[p0 := Inherited 0]> t) = Some p1).
  { destruct (decide (a = p0)) as [->|]; [apply (lowest_exists _ b)|apply (lowest_exists _ a)]; try done; by rewrite lookup_insert_ne. }
  destruct Hp1 as [p1 H1]. pose proof (lowest_free _ _ H1) as E1. apply lookup_insert_None in E1 as [E1 Hne1].
  exists p0, p1. split_and!; [done|done|done|congruence|]. intros f. rewrite <- H1. unfold lowest. f_equal.
  apply list_filter_iff. intros c. rewrite !lookup_insert_None. done.
Qed.

Lemma runcmd_after b c t w : usable t -> std_redirs c -> 0 <= pids_made w ->
  after w (meaning b c t (pipes_made w)) (run (runcmd b c) t w).
Proof.
  revert t w. induction c as [argv|c IH file efile mode fd|l IHl r IHr|l IHl r IHr|c IH]; intros t w Ht Hc Hw; cbn [runcmd meaning].
  - destruct argv as [|[q e] argv]; [by apply after_exit|]. cbn [ShellRun.run].
    destruct (can_exec _); [|by apply after_exit]. split_and!; [done|done|cbn; lia].
  - destruct Hc as [Hfd Hc]. cbn [ShellRun.run]. destruct (can_open _ _); [|by apply after_exit].
    assert (Hlow : lowest (delete fd t) = Some fd).
    { destruct Hfd as [->| ->]; [apply lowest_0, lookup_delete_eq|]. apply lowest_1; [|apply lookup_delete_eq].
      rewrite lookup_delete_ne by done. apply Ht. }
    rewrite Hlow, insert_delete_eq. assert (Hlt : (fd <? 0) = false) by (destruct Hfd as [->| ->]; done). rewrite Hlt.
    by apply IH; [apply usable_insert| |].
  - destruct Hc as [Hcl Hcr]. destruct (pipe_slots t Ht) as (p0 & p1 & H0 & E0 & E1 & Hne & H1).
    cbn [ShellRun.run]. rewrite H0, H1. set (n := pipes_made w). set (w0 := w <| pipes_made ::= Z.succ |>).
    set (t2 := <[p1 := WriteEnd n]> (<[p0 := ReadEnd n]> t)).
    assert (L0 : t2 !! p0 = Some (ReadEnd n)) by (unfold t2; rewrite lookup_insert_ne by congruence; apply lookup_insert_eq).
    assert (L1 : t2 !! p1 = Some (WriteEnd n)) by apply lookup_insert_eq.
    rewrite run_fork1 by done. change (0 =? 0) with true. cbn iota.
    rewrite (pipe_child t p0 p1 1 p1 (ReadEnd n) (WriteEnd n)); [|by right|done..|by rewrite decide_True|by right].
    rewrite decide_True by done.
    pose proof (IHl (<[1 := WriteEnd n]> t) (w0 <| pids_made ::= Z.succ |>) ltac:(apply usable_insert; auto) Hcl (pids_succ w0 Hw)) as Hl.
    change (pipes_made (w0 <| pids_made ::= Z.succ |>)) with (n + 1) in Hl.
    destruct (meaning b l (<[1 := WriteEnd n]> t) (n + 1)) as [x n1]. destruct (after_pids _ _ _ Hl) as [Hl' Hp1].
    set (w1 := run (runcmd b l) _ _) in *. rewrite (proj2 (Z.eqb_neq (pids_made w0 + 1) 0)) by (cbn; lia).
    assert (Hw1 : 0 <= pids_made w1) by (cbn in *; lia).
    rewrite run_fork1 by done. change (0 =? 0) with true. cbn iota.
    rewrite (pipe_child t p0 p1 0 p0 (ReadEnd n) (WriteEnd n)); [|by left|done..|by rewrite decide_False|by left].
    rewrite decide_False by done.
    pose proof (IHr (<[0 := ReadEnd n]> t) (w1 <| pids_made ::= Z.succ |>) ltac:(apply usable_insert; auto) Hcr (pids_succ w1 Hw1)) as Hr.
    change (pipes_made (w1 <| pids_made ::= Z.succ |>)) with (pipes_made w1) in Hr.
    assert (En : pipes_made w1 = n1) by apply Hl'. rewrite En in Hr.
    destruct (meaning b r (<[0 := ReadEnd n]> t) n1) as [y n2]. destruct (after_pids _ _ _ Hr) as [Hr' Hp2].
    rewrite (proj2 (Z.eqb_neq (pids_made w1 + 1) 0)) by lia. cbn [ShellRun.run].
    destruct (after_seq _ _ _ _ _ Hl' Hr') as (F1 & F2 & F3). split_and!; [exact F1|exact F2|exact F3].
  - destruct Hc as [Hcl Hcr]. rewrite run_fork1 by done. change (0 =? 0) with true. cbn iota.
    pose proof (IHl t (w <| pids_made ::= Z.succ |>) Ht Hcl (pids_succ w Hw)) as Hl.
    change (pipes_made (w <| pids_made ::= Z.succ |>)) with (pipes_made w) in Hl.
    destruct (meaning b l t (pipes_made w)) as [x n1]. destruct (after_pids _ _ _ Hl) as [Hl' Hp1].
    rewrite (proj2 (Z.eqb_neq (pids_made w + 1) 0)) by lia. cbn [ShellRun.run].
    set (w1 := run (runcmd b l) _ _) in *. pose proof (IHr t w1 Ht Hcr ltac:(lia)) as Hr.
    assert (En : pipes_made w1 = n1) by apply Hl'. rewrite En in Hr.
    destruct (meaning b r t n1) as [y n2]. apply (after_seq _ _ _ _ _ Hl' Hr).
  - rewrite run_fork1 by done. change (0 =? 0) with true. cbn iota.
    pose proof (IH t (w <| pids_made ::= Z.succ |>) Ht Hc (pids_succ w Hw)) as Hb.
    rewrite (proj2 (Z.eqb_neq (pids_made w + 1) 0)) by lia. by apply after_pids in Hb as [Hb _].
Qed.
End Plumbing.

(** * From the line to the programs *)

(** Whatever [m] returns satisfies [Q]. *)
Definition yields {A} (m : P A) (Q : A -> Prop) : Prop :=
  forall s w, match m s w with Ok a _ _ => Q a | _ => True end.

Lemma yields_bind {A B} (m : P A) (f : A -> P B) (R : A -> Prop) Q :
  yields m R -> (forall a, R a -> yields (f a) Q) -> yields (m ≫= f) Q.
Proof. intros Hm Hf s w. specialize (Hm s w). unfold mbind, M_bind. destruct (m s w); [by apply Hf|done..]. Qed.
Lemma yields_any {A} (m : P A) : yields m (fun _ => True).
Proof. intros s w. by destruct (m s w). Qed.
Lemma yields_ret {A} (a : A) (Q : A -> Prop) : Q a -> yields (mret a) Q.
Proof. by intros HQ s w. Qed.
Lemma yields_panic {A} msg (Q : A -> Prop) : yields (panic msg) Q.
Proof. by intros s w. Qed.
Lemma yields_no_return {A} (Q : A -> Prop) : yields no_return Q.
Proof. by intros s w. Qed.
#[local] Hint Resolve yields_any yields_ret yields_panic yields_no_return : core.

(** A token or a look ahead, whose value decides how to go on. *)
Ltac parse_step a := (eapply yields_bind; [apply yields_any|intros a _]).

Lemma add_arg_std a c : std_redirs c -> std_redirs (add_arg a c).
Proof. induction c; cbn; naive_solver. Qed.

Section Std.
Variable buf : list Z.

Lemma parseredirs_std fuel c : std_redirs c -> yields (parseredirs buf fuel c) std_redirs.
Proof.
  revert c. induction fuel as [|f IH]; intros c Hc; cbn [parseredirs]; [done|]. parse_step a.
  destruct a; [|auto]. parse_step a. destruct a as [[tok ?] ?]. parse_step a. destruct a as [[t q] eq].
  destruct (negb _); [auto|]. apply IH. destruct (tok =? 60); cbn; auto.
Qed.
Lemma parseargs_std fuel argc c : std_redirs c -> yields (parseargs buf fuel argc c) std_redirs.
Proof.
  revert argc c. induction fuel as [|f IH]; intros argc c Hc; cbn [parseargs]; [done|]. parse_step a.
  destruct a; [auto|]. parse_step a. destruct a as [[tok q] eq]. destruct (tok =? 0); [auto|]. destruct (negb _); [auto|].
  cbv zeta. destruct (_ <=? _)%nat; [auto|]. eapply yields_bind; [by apply parseredirs_std, add_arg_std|]. intros c' Hc'. by apply IH.
Qed.
Lemma parse_backs_std fuel c : std_redirs c -> yields (parse_backs buf fuel c) std_redirs.
Proof.
  revert c. induction fuel as [|f IH]; intros c Hc; cbn [parse_backs]; [done|]. parse_step a.
  destruct a; [|auto]. parse_step a. by apply IH.
Qed.

Lemma parse_std fuel : yields (parseline buf fuel) std_redirs /\ yields (parsepipe buf fuel) std_redirs /\
  yields (parseexec buf fuel) std_redirs /\ yields (parseblock buf fuel) std_redirs.
Proof.
  induction fuel as [|f (IHl & IHp & IHe & IHb)]; [done|]. split_and!; cbn [parseline parsepipe parseexec parseblock].
  - eapply yields_bind; [exact IHp|]. intros c Hc. eapply yields_bind; [by apply parse_backs_std|]. intros c' Hc'. parse_step a.
    destruct a; [|auto]. parse_step a. eapply yields_bind; [exact IHl|]. intros r Hr. by apply yields_ret.
  - eapply yields_bind; [exact IHe|]. intros c Hc. parse_step a. destruct a; [|auto]. parse_step a.
    eapply yields_bind; [exact IHp|]. intros r Hr. by apply yields_ret.
  - parse_step a. destruct a; [done|]. eapply yields_bind; [by apply parseredirs_std|]. intros c Hc. by apply parseargs_std.
  - parse_step a. destruct a; cbn [negb]; [|auto]. parse_step tok. eapply yields_bind; [exact IHl|]. intros c Hc. parse_step a.
    destruct a; cbn [negb]; [|auto]. parse_step tok'. by apply parseredirs_std.
Qed.

Lemma parsecmd_std c b s w : parsecmd buf = Ok (c, b) s w -> std_redirs c.
Proof.
  assert (Hy : yields (parse_tree buf) std_redirs).
  { unfold parse_tree. eapply yields_bind; [apply parse_std|]. intros c' Hc'. parse_step x. parse_step y. destruct (_ =? _)%nat; auto. }
  specialize (Hy 0%nat []). unfold parsecmd, mbind, M_bind. destruct (parse_tree buf 0%nat []); [|done..].
  intros E. by injection E as -> _ _ _.
Qed.
End Std.

(** C17: running a line starts exactly the programs it means, with the
    descriptors it means: the left side of a pipe writes to it, the right side
    reads from it, redirections replace standard input or output, and no
    program is left with a descriptor of a pipe other than those, so readers
    see the end of their input.  This holds for every line the parser accepts,
    nested pipes, lists, background commands and parentheses included, when
    standard input and output are open and two descriptors are free. *)
Theorem run_line_plumbing can_open can_exec buf c b s w t x :
  parsecmd buf = Ok (c, b) s w -> usable t -> 0 <= pids_made x ->
  programs (run can_open can_exec (run_line buf) t x) =
    programs x ++ (meaning can_open can_exec b c t (pipes_made x)).1 /\
  pipes_made (run can_open can_exec (run_line buf) t x) = (meaning can_open can_exec b c t (pipes_made x)).2.
Proof.
  intros E Ht Hx. unfold run_line. rewrite E.
  destruct (runcmd_after can_open can_exec b c t x Ht (parsecmd_std _ _ _ _ _ E) Hx) as (H1 & H2 & _). done.
Qed.
