(* ===== verification/Umalloc.v ===== *)
(** umalloc.c: Kernighan and Ritchie's allocator, the circular free list
    ordered by address.

    The memory the allocator touches is the headers: [hptr] and [hsize] give
    the two fields of the header at an address.  Addresses are in bytes and a
    header is one unit of 16 bytes.  The kernel's side is the break and the
    parameter [grants]: whether [sbrk] at a break for a number of bytes
    succeeds. *)

From stdpp Require Import functions sorting.
From S2P Require Import Prelude Memory KState.
#[local] Open Scope Z_scope.

Record heap := mkHeap {
  hptr : Z -> Z;
  hsize : Z -> Z;
  freep : Z;
  brk : Z
}.
#[export] Instance heap_eta : Eta heap := fun h => mkHeap (hptr h) (hsize h) (freep h) (brk h).

Definition set_ptr (a v : Z) (h : heap) : heap := h <| hptr ::= <[a := v]> |>.
Definition set_size (a v : Z) (h : heap) : heap := h <| hsize ::= <[a := v]> |>.

Section Allocator.
(** The address of the static header [base]. *)
Context (base : Z).
Context (grants : Z -> Z -> bool).

(** The loop of [free]: where the block at [bp] belongs. *)
Definition free_stop (h : heap) (bp p : Z) : bool :=
  ((p <? bp) && (bp <? hptr h p)) || ((hptr h p <=? p) && ((p <? bp) || (bp <? hptr h p))).
Fixpoint walk (fuel : nat) (stop : Z -> bool) (next : Z -> Z) (p : Z) : option Z :=
  match fuel with
  | O => None
  | S f => if stop p then Some p else walk f stop next (next p)
  end.

Definition free (fuel : nat) (ap : Z) (h : heap) : option heap :=
  let bp := ap - 16 in
  p ← walk fuel (free_stop h bp) (hptr h) (freep h);
  let q := hptr h p in
  let h1 := if bp + 16 * hsize h bp =? q then
              set_ptr bp (hptr h q) (set_size bp (u32 (hsize h bp + hsize h q)) h)
            else set_ptr bp q h in
  let h2 := if p + 16 * hsize h1 p =? bp then
              set_ptr p (hptr h1 bp) (set_size p (u32 (hsize h1 p + hsize h1 bp)) h1)
            else set_ptr p bp h1 in
  Some (h2 <| freep := p |>).

Definition sbrk (n : Z) (h : heap) : Z * heap :=
  if grants (brk h) n then (brk h, h <| brk ::= fun b => b + n |>) else (-1, h).

Definition morecore (fuel : nat) (nu : Z) (h : heap) : option (Z * heap) :=
  let nu := if nu <? 4096 then 4096 else nu in
  let '(p, h1) := sbrk (nu * 16) h in
  if p =? -1 then Some (0, h1) else
  h2 ← free fuel (p + 16) (set_size p nu h1);
  Some (freep h2, h2).

(** Taking [n] units from the block at [p], which follows [prevp]. *)
Definition carve (n prevp p : Z) (h : heap) : Z * heap :=
  if hsize h p =? n then (p + 16, set_ptr prevp (hptr h p) h <| freep := prevp |>)
  else
    let h1 := set_size p (u32 (hsize h p - n)) h in
    let p' := p + 16 * hsize h1 p in
    (p' + 16, set_size p' n h1 <| freep := prevp |>).

Fixpoint malloc_loop (fuel : nat) (n prevp p : Z) (h : heap) : option (Z * heap) :=
  match fuel with
  | O => None
  | S f =>
      if n <=? hsize h p then Some (carve n prevp p h)
      else if p =? freep h then
        '(q, h') ← morecore fuel n h;
        if q =? 0 then Some (0, h') else malloc_loop f n q (hptr h' q) h'
      else malloc_loop f n p (hptr h p) h
  end.

Definition nunits (nbytes : Z) : Z := u32 ((nbytes + 16 - 1) / 16 + 1).
Definition malloc (fuel : nat) (nbytes : Z) (h : heap) : option (Z * heap) :=
  let n := nunits nbytes in
  let h := if freep h =? 0 then set_size base 0 (set_ptr base base (h <| freep := base |>)) else h in
  malloc_loop fuel n (freep h) (hptr h (freep h)) h.

(** * Circular lists *)

Fixpoint chain (f : Z -> Z) (l : list Z) : Prop :=
  match l with
  | a :: l' => match l' with b :: _ => f a = b | [] => True end /\ chain f l'
  | [] => True
  end.

Lemma chain_app f l1 a l2 : chain f (l1 ++ a :: l2) <-> chain f (l1 ++ [a]) /\ chain f (a :: l2).
Proof.
  induction l1 as [|x l1 IH]; cbn [app]; [cbn; tauto|].
  destruct l1 as [|y l1]; cbn [app chain] in *; tauto.
Qed.

(** Writing the field of a node outside the list. *)
Lemma chain_insert f a v l x : a ∉ l -> chain (<[a := v]> f) (l ++ [x]) <-> chain f (l ++ [x]).
Proof.
  induction l as [|y l IH]; intros Ha; [done|]. apply not_elem_of_cons in Ha as [Hy Ha]. specialize (IH Ha).
  destruct l as [|z l]; cbn [app chain] in *; rewrite fn_lookup_insert_ne by done; tauto.
Qed.

(** A ring can be entered anywhere. *)
Lemma ring_rotate f x l1 y l2 : chain f (x :: l1 ++ y :: l2 ++ [x]) -> chain f (y :: l2 ++ x :: l1 ++ [y]).
Proof.
  intros Hc. rewrite (app_comm_cons l1 _ x), chain_app in Hc. destruct Hc as [H1 H2].
  rewrite (app_comm_cons l2 _ y), chain_app. by split.
Qed.

Lemma ring_enter f x l y : chain f (x :: l ++ [x]) -> y ∈ x :: l ->
  exists l', y :: l' ≡ₚ x :: l /\ chain f ((y :: l') ++ [y]).
Proof.
  intros Hc [->|Hy]%elem_of_cons; [by exists l|]. apply list_elem_of_split in Hy as (l1 & l2 & ->).
  exists (l2 ++ x :: l1). split.
  - rewrite (Permutation_app_comm l2). cbn [app]. rewrite <- (Permutation_middle l1). apply perm_swap.
  - rewrite <- app_assoc in Hc. apply ring_rotate in Hc. cbn [app] in *. by rewrite <- app_assoc.
Qed.

Lemma walk_ring stop f l x fuel target :
  chain f (l ++ [x]) -> target ∈ l -> stop target = true -> (forall a, a ∈ l -> stop a = true -> a = target) ->
  (length l <= fuel)%nat -> walk fuel stop f (hd x l) = Some target.
Proof.
  revert l. induction fuel as [|fuel IH]; intros l Hc Ht Hs Hu Hl; destruct l as [|a l]; try (cbn in *; lia); [set_solver..|].
  cbn [walk hd]. destruct (stop a) eqn:Ea; [f_equal; apply Hu; set_solver|].
  assert (a <> target) by congruence. assert (Hl' : target ∈ l) by set_solver.
  destruct l as [|b l]; [set_solver|]. cbn [app chain] in Hc. destruct Hc as [<- Hc].
  apply (IH (f a :: l)); [done|done|done|set_solver|cbn in *; lia].
Qed.

Lemma chain_next f A a B x : chain f (A ++ a :: B ++ [x]) -> f a = hd x B.
Proof. rewrite chain_app. intros [_ H]. destruct B; apply H. Qed.

(** * The state of the heap *)

(** A block: its address and its size in units, header included. *)
Abbreviation block := (Z * Z)%type.
Definition block_end (x : block) : Z := x.1 + 16 * x.2.
(** Free blocks are in address order and never touch. *)
Definition gap (x y : block) : Prop := block_end x < y.1.
Definition apart (x y : block) : Prop := block_end x <= y.1 \/ block_end y <= x.1.
Definition block_ok (h : heap) (x : block) : Prop :=
  hsize h x.1 = x.2 /\ base + 16 <= x.1 /\ 1 <= x.2 /\ block_end x <= brk h.

Definition live_ok (h : heap) (live : gmap Z Z) : Prop :=
  (forall a s, live !! a = Some s -> block_ok h (a, s)) /\
  (forall a s b t, live !! a = Some s -> live !! b = Some t -> a <> b -> apart (a, s) (b, t)).

(** The free blocks [l] and the allocated ones [live]. *)
Record heap_ok (h : heap) (l : list block) (live : gmap Z Z) : Prop := {
  ok_chain : chain (hptr h) (base :: l.*1 ++ [base]);
  ok_base : hsize h base = 0;
  ok_freep : freep h ∈ base :: l.*1;
  ok_blocks x : x ∈ l -> block_ok h x;
  ok_sorted : StronglySorted gap l;
  ok_live : live_ok h live;
  ok_apart x a s : x ∈ l -> live !! a = Some s -> apart x (a, s);
  ok_brk : 0 < base /\ base + 16 <= brk h < 2 ^ 36
}.

(** The free list cut open before [x], a block not yet linked to what is
    before it. *)
Record detached (h : heap) (l1 : list block) (x : block) (l2 : list block) (live : gmap Z Z) : Prop := {
  d_left : chain (hptr h) (base :: l1.*1);
  d_right : chain (hptr h) (x.1 :: l2.*1 ++ [base]);
  d_base : hsize h base = 0;
  d_blocks y : y ∈ l1 ++ x :: l2 -> block_ok h y;
  d_sorted1 : StronglySorted gap l1;
  d_sorted2 : StronglySorted gap (x :: l2);
  d_cross y : y ∈ l1 -> block_end y <= x.1;
  d_live : live_ok h live;
  d_apart y a s : y ∈ l1 ++ x :: l2 -> live !! a = Some s -> apart y (a, s);
  d_brk : 0 < base /\ base + 16 <= brk h < 2 ^ 36
}.

Lemma fst_elem (l : list block) a : a ∈ l.*1 -> exists s, (a, s) ∈ l.
Proof. intros ([a' s] & -> & H)%list_elem_of_fmap. by exists s. Qed.

(** Where a block that overlaps no free one belongs. *)
Lemma split_free h l live x : heap_ok h l live -> block_ok h x -> (forall y, y ∈ l -> apart y x) ->
  exists l1 l2, l = l1 ++ l2 /\ (forall y, y ∈ l1 -> block_end y <= x.1) /\ (forall y, y ∈ l2 -> block_end x <= y.1).
Proof.
  intros Hok Hx. assert (Hb := ok_blocks _ _ _ Hok). assert (Hs := ok_sorted _ _ _ Hok). clear Hok.
  induction Hs as [|y l Hs IH Hy]; intros Ha; [exists [], []; set_solver|].
  destruct IH as (l1 & l2 & -> & H1 & H2).
  { intros z Hz. apply Hb. by right. }
  { intros z Hz. apply Ha. by right. }
  destruct (Ha y ltac:(by left)) as [Hyx|Hxy].
  - exists (y :: l1), l2. split_and!; [done|set_solver|done].
  - exists [], (y :: l1 ++ l2). split_and!; [done|set_solver|]. intros z [->|Hz]%elem_of_cons; [done|].
    rewrite Forall_forall in Hy. specialize (Hy z Hz). destruct (Hb y ltac:(by left)) as (_ & _ & ? & _).
    unfold gap, block_end in *. lia.
Qed.

Lemma sorted_nodes h l live : heap_ok h l live -> StronglySorted Z.lt (base :: l.*1).
Proof.
  intros Hok. constructor.
  - assert (Hb := ok_blocks _ _ _ Hok). assert (Hs := ok_sorted _ _ _ Hok). clear Hok.
    induction Hs as [|y l Hs IH Hy]; [constructor|].
    constructor; [apply IH; intros z Hz; apply Hb; by right|]. apply Forall_forall. intros a (s & Ha)%fst_elem. rewrite Forall_forall in Hy.
    specialize (Hy _ Ha). destruct (Hb y ltac:(by left)) as (_ & _ & ? & _). unfold gap, block_end in Hy. cbn in *. lia.
  - apply Forall_forall. intros a (s & Ha)%fst_elem. destruct (ok_blocks _ _ _ Hok _ Ha) as (_ & ? & _). cbn in *. lia.
Qed.

(** The search of [free] ends at the block before. *)
Lemma free_walk h l1 l2 live x fuel N1 p :
  heap_ok h (l1 ++ l2) live -> base + 16 <= x.1 -> 1 <= x.2 ->
  (forall y, y ∈ l1 -> block_end y <= x.1) -> (forall y, y ∈ l2 -> block_end x <= y.1) ->
  base :: l1.*1 = N1 ++ [p] -> (length (l1 ++ l2) + 1 <= fuel)%nat ->
  walk fuel (free_stop h x.1) (hptr h) (freep h) = Some p.
Proof.
  intros Hok Hx Hx2 H1 H2 HN Hf. pose proof (sorted_nodes _ _ _ Hok) as Hs. pose proof (ok_chain _ _ _ Hok) as Hc.
  assert (Hn : base :: (l1 ++ l2).*1 = N1 ++ p :: l2.*1) by (rewrite fmap_app, app_comm_cons, HN, <- app_assoc; done).
  rewrite (app_comm_cons _ [base] base), Hn in Hc. rewrite Hn in Hs.
  assert (Hpx : p < x.1).
  { assert (Hp : p ∈ base :: l1.*1) by (rewrite HN; set_solver). apply elem_of_cons in Hp as [->|(s & Hp)%fst_elem]; [lia|].
    pose proof (H1 _ Hp) as Hle. destruct (ok_blocks _ _ _ Hok (p, s)) as (_ & _ & ? & _); [set_solver|].
    unfold block_end in Hle. cbn in *. lia. }
  assert (Hge : forall a, a ∈ l2.*1 -> x.1 < a).
  { intros a (s & Ha)%fst_elem. specialize (H2 _ Ha). unfold block_end in H2. cbn in *. lia. }
  apply StronglySorted_app in Hs as (Hs12 & Hs1 & Hs2).
  assert (Hlow : forall a, a ∈ N1 -> free_stop h x.1 a = false).
  { intros a (A & B & E)%list_elem_of_split.
    assert (Hnext : hptr h a = hd base ((B ++ [p]) ++ l2.*1)).
    { apply (chain_next _ A). rewrite E in Hc. rewrite <- !app_assoc in Hc |- *. exact Hc. }
    assert (Hin : exists c B', B ++ [p] = c :: B') by (destruct B; cbn; eauto). destruct Hin as (c & B' & EB).
    rewrite EB in Hnext. cbn in Hnext. rewrite E in Hs1, Hs12.
    assert (Hac : a < c).
    { assert (Hcin : c ∈ B ++ [p]) by (rewrite EB; by left). apply elem_of_app in Hcin as [Hcin|Hcin].
      - apply StronglySorted_app in Hs1 as (_ & _ & Hs1). apply StronglySorted_inv in Hs1 as [_ Hs1].
        rewrite Forall_forall in Hs1. by apply Hs1.
      - apply list_elem_of_singleton in Hcin as ->. apply Hs12; [|by left]. apply elem_of_app. right. by left. }
    assert (Hcp : c <= p).
    { assert (Hcin : c ∈ B ++ [p]) by (rewrite EB; by left). apply elem_of_app in Hcin as [Hcin|Hcin].
      - apply Z.lt_le_incl, Hs12; [|by left]. apply elem_of_app. right. by right.
      - by apply list_elem_of_singleton in Hcin as ->. }
    unfold free_stop. rewrite Hnext. lia. }
  assert (Hhigh : forall a, a ∈ l2.*1 -> free_stop h x.1 a = false).
  { intros a Ha. pose proof (Hge a Ha) as Hax. apply list_elem_of_split in Ha as (A & B & E).
    assert (Hnext : hptr h a = hd base B).
    { apply (chain_next _ (N1 ++ p :: A)). rewrite E in Hc. rewrite <- !app_assoc in *. cbn [app] in *. by rewrite <- !app_assoc in Hc. }
    unfold free_stop. rewrite Hnext. destruct B as [|c B]; cbn [hd]; [lia|].
    assert (Hac : a < c).
    { apply StronglySorted_inv in Hs2 as [Hs2 _]. rewrite E in Hs2. apply StronglySorted_app in Hs2 as (_ & _ & Hs2).
      apply StronglySorted_inv in Hs2 as [_ Hs2]. rewrite Forall_forall in Hs2. apply Hs2. by left. }
    lia. }
  assert (Hhit : free_stop h x.1 p = true).
  { assert (Hnext : hptr h p = hd base l2.*1) by (apply (chain_next _ N1); by rewrite <- app_assoc in Hc).
    unfold free_stop. rewrite Hnext. destruct (l2.*1) as [|c B] eqn:E; cbn [hd].
    - assert (base <= p) by (destruct N1 as [|n N1]; injection HN as <- HN; [lia|]; apply Z.lt_le_incl, Hs12; by left). lia.
    - specialize (Hge c ltac:(by left)). lia. }
  pose proof (ok_chain _ _ _ Hok) as Hring. pose proof (ok_freep _ _ _ Hok) as Hfreep.
  destruct (ring_enter _ _ _ _ Hring Hfreep) as (l' & Hperm & Hring'). rewrite Hn in Hperm.
  apply (walk_ring _ _ (freep h :: l') (freep h)); [done| |done| |].
  - rewrite Hperm. set_solver.
  - intros a. rewrite Hperm. intros [Ha|[Ha|Ha]%elem_of_cons]%elem_of_app Hst; [by rewrite Hlow in Hst|done|by rewrite Hhigh in Hst].
  - rewrite Hperm, <- Hn. cbn. rewrite length_fmap. lia.
Qed.

(** * [free] *)

Definition units (l : list block) : Z := foldr (fun x n => x.2 + n) 0 l.
Lemma units_app l1 l2 : units (l1 ++ l2) = units l1 + units l2.
Proof. induction l1 as [|x l1 IH]; [done|]. change (x.2 + units (l1 ++ l2) = x.2 + units l1 + units l2). lia. Qed.

Lemma size_set_eq h a v : hsize (set_size a v h) a = v.
Proof. cbn. by rewrite fn_lookup_insert. Qed.
Lemma block_ok_size h a v x : x.1 <> a -> block_ok h x -> block_ok (set_size a v h) x.
Proof. intros Ha (H1 & H2). split; [|done]. cbn. by rewrite fn_lookup_insert_ne by done. Qed.
Lemma block_ok_ptr h a v x : block_ok h x -> block_ok (set_ptr a v h) x.
Proof. done. Qed.
Lemma live_ok_size h a v live : live !! a = None -> live_ok h live -> live_ok (set_size a v h) live.
Proof. intros Ha [H1 H2]. split; [|done]. intros b s Hb. apply block_ok_size; [|by apply H1]. cbn. congruence. Qed.
Lemma live_ok_delete h a live : live_ok h live -> live_ok h (delete a live).
Proof.
  intros [H1 H2]. split.
  - intros b s [_ Hb]%lookup_delete_Some. by apply H1.
  - intros b s c t [_ Hb]%lookup_delete_Some [_ Hc]%lookup_delete_Some. by apply H2.
Qed.
Lemma sorted_after x l y : StronglySorted gap (x :: l) -> y ∈ l -> gap x y.
Proof. intros [_ Hf]%StronglySorted_inv. rewrite Forall_forall in Hf. apply Hf. Qed.

Lemma chain_tail f A l : chain f (A ++ l) -> chain f l.
Proof. induction A as [|a A IH]; [done|]. intros [_ H]. by apply IH. Qed.
Lemma chain_init f l B : chain f (l ++ B) -> chain f l.
Proof.
  induction l as [|a l IH]; [done|]. intros [H1 H2]. split; [|by apply IH]. by destruct l.
Qed.

Lemma chain_relink f a v L x : a ∉ L -> v = hd x L -> chain f (L ++ [x]) -> chain (<[a := v]> f) (a :: L ++ [x]).
Proof.
  intros Ha -> Hc. cbn [chain]. rewrite chain_insert by done. split; [|done]. rewrite fn_lookup_insert. by destruct L.
Qed.

(** The block at [b], after [free] has looked at the free block behind it. *)
Lemma attach_right h l1 l2 live b n :
  heap_ok h (l1 ++ l2) live -> live !! b = Some n ->
  (forall y, y ∈ l1 -> block_end y <= b) -> (forall y, y ∈ l2 -> b + 16 * n <= y.1) ->
  let q := hd base l2.*1 in
  let h1 := if b + 16 * hsize h b =? q then set_ptr b (hptr h q) (set_size b (u32 (hsize h b + hsize h q)) h)
            else set_ptr b q h in
  exists x l2', x.1 = b /\ detached h1 l1 x l2' (delete b live) /\ x.2 + units l2' = n + units l2 /\ n <= x.2 /\
    (length l2' <= length l2)%nat /\ brk h1 = brk h.
Proof.
  intros Hok Hb H1 H2 q h1. pose proof (ok_live _ _ _ Hok) as [Hl1 Hl2]. pose proof (ok_brk _ _ _ Hok) as Hbrk.
  destruct (Hl1 b n Hb) as (Hsz & Hlow & Hpos & Hend). unfold block_end in Hend. cbn [fst snd] in *.
  pose proof (ok_chain _ _ _ Hok) as Hc. rewrite fmap_app in Hc.
  assert (Hb1 : b ∉ base :: l1.*1).
  { intros [->|(s & Hs)%fst_elem]%elem_of_cons; [lia|]. specialize (H1 _ Hs).
    destruct (ok_blocks _ _ _ Hok (b, s)) as (_ & _ & ? & _); [set_solver|]. unfold block_end in H1. cbn in *. lia. }
  assert (Hb2 : b ∉ l2.*1).
  { intros (s & Hs)%fst_elem. specialize (H2 _ Hs). cbn in *. lia. }
  assert (Hne : forall y, y ∈ l1 ++ l2 -> y.1 <> b).
  { intros [a s] [Hy|Hy]%elem_of_app Ha; cbn in Ha; subst a; [apply Hb1; right|apply Hb2]; apply list_elem_of_fmap; by exists (b, s). }
  assert (Hleft : forall v, chain (<[b := v]> (hptr h)) (base :: l1.*1)).
  { intros v. assert (Hc' : chain (hptr h) (base :: l1.*1)).
    { rewrite <- app_assoc, app_comm_cons in Hc. by apply chain_init in Hc. }
    destruct (exists_last (l := base :: l1.*1)) as (N & z & E); [done|]. rewrite E in *. rewrite chain_insert; [done|set_solver]. }
  assert (Hright : forall L, L = l2 \/ (exists y, l2 = y :: L) -> chain (<[b := hd base L.*1]> (hptr h)) (b :: L.*1 ++ [base])).
  { intros L HL. rewrite <- app_assoc in Hc. apply (chain_tail _ (base :: l1.*1)) in Hc.
    apply chain_relink; [|done|].
    - destruct HL as [->|[y ->]]; set_solver.
    - destruct HL as [->|[y ->]]; [done|]. by destruct Hc. }
  pose proof (StronglySorted_app_1_l _ _ _ (ok_sorted _ _ _ Hok)) as Hs1.
  pose proof (StronglySorted_app_1_r _ _ _ (ok_sorted _ _ _ Hok)) as Hs2.
  assert (Hnone : delete b live !! b = None) by apply lookup_delete_eq.
  assert (Hother : forall y a s, y ∈ l1 ++ l2 -> delete b live !! a = Some s -> apart y (a, s)).
  { intros y a s Hy [_ Ha]%lookup_delete_Some. by apply (ok_apart _ _ _ Hok). }
  assert (Hself : forall a s, delete b live !! a = Some s -> apart (b, n) (a, s) /\ 1 <= s).
  { intros a s [Hab Ha]%lookup_delete_Some. split; [by apply Hl2|]. by destruct (Hl1 a s Ha) as (_ & _ & ? & _). }
  unfold h1. rewrite Hsz. clear h1. destruct (Z.eqb_spec (b + 16 * n) q) as [Eq|Eq].
  - destruct l2 as [|[q' t] l2]; [unfold q in Eq; cbn in Eq; lia|]. change q with q' in Eq |- *. clear q. rename q' into q.
    destruct (ok_blocks _ _ _ Hok (q, t)) as (Ht & _ & Ht1 & Hte); [set_solver|]. unfold block_end in Hte; cbn [fst snd] in *.
    assert (Hnext : hptr h q = hd base l2.*1).
    { apply (chain_next _ (base :: l1.*1)). rewrite <- app_assoc in Hc. exact Hc. }
    rewrite Ht, Hnext. assert (Eu : u32 (n + t) = n + t) by (apply u32_id; unfold u32_range; lia). rewrite Eu.
    exists (b, n + t), l2. change (units ((q, t) :: l2)) with (t + units l2). cbn [snd length].
    split_and!; [done| |lia|lia|lia|done]. split.
    + apply Hleft.
    + apply Hright. right. by eexists.
    + cbn. rewrite fn_lookup_insert_ne by lia. apply Hok.
    + intros y [Hy|[->|Hy]%elem_of_cons]%elem_of_app.
      * apply block_ok_ptr, block_ok_size; [apply Hne; set_solver|apply (ok_blocks _ _ _ Hok); set_solver].
      * unfold block_ok, block_end; cbn. rewrite fn_lookup_insert. lia.
      * apply block_ok_ptr, block_ok_size; [apply Hne; set_solver|apply (ok_blocks _ _ _ Hok); set_solver].
    + done.
    + constructor; [by apply StronglySorted_inv in Hs2 as [? _]|]. apply Forall_forall. intros y Hy.
      pose proof (sorted_after _ _ _ Hs2 Hy) as Hg. unfold gap, block_end in *. cbn in *. lia.
    + done.
    + apply live_ok_size; [done|]. by apply live_ok_delete.
    + intros y a s [Hy|[->|Hy]%elem_of_cons]%elem_of_app Ha; [apply Hother; set_solver| |apply Hother; set_solver].
      destruct (Hself a s Ha) as [Hap Hs]. assert (Hq := Hother (q, t) a s ltac:(set_solver) Ha).
      unfold apart, block_end in *. cbn in *. lia.
    + done.
  - exists (b, n), l2. split_and!; [done| |cbn; lia|cbn; lia|done|done]. split.
    + apply Hleft.
    + apply Hright. by left.
    + apply Hok.
    + intros y [Hy|[->|Hy]%elem_of_cons]%elem_of_app; [apply (ok_blocks _ _ _ Hok); set_solver| |apply (ok_blocks _ _ _ Hok); set_solver].
      done.
    + done.
    + constructor; [done|]. apply Forall_forall. intros y Hy. specialize (H2 y Hy) as Hy2. unfold gap, block_end; cbn.
      destruct l2 as [|z l2]; [set_solver|]. change (hd base (z :: l2).*1) with z.1 in q. unfold q in Eq.
      apply elem_of_cons in Hy as [->|Hy]; [lia|]. pose proof (sorted_after _ _ _ Hs2 Hy) as Hg.
      specialize (H2 z ltac:(by left)). destruct (ok_blocks _ _ _ Hok z) as (_ & _ & ? & _); [set_solver|].
      unfold gap, block_end in Hg. lia.
    + done.
    + by apply live_ok_delete.
    + intros y a s [Hy|[->|Hy]%elem_of_cons]%elem_of_app Ha; [apply Hother; set_solver| |apply Hother; set_solver].
      by apply Hself.
    + done.
Qed.

(** The last block before a detached one. *)
Lemma detached_last h l1 p sp x l2 live : detached h (l1 ++ [(p, sp)]) x l2 live ->
  block_ok h (p, sp) /\ p + 16 * sp <= x.1 /\ (forall y, y ∈ l1 -> gap y (p, sp)) /\ p ∉ base :: l1.*1.
Proof.
  intros Hd. destruct (d_blocks _ _ _ _ _ Hd (p, sp)) as (Hs & ? & ? & ?); [set_solver|].
  pose proof (d_cross _ _ _ _ _ Hd (p, sp) ltac:(set_solver)) as Hcr. unfold block_end in Hcr. cbn in Hcr.
  assert (Hg : forall y, y ∈ l1 -> gap y (p, sp)).
  { intros y Hy. apply (StronglySorted_app_1_elem_of _ _ _ _ _ (d_sorted1 _ _ _ _ _ Hd) Hy). by left. }
  split_and!; [done|lia|done|]. intros [->|(t & Ht)%fst_elem]%elem_of_cons; cbn in *; [lia|]. specialize (Hg _ Ht).
  destruct (d_blocks _ _ _ _ _ Hd (p, t)) as (_ & _ & ? & _); [set_solver|]. unfold gap, block_end in Hg. cbn in *. lia.
Qed.

Lemma detached_after h l1 x l2 live y : detached h l1 x l2 live -> y ∈ l2 -> x.1 < y.1.
Proof.
  intros Hd Hy. destruct (d_blocks _ _ _ _ _ Hd x) as (_ & _ & ? & _); [set_solver|].
  pose proof (sorted_after _ _ _ (d_sorted2 _ _ _ _ _ Hd) Hy) as Hg. unfold gap, block_end in Hg. lia.
Qed.

(** The last node before a detached block. *)
Lemma detached_node h l1 x l2 live N1 p : detached h l1 x l2 live -> base :: l1.*1 = N1 ++ [p] ->
  p < x.1 /\ p ∉ N1 /\ p ∉ l2.*1 /\
  ((l1 = [] /\ p = base /\ hsize h p = 0) \/ exists l sp, l1 = l ++ [(p, sp)] /\ N1 = base :: l.*1 /\ hsize h p = sp).
Proof.
  intros Hd HN. destruct (d_blocks _ _ _ _ _ Hd x) as (_ & ? & _); [set_solver|].
  assert (Hp : p < x.1 /\ p ∉ N1 /\
    ((l1 = [] /\ p = base /\ hsize h p = 0) \/ exists l sp, l1 = l ++ [(p, sp)] /\ N1 = base :: l.*1 /\ hsize h p = sp)).
  { destruct l1 as [|[p' sp] l1 _] using rev_ind.
    - destruct N1 as [|? N1]; [|by destruct N1]. injection HN as <-.
      split_and!; [lia|set_solver|left; split_and!; [done|done|apply Hd]].
    - rewrite fmap_app, app_comm_cons in HN. apply app_inj_tail in HN as [<- <-].
      destruct (detached_last _ _ _ _ _ _ _ Hd) as ((? & ? & ? & _) & ? & _ & ?). cbn in *.
      split_and!; [lia|done|right; eauto]. }
  destruct Hp as (Hpx & HpN & Hcase). split_and!; [done|done| |done].
  intros (s & Hs)%fst_elem. pose proof (detached_after _ _ _ _ _ _ Hd Hs). cbn in *. lia.
Qed.

(** The end of [free] when the block touches the one before it. *)
Lemma attach_join h l1 p sp x l2 live :
  detached h (l1 ++ [(p, sp)]) x l2 live -> p + 16 * sp = x.1 ->
  heap_ok (set_ptr p (hptr h x.1) (set_size p (u32 (sp + x.2)) h) <| freep := p |>) (l1 ++ (p, sp + x.2) :: l2) live.
Proof.
  intros Hd Eq. pose proof (d_brk _ _ _ _ _ Hd) as Hbrk. destruct (detached_last _ _ _ _ _ _ _ Hd) as ((_ & Hpl & Hp1 & _) & _ & Hg1 & HpN).
  destruct (d_blocks _ _ _ _ _ Hd x) as (Hxs & Hxl & Hx1 & Hxe); [set_solver|]. unfold block_end in Hxe. cbn [fst snd] in *.
  assert (Eu : u32 (sp + x.2) = sp + x.2) by (apply u32_id; unfold u32_range; lia). rewrite Eu.
  assert (Hnext : hptr h x.1 = hd base l2.*1) by (apply (chain_next _ []), (d_right _ _ _ _ _ Hd)). rewrite Hnext.
  assert (Hp2 : p ∉ l2.*1) by (intros (s & Hs)%fst_elem; pose proof (detached_after _ _ _ _ _ _ Hd Hs); cbn in *; lia).
  assert (Hold : forall y, y ∈ l1 ++ l2 -> block_ok (set_size p (sp + x.2) h) y).
  { intros [a s] Hy. apply block_ok_size; [|apply (d_blocks _ _ _ _ _ Hd); set_solver]. intros <-.
    apply elem_of_app in Hy as [Hy|Hy]; [apply HpN; right|apply Hp2]; apply list_elem_of_fmap; by exists (a, s). }
  assert (Hap : forall a s, live !! a = Some s -> apart (p, sp) (a, s) /\ apart x (a, s) /\ 1 <= s).
  { intros a s Ha. destruct (proj1 (d_live _ _ _ _ _ Hd) a s Ha) as (_ & _ & ? & _).
    split_and!; [apply (d_apart _ _ _ _ _ Hd); [set_solver|done]..|done]. }
  split.
  - cbn [hptr set_ptr set_size]. rewrite fmap_app. cbn [fmap list_fmap fst].
    change (base :: (l1.*1 ++ p :: l2.*1) ++ [base]) with (((base :: l1.*1) ++ p :: l2.*1) ++ [base]).
    rewrite <- app_assoc. apply chain_app. split; [|apply chain_relink; [done|done|by destruct (d_right _ _ _ _ _ Hd)]].
    apply chain_insert; [done|]. pose proof (d_left _ _ _ _ _ Hd) as Hl. by rewrite fmap_app in Hl.
  - cbn. rewrite fn_lookup_insert_ne by lia. apply Hd.
  - cbn. rewrite fmap_app. set_solver.
  - intros y [Hy|[->|Hy]%elem_of_cons]%elem_of_app; [apply Hold; set_solver| |apply Hold; set_solver].
    unfold block_ok, block_end; cbn. rewrite fn_lookup_insert. lia.
  - apply StronglySorted_app. split_and!; [|by eapply StronglySorted_app_1_l, (d_sorted1 _ _ _ _ _ Hd)|].
    + intros y z Hy [->|Hz]%elem_of_cons; [by apply (Hg1 y)|]. pose proof (detached_after _ _ _ _ _ _ Hd Hz).
      specialize (Hg1 y Hy). unfold gap, block_end in *. cbn in *. lia.
    + pose proof (d_sorted2 _ _ _ _ _ Hd) as Hs2. constructor; [by apply StronglySorted_inv in Hs2 as [? _]|].
      apply Forall_forall. intros z Hz. pose proof (sorted_after _ _ _ Hs2 Hz) as Hg. unfold gap, block_end in *. cbn in *. lia.
  - apply live_ok_size, (d_live _ _ _ _ _ Hd). apply eq_None_not_Some. intros [s Hs]. destruct (Hap p s Hs) as (H1 & _ & ?).
    unfold apart, block_end in H1. cbn in *. lia.
  - intros y a s Hy Ha. destruct (Hap a s Ha) as (A1 & A2 & Hs).
    apply elem_of_app in Hy as [Hy|[->|Hy]%elem_of_cons]; [apply (d_apart _ _ _ _ _ Hd); [set_solver|done]| |
      apply (d_apart _ _ _ _ _ Hd); [set_solver|done]].
    unfold apart, block_end in *. cbn in *. lia.
  - done.
Qed.

(** The end of [free] when it does not. *)
Lemma attach_link h l1 x l2 live N1 p :
  detached h l1 x l2 live -> base :: l1.*1 = N1 ++ [p] -> p + 16 * hsize h p <> x.1 ->
  heap_ok (set_ptr p x.1 h <| freep := p |>) (l1 ++ x :: l2) live.
Proof.
  intros Hd HN Eq. destruct (detached_node _ _ _ _ _ _ _ Hd HN) as (Hpx & HpN & Hp2 & Hcase). split.
  - cbn [hptr set_ptr]. rewrite fmap_app. cbn [fmap list_fmap fst].
    change (base :: (l1.*1 ++ x.1 :: l2.*1) ++ [base]) with (((base :: l1.*1) ++ x.1 :: l2.*1) ++ [base]).
    rewrite HN, <- !app_assoc. cbn [app]. apply chain_app. split.
    + apply chain_insert; [done|]. rewrite <- HN. apply (d_left _ _ _ _ _ Hd).
    + apply (chain_relink _ _ _ (x.1 :: l2.*1)); [|done|apply (d_right _ _ _ _ _ Hd)].
      intros [->|?]%elem_of_cons; [lia|done].
  - apply Hd.
  - cbn. rewrite fmap_app. assert (p ∈ base :: l1.*1) by (rewrite HN; set_solver). set_solver.
  - intros y Hy. by apply (d_blocks _ _ _ _ _ Hd).
  - apply StronglySorted_app. split_and!; [|apply Hd|apply Hd]. intros y z Hy Hz.
    pose proof (d_cross _ _ _ _ _ Hd y Hy) as Hcr. apply elem_of_cons in Hz as [->|Hz].
    2:{ pose proof (detached_after _ _ _ _ _ _ Hd Hz). unfold gap. lia. }
    destruct Hcase as [(-> & _)|(l & sp & -> & -> & Hsp)]; [set_solver|].
    destruct (detached_last _ _ _ _ _ _ _ Hd) as ((? & ? & ? & _) & ? & Hg1 & _).
    apply elem_of_app in Hy as [Hy|[->|Hy]%elem_of_cons]; [|unfold gap, block_end; cbn in *; lia|set_solver].
    specialize (Hg1 y Hy). unfold gap, block_end in *. cbn in *. lia.
  - apply Hd.
  - intros y a s Hy Ha. by apply (d_apart _ _ _ _ _ Hd).
  - apply Hd.
Qed.

(** [free] returns the block to the free list: no unit is lost, and the block
    it became part of is at least as large. *)
Lemma free_spec h l live b n fuel :
  heap_ok h l live -> live !! b = Some n -> (length l + 1 <= fuel)%nat ->
  exists h' l', free fuel (b + 16) h = Some h' /\ heap_ok h' l' (delete b live) /\ units l' = units l + n /\
    (exists y, y ∈ l' /\ n <= y.2) /\ (length l' <= length l + 1)%nat /\ brk h' = brk h.
Proof.
  intros Hok Hb Hf. pose proof (proj1 (ok_live _ _ _ Hok) b n Hb) as Hx.
  destruct (split_free h l live (b, n) Hok Hx) as (l1 & l2 & -> & H1 & H2).
  { intros y Hy. by apply (ok_apart _ _ _ Hok). }
  destruct (exists_last (l := base :: l1.*1)) as (N1 & p & HN); [done|].
  destruct Hx as (_ & Hlow & Hpos & _).
  pose proof (free_walk h l1 l2 live (b, n) fuel N1 p Hok Hlow Hpos H1 H2 HN Hf) as Hwalk. cbn [fst] in *.
  assert (Hq : hptr h p = hd base l2.*1).
  { apply (chain_next _ N1). pose proof (ok_chain _ _ _ Hok) as Hc.
    rewrite fmap_app, <- app_assoc, app_comm_cons, HN, <- app_assoc in Hc. exact Hc. }
  destruct (attach_right h l1 l2 live b n Hok Hb H1 H2) as (x & l2' & Ex & Hd & Hu & Hn & Hlen & Hbrk).
  unfold free. replace (b + 16 - 16) with b by lia. rewrite Hwalk. cbn [mbind option_bind]. rewrite Hq.
  match type of Hd with detached ?h1 _ _ _ _ => set (h1' := h1) in * end. clearbody h1'. rewrite <- Ex in Hd |- *.
  destruct (detached_node _ _ _ _ _ _ _ Hd HN) as (_ & _ & _ & Hcase).
  destruct (d_blocks _ _ _ _ _ Hd x) as (Hxs & _ & Hx1 & _); [set_solver|].
  destruct (Z.eqb_spec (p + 16 * hsize h1' p) x.1) as [Eq|Eq].
  - destruct Hcase as [(-> & -> & H0)|(l & sp & -> & -> & Hsp)]; [rewrite H0 in Eq; rewrite Ex in Eq; lia|].
    rewrite Hsp, Hxs in *. eexists _, _. split; [reflexivity|]. split; [by apply attach_join|].
    rewrite !units_app, !length_app in *. change (units ((p, sp + x.2) :: l2')) with (sp + x.2 + units l2').
    change (units [(p, sp)]) with (sp + 0). cbn [length] in *.
    split_and!; [lia|exists (p, sp + x.2); cbn; split; [set_solver|]|lia|done].
    destruct (detached_last _ _ _ _ _ _ _ Hd) as ((_ & _ & ? & _) & _). cbn in *. lia.
  - eexists _, _. split; [reflexivity|]. split; [by eapply attach_link|]. rewrite !units_app, !length_app in *.
    change (units (x :: l2')) with (x.2 + units l2'). cbn [length].
    split_and!; [lia|exists x; split; [set_solver|lia]|lia|done].
Qed.

(** * [malloc] *)

Lemma same_prefix {A} (a : A) X Y X' Y' : a ∉ X -> a ∉ X' -> X ++ a :: Y = X' ++ a :: Y' -> X = X' /\ Y = Y'.
Proof.
  revert X'. induction X as [|x X IH]; intros [|x' X'] H1 H2 E; cbn in *; simplify_eq; [done|set_solver..|].
  destruct (IH X') as [-> ->]; [set_solver|set_solver|done|done].
Qed.

Lemma nodes_nodup h l live : heap_ok h l live -> NoDup (base :: l.*1).
Proof.
  intros Hok. pose proof (sorted_nodes _ _ _ Hok) as Hs. induction Hs as [|a L Hs IH Ha]; constructor; [|done].
  intros Hin. rewrite Forall_forall in Ha. specialize (Ha a Hin). lia.
Qed.

(** The node before a free block is the one whose pointer leads to it. *)
Lemma pred_node h l1 p s l2 live prevp :
  heap_ok h (l1 ++ (p, s) :: l2) live -> prevp ∈ base :: (l1 ++ (p, s) :: l2).*1 -> hptr h prevp = p ->
  exists N1, base :: l1.*1 = N1 ++ [prevp].
Proof.
  intros Hok (A & B & E)%list_elem_of_split Hp. pose proof (nodes_nodup _ _ _ Hok) as Hnd.
  pose proof (ok_chain _ _ _ Hok) as Hc. rewrite app_comm_cons, E, <- app_assoc in Hc.
  pose proof (chain_next _ _ _ _ _ Hc) as Hnext. rewrite Hp in Hnext.
  destruct (ok_blocks _ _ _ Hok (p, s)) as (_ & Hpl & _); [set_solver|]. cbn in Hpl.
  destruct B as [|c B]; cbn in Hnext; [lia|]. subst c. exists A. rewrite fmap_app in *. cbn [fmap list_fmap fst] in *.
  rewrite app_comm_cons in E, Hnd. rewrite (app_assoc A [prevp] (p :: B) : A ++ prevp :: p :: B = _) in E.
  rewrite E in Hnd. pose proof Hnd as Hnd'. rewrite <- E in Hnd'.
  apply NoDup_app in Hnd as (_ & H1 & _). apply NoDup_app in Hnd' as (_ & H2 & _).
  eapply same_prefix in E; [by destruct E| |].
  - intros Hin. apply (H2 p Hin). by left.
  - intros Hin. apply (H1 p Hin). by left.
Qed.

(** Taking a whole block. *)
Lemma take_whole h l1 p s l2 live N1 prevp :
  heap_ok h (l1 ++ (p, s) :: l2) live -> base :: l1.*1 = N1 ++ [prevp] ->
  heap_ok (set_ptr prevp (hptr h p) h <| freep := prevp |>) (l1 ++ l2) (<[p := s]> live) /\ live !! p = None.
Proof.
  intros Hok HN. pose proof (nodes_nodup _ _ _ Hok) as Hnd. rewrite fmap_app, app_comm_cons, HN in Hnd.
  apply NoDup_app in Hnd as (Hnd1 & Hnd12 & _). apply NoDup_app in Hnd1 as (_ & HpN & _).
  pose proof (ok_chain _ _ _ Hok) as Hc. rewrite fmap_app, <- app_assoc, app_comm_cons, HN, <- app_assoc in Hc.
  cbn [fmap list_fmap fst app] in *. apply chain_app in Hc as [Hc1 [_ Hc2]].
  assert (Hnext : hptr h p = hd base l2.*1) by (apply (chain_next _ []); exact Hc2).
  destruct (ok_blocks _ _ _ Hok (p, s)) as (Hs & Hpl & Hp1 & Hpe); [set_solver|]. cbn [fst snd] in *.
  assert (Hgap : forall y, y ∈ l1 ++ l2 -> apart y (p, s)).
  { pose proof (ok_sorted _ _ _ Hok) as Hso. apply StronglySorted_app in Hso as (H1 & _ & H2).
    intros y [Hy|Hy]%elem_of_app.
    - specialize (H1 y (p, s) Hy ltac:(by left)). unfold gap in H1. left. by apply Z.lt_le_incl.
    - pose proof (sorted_after _ _ _ H2 Hy) as Hg. unfold gap in Hg. right. by apply Z.lt_le_incl. }
  assert (Hlive : forall a t, live !! a = Some t -> apart (p, s) (a, t) /\ 1 <= t).
  { intros a t Ha. split; [apply (ok_apart _ _ _ Hok); [set_solver|done]|]. by destruct (proj1 (ok_live _ _ _ Hok) a t Ha) as (_ & _ & ? & _). }
  assert (Hnone : live !! p = None).
  { apply eq_None_not_Some. intros [t Ht]. destruct (Hlive p t Ht) as [Ha ?]. unfold apart, block_end in Ha. cbn in *. lia. }
  split; [|done]. split.
  - cbn [hptr set_ptr]. rewrite fmap_app, <- app_assoc, app_comm_cons, HN, <- app_assoc. cbn [app]. apply chain_app. split.
    + apply chain_insert; [|done]. intros Hin. apply (HpN _ Hin). by left.
    + apply chain_relink; [|done|by destruct Hc2]. intros Hin. apply (Hnd12 prevp); [set_solver|set_solver].
  - apply Hok.
  - cbn. rewrite fmap_app, app_comm_cons, HN. set_solver.
  - intros y Hy. apply (ok_blocks _ _ _ Hok). set_solver.
  - pose proof (ok_sorted _ _ _ Hok) as Hso. apply StronglySorted_app in Hso as (H1 & H2 & H3).
    apply StronglySorted_inv in H3 as [H3 _]. apply StronglySorted_app. split_and!; [|done|done]. intros y z Hy Hz. apply H1; set_solver.
  - split.
    + intros a t [[<- <-]|[_ Ha]]%lookup_insert_Some; [done|by apply (ok_live _ _ _ Hok)].
    + intros a t b u [[<- <-]|[_ Ha]]%lookup_insert_Some [[<- <-]|[_ Hb]]%lookup_insert_Some Hne; [done|by apply Hlive| |by apply (ok_live _ _ _ Hok)].
      destruct (Hlive a t Ha) as [Hap _]. unfold apart in *. lia.
  - intros y a t Hy [[<- <-]|[_ Ha]]%lookup_insert_Some; [by apply Hgap|apply (ok_apart _ _ _ Hok); [set_solver|done]].
  - apply Hok.
Qed.

(** Taking the end of a larger block. *)
Lemma take_part h l1 p s l2 live n prevp :
  heap_ok h (l1 ++ (p, s) :: l2) live -> prevp ∈ base :: (l1 ++ (p, s) :: l2).*1 -> 1 <= n < s ->
  let p' := p + 16 * (s - n) in
  heap_ok (set_size p' n (set_size p (s - n) h) <| freep := prevp |>) (l1 ++ (p, s - n) :: l2) (<[p' := n]> live) /\
  live !! p' = None.
Proof.
  intros Hok Hprev Hn p'. destruct (ok_blocks _ _ _ Hok (p, s)) as (Hs & Hpl & Hp1 & Hpe); [set_solver|].
  unfold block_end in Hpe. cbn [fst snd] in *.
  assert (Hgap : forall y, y ∈ l1 ++ l2 -> apart y (p, s) /\ 1 <= y.2).
  { pose proof (ok_sorted _ _ _ Hok) as Hso. apply StronglySorted_app in Hso as (H1 & _ & H2). intros y Hy. split.
    - apply elem_of_app in Hy as [Hy|Hy].
      + left. apply Z.lt_le_incl, (H1 y (p, s) Hy). by left.
      + right. by apply Z.lt_le_incl, (sorted_after _ _ _ H2).
    - destruct (ok_blocks _ _ _ Hok y) as (_ & _ & ? & _); set_solver. }
  assert (Hlive : forall a t, live !! a = Some t -> apart (p, s) (a, t) /\ 1 <= t).
  { intros a t Ha. split; [apply (ok_apart _ _ _ Hok); [set_solver|done]|]. by destruct (proj1 (ok_live _ _ _ Hok) a t Ha) as (_ & _ & ? & _). }
  assert (Hnone : forall q, p <= q < p + 16 * s -> live !! q = None).
  { intros q Hq. apply eq_None_not_Some. intros [t Ht]. destruct (Hlive q t Ht) as [Ha ?]. unfold apart, block_end in Ha. cbn in *. lia. }
  assert (Hold : forall y, y ∈ l1 ++ l2 -> block_ok (set_size p' n (set_size p (s - n) h)) y).
  { intros y Hy. destruct (Hgap y Hy) as [Ha ?]. unfold apart, block_end in Ha. cbn in Ha.
    apply block_ok_size; [unfold p'; lia|]. apply block_ok_size; [lia|]. apply (ok_blocks _ _ _ Hok). set_solver. }
  assert (Hl' : live_ok (set_size p' n (set_size p (s - n) h)) live).
  { apply live_ok_size; [apply Hnone; unfold p'; lia|]. apply live_ok_size; [apply Hnone; lia|]. apply Hok. }
  split; [|apply Hnone; unfold p'; lia]. split.
  - cbn [hptr set_size]. pose proof (ok_chain _ _ _ Hok) as Hc. rewrite fmap_app in *. exact Hc.
  - cbn. unfold p'. rewrite !fn_lookup_insert_ne by lia. apply Hok.
  - cbn. rewrite fmap_app in *. exact Hprev.
  - intros y [Hy|[->|Hy]%elem_of_cons]%elem_of_app; [apply Hold; set_solver| |apply Hold; set_solver].
    unfold block_ok, block_end; cbn. unfold p'. rewrite fn_lookup_insert_ne, fn_lookup_insert by lia. lia.
  - pose proof (ok_sorted _ _ _ Hok) as Hso. apply StronglySorted_app in Hso as (H1 & H2 & H3). apply StronglySorted_app.
    split_and!; [|done|].
    + intros y z Hy [->|Hz]%elem_of_cons; [apply (H1 y (p, s) Hy); by left|apply H1; set_solver].
    + constructor; [by apply StronglySorted_inv in H3 as [? _]|]. apply Forall_forall. intros z Hz.
      pose proof (sorted_after _ _ _ H3 Hz) as Hg. unfold gap, block_end in *. cbn in *. lia.
  - split.
    + intros a t [[<- <-]|[_ Ha]]%lookup_insert_Some; [|by apply Hl'].
      unfold block_ok, block_end; cbn. rewrite fn_lookup_insert. unfold p'. lia.
    + intros a t b u [[<- <-]|[_ Ha]]%lookup_insert_Some [[<- <-]|[_ Hb]]%lookup_insert_Some Hne; [done| | |by apply Hl'].
      * destruct (Hlive b u Hb) as [Hap ?]. unfold apart, block_end, p' in *. cbn in *. lia.
      * destruct (Hlive a t Ha) as [Hap ?]. unfold apart, block_end, p' in *. cbn in *. lia.
  - intros y a t Hy Hat. apply lookup_insert_Some in Hat as [[<- <-]|[_ Ha]].
    + apply elem_of_app in Hy as [Hy|[->|Hy]%elem_of_cons].
      2:{ left. unfold block_end, p'. cbn. lia. }
      all: destruct (Hgap y ltac:(set_solver)) as [Hap ?]; unfold apart, block_end, p' in *; cbn in *; lia.
    + apply elem_of_app in Hy as [Hy|[->|Hy]%elem_of_cons]; [apply (ok_apart _ _ _ Hok); [set_solver|done]| |
        apply (ok_apart _ _ _ Hok); [set_solver|done]].
      destruct (Hlive a t Ha) as [Hap ?]. unfold apart, block_end in *. cbn in *. lia.
  - apply Hok.
Qed.

Lemma carve_spec h l live n prevp p :
  heap_ok h l live -> prevp ∈ base :: l.*1 -> p ∈ base :: l.*1 -> hptr h prevp = p -> 1 <= n <= hsize h p ->
  exists b h' l', carve n prevp p h = (b + 16, h') /\ heap_ok h' l' (<[b := n]> live) /\ live !! b = None /\
    units l' + n = units l /\ (length l' <= length l)%nat /\ brk h' = brk h.
Proof.
  intros Hok Hprev Hp Hnext Hn.
  assert (Hpl : p ∈ l.*1) by (apply elem_of_cons in Hp as [->|?]; [rewrite (ok_base _ _ _ Hok) in Hn; lia|done]).
  apply fst_elem in Hpl as (s & Hpl). apply list_elem_of_split in Hpl as (l1 & l2 & ->).
  destruct (ok_blocks _ _ _ Hok (p, s)) as (Hs & ? & ? & Hpe); [set_solver|]. unfold block_end in Hpe. cbn [fst snd] in *.
  pose proof (ok_brk _ _ _ Hok) as Hbrk. unfold carve. rewrite Hs in *.
  destruct (Z.eqb_spec s n) as [<-|Hne].
  - destruct (pred_node _ _ _ _ _ _ _ Hok Hprev Hnext) as [N1 HN].
    destruct (take_whole _ _ _ _ _ _ _ _ Hok HN) as [Hok' Hnone].
    eexists p, _, (l1 ++ l2). split_and!; [reflexivity|done|done| | |done].
    + rewrite !units_app. change (units ((p, s) :: l2)) with (s + units l2). lia.
    + rewrite !length_app. cbn. lia.
  - destruct (take_part _ _ _ _ _ _ n _ Hok Hprev ltac:(lia)) as [Hok' Hnone].
    rewrite u32_id, size_set_eq by (unfold u32_range; lia).
    eexists _, _, (l1 ++ (p, s - n) :: l2). split_and!; [reflexivity|exact Hok'|done| | |done].
    + rewrite !units_app. change (units ((p, s) :: l2)) with (s + units l2).
      change (units ((p, s - n) :: l2)) with (s - n + units l2). lia.
    + rewrite !length_app. cbn. lia.
Qed.

(** The search: it takes the first large enough block, or goes round once. *)
Lemma malloc_search h n r prevp fuel :
  chain (hptr h) (prevp :: r ++ [freep h]) -> freep h ∉ r -> (length r < fuel)%nat ->
  (exists prev p, prev ∈ prevp :: r /\ p ∈ r ++ [freep h] /\ hptr h prev = p /\ n <= hsize h p /\
     malloc_loop fuel n prevp (hptr h prevp) h = Some (carve n prev p h)) \/
  exists f, fuel = (length r + S f)%nat /\ (forall p, p ∈ r ++ [freep h] -> hsize h p < n) /\
    malloc_loop fuel n prevp (hptr h prevp) h =
      ('(q, h') ← morecore (S f) n h; if q =? 0 then Some (0, h') else malloc_loop f n q (hptr h' q) h').
Proof.
  revert prevp fuel. induction r as [|a r IH]; intros prevp [|fuel] Hc Hf Hl; try (cbn in Hl; lia).
  - destruct Hc as [Hp _]. cbn [app] in Hp. cbn [malloc_loop]. destruct (Z.leb_spec n (hsize h (hptr h prevp))).
    + left. exists prevp, (hptr h prevp). split_and!; [by left|rewrite Hp; set_solver|done|done|done].
    + right. exists fuel. rewrite Hp in *. rewrite Z.eqb_refl. split_and!; [done|set_solver|done].
  - destruct Hc as [Hp Hc]. cbn [app] in Hp. cbn [malloc_loop]. destruct (Z.leb_spec n (hsize h (hptr h prevp))).
    + left. exists prevp, (hptr h prevp). split_and!; [by left|rewrite Hp; set_solver|done|done|done].
    + rewrite Hp. destruct (Z.eqb_spec a (freep h)) as [->|Hne]; [set_solver|].
      destruct (IH a fuel Hc) as [(prev & p & H1 & H2 & H3 & H4 & H5)|(f & -> & Hall & E)]; [set_solver|cbn in Hl; lia| |].
      * left. exists prev, p. split_and!; [by right|cbn; by right|done|done|done].
      * right. exists f. split_and!; [done| |done]. rewrite Hp in *. intros p [->|Hp']%elem_of_cons; [done|by apply Hall].
Qed.

(** One round of the search on the free list. *)
Lemma search_round h l live n fuel :
  heap_ok h l live -> 1 <= n -> (length l < fuel)%nat ->
  (exists b h' l', malloc_loop fuel n (freep h) (hptr h (freep h)) h = Some (b + 16, h') /\
     heap_ok h' l' (<[b := n]> live) /\ live !! b = None /\ units l' + n = units l /\ (length l' <= length l)%nat /\ brk h' = brk h) \/
  ((forall y, y ∈ l -> y.2 < n) /\ exists f, fuel = (length l + S f)%nat /\
    malloc_loop fuel n (freep h) (hptr h (freep h)) h =
      ('(q, h') ← morecore (S f) n h; if q =? 0 then Some (0, h') else malloc_loop f n q (hptr h' q) h')).
Proof.
  intros Hok Hn Hf. destruct (ring_enter _ _ _ _ (ok_chain _ _ _ Hok) (ok_freep _ _ _ Hok)) as (r & Hperm & Hc).
  pose proof (nodes_nodup _ _ _ Hok) as Hnd. rewrite <- Hperm in Hnd. apply NoDup_cons in Hnd as [Hnot _].
  assert (Hlen : length r = length l).
  { apply Permutation_length in Hperm. cbn in Hperm. rewrite length_fmap in Hperm. lia. }
  assert (Hin : forall a, a ∈ r ++ [freep h] <-> a ∈ base :: l.*1).
  { intros a. rewrite <- Hperm. set_solver. }
  destruct (malloc_search h n r (freep h) fuel Hc Hnot ltac:(lia)) as [(prev & p & H1 & H2 & H3 & H4 & ->)|(f & -> & Hall & ->)].
  - left. rewrite Hperm in H1. apply Hin in H2.
    destruct (carve_spec h l live n prev p Hok H1 H2 H3 ltac:(lia)) as (b & h' & l' & -> & ?). by exists b, h', l'.
  - right. split; [|exists f; split; [lia|done]]. intros [a s] Hy. destruct (ok_blocks _ _ _ Hok _ Hy) as (Hs & _). cbn in *.
    rewrite <- Hs. apply Hall, Hin. right. apply list_elem_of_fmap. by exists (a, s).
Qed.

Hypothesis grants_bound : forall b m, grants b m = true -> b + m < 2 ^ 36.

Lemma morecore_spec h l live n fuel :
  heap_ok h l live -> 1 <= n -> (length l + 1 <= fuel)%nat ->
  morecore fuel n h = Some (0, h) \/
  exists h' l', morecore fuel n h = Some (freep h', h') /\ heap_ok h' l' live /\ (exists y, y ∈ l' /\ n <= y.2) /\
    16 * units l' - brk h' = 16 * units l - brk h /\ (length l' <= length l + 1)%nat.
Proof.
  intros Hok Hn Hf. unfold morecore, sbrk. set (nu := if n <? 4096 then 4096 else n).
  assert (Hnu : n <= nu /\ 1 <= nu) by (unfold nu; destruct (Z.ltb_spec n 4096); lia).
  destruct (grants (brk h) (nu * 16)) eqn:Eg; [|by left]. right. apply grants_bound in Eg.
  pose proof (ok_brk _ _ _ Hok) as Hbrk. destruct (Z.eqb_spec (brk h) (-1)); [lia|].
  set (h1 := set_size (brk h) nu (h <| brk ::= fun b => b + nu * 16 |>)).
  assert (Hold : forall y, block_ok h y -> block_ok h1 y /\ apart y (brk h, nu) /\ y.1 <> brk h).
  { intros y (H1 & H2 & H3 & H4). unfold block_end in H4. assert (y.1 <> brk h) by lia. split_and!; [|left; unfold block_end; cbn; lia|done].
    apply block_ok_size; [done|]. unfold block_ok, block_end; cbn. lia. }
  assert (Hnone : live !! brk h = None).
  { apply eq_None_not_Some. intros [s Hs]. by destruct (Hold _ (proj1 (ok_live _ _ _ Hok) _ _ Hs)) as (_ & _ & ?). }
  assert (Hok1 : heap_ok h1 l (<[brk h := nu]> live)).
  { split.
    - apply Hok.
    - cbn. rewrite fn_lookup_insert_ne by lia. apply Hok.
    - apply Hok.
    - intros y Hy. apply Hold, (ok_blocks _ _ _ Hok), Hy.
    - apply Hok.
    - split.
      + intros a s [[<- <-]|[_ Ha]]%lookup_insert_Some; [|by apply Hold, (ok_live _ _ _ Hok)].
        unfold block_ok, block_end; cbn. rewrite fn_lookup_insert. lia.
      + intros a s b t [[<- <-]|[_ Ha]]%lookup_insert_Some [[<- <-]|[_ Hb]]%lookup_insert_Some Hne; [done| | |by apply (ok_live _ _ _ Hok)].
        * destruct (Hold _ (proj1 (ok_live _ _ _ Hok) _ _ Hb)) as (_ & [?|?] & _); [by right|by left].
        * by destruct (Hold _ (proj1 (ok_live _ _ _ Hok) _ _ Ha)) as (_ & ? & _).
    - intros y a s Hy [[<- <-]|[_ Ha]]%lookup_insert_Some; [|by apply (ok_apart _ _ _ Hok)].
      by apply Hold, (ok_blocks _ _ _ Hok).
    - cbn. lia. }
  destruct (free_spec h1 l _ (brk h) nu fuel Hok1 ltac:(apply lookup_insert_eq) Hf) as (h' & l' & E & Hok' & Hu & (y & Hy & Hyn) & Hlen & Hb).
  rewrite E. cbn [mbind option_bind]. rewrite delete_insert_id in Hok' by done. exists h', l'.
  split_and!; [done|done|exists y; split; [done|lia]|rewrite Hb; cbn; lia|done].
Qed.

Lemma malloc_loop_spec h l live n fuel :
  heap_ok h l live -> 1 <= n -> (2 * length l + 4 <= fuel)%nat ->
  malloc_loop fuel n (freep h) (hptr h (freep h)) h = Some (0, h) \/
  exists b h' l', malloc_loop fuel n (freep h) (hptr h (freep h)) h = Some (b + 16, h') /\
    heap_ok h' l' (<[b := n]> live) /\ live !! b = None /\
    16 * (units l' + n) - brk h' = 16 * units l - brk h /\ (length l' <= length l + 1)%nat.
Proof.
  intros Hok Hn Hf. destruct (search_round h l live n fuel Hok Hn ltac:(lia)) as [(b & h' & l' & -> & ? & ? & ? & ? & ?)|(_ & f & -> & ->)].
  { right. exists b, h', l'. split_and!; [done..|lia|lia]. }
  destruct (morecore_spec h l live n (S f) Hok Hn ltac:(lia)) as [->|(h1 & l1 & -> & Hok1 & (y & Hy & Hyn) & Hu & Hlen)]; cbn [mbind option_bind].
  { by left. }
  right. assert (Hfreep : freep h1 <> 0).
  { pose proof (ok_freep _ _ _ Hok1) as Hin. pose proof (ok_brk _ _ _ Hok1).
    apply elem_of_cons in Hin as [->|(s & Hin)%fst_elem]; [lia|]. destruct (ok_blocks _ _ _ Hok1 _ Hin) as (_ & ? & _). cbn in *. lia. }
  rewrite (proj2 (Z.eqb_neq _ _) Hfreep).
  destruct (search_round h1 l1 live n f Hok1 Hn ltac:(lia)) as [(b & h' & l' & -> & ? & ? & ? & ? & ?)|(Hall & _)].
  - exists b, h', l'. split_and!; [done..|lia|lia].
  - specialize (Hall y Hy). lia.
Qed.

Lemma nunits_enough nbytes : 0 <= nbytes < 2 ^ 32 -> 1 <= nunits nbytes /\ nbytes <= 16 * (nunits nbytes - 1).
Proof.
  intros Hn. unfold nunits. rewrite u32_id by (unfold u32_range; Z.div_mod_to_equations; lia). Z.div_mod_to_equations; lia.
Qed.

(** The heap before and after the first [malloc]. *)
Definition state_ok (brk0 : Z) (h : heap) (l : list block) (live : gmap Z Z) : Prop :=
  (freep h = 0 /\ l = [] /\ live = ∅ /\ brk h = brk0 /\ 0 < base /\ base + 16 <= brk0 < 2 ^ 36) \/ heap_ok h l live.

Lemma malloc_spec brk0 h l live nbytes fuel :
  state_ok brk0 h l live -> 0 <= nbytes < 2 ^ 32 -> (2 * length l + 4 <= fuel)%nat ->
  exists r h', malloc fuel nbytes h = Some (r, h') /\
    ((r = 0 /\ state_ok brk0 h' l live /\ brk h' = brk h) \/
     exists b l', r = b + 16 /\ r <> 0 /\ heap_ok h' l' (<[b := nunits nbytes]> live) /\ live !! b = None /\
       16 * (units l' + nunits nbytes) - brk h' = 16 * units l - brk h /\ (length l' <= length l + 1)%nat).
Proof.
  intros Hst Hn Hf. destruct (nunits_enough nbytes Hn) as [Hn1 _]. unfold malloc.
  set (h1 := if freep h =? 0 then _ else h).
  assert (Hok : heap_ok h1 l live /\ brk h1 = brk h).
  { destruct Hst as [(Hz & -> & -> & <- & Hb & Hbb)|Hok].
    - unfold h1. rewrite Hz. cbn. split; [|done]. split; cbn; rewrite ?fn_lookup_insert; try done.
      all: first [by intros ? ?%elem_of_nil | by left | constructor | by split].
    - unfold h1. split; [|by destruct (freep h =? 0)]. destruct (Z.eqb_spec (freep h) 0) as [Hz|]; [|done].
      pose proof (ok_freep _ _ _ Hok) as Hin. pose proof (ok_brk _ _ _ Hok). rewrite Hz in Hin.
      apply elem_of_cons in Hin as [<-|(s & Hin)%fst_elem]; [lia|]. destruct (ok_blocks _ _ _ Hok _ Hin) as (_ & ? & _). cbn in *. lia. }
  destruct Hok as [Hok Eb].
  destruct (malloc_loop_spec h1 l live (nunits nbytes) fuel Hok Hn1 Hf) as [->|(b & h' & l' & -> & Hok' & Hnone & Hu & Hlen)].
  - exists 0, h1. split; [done|]. left. split_and!; [done|by right|done].
  - exists (b + 16), h'. split; [done|]. right. exists b, l'. rewrite Eb in Hu. split_and!; try done.
    destruct (proj1 (ok_live _ _ _ Hok') b (nunits nbytes)) as (_ & ? & _); [apply lookup_insert_eq|].
    pose proof (ok_brk _ _ _ Hok). cbn in *. lia.
Qed.

(** * Clients *)

(** A client calls [malloc], and [free] on what it was given and has not
    freed since; [live] maps the blocks it holds (by header) to the bytes it
    asked for. *)
Inductive call := Malloc (nbytes : Z) | Free (ap : Z).

Definition client_step (fuel : nat) (c : call) (st : heap * gmap Z Z) : option (heap * gmap Z Z) :=
  match c with
  | Malloc nbytes =>
      '(r, h) ← malloc fuel nbytes st.1;
      Some (h, if r =? 0 then st.2 else <[r - 16 := nbytes]> st.2)
  | Free ap =>
      match st.2 !! (ap - 16) with
      | Some _ => h ← free fuel ap st.1; Some (h, delete (ap - 16) st.2)
      | None => Some st
      end
  end.
Fixpoint client (fuel : nat) (cs : list call) (st : heap * gmap Z Z) : option (heap * gmap Z Z) :=
  match cs with
  | [] => Some st
  | c :: cs' => st' ← client_step fuel c st; client fuel cs' st'
  end.

Definition call_ok (c : call) : Prop :=
  match c with Malloc nbytes => 0 <= nbytes < 2 ^ 32 | Free _ => True end.

(** The units of the blocks a client holds. *)
Definition held_units (live : gmap Z Z) : Z := map_fold (fun _ n acc => n + acc) 0 live.

Lemma held_insert b n live : live !! b = None -> held_units (<[b := n]> live) = n + held_units live.
Proof. intros Hb. unfold held_units. rewrite (map_fold_insert_L (fun _ n acc => n + acc)); [done|lia|done]. Qed.
Lemma held_delete b n live : live !! b = Some n -> held_units live = n + held_units (delete b live).
Proof. intros Hb. rewrite <- (held_insert b n (delete b live)) by apply lookup_delete_eq. by rewrite insert_delete_id. Qed.

(** The client's view: everything [sbrk] gave is either free or held. *)
Definition client_ok (brk0 : Z) (l : list block) (st : heap * gmap Z Z) : Prop :=
  state_ok brk0 st.1 l (nunits <$> st.2) /\ 16 * (units l + held_units (nunits <$> st.2)) = brk st.1 - brk0 /\
  (forall b n, st.2 !! b = Some n -> 0 <= n < 2 ^ 32).

Lemma client_step_ok brk0 l st c fuel :
  client_ok brk0 l st -> call_ok c -> (2 * length l + 4 <= fuel)%nat ->
  exists st' l', client_step fuel c st = Some st' /\ client_ok brk0 l' st' /\ (length l' <= length l + 1)%nat.
Proof.
  destruct st as [h live]. intros (Hst & Hu & Hlive) Hc Hf. cbn [fst snd] in *. destruct c as [nbytes|ap]; cbn [client_step fst snd].
  - destruct (malloc_spec _ _ _ _ nbytes fuel Hst Hc Hf) as (r & h' & -> & [(-> & Hst' & Hb)|(b & l' & -> & Hr & Hok & Hnone & Hu' & Hlen)]);
      cbn [mbind option_bind].
    + exists (h', live), l. split_and!; [done|split_and!; cbn; [done|lia|done]|lia].
    + rewrite (proj2 (Z.eqb_neq _ _) Hr). replace (b + 16 - 16) with b by lia. exists (h', <[b := nbytes]> live), l'.
      split_and!; [done| |done]. split_and!; cbn [fst snd]; rewrite ?fmap_insert.
      * by right.
      * rewrite held_insert by done. lia.
      * intros a n [[<- <-]|[_ Ha]]%lookup_insert_Some; [done|by eapply Hlive].
  - destruct (live !! (ap - 16)) as [n|] eqn:En; [|exists (h, live), l; split_and!; [done|by split_and!|lia]].
    assert (En' : (nunits <$> live) !! (ap - 16) = Some (nunits n)) by by rewrite lookup_fmap, En.
    destruct Hst as [(_ & _ & E & _)|Hok]; [by rewrite E in En'|].
    destruct (free_spec h l _ (ap - 16) (nunits n) fuel Hok En' ltac:(lia)) as (h' & l' & E & Hok' & Hu' & _ & Hlen & Hb).
    replace (ap - 16 + 16) with ap in E by lia. rewrite E. cbn [mbind option_bind]. exists (h', delete (ap - 16) live), l'.
    split_and!; [done| |done]. split_and!; cbn [fst snd]; rewrite ?fmap_delete.
    + by right.
    + rewrite (held_delete _ _ _ En') in Hu. lia.
    + intros a m [_ Ha]%lookup_delete_Some. by eapply Hlive.
Qed.

Lemma client_run brk0 cs l st fuel :
  client_ok brk0 l st -> Forall call_ok cs -> (2 * (length l + length cs) + 4 <= fuel)%nat ->
  exists st' l', client fuel cs st = Some st' /\ client_ok brk0 l' st'.
Proof.
  revert l st. induction cs as [|c cs IH]; intros l st Hst Hcs Hf; [by exists st, l|].
  apply Forall_cons_1 in Hcs as [Hc Hcs]. cbn [length client] in *.
  destruct (client_step_ok _ _ _ _ fuel Hst Hc ltac:(lia)) as (st' & l' & -> & Hst' & Hlen). cbn [mbind option_bind].
  apply (IH l'); [done|done|lia].
Qed.

(** C8: the allocator under any sequence of calls.  [malloc] and [free]
    always return (the loops over the circular list end), every block a client
    holds lies between the static header and the break and has room for the
    bytes asked for, the bytes of different blocks never overlap each other or
    a header, and no memory is lost: the free list and the blocks held account
    for everything [sbrk] gave. *)
Theorem allocator_safe brk0 cs fuel :
  0 < base -> base + 16 <= brk0 < 2 ^ 36 -> Forall call_ok cs -> (2 * length cs + 4 <= fuel)%nat ->
  exists h live l, client fuel cs (mkHeap (fun _ => 0) (fun _ => 0) 0 brk0, ∅) = Some (h, live) /\
    (forall b n, live !! b = Some n -> base + 16 <= b /\ b + 16 + n <= brk h) /\
    (forall b n c m, live !! b = Some n -> live !! c = Some m -> b <> c -> b + 16 + n <= c \/ c + 16 + m <= b) /\
    (freep h = 0 \/ chain (hptr h) (base :: l.*1 ++ [base])) /\
    (forall x b n, x ∈ l -> live !! b = Some n -> block_end x <= b \/ b + 16 + n <= x.1) /\
    16 * (units l + held_units (nunits <$> live)) = brk h - brk0.
Proof.
  intros Hb Hb0 Hcs Hf.
  destruct (client_run brk0 cs [] (mkHeap (fun _ => 0) (fun _ => 0) 0 brk0, ∅) fuel) as ([h live] & l & E & Hst & Hu & Hn); [|done|done|].
  { split_and!; cbn [fst snd]; rewrite ?fmap_empty; [left; cbn; split_and!; (done || lia)|change (held_units ∅) with 0; cbn; lia|done]. }
  exists h, live, l. split; [done|]. cbn [fst snd] in *. destruct Hst as [(Hz & -> & El & Eb & _)|Hok].
  { apply fmap_empty_inv in El as ->. split_and!; [done|done|by left|done|done]. }
  assert (Hblk : forall b n, live !! b = Some n -> block_ok h (b, nunits n) /\ b + 16 + n <= block_end (b, nunits n)).
  { intros b n Hbn. split; [apply (ok_live _ _ _ Hok); by rewrite lookup_fmap, Hbn|].
    destruct (nunits_enough n (Hn _ _ Hbn)). unfold block_end. cbn. lia. }
  split_and!.
  - intros b n Hbn. destruct (Hblk b n Hbn) as ((_ & ? & _ & ?) & ?). cbn in *. lia.
  - intros b n c m Hbn Hcm Hne. destruct (Hblk _ _ Hbn) as [_ H1], (Hblk _ _ Hcm) as [_ H2].
    assert (Hap : apart (b, nunits n) (c, nunits m)) by (apply (ok_live _ _ _ Hok); [by rewrite lookup_fmap, Hbn|by rewrite lookup_fmap, Hcm|done]).
    unfold apart in Hap. cbn in Hap. lia.
  - right. apply Hok.
  - intros x b n Hx Hbn. destruct (Hblk _ _ Hbn) as [_ H1].
    assert (Hap : apart x (b, nunits n)) by (apply (ok_apart _ _ _ Hok); [done|by rewrite lookup_fmap, Hbn]).
    unfold apart in Hap. cbn in Hap. lia.
  - done.
Qed.
End Allocator.
