(* ===== verification/Posix.v ===== *)
(** The system calls as user programs see them.

    A program runs over a world [W] whose system calls are the operations of a
    class [Os]; it runs in the monad of Control.v, where [exit] ends the run with
    [NoReturn] and a loop that has used up its fuel is [Blocked], still running.
    [Files] is the contract of the calls on files that the programs rely on:
    reads may be short, descriptors are distinct, and a path that exists can be
    opened while a descriptor is free. *)

From S2P Require Import Prelude Control Memory KState Format Inode SysFile.

(** The calls that only have a result. *)
Inductive call :=
| Link (old new : list Z)
| Mkdir (path : list Z)
| Unlink (path : list Z)
| Kill (pid sig : Z)
| Mknod (path : list Z) (major minor : Z)
| Dup (fd : Z)
| Fork
| Exec (path : list Z) (argv : list (list Z))
| Wait
| Sleep (n : Z)
| Signal (signum handler : Z)
| Alarm (secs : Z).

Class Os (W : Type) := {
  os_read : Z -> Z -> W -> Z * list Z * W;
  os_write : Z -> list Z -> W -> Z * W;
  os_open : list Z -> Z -> W -> Z * W;
  os_close : Z -> W -> Z * W;
  os_fstat : Z -> W -> option stat * W;
  os_call : call -> W -> Z * W;
}.

Section Calls.
Context {W : Type} `{!Os W}.
Abbreviation U := (M W).

Definition read (fd n : Z) : U (Z * list Z) := fun w x => let '(r, l, w') := os_read fd n w in Ok (r, l) w' x.
Definition write (fd : Z) (l : list Z) : U Z := fun w x => let '(r, w') := os_write fd l w in Ok r w' x.
Definition open (path : list Z) (mode : Z) : U Z := fun w x => let '(r, w') := os_open path mode w in Ok r w' x.
Definition close (fd : Z) : U Z := fun w x => let '(r, w') := os_close fd w in Ok r w' x.
Definition fstat (fd : Z) : U (option stat) := fun w x => let '(r, w') := os_fstat fd w in Ok r w' x.
Definition syscall_ (c : call) : U Z := fun w x => let '(r, w') := os_call c w in Ok r w' x.
Definition exit {A} : U A := no_return.
Definition still_running {A} : U A := fun w _ => Blocked w.

(** printf.c: putc and printf, a [write] per character. *)
Definition putc (fd c : Z) : U unit := _ ← write fd [c]; mret tt.
Definition fprintf (fd : Z) (fmt : list Z) (args : list arg) : U unit := for_each (printf fmt args) (putc fd).

(** ulib.c: stat. *)
Definition stat_ (n : list Z) : U (option stat) :=
  fd ← open n O_RDONLY;
  if fd <? 0 then mret None else
  r ← fstat fd;
  _ ← close fd;
  mret r.
End Calls.

(** * The contract of the file calls *)

(** [input]: what is still to be read from a descriptor; [sink]: what has been
    written to it; [None] where it is not open for that. *)
Class Files (W : Type) `{!Os W} := {
  input : W -> Z -> option (list Z);
  sink : W -> Z -> option (list Z);
  file : W -> list Z -> option (list Z);
  full : W -> bool;
  same_but (fd : Z) (w w' : W) : Prop :=
    (forall fd', fd' <> fd -> input w' fd' = input w fd') /\ (forall p, file w' p = file w p) ;
  read_law fd n w : 0 < n -> forall r l w', os_read fd n w = (r, l, w') ->
    same_but fd w w' /\ (forall fd', sink w' fd' = sink w fd') /\ full w' = full w /\
    match input w fd with
    | None => r < 0
    | Some [] => r = 0 /\ input w' fd = Some []
    | Some rest => 0 < r <= n /\ Z.of_nat (length l) = r /\ exists rest', rest = l ++ rest' /\ input w' fd = Some rest'
    end;
  write_law fd l w r w' : os_write fd l w = (r, w') ->
    (forall fd', input w' fd' = input w fd') /\ (forall p, file w' p = file w p) /\ full w' = full w /\
    (forall fd', fd' <> fd -> sink w' fd' = sink w fd') /\
    match sink w fd with
    | None => r < 0 /\ sink w' fd = None
    | Some done => r = Z.of_nat (length l) /\ sink w' fd = Some (done ++ l)
    end;
  open_law p w r w' : os_open p O_RDONLY w = (r, w') ->
    match file w p with
    | None => r < 0 /\ (forall fd, input w' fd = input w fd /\ sink w' fd = sink w fd) /\ (forall p, file w' p = file w p) /\ full w' = full w
    | Some l => full w = false ->
        0 <= r /\ input w r = None /\ sink w r = None /\ input w' r = Some l /\ same_but r w w' /\ (forall fd, sink w' fd = sink w fd)
    end;
  close_law fd w r w' : os_close fd w = (r, w') -> input w fd <> None -> sink w fd = None ->
    same_but fd w w' /\ input w' fd = None /\ (forall fd', sink w' fd' = sink w fd') /\ full w' = false;
}.
