(* ===== verification/Programs.v ===== *)
(** The user programs: cat.c, wc.c, echo.c, ln.c, mkdir.c, rm.c, kill.c, init.c,
    ls.c and zombie.c.

    A module per program.  [argv] is the list of the arguments, the program's
    name first; a loop over [read] or [wait] takes fuel. *)

From S2P Require Import Prelude Control Memory KState Format Inode SysFile Grep Posix.

(** A message with its newline. *)
Definition line (t : string) : list Z := bytes_of t ++ [10].
Definition str (s : list Z) : arg := AStr (Some s).

Section Common.
Context {W : Type} `{!Os W}.

(** [for(i = 1; i < argc; i++)]: open, work on the descriptor, close; a file
    that cannot be opened ends the program. *)
Fixpoint each_file (cannot : list Z) (body : Z -> list Z -> M W unit) (args : list (list Z)) : M W unit :=
  match args with
  | [] => exit
  | a :: args' =>
      fd ← open a 0;
      if fd <? 0 then fprintf 1 cannot [str a] ;; exit else
      body fd a ;;
      _ ← close fd;
      each_file cannot body args'
  end.
End Common.

(** ulib.c: the string and memory routines. *)
Module Ulib.
(** [while( *p && *p == *q)] *)
Fixpoint strcmp (p q : list Z) : Z :=
  match p with
  | [] => 0 - u8 (hd0 q)
  | a :: p' => if negb (a =? 0) && (a =? hd0 q) then strcmp p' (tail q) else u8 a - u8 (hd0 q)
  end.
(** [for(n = 0; s[n]; n++)] *)
Fixpoint strlen (s : list Z) : Z :=
  match s with
  | [] => 0
  | a :: s' => if a =? 0 then 0 else 1 + strlen s'
  end.
(** [while(( *s++ = *t++) != 0)], [t] up to its NUL. *)
Fixpoint strcpy (m : memory) (s : Z) (t : list Z) : memory :=
  match t with
  | [] => mset m s 0
  | a :: t' => if a =? 0 then mset m s 0 else strcpy (mset m s a) (s + 1) t'
  end.
Definition memset (m : memory) (dst c n : Z) : memory := stosb m dst c (Z.to_nat n).
(** [while(n-- > 0) *dst++ = *src++] *)
Definition memmove (m : memory) (dst src n : Z) : memory := copy_up m dst src (Z.to_nat n).
End Ulib.

Module Cat.
Section Prog.
Context {W : Type} `{!Os W}.
Fixpoint cat_loop (fuel : nat) (fd : Z) : M W Z :=
  match fuel with
  | O => still_running
  | S f =>
      r ← read fd 512;
      let '(n, buf) := r in
      if 0 <? n then
        k ← write 1 buf;
        if k =? n then cat_loop f fd else fprintf 1 (line "cat: write error") [] ;; exit
      else mret n
  end.
Definition cat (fuel : nat) (fd : Z) : M W unit :=
  n ← cat_loop fuel fd;
  if n <? 0 then fprintf 1 (line "cat: read error") [] ;; exit else mret tt.
Definition main (fuel : nat) (argv : list (list Z)) : M W unit :=
  if bool_decide (length argv <= 1)%nat then cat fuel 0 ;; exit
  else each_file (line "cat: cannot open %s") (fun fd _ => cat fuel fd) (tail argv).
End Prog.
End Cat.

Module Wc.
(** [l], [w], [c] and [inword]. *)
Record counts := mkCounts { l : Z; w : Z; c : Z; inword : bool }.
Definition spaces : list Z := [32; 13; 9; 10; 11].
(** [strchr(" \r\t\n\v", ch)] *)
Definition is_space (ch : Z) : bool := match Grep.strchr spaces 0 ch with Some _ => true | None => false end.
Definition wc_step (x : counts) (ch : Z) : counts :=
  let l' := if ch =? 10 then i32 (l x + 1) else l x in
  if is_space ch then mkCounts l' (w x) (i32 (c x + 1)) false
  else if inword x then mkCounts l' (w x) (i32 (c x + 1)) true
  else mkCounts l' (i32 (w x + 1)) (i32 (c x + 1)) true.

Section Prog.
Context {W : Type} `{!Os W}.
Fixpoint wc_loop (fuel : nat) (fd : Z) (x : counts) : M W (Z * counts) :=
  match fuel with
  | O => still_running
  | S f =>
      r ← read fd 512;
      let '(n, buf) := r in
      if 0 <? n then wc_loop f fd (foldl wc_step x (take (Z.to_nat n) buf)) else mret (n, x)
  end.
Definition wc (fuel : nat) (fd : Z) (name : list Z) : M W unit :=
  r ← wc_loop fuel fd (mkCounts 0 0 0 false);
  let '(n, x) := r in
  if n <? 0 then fprintf 1 (line "wc: read error") [] ;; exit else
  fprintf 1 (line "%d %d %d %s") [AInt (l x); AInt (w x); AInt (c x); str name].
Definition main (fuel : nat) (argv : list (list Z)) : M W unit :=
  if bool_decide (length argv <= 1)%nat then wc fuel 0 [] ;; exit
  else each_file (line "wc: cannot open %s") (wc fuel) (tail argv).
End Prog.
End Wc.

Module GrepMain.
Section Prog.
Context {W : Type} `{!Os W}.
(** grep.c: the loop of [grep] over a descriptor, the lines a round selects
    written together.  The buffer starts each file as zeros: what an earlier
    file left in it lies beyond [m] and is never looked at. *)
Fixpoint grep_fd (fuel : nat) (pattern : list Z) (fd : Z) (buf : list Z) (m : nat) : M W unit :=
  match fuel with
  | O => still_running
  | S f =>
      r ← read fd (Z.of_nat (BUFSIZE - m - 1));
      let '(n, chunk) := r in
      if 0 <? n then
        let '(buf, m, out) := grep_round pattern chunk (buf, m, []) in
        _ ← write 1 out;
        grep_fd f pattern fd buf m
      else mret tt
  end.
Definition grep_file (fuel : nat) (pattern : list Z) (fd : Z) : M W unit := grep_fd fuel pattern fd (replicate BUFSIZE 0) 0.
Definition main (fuel : nat) (argv : list (list Z)) : M W unit :=
  match argv with
  | _ :: pattern :: args =>
      if bool_decide (args = []) then grep_file fuel pattern 0 ;; exit
      else each_file (line "grep: cannot open %s") (fun fd _ => grep_file fuel pattern fd) args
  | _ => fprintf 2 (line "usage: grep pattern [file ...]") [] ;; exit
  end.
End Prog.
End GrepMain.

Module Echo.
Section Prog.
Context {W : Type} `{!Os W}.
Fixpoint echo_loop (args : list (list Z)) : M W unit :=
  match args with
  | [] => mret tt
  | a :: args' =>
      fprintf 1 (bytes_of "%s%s") [str a; str (if bool_decide (args' = []) then [10] else [32])] ;;
      echo_loop args'
  end.
Definition main (argv : list (list Z)) : M W unit := echo_loop (tail argv) ;; exit.
End Prog.
End Echo.

(** ln.c, kill.c and zombie.c. *)
Module Small.
Section Prog.
Context {W : Type} `{!Os W}.
Definition ln (argv : list (list Z)) : M W unit :=
  match argv with
  | [_; old; new] =>
      r ← syscall_ (Link old new);
      when (r <? 0) (fprintf 2 (line "link %s %s: failed") [str old; str new]) ;;
      exit
  | _ => fprintf 2 (line "Usage: ln old new") [] ;; exit
  end.
Definition kill (argv : list (list Z)) : M W unit :=
  match argv with
  | _ :: pid :: sig :: _ => _ ← syscall_ (Kill (atoi pid) (atoi sig)); exit
  | _ => fprintf 2 (line "usage: kill pid signal") [] ;; exit
  end.
Definition zombie : M W unit :=
  pid ← syscall_ Fork;
  (if 0 <? pid then _ ← syscall_ (Sleep 5); mret tt else mret tt) ;;
  exit.

(** mkdir.c and rm.c: a call per argument, up to the first that fails. *)
Fixpoint each_call (f : list Z -> call) (failed : list Z) (args : list (list Z)) : M W unit :=
  match args with
  | [] => mret tt
  | a :: args' =>
      r ← syscall_ (f a);
      if r <? 0 then fprintf 2 failed [str a] else each_call f failed args'
  end.
Definition mkdir (argv : list (list Z)) : M W unit :=
  if bool_decide (length argv < 2)%nat then fprintf 2 (line "Usage: mkdir files...") [] ;; exit else
  each_call Mkdir (line "mkdir: %s failed to create") (tail argv) ;; exit.
Definition rm (argv : list (list Z)) : M W unit :=
  if bool_decide (length argv < 2)%nat then fprintf 2 (line "Usage: rm files...") [] ;; exit else
  each_call Unlink (line "rm: %s failed to delete") (tail argv) ;; exit.
End Prog.
End Small.

Module Init.
Section Prog.
Context {W : Type} `{!Os W}.
(** [while((wpid=wait()) >= 0 && wpid != pid)] *)
Fixpoint reap (fuel : nat) (pid : Z) : M W unit :=
  match fuel with
  | O => still_running
  | S f =>
      wpid ← syscall_ Wait;
      if (0 <=? wpid) && negb (wpid =? pid) then fprintf 1 (line "zombie!") [] ;; reap f pid else mret tt
  end.
Fixpoint init_loop (fuel : nat) : M W unit :=
  match fuel with
  | O => still_running
  | S f =>
      fprintf 1 (line "init: starting sh") [] ;;
      pid ← syscall_ Fork;
      if pid <? 0 then fprintf 1 (line "init: fork failed") [] ;; exit
      else if pid =? 0 then
        _ ← syscall_ (Exec (bytes_of "sh") [bytes_of "sh"]);
        fprintf 1 (line "init: exec sh failed") [] ;; exit
      else reap f pid ;; init_loop f
  end.
Definition main (fuel : nat) : M W unit :=
  fd ← open (bytes_of "console") O_RDWR;
  (if fd <? 0 then
     _ ← syscall_ (Mknod (bytes_of "console") 1 1);
     _ ← open (bytes_of "console") O_RDWR;
     mret tt
   else mret tt) ;;
  _ ← syscall_ (Dup 0);
  _ ← syscall_ (Dup 0);
  init_loop fuel.
End Prog.
End Init.

Module Ls.
(** [for(p=path+strlen(path); p >= path && *p != '/'; p--)]: scanning back from
    the end. *)
Fixpoint scan_back (path : list Z) (p : nat) : nat :=
  if getb path p =? 47 then S p
  else match p with O => O | S p' => scan_back path p' end.
Definition fmtname (path : list Z) : list Z :=
  let p := drop (scan_back path (length path)) path in
  if (DIRSIZ <=? length p)%nat then p else p ++ replicate (DIRSIZ - length p) 32.

Section Prog.
Context {W : Type} `{!Os W}.
Definition show (name : list Z) (st : stat) : M W unit :=
  fprintf 1 (line "%s %d %d %d") [str (fmtname name); AInt (st_type st); AInt (st_ino st); AInt (st_size st)].
(** [while(read(fd, &de, sizeof(de)) == sizeof(de))] *)
Fixpoint ls_entries (fuel : nat) (fd : Z) (path : list Z) : M W unit :=
  match fuel with
  | O => still_running
  | S f =>
      r ← read fd 16;
      let '(n, de) := r in
      if negb (n =? 16) then mret tt
      else if get16 de 0 =? 0 then ls_entries f fd path
      else
        let buf := path ++ [47] ++ until_nul (take DIRSIZ (drop 2 de)) in
        st ← stat_ buf;
        match st with
        | None => fprintf 1 (line "ls: cannot stat %s") [str buf] ;; ls_entries f fd path
        | Some st => show buf st ;; ls_entries f fd path
        end
  end.
Definition ls (fuel : nat) (path : list Z) : M W unit :=
  fd ← open path 0;
  if fd <? 0 then fprintf 2 (line "ls: cannot open %s") [str path] else
  st ← fstat fd;
  match st with
  | None => fprintf 2 (line "ls: cannot stat %s") [str path] ;; _ ← close fd; mret tt
  | Some st =>
      (if st_type st =? T_FILE then show path st
       else if st_type st =? T_DIR then
         if 512 <? Z.of_nat (length path) + 1 + Z.of_nat DIRSIZ + 1 then fprintf 1 (line "ls: path too long") []
         else ls_entries fuel fd path
       else mret tt) ;;
      _ ← close fd;
      mret tt
  end.
Definition main (fuel : nat) (argv : list (list Z)) : M W unit :=
  if bool_decide (length argv < 2)%nat then ls fuel (bytes_of ".") ;; exit
  else for_each (tail argv) (ls fuel) ;; exit.
End Prog.
End Ls.
