(* ===== verification/Utilities.v ===== *)
(** What cat, wc, echo and ls do, for every way the system splits the reads. *)

From Stdlib Require Import ZifyNat.
From S2P Require Import Prelude Control Memory KState Format Inode SysFile Grep Posix Programs.

(** A program that exits, and in which world. *)
Definition exits {W A} (w : W) (m : M W A) (Q : W -> Prop) : Prop := forall x, exists w', m w x = NoReturn w' /\ Q w'.

Lemma exits_bind {W A B} (w : W) (m : M W A) (f : A -> M W B) Q :
  runs w m (fun a w' => exits w' (f a) Q) -> exits w (m ≫= f) Q.
Proof.
  intros H x. destruct (H x) as (a & w1 & E & H1). destruct (H1 x) as (w2 & E2 & H2).
  exists w2. unfold mbind, M_bind. by rewrite E.
Qed.

Section Laws.
Context {W : Type} `{!Os W} `{!Files W}.

(** The files [F], the descriptors' input [I] and output [K], and what was
    written to descriptor 1. *)
Record at_ (F : list Z -> option (list Z)) (I K : Z -> option (list Z)) (o : list Z) (f : bool) (w : W) : Prop := {
  at_file p : file w p = F p;
  at_input fd : input w fd = I fd;
  at_sink fd : fd <> 1 -> sink w fd = K fd;
  at_out : sink w 1 = Some o;
  at_full : full w = f
}.
Definition upd (I : Z -> option (list Z)) (fd : Z) (v : option (list Z)) : Z -> option (list Z) :=
  fun x => if x =? fd then v else I x.
Lemma upd_same I fd v : upd I fd v fd = v.
Proof. unfold upd. by rewrite Z.eqb_refl. Qed.
Lemma upd_other I fd v x : x <> fd -> upd I fd v x = I x.
Proof. intros H. unfold upd. by rewrite (proj2 (Z.eqb_neq _ _) H). Qed.

Lemma runs_read F I K o f w fd n rest (Q : Z * list Z -> W -> Prop) :
  at_ F I K o f w -> I fd = Some rest -> 0 < n ->
  (forall r l rest' w', at_ F (upd I fd (Some rest')) K o f w' ->
     (rest = [] -> r = 0 /\ rest' = []) -> (rest <> [] -> 0 < r <= n /\ Z.of_nat (length l) = r /\ rest = l ++ rest') -> Q (r, l) w') ->
  runs w (read fd n) Q.
Proof.
  intros Hw HI Hn HQ x. unfold read. destruct (os_read fd n w) as [[r l] w'] eqn:E. exists (r, l), w'. split; [done|].
  destruct (read_law fd n w Hn r l w' E) as ([Hin Hf] & Hs & Hfull & H). rewrite (at_input _ _ _ _ _ _ Hw), HI in H.
  assert (Hat : forall rest', input w' fd = Some rest' -> at_ F (upd I fd (Some rest')) K o f w').
  { intros rest' E'. split.
    - intros p. rewrite Hf. apply Hw.
    - intros fd'. destruct (decide (fd' = fd)) as [->|Hne]; [by rewrite upd_same|]. rewrite upd_other, Hin by done. apply Hw.
    - intros fd' Hfd. rewrite Hs. by apply Hw.
    - rewrite Hs. apply Hw.
    - rewrite Hfull. apply Hw. }
  destruct rest as [|b rest].
  - destruct H as [-> E']. eapply HQ; [by apply Hat|done|done].
  - destruct H as ((H0 & H1) & H2 & rest' & H3 & H4). eapply HQ; [by apply Hat|done|done].
Qed.

Lemma at_write F I K o f w fd l r w' : os_write fd l w = (r, w') -> at_ F I K o f w ->
  (fd = 1 -> r = Z.of_nat (length l) /\ at_ F I K (o ++ l) f w') /\
  (forall t, fd <> 1 -> K fd = Some t -> at_ F I (upd K fd (Some (t ++ l))) o f w').
Proof.
  intros E Hw. destruct (write_law fd l w r w' E) as (Hin & Hf & Hfull & Hs & H). split.
  - intros ->. rewrite (at_out _ _ _ _ _ _ Hw) in H. destruct H as [-> H]. split; [done|]. split.
    + intros p. rewrite Hf. apply Hw.
    + intros x. rewrite Hin. apply Hw.
    + intros x Hx. rewrite Hs by done. by apply Hw.
    + done.
    + rewrite Hfull. apply Hw.
  - intros t Hne Ht. rewrite (at_sink _ _ _ _ _ _ Hw fd Hne), Ht in H. destruct H as [_ H]. split.
    + intros p. rewrite Hf. apply Hw.
    + intros x. rewrite Hin. apply Hw.
    + intros x Hx. destruct (decide (x = fd)) as [->|Hxf]; [by rewrite upd_same|]. rewrite upd_other, Hs by done. by apply Hw.
    + rewrite Hs by done. apply Hw.
    + rewrite Hfull. apply Hw.
Qed.

Lemma runs_write F I K o f w l (Q : Z -> W -> Prop) : at_ F I K o f w ->
  (forall w', at_ F I K (o ++ l) f w' -> Q (Z.of_nat (length l)) w') -> runs w (write 1 l) Q.
Proof.
  intros Hw HQ x. unfold write. destruct (os_write 1 l w) as [r w'] eqn:E. destruct (at_write F I K o f w 1 l r w' E Hw) as [H _].
  destruct (H eq_refl) as [-> H']. eauto.
Qed.

Lemma runs_fprintf F I K o f w fmt args (Q : unit -> W -> Prop) : at_ F I K o f w ->
  (forall w', at_ F I K (o ++ printf fmt args) f w' -> Q tt w') -> runs w (fprintf 1 fmt args) Q.
Proof.
  intros Hw HQ. unfold fprintf. apply (runs_for_each (fun l w' => at_ F I K (o ++ l) f w')); [by rewrite app_nil_r| |done].
  intros l ch rest w1 _ H1. apply runs_bind. eapply runs_write; [exact H1|]. intros w2 H2. apply runs_ret. by rewrite app_assoc.
Qed.

(** * A program over its files *)

(** What a program over files prints: [g] of each file up to the first that
    does not exist. *)
Fixpoint over_files (F : list Z -> option (list Z)) (cannot : list Z) (g : list Z -> list Z -> list Z) (args : list (list Z)) : list Z :=
  match args with
  | [] => []
  | a :: args' =>
      match F a with
      | None => printf cannot [str a]
      | Some content => g a content ++ over_files F cannot g args'
      end
  end.

(** The same, where what a file makes the program print depends on how the
    system splits its reads. *)
Inductive prints_over (F : list Z -> option (list Z)) (cannot : list Z) (R : list Z -> list Z -> list Z -> Prop) : list (list Z) -> list Z -> Prop :=
| Prints_none : prints_over F cannot R [] []
| Prints_missing a args : F a = None -> prints_over F cannot R (a :: args) (printf cannot [str a])
| Prints_file a args content t t' : F a = Some content -> R a content t -> prints_over F cannot R args t' -> prints_over F cannot R (a :: args) (t ++ t').

Lemma prints_over_files F cannot g args t : prints_over F cannot (fun a content t => t = g a content) args t -> t = over_files F cannot g args.
Proof. induction 1 as [|a args E|a args content t t' E -> _ IH]; cbn; [done|by rewrite E|by rewrite E, IH]. Qed.

(** A body that reads its descriptor to the end and prints a [t] as [R] says. *)
Definition reads_to_end (room : nat) (body : Z -> list Z -> M W unit) (P : list Z -> Prop) (R : list Z -> list Z -> list Z -> Prop) : Prop :=
  forall F I K o f w fd a content (Q : unit -> W -> Prop), at_ F I K o f w -> I fd = Some content -> (length content < room)%nat -> P content ->
    (forall w' t, at_ F (upd I fd (Some [])) K (o ++ t) f w' -> R a content t -> Q tt w') -> runs w (body fd a) Q.
Definition reads_all (room : nat) (body : Z -> list Z -> M W unit) (g : list Z -> list Z -> list Z) : Prop :=
  forall F I K o f w fd a content (Q : unit -> W -> Prop), at_ F I K o f w -> I fd = Some content -> (length content < room)%nat ->
    (forall w', at_ F (upd I fd (Some [])) K (o ++ g a content) f w' -> Q tt w') -> runs w (body fd a) Q.

Lemma reads_all_to_end room body g : reads_all room body g -> reads_to_end room body (fun _ => True) (fun a content t => t = g a content).
Proof. intros H F I K o f w fd a content Q Hw HI Hlen _ HQ. eapply H; [exact Hw|exact HI|done|]. intros w' H'. by eapply HQ. Qed.

Lemma exits_each_file_to_end room body P R cannot F I K args : reads_to_end room body P R ->
  (forall a content, F a = Some content -> (length content < room)%nat /\ P content) ->
  forall w o (Q : W -> Prop), at_ F I K o false w ->
  (forall w' I' f t, at_ F I' K (o ++ t) f w' -> prints_over F cannot R args t -> Q w') -> exits w (each_file cannot body args) Q.
Proof.
  intros Hbody Hroom. induction args as [|a args IH]; intros w o Q Hw HQ; cbn [each_file] in *.
  { intros x. exists w. split; [done|]. eapply (HQ _ _ _ []); [by rewrite app_nil_r|constructor]. }
  apply exits_bind. intros x. unfold open. destruct (os_open a 0 w) as [r w1] eqn:E. exists r, w1. split; [done|]. clear x.
  pose proof (open_law a w r w1 E) as H. rewrite (at_file _ _ _ _ _ _ Hw) in H. destruct (F a) as [content|] eqn:EF.
  - destruct (H (at_full _ _ _ _ _ _ Hw)) as (Hr & HIr & HKr & HI1 & [Hin Hf] & Hs). clear H.
    assert (Hne : r <> 1) by (intros ->; rewrite (at_out _ _ _ _ _ _ Hw) in HKr; done).
    rewrite (proj2 (Z.ltb_ge _ _) Hr). apply exits_bind.
    assert (H1 : at_ F (upd I r (Some content)) K o (full w1) w1).
    { split; [..|done].
      - intros p. rewrite Hf. apply Hw.
      - intros fd. destruct (decide (fd = r)) as [->|Hfd]; [by rewrite upd_same|]. rewrite upd_other, Hin by done. apply Hw.
      - intros fd Hfd. rewrite Hs. by apply Hw.
      - rewrite Hs. apply Hw. }
    destruct (Hroom a content EF) as [Hlen HP].
    eapply Hbody; [exact H1|by rewrite upd_same|exact Hlen|exact HP|]. intros w2 t H2 Ht. apply exits_bind. intros x. unfold close.
    destruct (os_close r w2) as [r' w3] eqn:E3. exists r', w3. split; [done|]. clear x.
    destruct (close_law r w2 r' w3 E3) as ([Hin3 Hf3] & HI3 & Hs3 & Hfull3).
    { rewrite (at_input _ _ _ _ _ _ H2), upd_same. done. }
    { rewrite (at_sink _ _ _ _ _ _ H2 r Hne), <- (at_sink _ _ _ _ _ _ Hw r Hne). done. }
    eapply IH; [|intros w' I' f t' H' Ht'; eapply HQ; [by rewrite app_assoc|by eapply Prints_file]]. split; [..|done].
    + intros p. rewrite Hf3. apply H2.
    + intros fd. destruct (decide (fd = r)) as [->|Hfd]; [by rewrite HI3, <- HIr, (at_input _ _ _ _ _ _ Hw)|].
      rewrite Hin3, (at_input _ _ _ _ _ _ H2), !upd_other by done. done.
    + intros fd Hfd. rewrite Hs3. by apply H2.
    + rewrite Hs3. apply H2.
  - destruct H as (Hr & Hsame & Hf & Hfull). rewrite (proj2 (Z.ltb_lt _ _) Hr). apply exits_bind.
    eapply runs_fprintf.
    { split; [intros p; rewrite Hf; apply Hw|intros fd; rewrite (proj1 (Hsame fd)); apply Hw|
        intros fd Hfd; rewrite (proj2 (Hsame fd)); by apply Hw|rewrite (proj2 (Hsame 1)); apply Hw|done]. }
    intros w2 H2 x. exists w2. split; [done|]. eapply HQ; [exact H2|by constructor].
Qed.

Lemma exits_each_file room body g cannot F I K args : reads_all room body g ->
  (forall a content, F a = Some content -> (length content < room)%nat) ->
  forall w o (Q : W -> Prop), at_ F I K o false w ->
  (forall w' I' f, at_ F I' K (o ++ over_files F cannot g args) f w' -> Q w') -> exits w (each_file cannot body args) Q.
Proof.
  intros Hbody Hroom w o Q Hw HQ. eapply exits_each_file_to_end; [by apply reads_all_to_end|by eauto|exact Hw|].
  intros w' I' f t H' Ht. apply prints_over_files in Ht as ->. by eapply HQ.
Qed.

(** The whole command: standard input without arguments, else the files. *)
Definition command_out (F : list Z -> option (list Z)) (stdin cannot : list Z) (g : list Z -> list Z -> list Z) (args : list (list Z)) : list Z :=
  match args with [] => g [] stdin | _ => over_files F cannot g args end.

Lemma exits_command room body g cannot prog args stdin o w :
  reads_all room body g -> full w = false -> sink w 1 = Some o -> input w 0 = Some stdin -> (length stdin < room)%nat ->
  (forall a content, file w a = Some content -> (length content < room)%nat) ->
  exists w', (if bool_decide (length (prog :: args : list (list Z)) <= 1)%nat then body 0 [] ;; exit
              else each_file cannot body (tail (prog :: args))) w [] = NoReturn w' /\
    sink w' 1 = Some (o ++ command_out (file w) stdin cannot g args).
Proof.
  intros Hbody Hfull Ho Hin Hlen Hroom.
  assert (Hw : at_ (file w) (input w) (sink w) o false w) by (split; done).
  destruct args as [|a args].
  - rewrite bool_decide_true by (cbn; lia). cut (exits w (body 0 [] ;; (exit : M W unit)) (fun w' => sink w' 1 = Some (o ++ g [] stdin))).
    { intros H. exact (H []). }
    apply exits_bind. eapply Hbody; [exact Hw|done|done|]. intros w' H' x. exists w'. split; [done|apply H'].
  - rewrite bool_decide_false by (cbn; lia).
    exact (exits_each_file room body g cannot _ _ _ (a :: args) Hbody Hroom w o (fun w' => sink w' 1 = Some _) Hw (fun w' _ _ H => at_out _ _ _ _ _ _ H) []).
Qed.

(** * cat *)

Lemma runs_cat_loop F K f fuel : forall I o w fd rest (Q : Z -> W -> Prop), at_ F I K o f w -> I fd = Some rest -> (length rest < fuel)%nat ->
  (forall w', at_ F (upd I fd (Some [])) K (o ++ rest) f w' -> Q 0 w') -> runs w (Cat.cat_loop fuel fd) Q.
Proof.
  induction fuel as [|fuel IH]; intros I o w fd rest Q Hw HI Hlen HQ; [lia|]. cbn [Cat.cat_loop]. apply runs_bind.
  eapply runs_read; [exact Hw|exact HI|lia|]. intros r l rest' w1 H1 Hnil Hcons. destruct rest as [|b rest].
  - destruct (Hnil eq_refl) as [-> ->]. cbn [Z.ltb Z.compare]. apply runs_ret, HQ. by rewrite app_nil_r.
  - destruct Hcons as ([Hr _] & Hl & Hsplit); [done|]. rewrite (proj2 (Z.ltb_lt _ _) Hr). apply runs_bind. eapply runs_write; [exact H1|].
    intros w2 H2. rewrite Hl, Z.eqb_refl. rewrite Hsplit in *. rewrite length_app in Hlen.
    eapply IH; [exact H2|apply upd_same|lia|]. intros w3 H3. apply HQ. rewrite app_assoc.
    destruct H3 as [H31 H32 H33 H34 H35]. split; try done. intros x. rewrite H32. unfold upd. by destruct (x =? fd).
Qed.

Lemma cat_reads_all fuel : reads_all fuel (fun fd _ => Cat.cat fuel fd) (fun _ content => content).
Proof.
  intros F I K o f w fd a content Q Hw HI Hlen HQ. unfold Cat.cat. apply runs_bind.
  eapply runs_cat_loop; [exact Hw|exact HI|done|]. intros w' H'. by apply runs_ret, HQ.
Qed.

(** [cat] copies: whatever sizes the reads return, it writes the contents of
    its files (of standard input without arguments) one after the other, stops
    with a message at the first that cannot be opened, and exits; a round per
    byte is more fuel than it needs. *)
Theorem cat_copies fuel prog args stdin o w :
  full w = false -> sink w 1 = Some o -> input w 0 = Some stdin -> (length stdin < fuel)%nat ->
  (forall a content, file w a = Some content -> (length content < fuel)%nat) ->
  exists w', Cat.main fuel (prog :: args) w [] = NoReturn w' /\
    sink w' 1 = Some (o ++ command_out (file w) stdin (line "cat: cannot open %s") (fun _ content => content) args).
Proof. intros. by eapply (exits_command fuel (fun fd _ => Cat.cat fuel fd)); [apply cat_reads_all|..]. Qed.
End Laws.

(** * wc *)

Definition sep (ch : Z) : Prop := ch ∈ [32; 13; 9; 10; 11].
(** A word starts at every character that is no separator and follows one. *)
Definition starts_word (x : Z * Z) : Prop := sep x.1 /\ ~ sep x.2.
#[local] Instance sep_dec ch : Decision (sep ch).
Proof. unfold sep. apply _. Defined.
#[local] Instance starts_word_dec x : Decision (starts_word x).
Proof. unfold starts_word. apply _. Defined.
Definition lines (t : list Z) : Z := Z.of_nat (length (filter (fun ch => ch = 10) t)).
Definition words_after (prev : Z) (t : list Z) : Z := Z.of_nat (length (filter starts_word (zip (prev :: t) t))).
Definition words (t : list Z) : Z := words_after 32 t.
(** The line [wc] prints for a text. *)
Definition wc_line (name t : list Z) : list Z :=
  printf (line "%d %d %d %s") [AInt (lines t); AInt (words t); AInt (Z.of_nat (length t)); str name].

Lemma i32_add_l a b : i32 (i32 a + b) = i32 (a + b).
Proof.
  unfold i32. replace ((a + 2 ^ 31) mod 2 ^ 32 - 2 ^ 31 + b + 2 ^ 31) with ((a + 2 ^ 31) mod 2 ^ 32 + b) by lia.
  rewrite Zplus_mod_idemp_l. f_equal. f_equal. lia.
Qed.
Lemma i32_i32 a : i32 (i32 a) = i32 a.
Proof. apply i32_id, i32_bounds. Qed.

Lemma is_space_sep ch : Wc.is_space ch = bool_decide (sep ch).
Proof.
  unfold Wc.is_space, Grep.strchr, Wc.spaces, sep. cbn [drop strchr_in].
  repeat match goal with |- context [Z.eqb (Zpos ?a) 0] => change (Z.eqb (Zpos a) 0) with false end.
  repeat (match goal with |- context [Z.eqb ?a ch] => destruct (Z.eqb_spec a ch) as [<-|?]; [reflexivity|] end).
  rewrite bool_decide_false; [done|]. set_solver.
Qed.

Lemma wc_fold t : forall a b n prev,
  foldl Wc.wc_step (Wc.mkCounts (i32 a) (i32 b) (i32 n) (negb (bool_decide (sep prev)))) t =
  Wc.mkCounts (i32 (a + lines t)) (i32 (b + words_after prev t)) (i32 (n + Z.of_nat (length t)))
    (negb (bool_decide (sep (default prev (last t))))).
Proof.
  induction t as [|ch t IH]; intros a b n prev.
  { change (lines []) with 0. change (words_after prev []) with 0. change (Z.of_nat (length [])) with 0. by rewrite !Z.add_0_r. }
  cbn [foldl]. set (dl := if decide (ch = 10) then 1 else 0). set (dw := if decide (starts_word (prev, ch)) then 1 else 0).
  assert (E : Wc.wc_step (Wc.mkCounts (i32 a) (i32 b) (i32 n) (negb (bool_decide (sep prev)))) ch =
    Wc.mkCounts (i32 (a + dl)) (i32 (b + dw)) (i32 (n + 1)) (negb (bool_decide (sep ch)))).
  { unfold Wc.wc_step. cbn [Wc.l Wc.w Wc.c Wc.inword]. rewrite is_space_sep, !i32_add_l.
    assert (El : (if ch =? 10 then i32 (a + 1) else i32 a) = i32 (a + dl)).
    { unfold dl. destruct (decide (ch = 10)) as [->|Hne]; [done|]. rewrite (proj2 (Z.eqb_neq _ _) Hne). f_equal. lia. }
    rewrite El. unfold dw. destruct (decide (starts_word (prev, ch))) as [[H1 H2]|Hn]; cbn [fst snd] in *.
    - by rewrite (bool_decide_false (sep ch)), (bool_decide_true (sep prev)).
    - rewrite Z.add_0_r. case_bool_decide as Hch; [done|]. case_bool_decide as Hprev; [|done]. destruct Hn. by split. }
  rewrite E, IH. f_equal.
  - unfold lines, dl. rewrite filter_cons. destruct (decide (ch = 10)); cbn [length]; f_equal; lia.
  - unfold words_after, dw. cbn [zip zip_with]. rewrite filter_cons. destruct (decide (starts_word (prev, ch))); cbn [length]; f_equal; lia.
  - cbn [length]. f_equal. lia.
  - destruct t as [|ch' t]; [done|]. change (last (ch :: ch' :: t)) with (last (ch' :: t)). by destruct (last_is_Some (ch' :: t)) as [_ [? ->]].
Qed.

Section Count.
Context {W : Type} `{!Os W} `{!Files W}.

Lemma runs_wc_loop F K f o fuel : forall I w fd rest x (Q : Z * Wc.counts -> W -> Prop), at_ F I K o f w -> I fd = Some rest -> (length rest < fuel)%nat ->
  (forall w', at_ F (upd I fd (Some [])) K o f w' -> Q (0, foldl Wc.wc_step x rest) w') -> runs w (Wc.wc_loop fuel fd x) Q.
Proof.
  induction fuel as [|fuel IH]; intros I w fd rest x Q Hw HI Hlen HQ; [lia|]. cbn [Wc.wc_loop]. apply runs_bind.
  eapply runs_read; [exact Hw|exact HI|lia|]. intros r l rest' w1 H1 Hnil Hcons. destruct rest as [|b rest].
  - destruct (Hnil eq_refl) as [-> ->]. cbn [Z.ltb Z.compare]. by apply runs_ret, HQ.
  - destruct Hcons as ([Hr _] & Hl & Hsplit); [done|]. rewrite (proj2 (Z.ltb_lt _ _) Hr). rewrite Hsplit in *. rewrite length_app in Hlen.
    eapply IH; [exact H1|apply upd_same|lia|]. intros w3 H3. rewrite take_ge, <- foldl_app by lia. apply HQ.
    destruct H3 as [H31 H32 H33 H34 H35]. split; try done. intros y. rewrite H32. unfold upd. by destruct (y =? fd).
Qed.

Lemma wc_line_i32 name t : printf (line "%d %d %d %s")
  [AInt (i32 (0 + lines t)); AInt (i32 (0 + words_after 32 t)); AInt (i32 (0 + Z.of_nat (length t))); str name] = wc_line name t.
Proof.
  unfold wc_line, words. rewrite !Z.add_0_l.
  assert (E : forall a b n, printf (line "%d %d %d %s") [AInt a; AInt b; AInt n; str name] =
    print_d (i32 a) ++ 32 :: print_d (i32 b) ++ 32 :: print_d (i32 n) ++ 32 :: cstr name ++ [10]) by reflexivity.
  rewrite !E. by rewrite !i32_i32.
Qed.

Lemma wc_reads_all fuel : reads_all fuel (Wc.wc fuel) wc_line.
Proof.
  intros F I K o f w fd a content Q Hw HI Hlen HQ. unfold Wc.wc. apply runs_bind.
  eapply runs_wc_loop; [exact Hw|exact HI|done|]. intros w' H'. cbn [Z.ltb Z.compare].
  change (Wc.mkCounts 0 0 0 false) with (Wc.mkCounts (i32 0) (i32 0) (i32 0) (negb (bool_decide (sep 32)))). rewrite wc_fold.
  cbn [Wc.l Wc.w Wc.c]. eapply runs_fprintf; [exact H'|]. intros w2 H2. apply HQ. by rewrite wc_line_i32 in H2.
Qed.

(** C33: [wc] counts: whatever sizes the reads return, it prints for each file
    (standard input without arguments) the number of newlines, of words, that is
    of characters that are no separator and follow one or start the text, and of
    characters, as 32-bit numbers; it stops with a message at the first file that
    cannot be opened. *)
Theorem wc_counts fuel prog args stdin o w :
  full w = false -> sink w 1 = Some o -> input w 0 = Some stdin -> (length stdin < fuel)%nat ->
  (forall a content, file w a = Some content -> (length content < fuel)%nat) ->
  exists w', Wc.main fuel (prog :: args) w [] = NoReturn w' /\
    sink w' 1 = Some (o ++ command_out (file w) stdin (line "wc: cannot open %s") wc_line args).
Proof. intros. by eapply (exits_command fuel (Wc.wc fuel)); [apply wc_reads_all|..]. Qed.
End Count.

(** * grep *)

Lemma kept_short data : (length data < BUFSIZE)%nat -> (length (kept data) < BUFSIZE - 1)%nat.
Proof.
  intros H. unfold kept. destruct ((lines_of data).1) as [|x l] eqn:E; [cbn; unfold BUFSIZE; lia|].
  pose proof (rest_shorter data ltac:(by rewrite E)). lia.
Qed.

Section GrepFiles.
Context {W : Type} `{!Os W} `{!Files W}.

Lemma runs_grep_fd pattern F K f fuel : forall I o (w : W) fd rest r junk (Q : unit -> W -> Prop), at_ F I K o f w -> I fd = Some rest ->
  text_ok r -> text_ok rest -> length (r ++ junk) = BUFSIZE -> (length r < BUFSIZE - 1)%nat -> (length rest < fuel)%nat ->
  (forall w' chunks, at_ F (upd I fd (Some [])) K (o ++ grep_spec pattern r chunks) f w' -> mjoin chunks = rest -> readable r chunks -> Q tt w') ->
  runs w (GrepMain.grep_fd fuel pattern fd (r ++ junk) (length r)) Q.
Proof.
  induction fuel as [|fuel IH]; intros I o w fd rest r junk Q Hw HI Hr Ht Hb Hroom Hlen HQ; [lia|]. cbn [GrepMain.grep_fd]. apply runs_bind.
  eapply runs_read; [exact Hw|exact HI|lia|]. intros n chunk rest' w1 H1 Hnil Hcons. destruct (decide (rest = [])) as [->|Hne].
  - destruct (Hnil eq_refl) as [-> ->]. cbn [Z.ltb Z.compare]. apply runs_ret, (HQ w1 []); [by rewrite app_nil_r|done|done].
  - destruct (Hcons Hne) as ([Hn0 Hn1] & Hl & Hsplit). rewrite (proj2 (Z.ltb_lt _ _) Hn0). clear Hnil Hcons.
    assert (Hc : chunk <> []) by (intros ->; cbn in Hl; lia). rewrite Hsplit in Ht. apply Forall_app in Ht as [Ht Ht'].
    assert (Hfit : (length r + length chunk < BUFSIZE)%nat) by lia. assert (Hall : text_ok (r ++ chunk)) by by apply Forall_app.
    destruct (grep_round_spec pattern chunk r junk [] Hall Hc Hb Hfit) as (junk' & -> & Hb'). cbn [app].
    apply runs_bind. eapply runs_write; [exact H1|]. intros w2 H2.
    rewrite Hsplit, length_app in Hlen. assert (0 < length chunk)%nat by (destruct chunk; [done|cbn; lia]).
    eapply IH; [exact H2|apply upd_same|by apply text_ok_rest|done|done|apply kept_short; by rewrite length_app|lia|].
    intros w3 chunks H3 Hj Hread. apply (HQ w3 (chunk :: chunks)); [|rewrite Hsplit, <- Hj; reflexivity|done].
    cbn [grep_spec]. rewrite app_assoc. destruct H3 as [H31 H32 H33 H34 H35]. split; try done. intros x. rewrite H32. unfold upd. by destruct (x =? fd).
Qed.

(** What grep prints of a file: the selected lines, its reads having split it
    into [chunks]. *)
Definition grepped (pattern content t : list Z) : Prop :=
  exists chunks, mjoin chunks = content /\ readable [] chunks /\ t = grep_spec pattern [] chunks.

Lemma grep_reads_to_end fuel pattern :
  reads_to_end (W := W) fuel (fun fd _ => GrepMain.grep_file fuel pattern fd) text_ok (fun _ content t => grepped pattern content t).
Proof.
  intros F I K o f w fd a content Q Hw HI Hlen Ht HQ. unfold GrepMain.grep_file.
  apply (runs_grep_fd pattern F K f fuel I o w fd content [] (replicate BUFSIZE 0)); try done; [constructor|cbn; unfold BUFSIZE; lia|].
  intros w' chunks H' Hj Hread. eapply HQ; [exact H'|]. by exists chunks.
Qed.

(** grep over its file arguments, text files shorter than the fuel: the
    selected lines of each, in order, up to the first that cannot be opened. *)
Theorem grep_searches fuel prog pattern args o w :
  full w = false -> sink w 1 = Some o -> args <> [] ->
  (forall a content, file w a = Some content -> (length content < fuel)%nat /\ text_ok content) ->
  exists w' t, GrepMain.main fuel (prog :: pattern :: args) w [] = NoReturn w' /\ sink w' 1 = Some (o ++ t) /\
    prints_over (file w) (line "grep: cannot open %s") (fun _ content t => grepped pattern content t) args t.
Proof.
  intros Hfull Ho Hargs Hfiles. cbn [GrepMain.main]. rewrite bool_decide_eq_false_2 by done.
  assert (Hw : at_ (file w) (input w) (sink w) o false w) by (split; done).
  destruct (exits_each_file_to_end fuel _ text_ok _ (line "grep: cannot open %s") _ _ _ args (grep_reads_to_end fuel pattern) Hfiles w o
    (fun w' => exists t, sink w' 1 = Some (o ++ t) /\ prints_over (file w) (line "grep: cannot open %s") (fun _ content t => grepped pattern content t) args t) Hw)
    with (x := [] : list (W -> W)) as (w' & E & t & H1 & H2).
  { intros w' I' f t H' Ht. exists t. split; [apply H'|done]. }
  by exists w', t.
Qed.
End GrepFiles.

(** * echo *)

Section Echo.
Context {W : Type} `{!Os W} `{!Files W}.

(** The words separated by blanks. *)
Fixpoint joined (args : list (list Z)) : list Z :=
  match args with
  | [] => []
  | a :: args' => cstr a ++ (if bool_decide (args' = []) then [10] else [32]) ++ joined args'
  end.

Lemma echo_prints prog args o (w : W) : sink w 1 = Some o ->
  exists w', Echo.main (prog :: args) w [] = NoReturn w' /\ sink w' 1 = Some (o ++ joined args).
Proof.
  intros Ho. cut (exits w (Echo.main (prog :: args)) (fun w' => sink w' 1 = Some (o ++ joined args))); [intros H; exact (H [])|].
  unfold Echo.main. apply exits_bind. cbn [tail].
  assert (Hw : at_ (file w) (input w) (sink w) o (full w) w) by (split; done). clear Ho.
  generalize (file w) (input w) (sink w) (full w) Hw. clear Hw. revert w o. induction args as [|a args IH]; intros w o F I K f Hw; cbn [Echo.echo_loop joined].
  - apply runs_ret. intros x. exists w. split; [done|]. rewrite app_nil_r. apply Hw.
  - apply runs_bind. eapply runs_fprintf; [exact Hw|]. intros w1 H1. eapply IH in H1. eapply runs_mono; [exact H1|].
    intros [] w2 H2 x. destruct (H2 x) as (w3 & E & H3). exists w3. split; [done|]. rewrite H3, <- app_assoc. do 2 f_equal.
    change (printf (bytes_of "%s%s") [str a; str (if bool_decide (args = []) then [10] else [32])])
      with (cstr a ++ cstr (if bool_decide (args = []) then [10] else [32]) ++ []).
    rewrite app_nil_r, <- app_assoc. do 2 f_equal. by case_bool_decide.
Qed.
End Echo.

(** * ls: the names *)

Lemma scan_back_spec path p : let q := Ls.scan_back path p in
  (q <= Datatypes.S p)%nat /\ (forall i, (q <= i <= p)%nat -> path !! i <> Some 47) /\ (q = 0%nat \/ path !! (q - 1)%nat = Some 47).
Proof.
  assert (Hget : forall i, getb path i = 47 <-> path !! i = Some 47).
  { intros i. unfold getb. destruct (path !! i) as [b|] eqn:E; cbn; split; intros H; congruence. }
  induction p as [|p IH]; cbn [Ls.scan_back];
    match goal with |- context [getb path ?i =? 47] => destruct (Z.eqb_spec (getb path i) 47) as [E|E] end.
  - apply Hget in E. split_and!; [lia|lia|by right].
  - split_and!; [lia| |by left]. intros i Hi. replace i with 0%nat by lia. by rewrite <- Hget.
  - apply Hget in E. split_and!; [lia|lia|right]. by replace (Datatypes.S (Datatypes.S p) - 1)%nat with (Datatypes.S p) by lia.
  - destruct IH as (H1 & H2 & H3). split_and!; [lia| |done]. intros i Hi. destruct (decide (i = Datatypes.S p)) as [->|Hne]; [by rewrite <- Hget|].
    apply H2. lia.
Qed.

(** [fmtname] is the last element of the path, padded with blanks to 14. *)
Lemma fmtname_base path : exists dir base, path = dir ++ base /\ 47 ∉ base /\ (dir = [] \/ last dir = Some 47) /\
  Ls.fmtname path = base ++ replicate (DIRSIZ - length base) 32.
Proof.
  destruct (scan_back_spec path (length path)) as (H1 & H2 & H3). unfold Ls.fmtname. set (q := Ls.scan_back path (length path)) in *.
  exists (take q path), (drop q path). split; [by rewrite take_drop|]. split; [|split].
  - intros Hin. apply list_elem_of_lookup in Hin as [i Hi]. rewrite lookup_drop in Hi. pose proof (lookup_lt_Some _ _ _ Hi).
    apply (H2 (q + i)%nat); [lia|done].
  - clearbody q. destruct H3 as [->|H3]; [by left|]. pose proof (lookup_lt_Some _ _ _ H3). destruct q as [|q]; [by left|right].
    rewrite last_lookup, length_take, Nat.min_l by lia. cbn [Nat.pred]. rewrite lookup_take_lt by lia. by replace (Datatypes.S q - 1)%nat with q in H3 by lia.
  - destruct (Nat.leb_spec DIRSIZ (length (drop q path))); [|done]. replace (DIRSIZ - _)%nat with 0%nat by lia. by rewrite app_nil_r.
Qed.

(** * ulib.c *)

(** [strcmp] is 0 exactly on equal strings. *)
Lemma strcmp_zero p q : Forall (fun c => 0 < c < 256) p -> Forall (fun c => 0 < c < 256) q -> Ulib.strcmp p q = 0 <-> p = q.
Proof.
  revert q. induction p as [|a p IH]; intros q Hp Hq.
  - destruct q as [|b q]; cbn [Ulib.strcmp hd0]; [done|]. apply Forall_cons in Hq as [Hb _]. cbn. unfold u8. rewrite Z.mod_small by lia.
    split; [lia|discriminate].
  - apply Forall_cons in Hp as [Ha Hp]. cbn [Ulib.strcmp]. rewrite (proj2 (Z.eqb_neq a 0)) by lia. cbn [negb andb].
    destruct q as [|b q].
    + cbn [hd0 head default]. rewrite (proj2 (Z.eqb_neq a 0)) by lia. unfold u8. rewrite !Z.mod_small by lia. cbn. split; [lia|discriminate].
    + apply Forall_cons in Hq as [Hb Hq]. change (hd0 (b :: q)) with b. change (tail (b :: q)) with q. destruct (Z.eqb_spec a b) as [->|Hne].
      * cbv iota. rewrite IH by done. split; [by intros ->|by intros [= ->]].
      * cbv iota. unfold u8. rewrite !Z.mod_small by lia. split; [lia|intros [= ? _]; done].
Qed.

(** [memmove] copies forwards only: right unless the destination starts inside
    the source. *)
Lemma ulib_memmove_forward m dst src n x : 0 <= n -> (dst <= src \/ src + n <= dst) ->
  Ulib.memmove m dst src n x = blit m dst src n x.
Proof. intros Hn Hov. unfold Ulib.memmove. rewrite copy_up_blit; rewrite Z2Nat.id by lia; done. Qed.
Lemma ulib_memmove_overlap :
  exists m, read_bytes (Ulib.memmove m 1 0 3) 1 3 <> read_bytes m 0 3 /\ read_bytes (Memory.memmove m 1 0 3) 1 3 = read_bytes m 0 3.
Proof. exists (fun a => a). split; [vm_compute; discriminate|vm_compute; reflexivity]. Qed.
