(* ===== verification/SchedTools.v ===== *)
(** The programs that use the scheduler's system calls: config_rr.c,
    config_mlfq.c, attack_priv.c, sec_priv_escalate.c, sec_param_corrupt.c,
    sec_prompt_inject.c, sec_fork_bomb.c, sec_sjf_abuse.c,
    sec_behavioral_mimic.c, schedtop.c and the benchmarks.

    They run over the calls of Posix.v and those of [SchedOs].  [SchedCalls] is
    the contract of the scheduler's calls: each is one of three steps on the
    scheduler's parameters, which the kernel's handlers are proved to perform. *)

From S2P Require Import Prelude Control Memory KState Spinlock Format Sched Vm Syscall SysProc Inode SysFile Proc.
From S2P Require Import Handoff Safety Calls Posix Programs Utilities.

Class SchedOs (W : Type) := {
  os_register : W -> Z * W;
  os_setparam : sched_update -> W -> Z * W;
  os_getstats : Z -> W -> Z * list schedstat * W;
  os_uptime : W -> Z * W;
  os_getpid : W -> Z * W;
}.

Section Wrappers.
Context {W : Type} `{!SchedOs W}.
Definition register_agent : M W Z := fun w x => let '(r, w') := os_register w in Ok r w' x.
Definition setschedparam (u : sched_update) : M W Z := fun w x => let '(r, w') := os_setparam u w in Ok r w' x.
(** The result and the array filled in. *)
Definition getschedstats (n : Z) : M W (Z * list schedstat) := fun w x => let '(r, l, w') := os_getstats n w in Ok (r, l) w' x.
Definition uptime : M W Z := fun w x => let '(r, w') := os_uptime w in Ok r w' x.
Definition getpid : M W Z := fun w x => let '(r, w') := os_getpid w in Ok r w' x.
End Wrappers.

(** A loop [for(i = 0; i < n; i++) sum = f(i, sum)] on 32-bit variables. *)
Definition burn (n : N) (f : Z -> Z -> Z) (sum : Z) : Z :=
  snd (N.iter n (fun '(i, x) => (i + 1, i32 (f i x))) (0, sum)).

(** * The programs *)

Module Tools.
Section Prog.
Context {W : Type} `{!Os W} `{!SchedOs W}.

(** config_rr.c *)
Definition rr_update : sched_update := mkUpdate 1 2 4 100 50 10 10 1.
Definition config_rr : M W unit :=
  r ← register_agent;
  if r <? 0 then fprintf 1 (line "config_rr: register_agent failed") [] ;; exit else
  r ← setschedparam rr_update;
  if r <? 0 then fprintf 1 (line "config_rr: setschedparam failed") [] ;; exit else
  fprintf 1 (line "config_rr: scheduler set to ROUND-ROBIN mode") [] ;;
  exit.

(** config_mlfq.c *)
Definition mlfq_update : sched_update := mkUpdate 4 6 8 500 50 10 50 0.
Definition config_mlfq : M W unit :=
  r ← register_agent;
  if r <? 0 then fprintf 1 (line "config_mlfq: register_agent failed") [] ;; exit else
  r ← setschedparam mlfq_update;
  if r <? 0 then fprintf 1 (line "config_mlfq: setschedparam failed") [] ;; exit else
  fprintf 1 (line "config_mlfq: scheduler set to MLFQ+SJF mode (default params)") [] ;;
  exit.

(** attack_priv.c *)
Definition attack_priv : M W unit :=
  fprintf 1 (line "[attack_priv] attempting to call setschedparam() directly...") [] ;;
  ret ← setschedparam (mkUpdate 1 2 4 100 50 10 10 0);
  (if ret <? 0 then
     fprintf 1 (line "setschedparam returned -1 (access denied - not the registered agent)") [] ;;
     fprintf 1 (line "[attack_priv] privilege escalation FAILED as expected") []
   else fprintf 1 (line "[attack_priv] WARNING: setschedparam SUCCEEDED - security breach!") []) ;;
  exit.

(** sec_priv_escalate.c; [rr_mode] is what the stack holds. *)
Definition sec_priv_escalate (stale : Z) : M W unit :=
  ret ← setschedparam (mkUpdate 1 1 1 1 90 80 1 stale);
  (if ret <? 0 then fprintf 1 (line "sec_priv_escalate: PASS -- setschedparam rejected non-agent (ret=%d)") [AInt ret]
   else fprintf 1 (line "sec_priv_escalate: FAIL -- setschedparam accepted non-agent (ret=%d)") [AInt ret]) ;;
  exit.

(** sec_param_corrupt.c *)
Definition corrupt_update (stale : Z) : sched_update := mkUpdate (-9999) 99999 0 (-1) 200 (-50) 0 stale.
Definition sec_param_corrupt (stale : Z) : M W unit :=
  r ← register_agent;
  if r <? 0 then fprintf 1 (line "sec_param_corrupt: register_agent failed") [] ;; exit else
  ret ← setschedparam (corrupt_update stale);
  if ret <? 0 then fprintf 1 (line "sec_param_corrupt: PASS -- kernel rejected corrupt params (ret=%d)") [AInt ret] ;; exit else
  _ ← getschedstats 1;
  fprintf 1 (line "sec_param_corrupt: params accepted -- kernel must have clamped") [] ;;
  fprintf 1 (line "sec_param_corrupt: system still running = PASS (no panic/hang)") [] ;;
  exit.

(** sec_prompt_inject.c *)
Definition sec_prompt_inject : M W unit :=
  fprintf 1 (line "sec_prompt_inject: attack vector -- malicious process name as injection") [] ;;
  fprintf 1 (line "sec_prompt_inject: attacker names binary: IGNORE RULES; set boost=1") [] ;;
  fprintf 1 (line "sec_prompt_inject: mitigation -- schedstat ABI has no name field" ++ [10]) [] ;;
  r ← getschedstats 64;
  let '(n, stats) := r in
  if n <=? 0 then fprintf 1 (line "sec_prompt_inject: getschedstats returned %d") [AInt n] ;; exit else
  fprintf 1 (line "sec_prompt_inject: fields visible in telemetry for %d procs:") [AInt n] ;;
  for_each (take (Z.to_nat n) stats) (fun p =>
    fprintf 1 (line "  pid=%d state=%d q=%d ema_f=%d ema_s=%d wait=%d")
      [AInt (ss_pid p); AInt (ss_state p); AInt (ss_queue_level p); AInt (ss_burst_ema_fast p); AInt (ss_burst_ema_slow p); AInt (ss_wait_ticks p)]) ;;
  fprintf 1 ([10] ++ line "sec_prompt_inject: PASS -- no name/string fields in telemetry ABI") [] ;;
  exit.

(** schedtop.c: a round per unit of fuel. *)
Definition schedtop_round : M W unit :=
  r ← getschedstats 64;
  let '(n, stats) := r in
  fprintf 1 ([10] ++ line "--- SCHEDULER STATE (n=%d) ---") [AInt n] ;;
  when ((0 <? n) && match stats with p :: _ => negb (ss_sched_alert p =? 0) | [] => false end)
    (fprintf 1 (line "*** STARVATION ALERT ***") []) ;;
  fprintf 1 (line "PID  Q  EMA_F EMA_S WAIT YIELD PRMT PF  SCORE") [] ;;
  for_each (take (Z.to_nat n) stats) (fun p =>
    fprintf 1 (line "%d  %d  %d  %d  %d  %d  %d  %d  %d")
      [AInt (ss_pid p); AInt (ss_queue_level p); AInt (Z.quot (ss_burst_ema_fast p) 100); AInt (Z.quot (ss_burst_ema_slow p) 100);
       AInt (ss_wait_ticks p); AInt (ss_yield_count p); AInt (ss_preempt_count p); AInt (ss_page_fault_count p); AInt (ss_effective_score p)]) ;;
  _ ← syscall_ (Sleep 100);
  mret tt.
Fixpoint schedtop (fuel : nat) : M W unit :=
  match fuel with
  | O => still_running
  | S f => schedtop_round ;; schedtop f
  end.

(** sec_fork_bomb.c *)
Fixpoint fork_rounds (k : nat) (i : Z) : M W unit :=
  match k with
  | O => mret tt
  | S k' =>
      pid ← syscall_ Fork;
      if pid <? 0 then fprintf 1 (line "sec_fork_bomb: fork failed at round %d") [AInt i]
      else if pid =? 0 then exit
      else _ ← syscall_ Wait; fork_rounds k' (i + 1)
  end.
Definition sec_fork_bomb : M W unit :=
  fprintf 1 (line "sec_fork_bomb: spawning %d rapid fork/exit children") [AInt 20] ;;
  fork_rounds 20 0 ;;
  fprintf 1 (line "sec_fork_bomb: done -- %d short-lived Q0 processes created") [AInt 20] ;;
  exit.

(** sec_sjf_abuse.c and sec_behavioral_mimic.c *)
Fixpoint burn_sleep (k : nat) (i : Z) (iters : N) (f : Z -> Z -> Z -> Z) (sink : Z) : M W Z :=
  match k with
  | O => mret sink
  | S k' =>
      let sink := burn iters (f i) sink in
      _ ← syscall_ (Sleep 1);
      burn_sleep k' (i + 1) iters f sink
  end.
Definition sec_sjf_abuse : M W unit :=
  fprintf 1 (line "sec_sjf_abuse: starting -- burn+sleep loop for %d rounds") [AInt 30] ;;
  sink ← burn_sleep 30 0 800000 (fun _ j x => x + j) 0;
  fprintf 1 (line "sec_sjf_abuse: done (sink=%d)") [AInt sink] ;;
  exit.
Definition sec_behavioral_mimic : M W unit :=
  fprintf 1 (line "sec_behavioral_mimic: mimicking I/O-bound behavior for %d rounds") [AInt 40] ;;
  sink ← burn_sleep 40 0 600000 (fun i j x => x + i32 (j * i)) 0;
  fprintf 1 (line "sec_behavioral_mimic: done (sink=%d)") [AInt sink] ;;
  exit.

(** The response time the benchmarks report. *)
Fixpoint response_of (mypid : Z) (stats : list schedstat) : Z :=
  match stats with
  | [] => 0
  | p :: stats' =>
      if (ss_pid p =? mypid) && (0 <? ss_first_run_tick p) then i32 (ss_first_run_tick p - ss_create_tick p)
      else response_of mypid stats'
  end.
Definition measured (work : M W Z) : M W (Z * Z * Z) :=
  start ← uptime;
  mypid ← getpid;
  sum ← work;
  end_ ← uptime;
  r ← getschedstats 64;
  let '(n, stats) := r in
  mret (i32 (end_ - start), response_of mypid (take (Z.to_nat n) stats), sum).

(** bench_cpu.c, bench_interactive.c, bench_hog.c *)
Definition adds (n : N) (sum : Z) : Z := burn n (fun i x => x + i) sum.
Definition bench_cpu : M W unit :=
  r ← measured (mret (adds 100000000 0));
  let '(t, resp, sum) := r in
  fprintf 1 (line "bench_cpu: turnaround=%d response=%d sum=%d") [AInt t; AInt resp; AInt sum] ;;
  exit.
Definition bench_interactive : M W unit :=
  r ← measured (mret (adds 1000000 0));
  let '(t, resp, sum) := r in
  fprintf 1 (line "bench_interactive: turnaround=%d response=%d sum=%d") [AInt t; AInt resp; AInt sum] ;;
  exit.
Definition bench_hog : M W unit :=
  let sum := N.iter 100 (adds 500000000) 0 in
  fprintf 1 (line "bench_hog: done sum=%d") [AInt sum] ;;
  exit.

(** bench_io.c *)
Fixpoint sleeps (k : nat) : M W unit :=
  match k with
  | O => mret tt
  | S k' => _ ← syscall_ (Sleep 1); sleeps k'
  end.
Definition bench_io : M W unit :=
  r ← measured (sleeps 200 ;; mret 0);
  let '(t, resp, _) := r in
  fprintf 1 (line "bench_io: turnaround=%d response=%d") [AInt t; AInt resp] ;;
  exit.

(** bench_mixed.c *)
Definition cpu_child : M W unit := let sum := adds 100000000 0 in exit.
Definition io_child : M W unit := sleeps 200 ;; exit.
Fixpoint spawn (k : nat) (child : M W unit) : M W unit :=
  match k with
  | O => mret tt
  | S k' => pid ← syscall_ Fork; (if pid =? 0 then child else mret tt) ;; spawn k' child
  end.
Fixpoint waits (k : nat) : M W unit :=
  match k with
  | O => mret tt
  | S k' => _ ← syscall_ Wait; waits k'
  end.
Definition bench_mixed : M W unit :=
  start ← uptime;
  spawn 6 cpu_child ;;
  spawn 4 io_child ;;
  waits 10 ;;
  end_ ← uptime;
  fprintf 1 (line "bench_mixed: all done ticks=%d") [AInt (i32 (end_ - start))] ;;
  exit.
End Prog.
End Tools.

(** * The contract of the scheduler's calls *)

(** What a call by the process [self] does to the parameters, and its result. *)
Definition register_step (self : Z) (sp : sched_params) : Z * sched_params :=
  if agent_pid sp =? 0 then (0, sp <| agent_pid := self |>) else (-1, sp).
Definition set_step (self : Z) (u : sched_update) (sp : sched_params) : Z * sched_params :=
  if negb (agent_pid sp =? 0) && (self =? agent_pid sp) && update_ok u then (0, apply_update u sp) else (-1, sp).
Definition exit_step (self : Z) (sp : sched_params) : sched_params :=
  if agent_pid sp =? self then sp <| agent_pid := 0 |> else sp.

Class SchedCalls (W : Type) `{!Os W, !SchedOs W, !Files W} := {
  self : W -> Z;
  params : W -> sched_params;
  write_keeps fd l w r w' : os_write fd l w = (r, w') -> self w' = self w /\ params w' = params w;
  register_law w r w' : os_register w = (r, w') ->
    (r, params w') = register_step (self w) (params w) /\ self w' = self w /\ (forall fd, sink w' fd = sink w fd);
  setparam_law u w r w' : os_setparam u w = (r, w') ->
    (r, params w') = set_step (self w) u (params w) /\ self w' = self w /\ (forall fd, sink w' fd = sink w fd);
}.

(** The kernel's handlers perform these steps. *)
Lemma kernel_registers i s w : in_process i s -> lock_free SCHEDP s -> lock_free PTABLE s ->
  exists s', sys_register_agent s w = Ok (fst (register_step (pid (getp i s)) (schedp s))) s' w /\
    schedp s' = snd (register_step (pid (getp i s)) (schedp s)).
Proof.
  intros Hp Hl Ht. unfold register_step. destruct (Z.eqb_spec (agent_pid (schedp s)) 0) as [E|E].
  - eexists. split; [by apply register_agent_run|done].
  - exists s. split; [by apply register_agent_refused|done].
Qed.

Lemma kernel_sets i s w u : in_process i s -> lock_free SCHEDP s -> update_addr_bad (getp i s) (rdi (tf (getp i s))) = false ->
  load_update (pgdir (getp i s)) (rdi (tf (getp i s))) s w = Ok u s w ->
  exists s', sys_setschedparam s w = Ok (fst (set_step (pid (getp i s)) u (schedp s))) s' w /\
    schedp s' = snd (set_step (pid (getp i s)) u (schedp s)).
Proof.
  intros Hp Hl Hb Hload. unfold set_step. destruct (caller_is_agent s i) eqn:Ea.
  - assert (Hm : may_set i s) by done. rewrite (setschedparam_allowed i s w u Hp Hl Hm Hload).
    unfold caller_is_agent in Ea. apply negb_true_iff, orb_false_iff in Ea as [-> Ea]. apply negb_false_iff in Ea.
    cbn [negb andb]. rewrite Ea. destruct (update_ok u); [by eexists|by exists s].
  - exists s. rewrite (setschedparam_refused i s w); [|by destruct Hp|intros [? _]; congruence].
    unfold caller_is_agent in Ea. apply negb_false_iff, orb_true_iff in Ea as [->|Ea]; [done|]. apply negb_true_iff in Ea. by rewrite Ea, andb_false_r.
Qed.

Lemma kernel_exits i s s' : in_process i s -> ptable_wf s -> ncli (kcpu s) = 0 -> lock_free PTABLE s -> lock_free SCHEDP s ->
  Proc.exit_finish i s [] = Blocked s' -> schedp s' = exit_step (pid (getp i s)) (schedp s).
Proof. intros Hp Hwf Hn Ht Hl. rewrite (exit_finish_eq i s Hp Hwf Hn Ht Hl). by intros [= <-]. Qed.

(** * What the programs do *)

Section Programs.
Context {W : Type} `{!Os W, !SchedOs W, !Files W, !SchedCalls W}.

(** What a program has printed, who it is and the scheduler's parameters. *)
Record sees (o : list Z) (me : Z) (sp : sched_params) (w : W) : Prop := {
  see_out : sink w 1 = Some o;
  see_self : self w = me;
  see_params : params w = sp
}.

Lemma runs_say o me sp w fmt args (Q : unit -> W -> Prop) : sees o me sp w ->
  (forall w', sees (o ++ printf fmt args) me sp w' -> Q tt w') -> runs w (fprintf 1 fmt args) Q.
Proof.
  intros Hw HQ. unfold fprintf. apply (runs_for_each (fun l w' => sees (o ++ l) me sp w')); [by rewrite app_nil_r| |done].
  intros l ch rest w1 _ [Ho Hs Hp]. unfold putc. apply runs_bind. intros x. unfold write. destruct (os_write 1 [ch] w1) as [r w2] eqn:E.
  exists r, w2. split; [done|]. apply runs_ret. destruct (write_keeps _ _ _ _ _ E) as [Es Ep].
  destruct (write_law _ _ _ _ _ E) as (_ & _ & _ & _ & H). rewrite Ho in H. destruct H as [_ H].
  split; [by rewrite H, app_assoc|by rewrite Es|by rewrite Ep].
Qed.

Lemma runs_register o me sp w (Q : Z -> W -> Prop) : sees o me sp w ->
  (forall w', sees o me (snd (register_step me sp)) w' -> Q (fst (register_step me sp)) w') -> runs w register_agent Q.
Proof.
  intros [Ho Hs Hp] HQ x. unfold register_agent. destruct (os_register w) as [r w'] eqn:E. destruct (register_law _ _ _ E) as (H & Es & Hk).
  rewrite Hs, Hp in H. exists r, w'. split; [done|]. rewrite <- H in HQ. apply HQ. split; [by rewrite Hk|by rewrite Es|done].
Qed.

Lemma runs_setparam o me sp w u (Q : Z -> W -> Prop) : sees o me sp w ->
  (forall w', sees o me (snd (set_step me u sp)) w' -> Q (fst (set_step me u sp)) w') -> runs w (setschedparam u) Q.
Proof.
  intros [Ho Hs Hp] HQ x. unfold setschedparam. destruct (os_setparam u w) as [r w'] eqn:E. destruct (setparam_law _ _ _ _ E) as (H & Es & Hk).
  rewrite Hs, Hp in H. exists r, w'. split; [done|]. rewrite <- H in HQ. apply HQ. split; [by rewrite Hk|by rewrite Es|done].
Qed.

Lemma exits_now {A} (w : W) (Q : W -> Prop) : Q w -> exits w (exit (A := A)) Q.
Proof. intros H x. by exists w. Qed.

Lemma exits_say o me sp w fmt args (Q : W -> Prop) : sees o me sp w ->
  (forall w', sees (o ++ printf fmt args) me sp w' -> Q w') -> exits w (fprintf 1 fmt args ;; exit : M W unit) Q.
Proof. intros Hw HQ. apply exits_bind. eapply runs_say; [exact Hw|]. intros w' H'. by apply exits_now, HQ. Qed.

(** Registering and setting the parameters, as config_rr and config_mlfq do. *)
Lemma exits_config u noreg noset ok o me sp w : sees o me sp w -> me <> 0 -> update_ok u = true ->
  exits w (r ← register_agent; if r <? 0 then fprintf 1 noreg [] ;; exit else
           r ← setschedparam u; if r <? 0 then fprintf 1 noset [] ;; exit else fprintf 1 ok [] ;; exit : M W unit)
    (fun w' => if agent_pid sp =? 0 then sees (o ++ printf ok []) me (apply_update u (sp <| agent_pid := me |>)) w'
               else sees (o ++ printf noreg []) me sp w').
Proof.
  intros Hw Hme Hu. apply exits_bind. eapply runs_register; [exact Hw|]. unfold register_step. destruct (Z.eqb_spec (agent_pid sp) 0) as [E|E]; cbn [fst snd].
  - intros w1 H1. change (0 <? 0) with false. apply exits_bind. eapply runs_setparam; [exact H1|]. unfold set_step. cbn [agent_pid setter].
    rewrite (proj2 (Z.eqb_neq _ _) Hme), Z.eqb_refl, Hu. cbn [negb andb fst snd]. intros w2 H2. change (0 <? 0) with false. by eapply exits_say; [exact H2|].
  - intros w1 H1. change (-1 <? 0) with true. by eapply exits_say; [exact H1|].
Qed.

(** The exit of the process that set them leaves the parameters and no agent. *)
Lemma exit_clears me u sp : exit_step me (apply_update u (sp <| agent_pid := me |>)) = apply_update u (sp <| agent_pid := 0 |>).
Proof. unfold exit_step. cbn. by rewrite Z.eqb_refl. Qed.

Definition said (o : list Z) (t : string) : list Z := o ++ printf (line t) [].


(** Setting parameters without being the agent. *)
Lemma exits_refused u fmt args fmt' args' o me sp w : sees o me sp w -> snd (set_step me u sp) = sp -> fst (set_step me u sp) = -1 ->
  exits w (ret ← setschedparam u; (if ret <? 0 then fprintf 1 (fmt ret) (args ret) else fprintf 1 (fmt' ret) (args' ret)) ;; exit : M W unit)
    (sees (o ++ printf (fmt (-1)) (args (-1))) me sp).
Proof.
  intros Hw Hsp Hr. apply exits_bind. eapply runs_setparam; [exact Hw|]. rewrite Hsp, Hr. intros w1 H1. change (-1 <? 0) with true.
  by eapply exits_say; [exact H1|].
Qed.

Lemma not_agent_step me u sp : me <> agent_pid sp \/ agent_pid sp = 0 -> set_step me u sp = (-1, sp).
Proof. unfold set_step. intros [H| ->]; [|done]. by rewrite (proj2 (Z.eqb_neq _ _) H), andb_false_r. Qed.
Lemma corrupt_step me stale sp : set_step me (Tools.corrupt_update stale) sp = (-1, sp).
Proof. unfold set_step. change (update_ok (Tools.corrupt_update stale)) with false. by rewrite andb_false_r. Qed.

Lemma exits_attack_priv o me sp w : sees o me sp w -> me <> agent_pid sp ->
  exits w Tools.attack_priv (sees (said (said (said o "[attack_priv] attempting to call setschedparam() directly...")
    "setschedparam returned -1 (access denied - not the registered agent)") "[attack_priv] privilege escalation FAILED as expected") me sp).
Proof.
  intros Hw Hne. unfold Tools.attack_priv. apply exits_bind. eapply runs_say; [exact Hw|]. intros w1 H1.
  apply exits_bind. eapply runs_setparam; [exact H1|]. rewrite not_agent_step by by left. cbn [fst snd]. intros w2 H2. change (-1 <? 0) with true.
  apply exits_bind, runs_bind. eapply runs_say; [exact H2|]. intros w3 H3. eapply runs_say; [exact H3|]. intros w4 H4. by apply exits_now.
Qed.

Lemma exits_corrupt stale o me sp w : sees o me sp w -> me <> 0 ->
  exits w (Tools.sec_param_corrupt stale) (fun w' => params w' = snd (register_step me sp)).
Proof.
  intros Hw Hme. unfold Tools.sec_param_corrupt. apply exits_bind. eapply runs_register; [exact Hw|]. intros w1 H1. unfold register_step in *.
  destruct (Z.eqb_spec (agent_pid sp) 0) as [E|E]; cbn [fst snd] in *.
  - change (0 <? 0) with false. apply exits_bind. eapply runs_setparam; [exact H1|]. rewrite corrupt_step. cbn [fst snd]. intros w2 H2.
    change (-1 <? 0) with true. eapply exits_say; [exact H2|]. intros w3 H3. apply H3.
  - change (-1 <? 0) with true. eapply exits_say; [exact H1|]. intros w3 H3. apply H3.
Qed.

Lemma exit_unregisters me sp : me <> agent_pid sp -> exit_step me (snd (register_step me sp)) = sp.
Proof.
  intros Hne. unfold exit_step, register_step. destruct (Z.eqb_spec (agent_pid sp) 0) as [E|E]; cbn [snd].
  - cbn. rewrite Z.eqb_refl. destruct sp. cbn in *. by subst.
  - by rewrite (proj2 (Z.eqb_neq _ _) (not_eq_sym Hne)).
Qed.

End Programs.

(** * The benchmarks' sums *)

Lemma burn_adds n sum : N.iter n (fun '(i, x) => (i + 1, i32 (x + i))) (0, i32 sum) = (Z.of_N n, i32 (sum + Z.of_N n * (Z.of_N n - 1) / 2)).
Proof.
  induction n as [|n IH] using N.peano_ind.
  - cbn [N.iter Z.of_N]. f_equal. f_equal. change (0 * (0 - 1) / 2) with 0. lia.
  - rewrite N.iter_succ, IH, N2Z.inj_succ. unfold Z.succ. f_equal. rewrite i32_add_l. f_equal.
    replace ((Z.of_N n + 1) * (Z.of_N n + 1 - 1)) with (Z.of_N n * (Z.of_N n - 1) + Z.of_N n * 2) by lia. rewrite Z.div_add by lia. lia.
Qed.

(** The loops compute the sum of the numbers below [n], wrapped to 32 bits; from
    65537 rounds on that sum does not fit an [int]. *)
Theorem adds_wraps n sum : Tools.adds n (i32 sum) = i32 (sum + Z.of_N n * (Z.of_N n - 1) / 2).
Proof. unfold Tools.adds, burn. by rewrite burn_adds. Qed.

Theorem benchmark_sums_overflow n : (65537 <= n)%N -> 2 ^ 31 - 1 < Z.of_N n * (Z.of_N n - 1) / 2.
Proof.
  intros Hn. assert (65537 * 65536 / 2 <= Z.of_N n * (Z.of_N n - 1) / 2) as H by (apply Z.div_le_mono; [lia|]; apply Z.mul_le_mono_nonneg; lia).
  change (65537 * 65536 / 2) with 2147516416 in H. lia.
Qed.
