(* ===== verification/Tests.v ===== *)
(** The small test programs: forktest.c, stressfs.c, helloloop.c and alarmtest1.c
    to alarmtest3.c; a module per program.

    [Procs] is the contract of [fork] and [wait] as a parent sees them, on a
    machine with a limited number of processes; under it forktest is proved to
    find the limit and to reap exactly the children it made. *)

From S2P Require Import Prelude Control Memory KState Format Inode SysFile Posix Programs Utilities.

Module Forktest.
Section Prog.
Context {W : Type} `{!Os W}.
Definition N_ : nat := 1000.
(** forktest's own [printf]: no conversions. *)
Definition printf_ (fd : Z) (s : list Z) : M W unit := _ ← write fd s; mret tt.

(** [for(n=0; n<N; n++)]: how many forks succeeded. *)
Fixpoint forks (k : nat) (n : nat) : M W nat :=
  match k with
  | O => mret n
  | S k' =>
      pid ← syscall_ Fork;
      if pid <? 0 then mret n else if pid =? 0 then exit else forks k' (S n)
  end.
(** [for(; n > 0; n--)] *)
Fixpoint reaps (n : nat) : M W unit :=
  match n with
  | O => mret tt
  | S n' => r ← syscall_ Wait; if r <? 0 then printf_ 1 (line "wait stopped early") ;; exit else reaps n'
  end.
Definition forktest : M W unit :=
  printf_ 1 (line "fork test") ;;
  n ← forks N_ 0;
  if bool_decide (n = N_) then printf_ 1 (line "fork claimed to work N times!") ;; exit else
  reaps n ;;
  r ← syscall_ Wait;
  if negb (r =? -1) then printf_ 1 (line "wait got too many") ;; exit else
  printf_ 1 (line "fork test OK").
Definition main : M W unit := forktest ;; exit.
End Prog.
End Forktest.

Module Stressfs.
Section Prog.
Context {W : Type} `{!Os W}.
(** [for(i = 0; i < 4; i++) if(fork() > 0) break]: the value of [i] after it. *)
Fixpoint forks (k : nat) (i : Z) : M W Z :=
  match k with
  | O => mret i
  | S k' => pid ← syscall_ Fork; if 0 <? pid then mret i else forks k' (i + 1)
  end.
Fixpoint times (k : nat) (m : M W unit) : M W unit :=
  match k with
  | O => mret tt
  | S k' => m ;; times k' m
  end.
Definition main : M W unit :=
  fprintf 1 (line "stressfs starting") [] ;;
  let data := replicate 512 97 in
  i ← forks 4 0;
  fprintf 1 (line "write %d") [AInt i] ;;
  let path := bytes_of "stressfs" ++ [48 + i] in
  fd ← open path (Z.lor O_CREATE O_RDWR);
  times 20 (_ ← write fd data; mret tt) ;;
  _ ← close fd;
  fprintf 1 (line "read") [] ;;
  fd ← open path O_RDONLY;
  times 20 (_ ← read fd 512; mret tt) ;;
  _ ← close fd;
  _ ← syscall_ Wait;
  exit.
End Prog.
End Stressfs.

(** The handlers are separate programs the kernel enters on a signal. *)
Module Alarms.
Section Prog.
Context {W : Type} `{!Os W}.
(** [while(1)]: print and sleep, a round per unit of fuel. *)
Fixpoint forever (fuel : nat) (msg : list Z) (n : Z) : M W unit :=
  match fuel with
  | O => still_running
  | S f => fprintf 1 msg [] ;; _ ← syscall_ (Sleep n); forever f msg n
  end.

(** helloloop.c; [handler] is the address of [hello]. *)
Definition helloloop (fuel : nat) (handler : Z) : M W unit :=
  _ ← syscall_ (Signal 2 handler);
  forever fuel (line "Hello, still looping!") 100.
Definition hello : M W unit := fprintf 1 (line "Nuh-uh, I'm a non-preemptable hello loop!") [].

Definition alarmtest1 (fuel : nat) : M W unit :=
  _ ← syscall_ (Alarm 3);
  forever fuel (line "Still looping...") 500.

(** [while(i--)] *)
Fixpoint countdown (i : nat) : M W unit :=
  match i with
  | O => mret tt
  | S i' => fprintf 1 (line "Still looping... %d") [AInt (Z.of_nat i')] ;; _ ← syscall_ (Sleep 100); countdown i'
  end.
Definition alarmtest2 (fuel : nat) : M W unit :=
  _ ← syscall_ (Signal 14 1);
  _ ← syscall_ (Alarm 2);
  countdown 5 ;;
  _ ← syscall_ (Signal 14 0);
  _ ← syscall_ (Alarm 5);
  forever fuel (line "Still waiting for that alarm... ") 100.

(** alarmtest3.c: the handler, given [snoozetime], and what it leaves it. *)
Definition snooze (snoozetime : Z) : M W Z :=
  fprintf 1 (line "Yawn... another %d seconds?") [AInt snoozetime] ;;
  let snoozetime := i32 (snoozetime - 1) in
  (if snoozetime =? 0 then _ ← syscall_ (Signal 14 0); mret tt else mret tt) ;;
  _ ← syscall_ (Alarm 1);
  mret snoozetime.
Fixpoint loops (k : nat) (i : Z) : M W unit :=
  match k with
  | O => mret tt
  | S k' => fprintf 1 (line "Looping... %d") [AInt (i + 1)] ;; _ ← syscall_ (Sleep 100); loops k' (i + 1)
  end.
Definition alarmtest3 (handler : Z) : M W unit :=
  _ ← syscall_ (Signal 14 handler);
  _ ← syscall_ (Alarm 3);
  loops 100 0 ;;
  exit.
End Prog.
End Alarms.

(** * Processes as a parent sees them *)

(** [room]: how many processes can still be made; [kids]: children not yet
    waited for. *)
Class Procs (W : Type) `{!Os W, !Files W} := {
  room : W -> nat;
  kids : W -> nat;
  write_procs fd l w r w' : os_write fd l w = (r, w') -> room w' = room w /\ kids w' = kids w;
  fork_law w r w' : os_call Fork w = (r, w') -> (forall fd, sink w' fd = sink w fd) /\
    match room w with
    | O => r < 0 /\ room w' = 0%nat /\ kids w' = kids w
    | S k => 0 < r /\ room w' = k /\ kids w' = S (kids w)
    end;
  wait_law w r w' : os_call Wait w = (r, w') -> (forall fd, sink w' fd = sink w fd) /\
    match kids w with
    | O => r = -1 /\ room w' = room w /\ kids w' = 0%nat
    | S k => 0 < r /\ room w' = S (room w) /\ kids w' = k
    end;
}.

Section Forktest.
Context {W : Type} `{!Os W, !Files W, !Procs W}.

Record crowd (o : list Z) (free born : nat) (w : W) : Prop := {
  cr_out : sink w 1 = Some o;
  cr_room : room w = free;
  cr_kids : kids w = born
}.

Lemma runs_tell o a b w l (Q : unit -> W -> Prop) : crowd o a b w -> (forall w', crowd (o ++ l) a b w' -> Q tt w') -> runs w (Forktest.printf_ 1 l) Q.
Proof.
  intros [Ho Hr Hk] HQ. unfold Forktest.printf_. apply runs_bind. intros x. unfold write. destruct (os_write 1 l w) as [r w'] eqn:E.
  exists r, w'. split; [done|]. apply runs_ret, HQ. destruct (write_procs _ _ _ _ _ E) as [Er Ek].
  destruct (write_law _ _ _ _ _ E) as (_ & _ & _ & _ & H). rewrite Ho in H. split; [apply H|by rewrite Er|by rewrite Ek].
Qed.

Lemma runs_forks o k : forall a b n w (Q : nat -> W -> Prop), crowd o a b w ->
  (forall w', let made := (a `min` k)%nat in crowd o (a - made) (b + made) w' -> Q (n + made)%nat w') -> runs w (Forktest.forks k n) Q.
Proof.
  induction k as [|k IH]; intros a b n w Q Hw HQ; cbn [Forktest.forks].
  - apply runs_ret. rewrite Nat.min_0_r in HQ. rewrite <- (Nat.add_0_r n). apply HQ. by rewrite Nat.sub_0_r, Nat.add_0_r.
  - destruct Hw as [Ho Hr Hk]. apply runs_bind. intros x. unfold syscall_. destruct (os_call Fork w) as [r w'] eqn:E. exists r, w'. split; [done|].
    destruct (fork_law _ _ _ E) as [Hs H]. rewrite Hr in H. destruct a as [|a]; destruct H as (H1 & H2 & H3).
    + rewrite (proj2 (Z.ltb_lt _ _)) by done. apply runs_ret. rewrite <- (Nat.add_0_r n). apply HQ.
      split; [by rewrite Hs|done|by rewrite H3, Hk, Nat.add_0_r].
    + rewrite (proj2 (Z.ltb_ge _ _)), (proj2 (Z.eqb_neq _ _)) by lia. eapply (IH a (S b)); [split; [by rewrite Hs|done|by rewrite H3, Hk]|].
      intros w2 made H'. unfold made in *. rewrite Nat.add_succ_comm. apply HQ. cbn [Nat.min Nat.sub]. by rewrite <- Nat.add_succ_comm.
Qed.

Lemma runs_reaps o n : forall a b w (Q : unit -> W -> Prop), crowd o a (n + b) w -> (forall w', crowd o (a + n) b w' -> Q tt w') -> runs w (Forktest.reaps n) Q.
Proof.
  induction n as [|n IH]; intros a b w Q Hw HQ; cbn [Forktest.reaps].
  - apply runs_ret, HQ. by rewrite Nat.add_0_r.
  - destruct Hw as [Ho Hr Hk]. apply runs_bind. intros x. unfold syscall_. destruct (os_call Wait w) as [r w'] eqn:E. exists r, w'. split; [done|].
    destruct (wait_law _ _ _ E) as [Hs H]. rewrite Hk in H. cbn [Nat.add] in H. destruct H as (H1 & H2 & H3).
    rewrite (proj2 (Z.ltb_ge _ _)) by lia. eapply (IH (S a)); [split; [by rewrite Hs|by rewrite H2, Hr|done]|]. intros w2 H'. apply HQ. by rewrite <- Nat.add_succ_comm.
Qed.

(** A parent without children on a machine with room for fewer than 1000 more
    processes: forktest fills it, reaps every child, and reports success with
    the room it found. *)
Theorem forktest_passes o free w : crowd o free 0 w -> (free < 1000)%nat ->
  exists w', Forktest.main w [] = NoReturn w' /\ crowd (o ++ line "fork test" ++ line "fork test OK") free 0 w'.
Proof.
  intros Hw Hfree. cut (exits w Forktest.main (crowd (o ++ line "fork test" ++ line "fork test OK") free 0)); [intros H; exact (H [])|].
  unfold Forktest.main, Forktest.forktest. apply exits_bind, runs_bind. eapply runs_tell; [exact Hw|]. clear Hw w. intros w Hw.
  apply runs_bind. eapply runs_forks; [exact Hw|]. rewrite Nat.min_l by (unfold Forktest.N_; lia). cbv zeta. cbn [Nat.add]. rewrite Nat.sub_diag.
  clear Hw w. intros w Hw. rewrite bool_decide_eq_false_2 by (unfold Forktest.N_; lia).
  apply runs_bind. eapply (runs_reaps _ free 0 0); [by rewrite Nat.add_0_r|]. cbn [Nat.add]. clear Hw w. intros w [Ho Hr Hk].
  apply runs_bind. intros x. unfold syscall_. destruct (os_call Wait w) as [r w'] eqn:E. exists r, w'. split; [done|].
  destruct (wait_law _ _ _ E) as [Hs H]. rewrite Hk in H. destruct H as (-> & H2 & H3). change (negb (-1 =? -1)) with false.
  eapply runs_tell; [split; [by rewrite Hs|by rewrite H2, Hr|done]|]. intros w2 H'. intros x2. exists w2. split; [done|]. rewrite (app_assoc o), <- Hr. exact H'.
Qed.
End Forktest.
