(* ===== verification/Instances.v ===== *)
(** The theorems at work: each property with hypotheses applied to a concrete
    state, mostly the machine of Boot.v, with its hypotheses checked by
    evaluation. *)

From S2P Require Import Prelude Control Memory KState Boot Spinlock Format Sched Selection Pass.
From S2P Require Import Kalloc Vm Sleeplock Disk Bio Log Inode Console Fs Pipe File Proc Trap.
From S2P Require Import Syscall SysProc Exec SysFile Agent Frame Safety Reach Handoff Timer Calls.
From S2P Require Import Fifo Create Layout Args Paging.

(** A decidable proposition settled by evaluation. *)
Ltac by_eval := vm_compute; done.

(** * The scheduler *)

Lemma boot_procs (P : proc -> Prop) :
  P (boot_proc RUNNING 1) -> P (boot_proc RUNNABLE 2) -> P zero_proc -> all_procs P boot.
Proof.
  intros H1 H2 H0. unfold all_procs, boot, boot_table; cbn [ptable].
  do 2 (constructor; [done|]). by apply Forall_replicate.
Qed.

Lemma boot_sched_ready : sched_ready boot.
Proof.
  split; [by_eval..| |].
  - apply boot_procs; unfold level_ok; by_eval.
  - by apply boot_procs.
Qed.

Lemma scheduler_pass_dispatches_witness :
  exists s', scheduler_pass boot [] = Blocked s' /\ cur (kcpu s') = Some 1%nat.
Proof.
  destruct (scheduler_pass_dispatches boot boot_sched_ready) as (s' & E & _).
  exists s'. split; [exact E|].
  apply (f_equal (fun o => match o with Blocked s => cur (kcpu s) | _ => None end)) in E.
  rewrite <- E. by_eval.
Defined.

Lemma boot_inv : sched_inv boot.
Proof.
  split_and!; [unfold params_ok; vm_compute; intuition congruence|by_eval|].
  apply boot_procs; unfold proc_ok; vm_compute; intuition congruence.
Qed.

Definition one_pass : kstate -> kstate :=
  fun s => let o := scheduler_pass (s <| kcpu := boot_cpu |>) [] in
           if panicked o then s else final o <| kcpu := kcpu s |>.
Lemma one_pass_turn `{!DiskDriver} : turn one_pass.
Proof. apply (Turn boot_cpu scheduler_pass []); constructor. Qed.


Definition same_table : list (list proc) := replicate NPROC boot_table.
Lemma rr_no_starvation_witness : 1%nat ∈ rr_run 5 same_table.
Proof.
  apply (rr_no_starvation 5 same_table 1).
  - unfold rr_next_ok. by_eval.
  - unfold NPROC. lia.
  - done.
  - apply Forall_replicate. by_eval.
Defined.

(** * Traps *)

#[local] Existing Instance Ide.driver.

(** The process in slot 0 interrupted by the timer with one tick left. *)
Definition in_irq : kstate :=
  (setp 0 (fun p => p <| ticks_remaining := 1 |>) boot) <| kcpu ::= fun c =>
    c <| cur := Some 0%nat |> <| eflags_if := false |> |>.
Definition timer_frame : trapframe := zero_trapframe <| trapno := 32 |> <| cs := 0x23 |>.

Lemma in_irq_ready : irq_ready 0 in_irq.
Proof. split; try by_eval. unfold NPROC. lia. Qed.

Lemma timer_trap_witness :
  trap timer_frame (fun _ => []) [] 0 in_irq [] =
    Blocked (setp 0 yielded (enter PTABLE (charged 0 timer_frame in_irq))).
Proof.
  destruct (timer_trap 0 timer_frame (fun _ => []) [] 0 in_irq in_irq_ready) as (_ & E); [by_eval..|].
  rewrite E. clear E.
  assert ((0 <? ticks_remaining (getp 0 (charged 0 timer_frame in_irq))) = false) as ->; [by_eval|].
  reflexivity.
Defined.

Lemma ema_towards_sample_witness :
  ema_step 50 3 100 = 200 /\ 100 <= ema_step 50 3 100 <= 300.
Proof.
  split; [done|]. destruct (ema_towards_sample 50 3 100) as (E & _).
  - unfold ema_exact. lia.
  - exact E.
Defined.

Lemma charge_behaviour_witness :
  queue_level (charge boot_params 9 (boot_proc RUNNING 1 <| ticks_remaining := 1 |>)) = 1 /\
  ticks_remaining (charge boot_params 9 (boot_proc RUNNING 1 <| ticks_remaining := 1 |>)) = 0.
Proof.
  destruct (charge_behaviour boot_params 9 (boot_proc RUNNING 1 <| ticks_remaining := 1 |>))
    as (E & _ & H); [vm_compute; intuition congruence..|].
  destruct H as (_ & _ & _ & _ & Hq & _); [vm_compute; congruence|]. rewrite E, Hq. by_eval.
Defined.


(** * System calls *)

Lemma boot_in_process : in_process 0 (boot_in 0).
Proof. split; [done|vm_compute; lia|unfold cpu_ready, cpu_ok; by_eval]. Qed.

(** The agent, process 1, offering the update 5/10/20/100/60/20/40/1 at 0x1000. *)
Definition offered : sched_update := mkUpdate 5 10 20 100 60 20 40 1.
Definition agent_calls : kstate :=
  (setp 0 (fun p => p <| tf ::= fun t => t <| rdi := 0x1000 |> |>) (boot_in 0))
    <| schedp ::= fun sp => sp <| agent_pid := 1 |> <| sched_alert := 1 |> |>
    <| mem ::= fun m => store64 (store64 (store64 (store64 m (pa 0x20000) (5 + 10 * 2 ^ 32))
                 (pa 0x20008) (20 + 100 * 2 ^ 32)) (pa 0x20010) (60 + 20 * 2 ^ 32))
                 (pa 0x20018) (40 + 1 * 2 ^ 32) |>.

(** Loads from user memory leave the state alone, so only the value they
    return has to be evaluated. *)
Definition reads {A} (m : K A) : Prop :=
  forall s w a s' w', m s w = Ok a s' w' -> s' = s /\ w' = w.
Lemma reads_bind {A B} (m : K A) (f : A -> K B) :
  reads m -> (forall a, reads (f a)) -> reads (m ≫= f).
Proof.
  intros Hm Hf s w b s' w'. unfold mbind, M_bind. destruct (m s w) eqn:E; try done.
  apply Hm in E as [-> ->]. apply Hf.
Qed.
Lemma reads_ret {A} (a : A) : reads (mret a).
Proof. by intros s w b s' w' [= _ -> ->]. Qed.
Lemma reads_uload_bytes pg va n : reads (uload_bytes pg va n).
Proof.
  revert va. induction n as [|n IH]; intros va; cbn; [apply reads_ret|].
  apply reads_bind; [|intros ?; apply reads_bind; [done|intros ?; apply reads_ret]].
  unfold uload. apply reads_bind; [by intros s w a s' w' [= _ -> ->]|]. intros m.
  destruct (translate m pg va); [apply reads_ret|done].
Qed.
Lemma reads_load_update pg a : reads (load_update pg a).
Proof.
  unfold load_update, uload_int.
  repeat first [apply reads_ret | apply reads_uload_bytes | apply reads_bind; [|intros ?]].
Qed.



Lemma boot_in1 : in_process 1 (boot_in 1).
Proof. split; [done|vm_compute; lia|unfold cpu_ready, cpu_ok; by_eval]. Qed.


Lemma kill_behaviour_witness : exists s', kill 2 SIGINT boot [] = Ok 0 s' [].
Proof.
  destruct (kill_behaviour 2 SIGINT boot []) as [(i & p & s' & _ & _ & _ & E & _)|(Hno & _)].
  - unfold cpu_ready, cpu_ok. by_eval.
  - by_eval.
  - by_eval.
  - exists s'. exact E.
  - exfalso. by apply (Hno 1%nat (boot_proc RUNNABLE 2)).
Defined.

(** A page on the free list. *)
Definition with_page : kstate := boot <| kmem := mkKmem 1 (pa 0x200000) |>.
Lemma with_page_free : free_pages with_page [pa 0x200000].
Proof.
  split_and!; [by_eval|apply NoDup_singleton|].
  constructor; [|constructor]. split_and!; by_eval.
Qed.

Lemma allocproc_behaviour_witness :
  exists s', allocproc with_page [] = Ok (Some 2%nat) s' [] /\ pid (getp 2 s') = 3.
Proof.
  destruct (allocproc_behaviour (pa 0x200000) [] with_page [])
    as [(i & p & s' & Hi & Hu & Hfirst & E & Hpt & _)|(Hno & _)].
  - unfold cpu_ready, cpu_ok. by_eval.
  - by_eval.
  - split_and!; [right; by_eval|unfold cpu_ok; by_eval|by_eval].
  - apply with_page_free.
  - by_eval.
  - intros j q Hq. assert (H : all_procs (fun p => pid p < 3) boot) by (apply boot_procs; by_eval).
    by apply (Forall_lookup_1 _ _ _ _ H Hq).
  - assert (i = 2%nat) as ->.
    { destruct i as [|[|[|i]]]; [by injection Hi as <-|by injection Hi as <-|done|].
      exfalso. by apply (Hfirst 2%nat zero_proc); [lia|..]. }
    exists s'. split; [exact E|]. unfold getp. rewrite Hpt, list_lookup_insert_eq by (vm_compute; lia). by_eval.
  - exfalso. by apply (Hno 2%nat zero_proc).
Defined.

(** * Locks, sleeping and pipes *)

(** Process 1 in slot 0 about to sleep on [ticks], holding [tickslock]. *)
Definition in_sleep : kstate :=
  boot <| locks ::= insert TICKSLOCK (held 0) |>
       <| kcpu ::= fun c => c <| cur := Some 0%nat |> <| ncli := 1 |> <| eflags_if := false |> |>.
Definition slept : kstate :=
  setp 0 (asleep CH_TICKS) (leave TICKSLOCK (enter PTABLE in_sleep)).
Definition later : kstate := slept <| locks := boot_locks |> <| kcpu := boot_cpu |>.

Lemma later_table : ptable later = ptable slept.
Proof. unfold later. generalize slept. by intros []. Qed.


Lemma acquire_excludes_witness :
  exists s', acquire PTABLE (boot <| locks ::= insert PTABLE (held 1) |>) [id] = Blocked s' /\
    locks s' !! PTABLE = Some (held 1).
Proof.
  apply (acquire_excludes PTABLE 1).
  - by_eval.
  - vm_compute. congruence.
  - constructor; [|constructor]. intros s Hs. exact Hs.
Defined.

Definition the_pipe : Z := 0xFFFF800000400000.
(** Positioned just before its counters wrap around. *)
Definition empty_pipe : pipe := mkPipe (replicate 512 0) (2 ^ 32 - 1) (2 ^ 32 - 1) 1 1.
Definition with_pipe (x : pipe) : kstate :=
  (boot_in 0) <| pipes := {[the_pipe := x]} |>
    <| mem ::= fun m => store64 m (pa 0x20000) (0x48 + 0x69 * 2 ^ 8) |>.

Lemma empty_pipe_ok : pipe_ok empty_pipe.
Proof. unfold pipe_ok. split_and!; by_eval. Qed.

Lemma pipewrite_appends_witness :
  exists x' s', pipe_queue x' = [0x48; 0x69] /\
    pipewrite the_pipe (FromUser 0x1000) 2 (with_pipe empty_pipe) [] = Ok 2 s' [].
Proof.
  destruct (pipewrite_appends the_pipe 0 0x1000 [0x48; 0x69] empty_pipe (with_pipe empty_pipe) [])
    as (x' & _ & Hq & E); [done|unfold cpu_ready, cpu_ok; by_eval|by_eval|by_eval|by_eval|apply empty_pipe_ok| |by_eval|].
  - intros [|[|k]] b; cbn; [intros [= <-]..|done]; eexists; (split; [by_eval|by_eval]).
  - exists x'. eexists. split; [rewrite Hq; by_eval|exact E].
Defined.

Definition full_pipe : pipe := mkPipe (0x48 :: 0x69 :: replicate 510 0) 0 2 1 1.

(** * Memory and page tables *)

Lemma kalloc_exhausted_witness : exists s', kalloc boot [] = Panic "Out of memory!" s'.
Proof.
  apply (kalloc_exhausted boot []).
  - split_and!; [done|constructor|constructor].
  - split_and!; [right; by_eval|unfold cpu_ok; by_eval|by_eval].
Defined.

Lemma kfree_kalloc_stack_witness :
  exists s1 s2, kfree (pa 0x300000) with_page [] = Ok tt s1 [] /\
    kalloc s1 [] = Ok (pa 0x300000) s2 [] /\ free_pages s2 [pa 0x200000].
Proof.
  destruct (kfree_kalloc_stack (pa 0x300000) [pa 0x200000] with_page [])
    as (s1 & s2 & E1 & _ & _ & _ & E2 & Hf & _).
  - apply with_page_free.
  - split_and!; by_eval.
  - rewrite list_elem_of_singleton. vm_compute. congruence.
  - split_and!; [right; by_eval|unfold cpu_ok; by_eval|by_eval].
  - exists s1, s2. split_and!; [exact E1|exact E2|exact Hf].
Defined.

Lemma memmove_blit_witness :
  memmove (mset (fun _ => 0) 3 7) 1 0 4 4 = blit (mset (fun _ => 0) 3 7) 1 0 4 4.
Proof. apply (memmove_blit (mset (fun _ => 0) 3 7) 1 0 4 4). lia. Defined.

Lemma walkpgdir_agrees_with_mmu_witness :
  exists pte, walkpgdir (pa 0x10000) 0x1234 false boot [] = Ok pte boot [] /\
    translate (mem boot) (pa 0x10000) 0x1234 =
      if (pte =? 0) || negb (has PTE_P (load64 (mem boot) pte)) then None
      else Some (P2V (PTE_ADDR (load64 (mem boot) pte)) + 0x1234 mod PGSIZE).
Proof.
  apply (walkpgdir_agrees_with_mmu (pa 0x10000) 0x1234 boot []).
  - by_eval.
  - vm_compute. congruence.
Defined.


(** * Disk structures, names, numbers *)

Definition some_inode : inode := mkInode 1 5 1 0 2 0 0 1 700 (replicate 13 99).
Lemma dinode_roundtrip_witness :
  isize (read_dinode (splice (replicate 512 0) (dinode_off 5) (dinode_bytes some_inode))
           (dinode_off 5) zero_inode) = 700.
Proof.
  destruct (dinode_roundtrip some_inode zero_inode (replicate 512 0) 5) as (E & _).
  - assert (Hr : u32_range 99) by (unfold u32_range; lia).
    unfold inode_fits, i16_range, u32_range at 1, some_inode; cbn [itype imajor iminor inlink isize iaddrs].
    split_and!; [lia..|done|by apply Forall_replicate].
  - done.
  - lia.
  - rewrite E. done.
Defined.

Definition some_bitmap : list Z := 255 :: 3 :: replicate 510 0.
Lemma bitmap_alloc_free_witness :
  free_bit some_bitmap 0 4096 = Some 10%nat /\
  free_bit (mark_bit 10 some_bitmap) 0 4096 <> Some 10%nat.
Proof.
  split; [by_eval|].
  assert (Hb : free_bit some_bitmap 0 4096 = Some 10%nat) by by_eval.
  pose proof (bitmap_alloc_free some_bitmap 4096 eq_refl ltac:(lia)) as H. rewrite Hb in H.
  apply H.
Defined.

Lemma log_absorption_witness :
  logged (log_record 70 boot_log) = [70] /\ log_ok (log_record 70 boot_log).
Proof.
  destruct (log_absorption 70 boot_log) as (Hok & _ & Hnew).
  - split_and!; [done|by_eval|by_eval|constructor|constructor].
  - by_eval.
  - lia.
  - split; [|exact Hok]. by_eval.
Defined.

(** "//usr/bin": the element "usr" and the path "bin" remain. *)
Lemma skipelem_first_witness :
  skipelem (replicate 2 slash ++ bytes_of "usr" ++ bytes_of "/bin") =
    Some (elem_name (bytes_of "usr"), bytes_of "bin").
Proof.
  destruct (skipelem_first 2 (bytes_of "usr") (bytes_of "/bin")) as (E & _).
  - unfold plain. repeat constructor; vm_compute; congruence.
  - vm_compute. congruence.
  - right. left. by_eval.
  - exact E.
Defined.

Lemma atoi_print_d_witness : atoi (print_d 1984 ++ bytes_of " x") = 1984.
Proof.
  apply (atoi_print_d 1984).
  - lia.
  - repeat constructor. vm_compute. intuition congruence.
Defined.

(** * Arguments of system calls *)

Lemma bad_range_exact_witness : bad_range (boot_proc RUNNING 1) 0x1FE0 32 = false.
Proof. apply (bad_range_exact (boot_proc RUNNING 1) 0x1FE0 32); by_eval. Defined.

Lemma argptr_accepts_high_half_witness :
  argptr_bad (boot_proc RUNNING 1) (KERNBASE + PGSIZE) 64 = false.
Proof. apply (argptr_accepts_high_half (boot_proc RUNNING 1) 0 0 64); by_eval. Defined.

Lemma update_addr_wraps_witness : update_addr_bad (boot_proc RUNNING 1) (2 ^ 64 - 8) = false.
Proof. apply (update_addr_wraps (boot_proc RUNNING 1) (2 ^ 64 - 8)); by_eval. Defined.

Lemma sigret_loses_rax_witness :
  exists s', syscall (zero_trapframe <| rax := 24 |>) (boot_in 0) [] = Ok tt s' [] /\
    rax (tf (getp 0 s')) = 0.
Proof.
  destruct (sigret_loses_rax 0 (zero_trapframe <| rax := 24 |>) (boot_in 0) []) as (s' & E & Ht).
  - apply boot_in_process.
  - by_eval.
  - done.
  - done.
  - done.
  - exists s'. split; [exact E|]. rewrite Ht. done.
Defined.

(** * The agent *)

Definition one_stat : schedstat := mkSchedstat 2 3 0 100 100 200 5 5 0 0 0 1 1 1.
Lemma agent_updates_valid_witness :
  update_ok (mkUpdate 4 6 8 490 45 10 50 7) = false.
Proof.
  apply (agent_updates_valid [([one_stat], 7)]). vm_compute. left.
Defined.

Lemma balanced_rules_silent_witness : Z.land (decide [one_stat] agent_init).2 6 = 0.
Proof.
  destruct (balanced_rules_silent [one_stat] agent_init) as (E & _).
  - split; [vm_compute; lia|]. intros e ->%list_elem_of_singleton. by_eval.
  - done.
  - done.
  - exact E.
Defined.
