(* ===== verification/InstancesFs.v ===== *)
(** The theorems on the log, on grep and on the shell at work: each applied to
    a concrete machine, text or command line, with its hypotheses checked by
    evaluation. *)

From S2P Require Import Prelude Control Memory KState Boot Spinlock Format Sched Kalloc Vm Sleeplock.
From S2P Require Import Disk Bio Log Inode Console Fs Pipe File Proc Trap Handoff Layout Cache Crash.
From S2P Require Import SysFile Grep Shell ShellPrint ShellRun Umalloc.

(** * Crash safety *)

(** The machine of Boot.v: 2000 blocks of zeros, the log in blocks 2 to 31. *)
Definition blank : content := fun _ => replicate 512 0.

Lemma boot_buffers b : buffer b boot_fs = zero_buf.
Proof.
  unfold buffer. destruct (decide (b < NBUF)%nat) as [Hb|Hb].
  - change (bufs boot_fs) with (replicate NBUF zero_buf). by rewrite lookup_replicate_2.
  - by rewrite lookup_ge_None_2 by (cbn; unfold NBUF in *; lia).
Qed.

Lemma boot_calm : calm (boot_in 0).
Proof.
  split; [vm_compute; reflexivity..| | |by exists 0%nat].
  - intros b Hb. unfold NBUF in Hb. do 30 (destruct b as [|b]; [vm_compute; reflexivity|]). lia.
  - vm_compute. intuition congruence.
Qed.

Lemma boot_cache : cache 2000 ∅ blank ∅ boot_fs.
Proof.
  split; try done.
  - intros b Hb Hlt. by rewrite boot_buffers.
  - intros b Hb Hlt. rewrite boot_buffers. by left.
  - intros b b' Hb Hb'. by rewrite boot_buffers.
Qed.

Lemma boot_at_rest : at_rest 2000 ∅ blank ∅ boot_log (boot_in 0).
Proof. split_and!; [apply boot_calm|apply boot_cache|done]. Qed.

Lemma boot_geometry : geometry 2000 2 30.
Proof. unfold geometry, LOGSIZE, MAXOPBLOCKS. lia. Qed.

Lemma boot_settled : settled 2000 2 30 blank blank.
Proof.
  split_and!; [|vm_compute; reflexivity|done]. split_and!; [done|vm_compute; congruence|].
  change (header_blocks _) with (@nil Z). apply blocks_ok_nil, boot_geometry.
Qed.

Lemma boot_idle : idle 2000 2 30 blank (boot_in 0).
Proof. apply (transaction_empty 2000 2 30 boot_geometry 0 0 blank boot_log); [apply boot_at_rest|done|apply boot_settled|done|done]. Qed.

(** Two blocks change; the power fails before the fourth transfer. *)
Definition two_updates : list (Z * (list Z -> list Z)) := [(100, fun d => 7 :: tail d); (200, fun d => 9 :: tail d)].

Lemma operation_crash_safe_witness :
  (exists s', @operation (Faulty.driver true) two_updates (boot_in 0) (replicate 3 id) = Blocked s' /\
     exists V, (V = blank \/ V = apply_updates blank two_updates) /\
       forall D', power_cycles 2000 2 30 (disk (fs s') 1) D' -> settled 2000 2 30 V D') /\
  exists s' w, @operation MemIde.driver two_updates (boot_in 0) [] = Ok tt s' w /\
    settled 2000 2 30 (apply_updates blank two_updates) (disk (fs s') 1).
Proof.
  destruct (operation_crash_safe 2000 2 30 blank (boot_in 0) two_updates) as [Hk Hon].
  - exact boot_geometry.
  - exact boot_idle.
  - cbn. lia.
  - repeat constructor; cbn; unfold outside; lia.
  - split; [|exact Hon]. specialize (Hk 3%nat).
    assert (E : match @operation (Faulty.driver true) two_updates (boot_in 0) (replicate 3 id) with Blocked _ => true | _ => false end = true)
      by (vm_compute; reflexivity).
    destruct (operation _ _ _) as [| |s'|]; try discriminate. exists s'. split; [reflexivity|exact Hk].
Defined.

(** A drive on which a transaction was committed and not installed: the
    header lists block 100, whose new contents are in block 3. *)
Definition committed_drive : content := fun n =>
  if n =? 2 then 1 :: 0 :: 0 :: 0 :: 100 :: replicate 507 0
  else if n =? 3 then replicate 512 5 else replicate 512 0.
Definition recovered_drive : content := fun n =>
  if n =? 100 then replicate 512 5 else committed_drive n.
Definition after_crash : kstate := boot_in 0 <| fs ::= fun x => x <| disk := fun _ => committed_drive |> |>.

Lemma recovery_idempotent_witness :
  exists s' w, @recover_from_log MemIde.driver after_crash [] = Ok tt s' w /\
    settled 2000 2 30 recovered_drive (disk (fs s') 1).
Proof.
  apply (recovery_idempotent 2000 2 30 committed_drive after_crash recovered_drive).
  - exact boot_geometry.
  - exists boot_log. split; [|done]. split_and!; [by apply (calm_same (boot_in 0)), boot_calm| |done].
    split; try done.
    + intros b Hb Hlt. split; [change (refcnt (buffer b boot_fs) = 0); by rewrite boot_buffers|done].
    + intros b Hb Hlt. change (buffer b (fs after_crash)) with (buffer b boot_fs). rewrite boot_buffers. by left.
    + intros b b' Hb Hb'. change (buffer b (fs after_crash)) with (buffer b boot_fs). by rewrite boot_buffers.
  - assert (Eh : header_blocks (committed_drive 2) = [100]) by (vm_compute; reflexivity). split.
    + split_and!; [reflexivity|vm_compute; congruence|]. rewrite Eh. split_and!; [cbn; lia|apply NoDup_singleton|].
      repeat constructor; unfold outside; lia.
    + intros m Hm. unfold recovered. rewrite Eh. unfold replay, recovered_drive; cbn.
      destruct (decide (m = 100)) as [->|Hne]; [reflexivity|]. by destruct (Z.eqb_spec m 100).
Defined.

(** * grep *)

Definition chars (t : string) : list Z := (fun c => Z.of_nat (Ascii.nat_of_ascii c)) <$> String.list_ascii_of_string t.

Lemma match_correct_witness :
  match_ (chars "a*b$") (chars "xaab") = true /\
  exists pre suf, chars "xaab" = pre ++ suf /\ prefix_matched (items (chars "a*b$")) suf.
Proof.
  split; [vm_compute; reflexivity|].
  apply (match_correct (chars "a*b$") (chars "xaab")); [|vm_compute; reflexivity].
  repeat constructor; vm_compute; congruence.
Defined.

Lemma grep_prints_matches_witness :
  grep (chars "b") [chars "ab" ++ [10]; chars "c" ++ [10] ++ chars "x"; chars "b" ++ [10]] =
    grep_spec (chars "b") [] [chars "ab" ++ [10]; chars "c" ++ [10] ++ chars "x"; chars "b" ++ [10]] /\
  grep (chars "b") [chars "ab" ++ [10]; chars "c" ++ [10] ++ chars "x"; chars "b" ++ [10]] =
    chars "ab" ++ [10] ++ chars "xb" ++ [10].
Proof.
  split; [|vm_compute; reflexivity].
  destruct (grep_prints_matches (chars "b") [chars "ab" ++ [10]; chars "c" ++ [10] ++ chars "x"; chars "b" ++ [10]]) as [E _];
    [|exact E].
  vm_compute. split_and!; try congruence; try lia; repeat constructor; congruence.
Defined.

(** * The shell *)

Definition a_line : list Z := chars "grep -v x < in | wc > out ; (sleep 5; echo hi) &".

Lemma a_line_ok : Forall (fun c => c <> 0) a_line.
Proof. repeat constructor; vm_compute; congruence. Qed.

Lemma parsecmd_returns_witness :
  (exists c b, parsecmd a_line = Ok (c, b) (length a_line) []) \/ (exists msg s, parsecmd a_line = Panic msg s).
Proof. apply (parsecmd_returns a_line). exact a_line_ok. Defined.

Definition short_line : list Z := chars "cat a>b".
Definition short_cmd : cmd * list Z :=
  match parsecmd short_line with Ok x _ _ => x | _ => (EXEC [], []) end.

Lemma nulterminate_words_witness :
  string_at short_cmd.2 6 = chars "b" /\
  (string_at short_cmd.2 6 = word_at short_line (6%nat, 7%nat) /\ word_at short_line (6%nat, 7%nat) <> [] /\
   Forall (fun x => word_char x = true) (word_at short_line (6%nat, 7%nat))).
Proof.
  split; [vm_compute; reflexivity|].
  apply (nulterminate_words short_line short_cmd.1 short_cmd.2 7%nat [] ltac:(repeat constructor; vm_compute; congruence)
    ltac:(vm_compute; reflexivity) (6%nat, 7%nat)).
  apply (bool_decide_unpack ((6%nat, 7%nat) ∈ spans short_cmd.1)). vm_compute. exact I.
Defined.

(** [(ls | wc) > out] *)
Definition a_command : scmd :=
  SRedir (SPipe (SExec [chars "ls"]) (SExec [chars "wc"])) (chars "out") (Z.lor O_WRONLY O_CREATE) 1.

Lemma parsecmd_show_witness :
  exists x b, parsecmd (show 3 a_command) = Ok (x, b) (length (show 3 a_command)) [] /\
    decode (show 3 a_command) x = a_command.
Proof.
  apply (parsecmd_show a_command).
  cbn. unfold word_ok, redir_ok, MAXARGS. split_and!; try (right; split; reflexivity); try (cbn; lia); try (vm_compute; congruence).
  all: repeat constructor; vm_compute; congruence.
Defined.

(** * The allocator *)

(** A kernel that stops at 256 MB. *)
Definition small_machine (b m : Z) : bool := b + m <? 2 ^ 28.
(** Three blocks, the middle one freed, a request that fits in its place and
    one that no machine of this size can serve. *)
Definition some_calls : list call :=
  [Malloc 100; Malloc 40; Malloc 200; Free 77648; Malloc 30; Malloc (2 ^ 31)].

Lemma allocator_safe_witness :
  (client 0x1000 small_machine 16 some_calls (mkHeap (fun _ => 0) (fun _ => 0) 0 0x3000, ∅) ≫=
     fun st => Some (map_to_list st.2)) = Some [(77648, 30); (77408, 200); (77696, 100)] /\
  exists h live l, client 0x1000 small_machine 16 some_calls (mkHeap (fun _ => 0) (fun _ => 0) 0 0x3000, ∅) = Some (h, live) /\
    16 * (units l + held_units (nunits <$> live)) = brk h - 0x3000.
Proof.
  split; [vm_compute; reflexivity|].
  destruct (allocator_safe 0x1000 small_machine ltac:(intros b m; unfold small_machine; lia) 0x3000 some_calls 16)
    as (h & live & l & E & _ & _ & _ & _ & Hu).
  - lia.
  - lia.
  - repeat constructor; cbn; lia.
  - cbn. lia.
  - exists h, live, l. split; [exact E|exact Hu].
Defined.

(** * The shell at work *)

Definition console_fds : fdtab := <[0 := Inherited 0]> (<[1 := Inherited 1]> {[2 := Inherited 2]}).
Definition fresh_world : world := mkWorld 0 2 [].
Definition pipe_line : list Z := chars "cat < in | wc > out".
Definition pipe_cmd : cmd * list Z := match parsecmd pipe_line with Ok x _ _ => x | _ => (EXEC [], []) end.

Lemma run_line_plumbing_witness :
  (meaning (fun _ _ => true) (fun _ => true) pipe_cmd.2 pipe_cmd.1 console_fds 0).1 =
    [([chars "cat"], <[0 := Opened (chars "in") O_RDONLY]> (<[1 := WriteEnd 0]> console_fds));
     ([chars "wc"], <[1 := Opened (chars "out") (Z.lor O_WRONLY O_CREATE)]> (<[0 := ReadEnd 0]> console_fds))] /\
  programs (run (fun _ _ => true) (fun _ => true) (run_line pipe_line) console_fds fresh_world) =
    (meaning (fun _ _ => true) (fun _ => true) pipe_cmd.2 pipe_cmd.1 console_fds 0).1.
Proof.
  split; [vm_compute; reflexivity|].
  destruct (run_line_plumbing (fun _ _ => true) (fun _ => true) pipe_line pipe_cmd.1 pipe_cmd.2 19%nat [] console_fds fresh_world) as [E _].
  - vm_compute. reflexivity.
  - split_and!; [by eexists|by eexists|]. exists 3, 4. vm_compute. intuition congruence.
  - cbn. lia.
  - exact E.
Defined.

(** A session: a directory change and a background list, then the end of the
    input. *)
Example session_runs :
  (fst <$> programs (run (fun _ _ => true) (fun _ => true)
     (main (chars "cd /bin" ++ [10] ++ chars "(echo a; echo b) &" ++ [10])) ∅ fresh_world)) =
  [[chars "echo"; chars "a"]; [chars "echo"; chars "b"]].
Proof. vm_compute. reflexivity. Qed.
