(* ===== verification/InstancesSys.v ===== *)
(** The theorems on mkfs, the file lookup, the terminal and the boot path at
    work: each applied to a concrete image, keyboard, drive or table, with its
    hypotheses checked by evaluation. *)

From S2P Require Import Prelude Control Memory KState Boot Spinlock Format Sched Kalloc Vm Sleeplock.
From S2P Require Import Disk Bio Log Inode Console Fs Pipe File Proc Trap Handoff Layout Cache Crash.
From S2P Require Import Mkfs Image Built Readback Namei Mounted Sectors Keyboard Terminal Bootload Mp InstancesFs.
From S2P Require Import Frame Safety Reach Segments Main Booted Instances.

(** * mkfs and the kernel that reads its image *)

(** Two files, [_a] in two pieces and [b] of three blocks. *)
Definition host_files (arg : list Z) : option (list (list Z)) :=
  if decide (arg = chars "_a") then Some [chars "hello "; chars "world"]
  else if decide (arg = chars "b") then Some [replicate 512 7; replicate 512 8; [9; 10]] else None.
Definition two_args : list (list Z) := [chars "_a"; chars "b"].

Lemma two_files_ok : Forall (file_ok host_files) two_args.
Proof.
  apply Forall_cons. split; [|apply Forall_singleton].
  - split; [reflexivity|]. split; [eexists; reflexivity|]. change (length (contents host_files (chars "_a"))) with 11%nat. lia.
  - split; [reflexivity|]. split; [eexists; reflexivity|]. change (length (contents host_files (chars "b"))) with 1026%nat. lia.
Qed.
Lemma two_files_fit : Mkfs.nmeta + needed (length (root_data two_args)) + files_need host_files two_args <= FSSIZE.
Proof. vm_compute. congruence. Qed.

Lemma mkfs_builds_witness :
  exists h, Mkfs.main [chars "mkfs"; chars "fs.img"; chars "_a"; chars "b"] true host_files Mkfs.start_state [] = Ok tt h [] /\
    built host_files two_args h.
Proof.
  apply (mkfs_builds host_files (chars "mkfs") (chars "fs.img") two_args).
  - cbn. lia.
  - exact two_files_ok.
  - exact two_files_fit.
Defined.

(** The image of that run, and a machine whose drive it is. *)
Definition built_image : Mkfs.host :=
  match Mkfs.main [chars "mkfs"; chars "fs.img"; chars "_a"; chars "b"] true host_files Mkfs.start_state [] with
  | Ok _ h _ => h
  | _ => Mkfs.start_state
  end.
Definition mounted : kstate :=
  boot_in 0 <| fs ::= fun x => x <| disk := fun _ => Mkfs.img built_image |> <| sb := Mkfs.super |> |>.

Lemma built_image_run :
  Mkfs.main [chars "mkfs"; chars "fs.img"; chars "_a"; chars "b"] true host_files Mkfs.start_state [] = Ok tt built_image [].
Proof.
  assert (E : match Mkfs.main [chars "mkfs"; chars "fs.img"; chars "_a"; chars "b"] true host_files Mkfs.start_state [] with
    | Ok _ _ [] => true | _ => false end = true) by (vm_compute; reflexivity).
  unfold built_image. destruct (Mkfs.main _ _ _ _ _) as [[] h [|]|? ?|?|?]; done.
Qed.

Lemma mounted_inodes : inodes FSSIZE (Mkfs.img built_image) Mkfs.super 10 (replicate NINODE zero_inode) (fun _ => 0) mounted.
Proof.
  split; try done.
  - exists boot_log. split_and!; [by apply (calm_same (boot_in 0)), boot_calm| |done]. split; try done.
    + intros b Hb Hlt. split; [change (refcnt (buffer b boot_fs) = 0); by rewrite boot_buffers|done].
    + intros b Hb Hlt. change (buffer b (fs mounted)) with (buffer b boot_fs). rewrite boot_buffers. by left.
    + intros b b' Hb Hb'. change (buffer b (fs mounted)) with (buffer b boot_fs). by rewrite boot_buffers.
  - intros i Hi. unfold NINODE in Hi. do 50 (destruct i as [|i]; [vm_compute; reflexivity|]). lia.
  - apply Forall_replicate. split_and!; cbn; [lia|lia|]. lia.
Qed.

(** Six bytes of [a] from its fourth on. *)
Lemma mkfs_then_read_witness :
  exists s' w, @open_read MemIde.driver (chars "a") 3 6 mounted [] = Ok (Some (6, chars "lo wor")) s' w.
Proof.
  apply (mkfs_then_read host_files (chars "mkfs") (chars "fs.img") two_args built_image 0 (chars "_a") 10
    (replicate NINODE zero_inode) mounted 3 6).
  - cbn. lia.
  - exact two_files_ok.
  - exact two_files_fit.
  - exact built_image_run.
  - split.
    + repeat constructor; unfold slash; cbn; try lia; discriminate.
    + apply (bool_decide_unpack _). vm_compute. exact I.
  - reflexivity.
  - exact mounted_inodes.
  - lia.
  - vm_compute. lia.
  - lia.
  - lia.
  - lia.
Defined.


(** * The terminal *)

Lemma boot_console : console_free (boot_in 0).
Proof. split; vm_compute; try reflexivity. intuition congruence. Qed.
Lemma boot_tty : tty [] [] (input (boot_in 0)).
Proof. split; try done; cbn; lia. Qed.

(** [ab], a backspace, [c], return, and [d] of the next line. *)
Definition some_keys : list Z := chars "ab" ++ [8] ++ chars "c" ++ [13] ++ chars "d".
Lemma console_line_discipline_witness :
  exists s', consoleintr (fun _ => []) some_keys (boot_in 0) [] = Ok tt s' [] /\ console_free s' /\
    tty (chars "ac" ++ [10]) (chars "d") (input s').
Proof.
  apply (console_line_discipline (fun _ => []) (boot_in 0) some_keys [] []).
  - exact boot_console.
  - exact boot_tty.
  - set_solver.
  - repeat constructor; vm_compute; congruence.
Defined.


(** * Booting *)

(** A kernel of two sectors with its header in front, to be loaded at 1 MB,
    and a sector of zeros after it. *)
Definition kernel_header : list Z :=
  mjoin (bytes32 <$> [0x1BADB002; 0x10000; 2 ^ 32 - 0x1BADB002 - 0x10000; 0x100000; 0x100000; 0x100400; 0x100600; 0x100020]).
Definition kernel_drive (n : Z) : list Z :=
  if n =? 1 then kernel_header ++ replicate 480 1 else if n =? 2 then replicate 512 2 else replicate 512 3.

Lemma bootmain_loads_witness :
  exists m', Bootload.bootmain kernel_drive (fun _ => 5) = Some (0x100020, m') /\
    m' 0x1003FF = 2 /\ m' 0x100400 = 0.
Proof.
  assert (Hd : forall n, length (kernel_drive n) = 512%nat) by (intros n; unfold kernel_drive; destruct (n =? 1), (n =? 2); reflexivity).
  assert (Eh : Bootload.header_at (file_byte kernel_drive) (4 * Z.of_nat 0) =
    Bootload.mkMb 0x1BADB002 0x10000 (2 ^ 32 - 0x1BADB002 - 0x10000) 0x100000 0x100000 0x100400 0x100600 0x100020) by (vm_compute; reflexivity).
  destruct (bootmain_loads kernel_drive Hd (fun _ => 5) 0) as (m' & E & Hl & Hz).
  - lia.
  - vm_compute. reflexivity.
  - lia.
  - rewrite Eh. vm_compute. congruence.
  - rewrite Eh. cbn. lia.
  - rewrite Eh. cbn. lia.
  - rewrite Eh. cbn. lia.
  - rewrite Eh. vm_compute. congruence.
  - rewrite Eh. vm_compute. congruence.
  - rewrite Eh. vm_compute. congruence.
  - rewrite Eh. vm_compute. congruence.
  - rewrite Eh in *. exists m'. split; [exact E|]. split; [rewrite Hl by (cbn; lia); vm_compute; reflexivity|apply Hz; cbn; lia].
Defined.

(** Two processors, a bus and an I/O APIC, the table at 0x1000, the pointer at
    the start of the BIOS area. *)
Definition mp_table : list mp_entry :=
  [Proc 0 (replicate 18 0); Proc 1 (replicate 18 0); Other 1 (replicate 7 0); Ioapic 2 (replicate 6 0)].
Definition conf_bytes : list Z :=
  [80; 67; 77; 80] ++ bytes16 (44 + 56) ++ [4; 132] ++ replicate 28 0 ++ bytes32 0xFEE00000 ++ replicate 4 0 ++
  mjoin (entry_bytes <$> mp_table).
Definition pointer_bytes : list Z := [95; 77; 80; 95] ++ bytes32 0x1000 ++ [1; 4; 16; 0; 128; 0; 0; 0].
Definition firmware : memory := write_bytes (write_bytes (fun _ => 0) 0x1000 conf_bytes) 0xF0000 pointer_bytes.

Lemma mpinit_reads_table_witness :
  Mp.mpinit firmware 0x10 (Mp.mkFound [] 0) = Some (Mp.mkFound [0; 1] 2, Some 0xFEE00000, [(0x22, 0x70); (0x23, 0x11)]) /\
  read_bytes firmware 0xF0000 4 = Mp.MP_SIG.
Proof.
  destruct (mpinit_reads_table firmware 0xF0000 0x1000 mp_table (Mp.mkFound [] 0) 0x10) as [E (Hs & _)].
  - vm_compute. reflexivity.
  - repeat constructor; vm_compute; auto.
  - intros i b Hb. assert (Hi := lookup_lt_Some _ _ _ Hb). revert Hb.
    assert (Hall : Forall (fun i => mjoin (entry_bytes <$> mp_table) !! i = Some (firmware (0x1000 + Mp.sizeof_mpconf + Z.of_nat i)))
      (seq 0 56)) by (apply (bool_decide_unpack _); vm_compute; exact I).
    intros Hb. assert (Hin : i ∈ seq 0 56) by (apply elem_of_seq; change (length _) with 56%nat in Hi; lia).
    pose proof (proj1 (Forall_forall _ _) Hall i Hin) as E. cbv beta in E. rewrite Hb in E. by injection E as ->.
  - vm_compute. reflexivity.
  - vm_compute. congruence.
  - split; [rewrite E; vm_compute; reflexivity|exact Hs].
Defined.

(** * Starting the kernel *)

(** 128 free pages, a four-byte first program, nothing initialised. *)
Definition fresh_machine : kstate :=
  boot <| ptable := replicate NPROC zero_proc |> <| nextpid := 1 |> <| kmem := mkKmem 0 0 |> <| initproc := None |> <| rr_next := 0 |>
       <| syms := mkSymbols (P2V PHYSTOP - 128 * PGSIZE) (pa 0x1000) (pa 0x2000) [15; 5; 235; 254] (fun _ => 0) |>.

Lemma fresh_power_on : power_on fresh_machine.
Proof.
  split; [done..|split; [split|]; by vm_compute|done| |].
  - intros lk Hlk. repeat (apply elem_of_cons in Hlk as [->|Hlk]; [vm_compute; reflexivity|]). by apply elem_of_nil in Hlk.
  - vm_compute. intuition congruence.
Qed.

#[local] Existing Instance Ide.driver.

Definition small_image : linked := mkLinked (replicate 256 (pa 0x3000)) [144; 144] 0x1000 (pa 0x4000) (pa 0x5000).

