(* ===== verification/InstancesDev.v ===== *)
(** A machine that satisfies the laws of the device classes, and the device
    theorems applied to it.

    The machine has a serial port, a video controller, a clock and an I/O APIC
    of 24 pins.  Its clock does not tick. *)

From S2P Require Import Prelude Control Memory KState Format Trap Device Apic Screen.

Record pc := mkPc {
  pc_ram : memory;
  pc_select : Z;
  pc_cursor : Z;
  pc_latch : bool;
  pc_divisor : Z;
  pc_sent : list Z;
  pc_cmos : Z;
  pc_clock : Z -> Z;
  pc_ioselect : Z;
  pc_ioregs : Z -> Z
}.
#[export] Instance pc_eta : Eta pc := fun s => mkPc (pc_ram s) (pc_select s) (pc_cursor s) (pc_latch s) (pc_divisor s)
  (pc_sent s) (pc_cmos s) (pc_clock s) (pc_ioselect s) (pc_ioregs s).

Definition pc_in (p : Z) (s : pc) : Z :=
  if p =? CRTPORT + 1 then
    if pc_select s =? 14 then pc_cursor s mod 65536 / 256 else if pc_select s =? 15 then pc_cursor s mod 65536 mod 256 else 0
  else if p =? COM1 + 5 then 0x20
  else if p =? Lapic.CMOS_RETURN then pc_clock s (pc_cmos s)
  else 0.
Definition pc_out (p v : Z) (s : pc) : pc :=
  if p =? CRTPORT then s <| pc_select := v |>
  else if p =? CRTPORT + 1 then
    s <| pc_cursor ::= fun c =>
      if pc_select s =? 14 then v * 256 + c mod 65536 mod 256
      else if pc_select s =? 15 then c mod 65536 / 256 * 256 + v else c |>
  else if p =? COM1 then
    if pc_latch s then s <| pc_divisor ::= fun d => d / 256 * 256 + v |> else s <| pc_sent ::= fun l => l ++ [v] |>
  else if p =? COM1 + 1 then if pc_latch s then s <| pc_divisor ::= fun d => v * 256 + d mod 256 |> else s
  else if p =? COM1 + 3 then s <| pc_latch := Z.testbit v 7 |>
  else if p =? Lapic.CMOS_PORT then s <| pc_cmos := v |>
  else s.
Definition pc_reg_in (a : Z) (s : pc) : Z := if a =? Ioapic.IODATA then pc_ioregs s (pc_ioselect s) else 0.
Definition pc_reg_out (a v : Z) (s : pc) : pc :=
  if a =? Ioapic.IOAPIC then s <| pc_ioselect := v |>
  else if a =? Ioapic.IODATA then s <| pc_ioregs ::= fun f r => if r =? pc_ioselect s then v else f r |>
  else s.

#[export] Instance pc_machine : Machine pc := {|
  port_in p s := (pc_in p s, s);
  port_out := pc_out;
  reg_in a s := (pc_reg_in a s, s);
  reg_out := pc_reg_out;
  ram := pc_ram;
  set_ram f s := s <| pc_ram ::= f |>
|}.

Ltac pc_cases :=
  cbn; unfold pc_out; repeat (case_match; try (cbn; done)); rewrite ?Z.eqb_eq, ?Z.eqb_neq in *; cbn in *; try done;
  unfold COM1, CRTPORT, Lapic.CMOS_PORT in *; try lia.

#[export] Instance pc_rams : Ram pc.
Proof. split; intros; try done. pc_cases. Qed.
#[export] Instance pc_serial : Serial pc.
Proof. refine {| sent := pc_sent; latch := pc_latch; divisor := pc_divisor |}; intros; pc_cases. Defined.
#[export] Instance pc_crt : Crt pc.
Proof. refine {| selected := pc_select; cursor s := pc_cursor s mod 65536 |}; intros; pc_cases.
  split_and!; try done; intros E; unfold pc_in; cbn; by rewrite E.
Defined.
#[export] Instance pc_ioapic : IoapicDevice pc.
Proof.
  refine {| ioselected := pc_ioselect; ioregs := pc_ioregs |}; try done.
Defined.
#[export] Instance pc_rtc : Rtc pc.
Proof. refine {| rtc_selected := pc_cmos; rtc := pc_clock; quiet _ := 28%nat |}; try done; intros; cbn in *; (split; [lia|done]). Defined.

(** Blank video memory and the cursor at its start; a clock at
    23:59:58 on 9 March 2025, in BCD; no pin enabled. *)
Definition some_pc : pc :=
  mkPc (fun _ => 0) 0 0 false 12 []
    0 (fun r => if r =? 0 then 0x58 else if r =? 2 then 0x59 else if r =? 4 then 0x23 else if r =? 7 then 0x09
       else if r =? 8 then 0x03 else if r =? 9 then 0x25 else if r =? 11 then 0x02 else 0)
    0 (fun r => if r =? 1 then 0x00170011 else 0).
Definition some_drivers : drivers pc := mkDrivers some_pc true false 0xFEE00000.

Lemma consputc_shows_witness :
  exists d', for_each (bytes_of "ab" ++ [Console.BACKSPACE] ++ bytes_of "c" ++ [10] ++ bytes_of "d") Screen.consputc some_drivers [] = Ok tt d' [] /\
    shows (bytes_of "ac" ++ replicate 78 32 ++ bytes_of "d") (hw d') /\
    sent (hw d') = bytes_of "ab" ++ [8; 32; 8] ++ bytes_of "c" ++ [10] ++ bytes_of "d".
Proof.
  destruct (consputc_shows some_drivers [] (bytes_of "ab" ++ [Console.BACKSPACE] ++ bytes_of "c" ++ [10] ++ bytes_of "d")) as (d' & E & Hs & _ & Hsent).
  - reflexivity.
  - reflexivity.
  - split; [cbn; lia|reflexivity|]. intros i _ _. reflexivity.
  - exists d'. split; [exact E|]. split; [exact Hs|exact Hsent].
Defined.


Lemma ioapic_routes_witness :
  exists d', (Ioapic.ioapicinit 0 ;; for_each [(IRQ_KBD, 0); (IRQ_IDE, 1); (IRQ_KBD, 1)] (fun c => Ioapic.ioapicenable c.1 c.2)) some_drivers [] = Ok tt d' [] /\
    ioregs (hw d') 0x12 = 33 /\ ioregs (hw d') 0x13 = 0x1000000 /\ ioregs (hw d') 0x10 = 0x10020.
Proof.
  destruct (ioapic_routes some_drivers 0 [(IRQ_KBD, 0); (IRQ_IDE, 1); (IRQ_KBD, 1)]) as (d' & E & _ & H).
  - repeat constructor; vm_compute; congruence.
  - assert (Hp : pins (hw some_drivers) = 23) by reflexivity. destruct (H 1) as [H1 H2]; [lia|]. destruct (H 0) as [H3 _]; [lia|].
    exists d'. split_and!; [exact E|exact H1|exact H2|exact H3].
Defined.
