(* ===== verification/InstancesUser.v ===== *)
(** A small world that keeps the contract of the file calls, with reads of at
    most three bytes, and the theorems on cat and wc applied to it. *)

From S2P Require Import Prelude Control Memory KState Format Inode SysFile Posix Programs Utilities.
From S2P Require Import Spinlock Sched Safety SysProc SchedTools.

(** The open descriptors, and what descriptor 1 was written. *)
Record box := mkBox { inputs : gmap Z (list Z); printed : list Z }.
#[export] Instance box_eta : Eta box := fun b => mkBox (inputs b) (printed b).

Section Box.
Context (store : list Z -> option (list Z)).

Definition box_read (fd n : Z) (b : box) : Z * list Z * box :=
  match inputs b !! fd with
  | None => (-1, [], b)
  | Some t => let l := take (Z.to_nat (Z.min n 3)) t in (Z.of_nat (length l), l, b <| inputs := <[fd := drop (Z.to_nat (Z.min n 3)) t]> (inputs b) |>)
  end.
Definition box_write (fd : Z) (l : list Z) (b : box) : Z * box :=
  if fd =? 1 then (Z.of_nat (length l), b <| printed ::= fun t => t ++ l |>) else (-1, b).
Definition box_open (p : list Z) (mode : Z) (b : box) : Z * box :=
  match store p with
  | Some t =>
      let fd := Z.of_nat (fresh ({[0%nat; 1%nat; 2%nat]} ∪ set_map Z.to_nat (dom (inputs b)) : gset nat)) in
      (fd, b <| inputs := <[fd := t]> (inputs b) |>)
  | None => (-1, b)
  end.
Definition box_close (fd : Z) (b : box) : Z * box := (0, b <| inputs := delete fd (inputs b) |>).

#[export] Instance box_os : Os box := {|
  os_read := box_read; os_write := box_write; os_open := box_open; os_close := box_close;
  os_fstat _ b := (None, b);
  os_call _ b := (-1, b)
|}.

Lemma box_open_law p b r b' : box_open p O_RDONLY b = (r, b') ->
  match store p with
  | None => r < 0 /\ b' = b
  | Some t => 3 <= r /\ inputs b !! r = None /\ b' = b <| inputs := <[r := t]> (inputs b) |>
  end.
Proof.
  unfold box_open. destruct (store p) as [t|]; [|by intros [= <- <-]]. set (X := {[0%nat; 1%nat; 2%nat]} ∪ _).
  pose proof (is_fresh X) as Hf. intros [= <- <-]. unfold X in Hf at 2. split_and!; [| |done].
  - assert (fresh X <> 0%nat /\ fresh X <> 1%nat /\ fresh X <> 2%nat) by (split_and!; intros E; apply Hf; rewrite E; set_solver). lia.
  - apply not_elem_of_dom. intros Hin. apply Hf. apply elem_of_union_r, elem_of_map. exists (Z.of_nat (fresh X)). split; [lia|done].
Qed.

#[export] Instance box_files : Files box.
Proof.
  refine {| input b fd := inputs b !! fd; sink b fd := if fd =? 1 then Some (printed b) else None; file _ := store; full _ := false |}.
  - intros fd n b Hn r l b'. cbn. unfold box_read. destruct (inputs b !! fd) as [t|] eqn:E.
    + intros [= <- <- <-]. cbn. split_and!; try done.
      { intros fd' Hne. by rewrite lookup_insert_ne. }
      rewrite lookup_insert_eq. destruct t as [|x t]; [by rewrite take_nil, drop_nil|]. rewrite length_take. cbn [length].
      split; [lia|]. split; [lia|]. eexists. split; [by rewrite take_drop|done].
    + intros [= <- <- <-]. split_and!; try done.
  - intros fd l b r b'. cbn. unfold box_write. destruct (Z.eqb_spec fd 1) as [->|Hne]; intros [= <- <-]; split_and!; try done.
    cbn. intros fd' Hne'. by rewrite (proj2 (Z.eqb_neq _ _) Hne').
  - intros p b r b' E. apply box_open_law in E. destruct (store p) as [t|]; [|by destruct E as [? ->]]. intros _.
    destruct E as (Hr & Hn & ->). cbn. split_and!; try done; [lia| | |].
    + by rewrite (proj2 (Z.eqb_neq r 1)) by lia.
    + by rewrite lookup_insert_eq.
    + intros fd' Hne. by rewrite lookup_insert_ne.
  - intros fd b r b'. cbn. unfold box_close. intros [= <- <-] _ _. cbn. split_and!; try done.
    + intros fd' Hne. by rewrite lookup_delete_ne.
    + by rewrite lookup_delete_eq.
Defined.
End Box.

Definition some_files (p : list Z) : option (list Z) :=
  if decide (p = bytes_of "a") then Some (bytes_of "two words" ++ [10]) else if decide (p = bytes_of "b") then Some (bytes_of "x") else None.
Definition some_box : box := mkBox {[0 := []]} [].

Lemma some_files_short a content : some_files a = Some content -> (length content < 20)%nat.
Proof. unfold some_files. repeat case_decide; intros [= <-]; cbn; lia. Qed.

Lemma cat_copies_witness :
  exists w', @Cat.main _ (box_os some_files) 20 [bytes_of "cat"; bytes_of "a"; bytes_of "b"; bytes_of "c"; bytes_of "a"] some_box [] = NoReturn w' /\
    printed w' = bytes_of "two words" ++ [10] ++ bytes_of "xcat: cannot open c" ++ [10].
Proof.
  destruct (@cat_copies _ (box_os some_files) (box_files some_files) 20 (bytes_of "cat")
    [bytes_of "a"; bytes_of "b"; bytes_of "c"; bytes_of "a"] [] [] some_box) as (w' & E & Hout).
  - reflexivity.
  - reflexivity.
  - reflexivity.
  - cbn. lia.
  - exact some_files_short.
  - exists w'. split; [exact E|]. injection Hout as ->. vm_compute. reflexivity.
Defined.

Lemma wc_counts_witness :
  exists w', @Wc.main _ (box_os some_files) 20 [bytes_of "wc"; bytes_of "a"; bytes_of "b"] some_box [] = NoReturn w' /\
    printed w' = bytes_of "1 2 10 a" ++ [10] ++ bytes_of "0 1 1 b" ++ [10].
Proof.
  destruct (@wc_counts _ (box_os some_files) (box_files some_files) 20 (bytes_of "wc") [bytes_of "a"; bytes_of "b"] [] [] some_box) as (w' & E & Hout).
  - reflexivity.
  - reflexivity.
  - reflexivity.
  - cbn. lia.
  - exact some_files_short.
  - exists w'. split; [exact E|]. injection Hout as ->. vm_compute. reflexivity.
Defined.

(** * The scheduler's calls *)

(** A process on a machine with the scheduler's parameters, its output and
    nothing else. *)
Record seat := mkSeat { me : Z; tuned : sched_params; told : list Z }.

#[local] Instance seat_os : Os seat := {|
  os_read _ _ b := (-1, [], b);
  os_write fd l b := if fd =? 1 then (Z.of_nat (length l), mkSeat (me b) (tuned b) (told b ++ l)) else (-1, b);
  os_open _ _ b := (-1, b);
  os_close _ b := (-1, b);
  os_fstat _ b := (None, b);
  os_call _ b := (-1, b)
|}.
#[local] Instance seat_sched : SchedOs seat := {|
  os_register b := let '(r, sp) := register_step (me b) (tuned b) in (r, mkSeat (me b) sp (told b));
  os_setparam u b := let '(r, sp) := set_step (me b) u (tuned b) in (r, mkSeat (me b) sp (told b));
  os_getstats _ b := (0, [], b);
  os_uptime b := (0, b);
  os_getpid b := (me b, b)
|}.
#[local] Instance seat_files : Files seat.
Proof.
  refine {| input _ _ := None; sink b fd := if fd =? 1 then Some (told b) else None; file _ _ := None; full _ := false |}.
  - intros fd n b Hn r l b'. cbn. by intros [= <- <- <-].
  - intros fd l b r b'. cbn. destruct (Z.eqb_spec fd 1) as [->|Hne]; intros [= <- <-]; split_and!; try done.
    cbn. intros fd' Hne'. by rewrite (proj2 (Z.eqb_neq _ _) Hne').
  - intros p b r b'. cbn. by intros [= <- <-].
  - intros fd b r b'. cbn. done.
Defined.
#[local] Instance seat_calls : SchedCalls seat.
Proof.
  refine {| self := me; params := tuned |}.
  - intros fd l b r b'. cbn. by destruct (fd =? 1); intros [= <- <-].
  - intros b r b'. cbn. by destruct (register_step (me b) (tuned b)) as [r0 sp]; intros [= <- <-].
  - intros u b r b'. cbn. by destruct (set_step (me b) u (tuned b)) as [r0 sp]; intros [= <- <-].
Defined.

Definition fresh_seat (agent : Z) : seat := mkSeat 5 (mkParams 4 6 8 500 50 10 50 agent 0 0) [].


